(* ===== verification/_CoqProject ===== *)
-Q . S2P
Prelude.v
WrappingIntegers.v
ByteStream.v
StreamReassembler.v
Buffer.v
Parser.v
Checksum.v
Hexdump.v
Random.v
TCPSegment.v
IPv4.v
Ethernet.v
TCPReceiver.v
TCPSender.v
Transfer.v
Tracking.v
Recovery.v
TCPConnection.v
Agreement.v
Outgoing.v
Duplex.v
Completion.v
Handshake.v
TcpBenchmark.v
Texts.v
Address.v
Resolver.v
NetworkInterface.v
Router.v
NetworkSimulator.v
Adapters.v
FileDescriptor.v
Handles.v
AdapterSafety.v
Links.v
Socket.v
EventLoop.v
StreamCopy.v
SpongeSocket.v
SpongeSafety.v
SpongeRuns.v
EndToEnd.v
Bouncer.v
Options.v
UdpTcpdump.v
Programs.v
Mains.v
Doctests.v
Lab7.v
