(* ===== verification/Prelude.v ===== *)
(** * A verified model of the Sponge TCP/IP stack

    Sponge is a user-space TCP/IP stack: a TCP endpoint built from a byte
    stream, a reassembler, a receiver and a sender; the packet formats it puts
    on the wire; an Ethernet interface with ARP and a router; the adapters, file
    descriptors and event loop that connect an endpoint to a device; and the
    socket that runs an endpoint in a thread of its own.  This library models the
    C++ code of [libsponge/], the programs of [apps/] and the examples of [doctests/]
    as executable functions and proves what each part promises.

    ** How the code is represented

    - An unsigned integer of width [w] is a [Z] in [0, 2^w).  Arithmetic is the
      arithmetic of [Z] followed by the reduction of the type: [+!], [-!], [*!]
      for [size_t] and [uint64_t], [u8], [u16], [u32] elsewhere, [s32] for the
      signed reading of a 32-bit word.
    - A string or [Buffer] content is a list of bytes; [zlen], [ztake],
      [zdrop] and [znth] are its length, its parts and its elements with
      indices in [Z].
    - A class is a record with a field per data member; a method is a function
      from the record to the record.  A method that can throw returns
      [result]: [Ok] of the new state or [Err] of the exception.  [let*] is
      the bind of [result].
    - A queue is a list, oldest first, unless the file says otherwise; a
      [std::map] is a [gmap].
    - What the kernel does (the bytes of [read], the count of [writev], the
      answer of [poll], the randomness of the lossy adapter and of the initial
      sequence number) is an argument of the operation that uses it.  A list of
      numbers stands for the answers to the coming calls of a thread: a number
      bounds what a read or a write transfers, and a negative one refuses the
      call, which then throws ([refuses], [kernel_calls] in [FileDescriptor]).
      The theorems hold for all answers, except that [poll] reports honestly
      ([poll_honest]).  The C library's conversions and name resolution are
      arguments too.
    - Reading outside an object is [Err undefined_behaviour].
    - An output stream is its text with its base, fill and width ([Texts]), for the
      texts of headers, addresses, states and frames, [hexdump] and what the
      packet dumps show.  Messages for the user (usage, progress) are left out.
    - A program is a [result] with its exit code; an exception that leaves its
      [try] is the exit code of a failure.

    ** Files

    - [Prelude]: the representation above, [result], the hint database
      [sponge], the tactics [wz] and [nowrap], lemmas on lists with indices in
      [Z].
    - [WrappingIntegers]: [wrapping_integers.hh/.cc], [wrap] and [unwrap].
    - [ByteStream]: [byte_stream.hh/.cc].  Its module [Spec] is the contract: a
      bounded pipe that keeps every byte it accepted.
    - [StreamReassembler]: [stream_reassembler.hh/.cc].  [place] and
      [assemble] are the two loops of [push_substring].
    - [Buffer], [Parser], [Checksum], [Hexdump], [Random]: [util/buffer],
      [util/parser], and the [InternetChecksum], [hexdump] and
      [get_random_generator] of [util/util], with the generator it seeds.
    - [TCPSegment], [IPv4], [Ethernet]: the headers, segments, datagrams,
      frames and ARP messages of [tcp_helpers/].
    - [TCPReceiver], [TCPSender]: [tcp_receiver.hh/.cc], [tcp_sender.hh/.cc].
    - [Transfer]: a sender, a receiver and a network between them, as a step
      relation.  [Tracking] has what a sender does to the segments in flight, and
      [Recovery] the rounds in which a loss is repaired.
    - [TCPConnection]: [tcp_connection.hh/.cc], with [tcp_config.hh] and
      [tcp_state.hh/.cc].
    - [Agreement]: two connections that nobody resets and a network between them, as
      a step relation; each direction is a link of [Recovery].
    - [Outgoing]: what a connection puts on the wire.
    - [Duplex]: two connections and a network between them, as a step relation,
      resets included.
    - [Completion]: the rounds in which two connections repair every loss, bring both
      streams over and end.
    - [Handshake]: opening and closing a connection, exchange by exchange.
    - [TcpBenchmark]: [apps/tcp_benchmark.cc], two connections in one loop.
    - [Texts]: output streams and the texts of headers, addresses, states and frames.
    - [Address], [Resolver]: the storage, comparison and numeric form of
      [util/address.hh/.cc]; its construction from names and its text.
    - [NetworkInterface], [Router]: [network_interface.hh/.cc],
      [router.hh/.cc].
    - [NetworkSimulator]: [apps/network_simulator.cc], hosts on the links of a
      router.
    - [Adapters]: [fd_adapter], [tcp_over_ip], [tuntap_adapter] and
      [lossy_fd_adapter] of [tcp_helpers/].  The interface that the lossy
      adapter is a template over is the class [FdAdapter] with its laws
      [FdAdapterLaws]; the other adapters are its instances.
    - [AdapterSafety]: the class [FdAdapterSafe], what a socket asks of its
      adapter, with the instances for UDP, TUN, Ethernet and lossy adapters.
    - [Links]: the class [FdLink], what an adapter carries to the other end, with the
      same instances.
    - [FileDescriptor], [Handles], [Socket]: [util/file_descriptor.hh/.cc], one
      wrapper and the sharing of wrappers by handles; [util/socket.hh/.cc] and
      [util/tun.hh/.cc].
    - [EventLoop]: [util/eventloop.hh/.cc].  The closures of the rules are the
      class [RuleSet].  A client describes itself by a [view] (its invariant, what
      its interests and the kernel's reports mean, where it may throw), and
      [contract] is what the loop asks of the callbacks in terms of the view.
      [wait_calls] says which callbacks a call of the loop makes, and in which
      state: an exception is always traced to one of them.
    - [StreamCopy]: [apps/bidirectional_stream_copy.cc], a client of the event
      loop that satisfies its contract.
    - [SpongeSocket]: [tcp_sponge_socket.hh/.cc], the rules of a socket, its loop,
      [connect], [listen_and_accept], the thread and the destructor, for every
      adapter; the second client of the event loop.  [SpongeSafety] proves it,
      [SpongeRuns] has complete concrete runs over UDP.
    - [EndToEnd]: two hosts, each with the thread of a socket over an adapter, and a
      network between them, as a step relation; with complete exchanges over UDP and
      over Ethernet with ARP.
    - [Bouncer]: [apps/bouncer.cc], the third client of the event loop.
    - [Options]: [get_config] of [apps/tcp_udp.cc], [apps/tcp_ipv4.cc] and
      [apps/tcp_ip_ethernet.cc].
    - [UdpTcpdump]: [apps/udp_tcpdump.cc].
    - [Programs]: [apps/webget.cc] and [apps/tun.cc].
    - [Mains]: the main functions of [apps/tcp_native.cc], the three TCP programs
      and [webget]; the clock of [util/util].
    - [Doctests]: the examples of [doctests/].
    - [Lab7]: [apps/lab7.cc], a router between a socket and a UDP tunnel; its thread
      is the fourth client of the event loop.

    ** What the theorems show

    - Sequence numbers: [unwrap] returns the absolute number that wraps to its
      argument and is closest to the checkpoint, if the checkpoint is 2^31 below
      the top of the range, and recovers a wrapped number within 2^31 of it.
    - Byte stream: every run of operations without a write after the end agrees
      with the pipe, which refuses such a write; bytes come out in the order they
      went in.
    - Reassembler: one push refines the abstract reassembler (which bytes are
      stored is said byte by byte); for every history of pushes and reads the
      output is the prefix of the stream up to the first byte that no push brought
      while the window admitted it ([window_covers]).
    - Receiver: no segment whatsoever makes it throw or breaks its invariant;
      fed by one peer it delivers a prefix of the peer's stream, everything
      once the segments cover a stream that fits in the capacity, and the end of
      the stream when the FIN arrives in order or with the last byte.
    - Sender: the tracked segments are always consecutive pieces of the
      written stream, newest first ([consecutive]); [fill_window] terminates and
      sends as much as the window and the stream allow, in segments of at most
      1000 bytes; the effect of an acknowledgement and of the timer, on every
      branch.
    - Transfer: sender and receiver together, over a network that loses,
      duplicates, reorders and delays: the reader has at any moment a prefix
      of what was written; and from every state they can reach a bounded number of
      rounds, in which only the retransmitted segment and its acknowledgement get
      through, completes the transfer ([recovery]).
    - Connection: no operation throws; what is sent carries the current
      acknowledgement and window, and a segment that occupies sequence space is
      answered if nothing is queued yet; when a connection closes, and how it is
      reset by the peer, by the timer and by its destruction; a handshake, a
      simultaneous open and an orderly close lead through the states of the
      standard, for all configurations ([connection_life]).
    - Two connections: over a network that loses, duplicates, reorders and delays
      in both directions, whatever the two sides do, each has read a prefix of what
      the other wrote ([duplex_safe]); everything a connection sends is well formed
      and survives the wire; every round of the benchmark is safe.
    - Two connections that nobody resets: what a side takes for acknowledged has been
      assembled by the other ([connections_refine_links]); a connection that is over
      has delivered both streams ([clean_close_complete]); and from every state after
      the handshake, when the sides close one after the other, a bounded number of
      rounds brings both streams over and ends both connections
      ([connections_complete]).  The network of these theorems lets nothing
      overtake the first SYN, and delivers a FIN only after the data before it or,
      with data, while the end of the stream is inside the window; elsewhere the
      code goes wrong ([reordering_truncates], [unstamped_fin_acknowledges]).
    - Sockets: the thread of a socket, with any adapter that satisfies the
      interface, passes every byte on unchanged in both directions
      ([socket_faithful]) and ends only when everything is through
      ([socket_completes]); [connect] and [listen_and_accept] return with a running
      session.  The thread throws only in a round that it reaches, for a callback
      that it calls or its tick ([loop_throws], [round_throws]): the kernel refuses
      a call, or bytes wait for an owner who was shut out.
    - Two sockets: thread against thread, over any adapters that satisfy the
      interfaces and a network that loses, duplicates, reorders, delays and
      detectably damages datagrams, each owner is given a prefix of what the other
      owner wrote, and a round throws only for one of the reasons above
      ([end_to_end]).
    - Packet formats: parsing a serialised segment, datagram, frame or ARP
      message gives it back; parsing arbitrary bytes returns a result.  The texts
      of headers and addresses determine them ([texts_faithful],
      [address_text_roundtrip]).
    - Interface and router: the invariant of the address table and the queue,
      one request per five seconds, what an ARP message teaches, a whole
      resolution between two interfaces through the bytes of the frames;
      longest-prefix forwarding, and that [route] empties the queues, for routes
      without host bits and datagrams with sound headers.
    - Adapters: which datagrams give a segment; a segment written at one end
      is read at the other, over TUN and over Ethernet; the lossy adapter only
      loses.
    - Descriptors and event loop: [write] writes everything; handles share a
      wrapper until the last is gone, which closes the descriptor
      ([handles_own_descriptors]); for every client
      that keeps the contract [wait_next_event] does not throw, except for a
      descriptor that polls an error or in a callback that may, and drops a rule
      only for a reason; copying between two streams is safe, and complete when it
      returns.
    - Programs: the simulator's check of a host is exact and a link carries each
      frame once; the bouncer relays every datagram to the right address and
      nothing else; the options of the programs are understood exactly when they
      are options; the search for the payload of a captured packet is exact and its
      reads are bounded; a dump can be read back; a page is fetched completely; the
      native program starts exactly when it has what it needs and then copies
      everything or fails for a call that was refused ([native_program]), and a
      program over a socket passes the standard streams on unchanged, the input as
      far as the connection takes it ([program_faithful]); the router of the tunnel
      passes every frame on once and in order, and a segment goes from socket to
      socket.
    - Other theorems of the files record where the code deviates from its
      documentation or intent, each with a concrete execution:
      [write_after_end], [unwrap_top_of_range], [push_capacity_zero],
      [receiver_premature_end], [sender_fin_overruns_window],
      [window_truncated], [listen_answers_stray_data], [rst_in_listen],
      [rst_in_syn_sent], [rst_seqno_zero], [bounce_throws],
      [passive_close_lingers], [IPv4Datagram_accepts_bad_header],
      [TCPSegment_accepts_short_doff], [EthernetFrame_accepts_short],
      [as_string_table], [interface_any_type_is_arp], [router_host_bits],
      [router_throws], [eventloop_ignores_poll_errors],
      [socket_destroy_no_rst], [socket_reset_throws], [mit_unreachable],
      [tcpdump_truncated], [tcpdump_bad_checksum],
      [tcpdump_ignores_file_option], [server_ignores_host],
      [default_window_differs], [lab7_empty_datagram_deafens],
      [double_close_hits_another], [timestamp_since_first_call],
      [summary_mixes_bases], [reordering_truncates],
      [unstamped_fin_acknowledges], [queued_segment_hides_ack].

    ** Loops and fuel

    - [fold_carries] (checksum) gets 2: [fold_carries_enough] shows that the
      loop condition is false after two rounds of a 32-bit sum.
    - [fill_loop] (sender) gets [fill_fuel], the room left in the window;
      [fill_loop_spec] shows that its condition is then false, and
      [fill_loop_more] that more fuel changes nothing.
    - [drain] (router) gets the length of the queue it drains, which
      [router_routes_all] shows to be enough.
    - The search of a route counts the prefix length down from 32, as the
      source does.
    - [fd_write] recurses along the list of the kernel's answers, and
      [fd_write_complete] shows that as many answers as bytes are enough;
      [copy_loop] and the [tcp_loop] of a socket recurse along the rounds, that is,
      the answers of [poll] and the clock.
    - [write_input] and [bench_while] (benchmark) get fuel; [benchmark_safe] holds
      for every amount of it.
    - [recovery_rounds] and [round_trips] count rounds; [recovery] and
      [connections_complete] say how many are enough.
    - [digits] (texts) gets 20; [number_value] shows it enough for a 32-bit number,
      the widest that is printed.
    - [rounds] (simulator) counts the 256 rounds of the source.
    - [skip_extensions] (packet dump) gets the length of the packet, which
      [process_bounds] shows to be enough; [open_ports] (bouncer) gets the number of
      ports, and [bouncer_ports] shows that the loop ends by its condition.
    - The loops of the reassembler, the retransmission scan and the queues
      recurse on the list they walk.

    ** Assumptions that the statements make

    Counters of 64 bits (stream indices, times) are assumed not to reach their
    top where a theorem is about them: the conditions are written out in the
    statements ([tc_op_ok] for a connection, and the like).  The capacity
    of a reassembler is positive where the index of the last byte of its window
    is used; [push_capacity_zero] is about the other case.

    ** Not modelled

    Signals, the classes of the exceptions (a throw is a [failure]) and the
    messages for the user, because nothing in the programs depends on them;
    libpcap; the kernel, the C library's conversions and the resolver, which are
    arguments.  The thread of a socket and its owner share two byte streams and a
    flag, and are modelled one at a time: what the owner writes is there from the
    beginning, and the kernel decides when the thread sees it.  The programs over a
    socket are modelled up to the open session, and by [program_faithful] from
    there; their copying is not composed with two hosts of [EndToEnd].  Progress is
    proved of connections ([connections_complete]) and not of the threads of
    sockets, whose progress rests on the kernel's scheduling.  When both sides close
    at once, progress is not proved: an answer may be a FIN without data that
    overtakes lost data, and then the code truncates the stream. *)
From stdpp Require Export base list gmap strings.
From Stdlib Require Export ZArith Lia Strings.Byte.
Open Scope Z_scope.

(** ** Machine integers

    A C++ unsigned integer of width [w] is a [Z] in [0, 2^w); the arithmetic
    operators of the source are the operators of [Z] followed by the
    reduction that the type performs. *)

Abbreviation W8 := 256 (only parsing).
Abbreviation W16 := 65536 (only parsing).
Abbreviation W31 := 2147483648 (only parsing).
Abbreviation W32 := 4294967296 (only parsing).
Abbreviation W64 := 18446744073709551616 (only parsing).

Definition u8 (z : Z) : Z := z mod W8.
Definition u16 (z : Z) : Z := z mod W16.
Definition u32 (z : Z) : Z := z mod W32.
Definition u64 (z : Z) : Z := z mod W64.

(** The conversion of a [uint32_t] to [int32_t]. *)
Definition s32 (z : Z) : Z := if u32 z <? W31 then u32 z else u32 z - W32.


(** [size_t] and [uint64_t] arithmetic, in a scope of its own. *)
Declare Scope sponge_scope.
Delimit Scope sponge_scope with sponge.
Notation "x +! y" := (u64 (x + y)%Z) (at level 50, left associativity) : sponge_scope.
Notation "x -! y" := (u64 (x - y)%Z) (at level 50, left associativity) : sponge_scope.
Notation "x *! y" := (u64 (x * y)%Z) (at level 40, left associativity) : sponge_scope.
Open Scope sponge_scope.

Lemma u8_range z : 0 <= u8 z < W8.
Proof. apply Z.mod_pos_bound; lia. Qed.
Lemma u16_range z : 0 <= u16 z < W16.
Proof. apply Z.mod_pos_bound; lia. Qed.
Lemma u32_range z : 0 <= u32 z < W32.
Proof. apply Z.mod_pos_bound; lia. Qed.
Lemma u64_range z : 0 <= u64 z < W64.
Proof. apply Z.mod_pos_bound; lia. Qed.

Lemma u8_id z : 0 <= z < W8 -> u8 z = z.
Proof. apply Z.mod_small. Qed.
Lemma u16_id z : 0 <= z < W16 -> u16 z = z.
Proof. apply Z.mod_small. Qed.
Lemma u32_id z : 0 <= z < W32 -> u32 z = z.
Proof. apply Z.mod_small. Qed.
Lemma u64_id z : 0 <= z < W64 -> u64 z = z.
Proof. apply Z.mod_small. Qed.

(** [wz] proves linear facts in which the reductions still occur. *)
Ltac wz :=
  unfold u8, u16, u32, u64, s32 in *; Z.to_euclidean_division_equations; lia.

(** [nowrap] removes the reductions whose argument is in range. *)
Ltac nowrap := repeat match goal with
  | |- context [u64 ?x] => rewrite (u64_id x) by lia
  | |- context [u32 ?x] => rewrite (u32_id x) by lia
  | |- context [u16 ?x] => rewrite (u16_id x) by lia
  | |- context [u8 ?x] => rewrite (u8_id x) by lia
  end.
Ltac nowrap_in H := repeat match type of H with
  | context [u64 ?x] => rewrite (u64_id x) in H by lia
  | context [u32 ?x] => rewrite (u32_id x) in H by lia
  | context [u16 ?x] => rewrite (u16_id x) in H by lia
  | context [u8 ?x] => rewrite (u8_id x) in H by lia
  end.

(** [zb] turns the boolean integer tests of the hypotheses and the goal into
    propositions. *)
Ltac zb :=
  repeat match goal with
  | H : (_ <? _) = true |- _ => apply Z.ltb_lt in H
  | H : (_ <? _) = false |- _ => apply Z.ltb_ge in H
  | H : (_ <=? _) = true |- _ => apply Z.leb_le in H
  | H : (_ <=? _) = false |- _ => apply Z.leb_gt in H
  | H : (_ =? _) = true |- _ => apply Z.eqb_eq in H
  | H : (_ =? _) = false |- _ => apply Z.eqb_neq in H
  | H : (_ && _)%bool = true |- _ => apply andb_true_iff in H as [? ?]
  | H : (_ || _)%bool = false |- _ => apply orb_false_iff in H as [? ?]
  | H : negb _ = true |- _ => apply negb_true_iff in H
  | H : negb _ = false |- _ => apply negb_false_iff in H
  end.

(** [zcase] splits on the first integer test of the goal. *)
Ltac zcase :=
  match goal with
  | |- context [?a <? ?b] => destruct (Z.ltb_spec a b)
  | |- context [?a <=? ?b] => destruct (Z.leb_spec a b)
  | |- context [?a =? ?b] => destruct (Z.eqb_spec a b)
  end.

(** ** Failures

    What a C++ operation can end with instead of a value: one of the
    exceptions the code throws, or a use of the library outside its
    contract. *)
Inductive failure : Type :=
  | runtime_error
  | out_of_range
  | invalid_argument
  | undefined_behaviour.

Inductive result (A : Type) : Type :=
  | Ok (a : A)
  | Err (e : failure).
Arguments Ok {A} a.
Arguments Err {A} e.

Definition rbind {A B} (m : result A) (k : A -> result B) : result B :=
  match m with Ok a => k a | Err e => Err e end.

Notation "'let*' x ':=' m 'in' k" := (rbind m (fun x => k))
  (at level 10, x pattern, m at level 100, k at level 200).

Lemma rbind_ok {A B} (m : result A) (k : A -> result B) b :
  rbind m k = Ok b <-> exists a, m = Ok a /\ k a = Ok b.
Proof. destruct m; simpl; naive_solver. Qed.

(** ** Bytes and strings *)

Abbreviation byte := Byte.byte.
Abbreviation bytes := (list Byte.byte).

#[global] Instance byte_eq_dec : EqDecision byte := Byte.byte_eq_dec.

Definition b2z (b : byte) : Z := Z.of_N (Byte.to_N b).
Definition z2b (z : Z) : byte :=
  match Byte.of_N (Z.to_N (u8 z)) with Some b => b | None => x00 end.

Lemma b2z_range b : 0 <= b2z b < W8.
Proof. unfold b2z. pose proof (Byte.to_N_bounded b). lia. Qed.

Lemma b2z_z2b z : b2z (z2b z) = u8 z.
Proof.
  unfold b2z, z2b. pose proof (u8_range z).
  destruct (Byte.of_N (Z.to_N (u8 z))) eqn:E.
  - apply Byte.to_of_N in E. rewrite E. lia.
  - apply Byte.of_N_None_iff in E. lia.
Qed.

Lemma z2b_b2z b : z2b (b2z b) = b.
Proof.
  unfold z2b. rewrite u8_id by apply b2z_range.
  unfold b2z. by rewrite N2Z.id, Byte.of_to_N.
Qed.

Lemma b2z_inj a b : b2z a = b2z b -> a = b.
Proof. intros H. by rewrite <- (z2b_b2z a), H, z2b_b2z. Qed.

(** [zlen] is the [size()] of a string or a list. *)
Definition zlen {A} (l : list A) : Z := Z.of_nat (length l).
(** [ztake] and [zdrop] are the prefix of a given size and what follows it. *)
Definition ztake {A} (n : Z) (l : list A) : list A := take (Z.to_nat n) l.
Definition zdrop {A} (n : Z) (l : list A) : list A := drop (Z.to_nat n) l.
(** [znth l i] is the element at index [i], when there is one. *)
Definition znth {A} (l : list A) (i : Z) : option A :=
  if i <? 0 then None else l !! Z.to_nat i.
Arguments zlen : simpl never.
Arguments ztake : simpl never.
Arguments zdrop : simpl never.
Arguments znth : simpl never.
Arguments u8 : simpl never.
Arguments u16 : simpl never.
Arguments u32 : simpl never.
Arguments u64 : simpl never.

(** [std::string::substr]: throws when [pos] is past the end. *)
Definition substr (s : bytes) (pos len : Z) : result bytes :=
  if zlen s <? pos then Err out_of_range else Ok (ztake len (zdrop pos s)).

(** [std::string::resize]: cuts, or pads with null characters. *)
Definition resize (s : bytes) (n : Z) : bytes :=
  ztake n s ++ repeat x00 (Z.to_nat (n - zlen s)).

Section Zlists.
Context {A : Type}.
Implicit Types (l : list A) (i n m : Z).

Lemma zlen_nonneg l : 0 <= zlen l.
Proof. unfold zlen. lia. Qed.
Lemma zlen_nil : zlen (@nil A) = 0.
Proof. done. Qed.
Lemma zlen_cons (a : A) l : zlen (a :: l) = 1 + zlen l.
Proof. unfold zlen. simpl. lia. Qed.
Lemma zlen_app l1 l2 : zlen (l1 ++ l2) = zlen l1 + zlen l2.
Proof. unfold zlen. rewrite length_app. lia. Qed.
Lemma zlen_ztake n l : 0 <= n -> zlen (ztake n l) = Z.min n (zlen l).
Proof. intros. unfold zlen, ztake. rewrite length_take. lia. Qed.
Lemma zlen_zdrop n l : 0 <= n -> zlen (zdrop n l) = Z.max 0 (zlen l - n).
Proof. intros. unfold zlen, zdrop. rewrite length_drop. lia. Qed.
Lemma zlen_0 l : zlen l = 0 -> l = [].
Proof. destruct l; [done|]. rewrite zlen_cons. pose proof (zlen_nonneg l). lia. Qed.

Lemma ztake_0 l : ztake 0 l = [].
Proof. done. Qed.
Lemma zdrop_0 l : zdrop 0 l = l.
Proof. done. Qed.
Lemma ztake_all n l : zlen l <= n -> ztake n l = l.
Proof. intros. apply take_ge. unfold zlen in *. lia. Qed.
Lemma zdrop_all n l : zlen l <= n -> zdrop n l = [].
Proof. intros. apply drop_ge. unfold zlen in *. lia. Qed.
Lemma ztake_zdrop n l : ztake n l ++ zdrop n l = l.
Proof. apply take_drop. Qed.
Lemma zdrop_zdrop n m l : 0 <= n -> 0 <= m -> zdrop n (zdrop m l) = zdrop (m + n) l.
Proof. intros. unfold zdrop. rewrite drop_drop. f_equal. lia. Qed.
Lemma zdrop_app_le n l1 l2 : n <= zlen l1 -> zdrop n (l1 ++ l2) = zdrop n l1 ++ l2.
Proof. intros. unfold zdrop. apply drop_app_le. unfold zlen in *. lia. Qed.
Lemma ztake_app_le n l1 l2 : n <= zlen l1 -> ztake n (l1 ++ l2) = ztake n l1.
Proof. intros. unfold ztake. apply take_app_le. unfold zlen in *. lia. Qed.
Lemma ztake_app_ge n l1 l2 :
  zlen l1 <= n -> ztake n (l1 ++ l2) = l1 ++ ztake (n - zlen l1) l2.
Proof.
  intros. unfold ztake. rewrite take_app_ge by (unfold zlen in *; lia).
  do 2 f_equal. unfold zlen in *. lia.
Qed.
Lemma zdrop_app_ge n l1 l2 :
  zlen l1 <= n -> zdrop n (l1 ++ l2) = zdrop (n - zlen l1) l2.
Proof.
  intros. unfold zdrop. rewrite drop_app_ge by (unfold zlen in *; lia).
  f_equal. unfold zlen in *. lia.
Qed.
Lemma ztake_app_len l1 l2 : ztake (zlen l1) (l1 ++ l2) = l1.
Proof. rewrite ztake_app_le by lia. apply ztake_all. lia. Qed.
Lemma zdrop_app_len l1 l2 : zdrop (zlen l1) (l1 ++ l2) = l2.
Proof. rewrite zdrop_app_ge by lia. by rewrite Z.sub_diag. Qed.
(** Two adjacent pieces of a list make one. *)
Lemma ztake_split n m l :
  0 <= n -> 0 <= m -> ztake (n + m) l = ztake n l ++ ztake m (zdrop n l).
Proof.
  intros. unfold ztake, zdrop. rewrite Z2Nat.inj_add by lia.
  by rewrite take_take_drop.
Qed.

Lemma znth_range l i : is_Some (znth l i) <-> 0 <= i < zlen l.
Proof.
  unfold znth, zlen. zcase.
  - split; [by intros [] | lia].
  - rewrite lookup_lt_is_Some. lia.
Qed.
Lemma znth_Some l i a : znth l i = Some a -> 0 <= i < zlen l.
Proof. intros H. apply znth_range. eauto. Qed.
Lemma znth_None l i : znth l i = None <-> ~ 0 <= i < zlen l.
Proof. rewrite <- znth_range. destruct (znth l i); split; try done; by intros []. Qed.
Lemma znth_ztake l n i : 0 <= n -> znth (ztake n l) i = if i <? n then znth l i else None.
Proof.
  intros. unfold znth, ztake. do 2 zcase; try done.
  - apply lookup_take_lt. lia.
  - apply lookup_take_ge. lia.
Qed.
Lemma znth_zdrop l n i : 0 <= n -> 0 <= i -> znth (zdrop n l) i = znth l (n + i).
Proof.
  intros. unfold znth, zdrop. do 2 zcase; try lia; try done.
  rewrite lookup_drop. f_equal. lia.
Qed.
Lemma znth_app_l l1 l2 i : i < zlen l1 -> znth (l1 ++ l2) i = znth l1 i.
Proof. intros. unfold znth. zcase; [done|]. apply lookup_app_l. unfold zlen in *. lia. Qed.
Lemma znth_app_r l1 l2 i : zlen l1 <= i -> znth (l1 ++ l2) i = znth l2 (i - zlen l1).
Proof.
  intros. pose proof (zlen_nonneg l1). unfold znth. do 2 zcase; try lia.
  rewrite lookup_app_r by (unfold zlen in *; lia). f_equal. unfold zlen in *. lia.
Qed.
Lemma znth_ext l1 l2 :
  (forall i, 0 <= i -> znth l1 i = znth l2 i) -> l1 = l2.
Proof.
  intros H. apply list_eq. intros i. specialize (H (Z.of_nat i) ltac:(lia)).
  unfold znth in H. destruct (Z.ltb_spec (Z.of_nat i) 0); [lia|].
  by rewrite Nat2Z.id in H.
Qed.
End Zlists.

Lemma resize_pad s n :
  zlen s <= n -> resize s n = s ++ repeat x00 (Z.to_nat (n - zlen s)).
Proof. intros. unfold resize. by rewrite ztake_all. Qed.
Lemma zlen_repeat {A} (a : A) n : 0 <= n -> zlen (repeat a (Z.to_nat n)) = n.
Proof. intros. unfold zlen. rewrite repeat_length. lia. Qed.

(** Lemmas that preserve the invariants of the components. *)
Create HintDb sponge.

Create Rewrite HintDb zlist.
#[export] Hint Rewrite @zlen_nil @zlen_cons @zlen_app : zlist.
#[export] Hint Rewrite @zlen_ztake @zlen_zdrop using lia : zlist.

(** [zpos] records that the sizes in sight are not negative. *)
Ltac zpos :=
  repeat match goal with
  | |- context [zlen ?l] => lazymatch goal with
      | _ : 0 <= zlen l |- _ => fail | _ => pose proof (zlen_nonneg l) end
  | _ : context [zlen ?l] |- _ => lazymatch goal with
      | _ : 0 <= zlen l |- _ => fail | _ => pose proof (zlen_nonneg l) end
  end.

(** [zl] normalises the sizes of strings and tries [lia]. *)
Ltac zl := autorewrite with zlist in *; zpos; autorewrite with zlist in *; try lia.
