(* ===== verification/WrappingIntegers.v ===== *)
(** * Wrapping sequence numbers

    [libsponge/wrapping_integers.hh] and [.cc]: 32-bit sequence numbers
    relative to an initial sequence number, and the conversion to and from
    64-bit absolute sequence numbers. *)
From S2P Require Import Prelude.

(** A [WrappingInt32] is its [_raw_value]. *)
Record WrappingInt32 : Type := mkW32 { raw_value : Z }.

#[global] Instance WrappingInt32_eq_dec : EqDecision WrappingInt32.
Proof. solve_decision. Defined.

(** The type invariant: the raw value is a [uint32_t]. *)
Definition w32_ok (w : WrappingInt32) : Prop := 0 <= raw_value w < W32.

(** [operator-(WrappingInt32, WrappingInt32)]: an [int32_t]. *)
Definition w32_sub (a b : WrappingInt32) : Z := s32 (raw_value a - raw_value b).
(** [operator==]. *)
Definition w32_eqb (a b : WrappingInt32) : bool := raw_value a =? raw_value b.
(** [operator!=]. *)
Definition w32_neqb (a b : WrappingInt32) : bool := negb (w32_eqb a b).
(** [operator+(WrappingInt32, uint32_t)]. *)
Definition w32_add (a : WrappingInt32) (b : Z) : WrappingInt32 :=
  mkW32 (u32 (raw_value a + b)).
(** [operator-(WrappingInt32, uint32_t)]: adds the negated [uint32_t]. *)
Definition w32_sub_u32 (a : WrappingInt32) (b : Z) : WrappingInt32 :=
  w32_add a (u32 (- b)).

Definition two_32 : Z := u64 (Z.shiftl 2 31).

Definition wrap (n : Z) (isn : WrappingInt32) : WrappingInt32 :=
  mkW32 (u32 ((raw_value isn +! n) mod two_32)).

Definition unwrap (n isn : WrappingInt32) (checkpoint : Z) : Z :=
  let absolute_seqno_mod := raw_value n in
  let absolute_seqno_mod :=
    if raw_value n <? raw_value isn then absolute_seqno_mod +! two_32
    else absolute_seqno_mod in
  let absolute_seqno_mod := absolute_seqno_mod -! raw_value isn in
  let checkpoint_quotient := checkpoint / two_32 in
  let candidate := absolute_seqno_mod +! (checkpoint_quotient *! two_32) in
  if (1 <=? checkpoint_quotient) &&
     (checkpoint -! (candidate -! two_32) <? two_32 / 2)
  then candidate -! two_32
  else if (candidate +! two_32) -! checkpoint <? two_32 / 2
  then candidate +! two_32
  else candidate.

(** ** Arithmetic of [wrap] *)

Lemma two_32_val : two_32 = W32.
Proof. reflexivity. Qed.

Lemma wrap_raw n isn : raw_value (wrap n isn) = (raw_value isn + n) mod W32.
Proof. unfold wrap; simpl. rewrite two_32_val. wz. Qed.

Lemma wrap_ok n isn : w32_ok (wrap n isn).
Proof. red. rewrite wrap_raw. wz. Qed.

Lemma w32_ext a b : raw_value a = raw_value b -> a = b.
Proof. destruct a, b; simpl; congruence. Qed.

Lemma w32_eqb_eq a b : w32_eqb a b = true <-> a = b.
Proof.
  unfold w32_eqb. rewrite Z.eqb_eq. split; [apply w32_ext | congruence].
Qed.

(** The relative numbers of two absolute ones agree exactly when these are
    congruent. *)
Lemma wrap_eq_iff n m isn : wrap n isn = wrap m isn <-> n mod W32 = m mod W32.
Proof.
  split.
  - intros H. apply (f_equal raw_value) in H. rewrite !wrap_raw in H. wz.
  - intros H. apply w32_ext. rewrite !wrap_raw. wz.
Qed.

(** Less than one turn apart, [wrap] is injective. *)
Lemma wrap_inj_near n m isn : Z.abs (n - m) < W32 -> wrap n isn = wrap m isn -> n = m.
Proof. rewrite wrap_eq_iff. intros. wz. Qed.

Lemma wrap_0 isn : w32_ok isn -> wrap 0 isn = isn.
Proof. intros H. apply w32_ext. rewrite wrap_raw. red in H. wz. Qed.

Lemma w32_add_wrap n m isn : w32_add (wrap n isn) m = wrap (n + m) isn.
Proof.
  apply w32_ext. rewrite wrap_raw. unfold w32_add. cbn [raw_value].
  rewrite wrap_raw. wz.
Qed.

(** ** Arithmetic of [unwrap] *)

(** [unwrap] in plain integers: the candidate in the checkpoint's turn, or
    its neighbour a turn below or above. *)
Definition unwrap_offset (n isn : WrappingInt32) : Z :=
  (raw_value n - raw_value isn) mod W32.

Lemma unwrap_offset_wrap x isn : unwrap_offset (wrap x isn) isn = x mod W32.
Proof. unfold unwrap_offset. rewrite wrap_raw. wz. Qed.

Lemma unwrap_cases n isn cp :
  w32_ok n -> w32_ok isn -> 0 <= cp < W64 ->
  let c := unwrap_offset n isn + cp / W32 * W32 in
  0 <= c < W64 /\
  unwrap n isn cp =
    if (1 <=? cp / W32) && (cp - (c - W32) <? W31) then c - W32
    else if u64 (u64 (c + W32) - cp) <? W31 then u64 (c + W32)
    else c.
Proof.
  unfold w32_ok, unwrap, unwrap_offset. intros Hn Hi Hc.
  rewrite two_32_val. change (W32 / 2) with W31.
  set (m := (raw_value n - raw_value isn) mod W32).
  assert (Hm : 0 <= m < W32) by (apply Z.mod_pos_bound; lia).
  replace (_ -! raw_value isn) with m
    by (subst m; destruct (Z.ltb_spec (raw_value n) (raw_value isn)); wz).
  assert (Hq : 0 <= cp / W32 < W32) by wz.
  rewrite (u64_id (cp / W32 * W32)) by lia.
  rewrite (u64_id (m + _)) by lia.
  split; [lia|].
  destruct (Z.leb_spec 1 (cp / W32)); simpl; [|done].
  rewrite (u64_id (m + _ - _)) by lia.
  by rewrite (u64_id (cp - _)) by wz.
Qed.

(** The result is never far ahead of the checkpoint. *)
Lemma unwrap_bound n isn cp :
  w32_ok n -> w32_ok isn -> 0 <= cp < W64 - 2 * W32 ->
  0 <= unwrap n isn cp <= cp + 2 * W32.
Proof.
  intros Hn Hi Hc. destruct (unwrap_cases n isn cp Hn Hi ltac:(lia)) as [Hb E]. rewrite E.
  unfold unwrap_offset in *. set (m := (raw_value n - raw_value isn) mod W32) in *.
  assert (0 <= m < W32) by (apply Z.mod_pos_bound; lia).
  repeat case_match; zb; wz.
Qed.

(** [unwrap] always returns a 64-bit number that wraps to the number it
    was given, whatever the checkpoint. *)
Theorem unwrap_wraps_back n isn cp :
  w32_ok n -> w32_ok isn -> 0 <= cp < W64 ->
  0 <= unwrap n isn cp < W64 /\ wrap (unwrap n isn cp) isn = n.
Proof.
  intros Hn Hi Hc. destruct (unwrap_cases n isn cp Hn Hi Hc) as [Hb E].
  assert (Hm : unwrap n isn cp mod W32 = unwrap_offset n isn /\ 0 <= unwrap n isn cp < W64).
  { rewrite E. unfold unwrap_offset in *.
    set (m := (raw_value n - raw_value isn) mod W32) in *.
    assert (0 <= m < W32) by (apply Z.mod_pos_bound; lia).
    repeat case_match; zb; wz. }
  destruct Hm as [Hm ?]. split; [done|].
  apply w32_ext. rewrite wrap_raw. unfold w32_ok, unwrap_offset in *. wz.
Qed.

Lemma unwrap_wraps_back_witness :
  unwrap (mkW32 15) (mkW32 16) 0 = 4294967295 /\
  wrap (unwrap (mkW32 15) (mkW32 16) 0) (mkW32 16) = mkW32 15.
Proof.
  split; [reflexivity|].
  apply (unwrap_wraps_back (mkW32 15) (mkW32 16) 0); unfold w32_ok; simpl; lia.
Defined.

(** Among numbers congruent modulo a turn, one less than half a turn from the
    checkpoint is what [unwrap] returns. *)
Lemma unwrap_near x isn cp :
  w32_ok isn -> 0 <= x < W64 -> 0 <= cp < W64 -> Z.abs (x - cp) < W31 ->
  unwrap (wrap x isn) isn cp = x.
Proof.
  intros Hi Hx Hc Hd.
  destruct (unwrap_cases (wrap x isn) isn cp (wrap_ok x isn) Hi Hc) as [Hb E].
  rewrite E. rewrite unwrap_offset_wrap in *. clear E.
  repeat case_match; zb; wz.
Qed.

(** Round trip: an absolute sequence number less than half a turn from the
    checkpoint is recovered from its 32-bit form, for every initial sequence
    number and over the whole 64-bit range. *)
Theorem unwrap_wrap_roundtrip x isn cp :
  w32_ok isn -> 0 <= x < W64 -> 0 <= cp < W64 -> Z.abs (x - cp) < W31 ->
  unwrap (wrap x isn) isn cp = x.
Proof. apply unwrap_near. Qed.

Lemma unwrap_wrap_roundtrip_witness :
  unwrap (wrap 4294967296 (mkW32 4294967290)) (mkW32 4294967290) 2147483649 = 4294967296.
Proof. apply unwrap_wrap_roundtrip; unfold w32_ok; simpl; lia. Defined.

(** C26: [unwrap] inverts [wrap] near the checkpoint: its result is a 64-bit
    number that wraps to [n], and no other 64-bit number that wraps to [n] is
    nearer to the checkpoint, provided the checkpoint is at least half a turn
    below the end of the 64-bit range. *)
Theorem unwrap_closest n isn cp :
  w32_ok n -> w32_ok isn -> 0 <= cp < W64 - W31 ->
  0 <= unwrap n isn cp < W64 /\ wrap (unwrap n isn cp) isn = n /\
  (forall x, 0 <= x < W64 -> wrap x isn = n ->
     Z.abs (unwrap n isn cp - cp) <= Z.abs (x - cp)).
Proof.
  intros Hn Hi Hc. destruct (unwrap_wraps_back n isn cp Hn Hi ltac:(lia)) as [Hr Hw].
  split; [done|]. split; [done|]. clear Hr Hw. intros x Hx Hw.
  destruct (unwrap_cases n isn cp Hn Hi ltac:(lia)) as [Hb E].
  rewrite E, <- Hw in *. rewrite unwrap_offset_wrap in *. clear E Hw.
  repeat case_match; zb; wz.
Qed.

Lemma unwrap_closest_witness :
  unwrap (mkW32 1) (mkW32 0) 3000000000 = 4294967297 /\
  wrap (unwrap (mkW32 1) (mkW32 0) 3000000000) (mkW32 0) = mkW32 1 /\
  Z.abs (unwrap (mkW32 1) (mkW32 0) 3000000000 - 3000000000) <= Z.abs (1 - 3000000000).
Proof.
  split; [reflexivity|].
  destruct (unwrap_closest (mkW32 1) (mkW32 0) 3000000000) as (_ & H1 & H2);
    [unfold w32_ok; simpl; lia..|].
  split; [exact H1|]. apply H2; [lia|reflexivity].
Defined.

(** Within half a turn of the end of the 64-bit range the closest-candidate
    contract fails: with the checkpoint at [UINT64_MAX], [unwrap] returns 0
    although [2^64 - 2^32], which wraps to the same number, is nearer in the
    64-bit range. *)
Theorem unwrap_top_of_range :
  unwrap (mkW32 0) (mkW32 0) (W64 - 1) = 0 /\
  wrap (W64 - W32) (mkW32 0) = mkW32 0 /\
  Z.abs (W64 - W32 - (W64 - 1)) < Z.abs (0 - (W64 - 1)).
Proof. repeat split. Qed.

(** The offset operators are inverse to each other. *)
Lemma w32_sub_add a k :
  w32_ok a -> - W31 <= k < W31 -> w32_sub (w32_add a (u32 k)) a = k.
Proof.
  unfold w32_ok, w32_sub, w32_add; simpl. intros.
  unfold s32. case_match; zb; wz.
Qed.

(** The difference operator is the signed offset: adding it to the starting
    point gives the end point back, it lies in the [int32_t] range, and it is
    negative exactly when the decrements needed are no more than the
    increments. *)
Theorem w32_sub_spec a b :
  w32_ok a -> w32_ok b ->
  w32_add b (u32 (w32_sub a b)) = a /\
  - W31 <= w32_sub a b < W31 /\
  (w32_sub a b < 0 <->
   u32 (raw_value b - raw_value a) <= u32 (raw_value a - raw_value b) /\ a <> b).
Proof.
  intros Ha Hb. split; [|split].
  - apply w32_ext. unfold w32_ok, w32_add, w32_sub in *; simpl.
    unfold s32. case_match; zb; wz.
  - unfold w32_sub, s32. case_match; zb; wz.
  - assert (Hab : a <> b <-> raw_value a <> raw_value b).
    { split; [|congruence]. intros H E. apply H, w32_ext, E. }
    rewrite Hab. unfold w32_ok, w32_sub in *.
    unfold s32. case_match; zb; split; intros; wz.
Qed.

Lemma w32_sub_spec_witness :
  w32_sub (mkW32 0) (mkW32 4294967295) = 1 /\
  w32_add (mkW32 4294967295) (u32 (w32_sub (mkW32 0) (mkW32 4294967295))) = mkW32 0.
Proof. split; [reflexivity|]. apply w32_sub_spec; unfold w32_ok; simpl; lia. Defined.
