(* ===== verification/ByteStream.v ===== *)
(** * The in-order byte stream

    [libsponge/byte_stream.hh] and [.cc]: a bounded pipe that a writer fills
    and a reader empties.  The class is modelled field by field; its
    contract is the pipe of the section [Spec], which keeps the whole
    history of accepted bytes, and each operation is shown to refine the
    operation of the pipe. *)
From S2P Require Import Prelude.

Record ByteStream : Type := mkByteStream {
  bs_buffer : bytes;
  bs_capacity : Z;
  bs_is_ended : bool;
  bs_written_length : Z;
  bs_error : bool }.

(** The constructor. *)
Definition new_ByteStream (capacity : Z) : ByteStream :=
  mkByteStream [] capacity false 0 false.

Definition buffer_size (s : ByteStream) : Z := zlen (bs_buffer s).
Definition buffer_empty (s : ByteStream) : bool :=
  match bs_buffer s with [] => true | _ => false end.
Definition remaining_capacity (s : ByteStream) : Z := bs_capacity s -! buffer_size s.
Definition input_ended (s : ByteStream) : bool := bs_is_ended s.
Definition eof (s : ByteStream) : bool := input_ended s && buffer_empty s.
Definition bytes_written (s : ByteStream) : Z := bs_written_length s.
Definition bytes_read (s : ByteStream) : Z := bytes_written s -! buffer_size s.
Definition stream_error (s : ByteStream) : bool := bs_error s.

Definition set_error (s : ByteStream) : ByteStream :=
  mkByteStream (bs_buffer s) (bs_capacity s) (bs_is_ended s) (bs_written_length s) true.

Definition end_input (s : ByteStream) : ByteStream :=
  mkByteStream (bs_buffer s) (bs_capacity s) true (bs_written_length s) (bs_error s).

(** [write] returns the stream and how many bytes it accepted. *)
Definition write (s : ByteStream) (data : bytes) : ByteStream * Z :=
  let append_length :=
    if remaining_capacity s <=? zlen data then remaining_capacity s else zlen data in
  (mkByteStream (bs_buffer s ++ ztake append_length data) (bs_capacity s) (bs_is_ended s)
     (bs_written_length s +! append_length) (bs_error s),
   append_length).

Definition peek_output (s : ByteStream) (len : Z) : bytes :=
  if buffer_size s <? len then [] else ztake len (bs_buffer s).

Definition pop_output (s : ByteStream) (len : Z) : ByteStream :=
  if buffer_size s <? len then set_error s
  else mkByteStream (zdrop len (bs_buffer s)) (bs_capacity s) (bs_is_ended s)
         (bs_written_length s) (bs_error s).

Definition read (s : ByteStream) (len : Z) : ByteStream * bytes :=
  if buffer_size s <? len then (set_error s, [])
  else (pop_output s len, peek_output s len).

Arguments write : simpl never.
Arguments read : simpl never.
Arguments pop_output : simpl never.

(** ** Invariant *)

Definition bs_ok (s : ByteStream) : Prop :=
  0 <= bs_capacity s < W64 /\ buffer_size s <= bs_capacity s /\
  0 <= bs_written_length s < W64.

Lemma buffer_size_nonneg s : 0 <= buffer_size s.
Proof. apply zlen_nonneg. Qed.

Lemma new_ByteStream_ok c : 0 <= c < W64 -> bs_ok (new_ByteStream c).
Proof. unfold bs_ok, buffer_size; simpl. zl. Qed.

Lemma remaining_capacity_eq s :
  bs_ok s -> remaining_capacity s = bs_capacity s - buffer_size s.
Proof.
  unfold bs_ok, remaining_capacity, buffer_size. intros. apply u64_id. zl.
Qed.

Lemma buffer_empty_true s : buffer_empty s = true <-> buffer_size s = 0.
Proof.
  unfold buffer_empty, buffer_size. destruct (bs_buffer s); [by rewrite zlen_nil|].
  split; [done|]. intros. zl.
Qed.
Lemma buffer_empty_false s : buffer_empty s = false <-> 0 < buffer_size s.
Proof.
  pose proof (zlen_nonneg (bs_buffer s)) as H. fold (buffer_size s) in H.
  destruct (buffer_empty s) eqn:E.
  - apply buffer_empty_true in E. split; [done|lia].
  - split; [|done]. destruct (Z.eq_dec (buffer_size s) 0) as [Z|Z]; [|lia].
    apply buffer_empty_true in Z. congruence.
Qed.

(** What [write] accepts: all of it, or as much as fits. *)
Definition accepted (s : ByteStream) (data : bytes) : bytes :=
  ztake (bs_capacity s - buffer_size s) data.

Lemma write_eq s data :
  bs_ok s ->
  write s data =
    (mkByteStream (bs_buffer s ++ accepted s data) (bs_capacity s) (bs_is_ended s)
       (bs_written_length s +! zlen (accepted s data)) (bs_error s),
     zlen (accepted s data)).
Proof.
  intros H. unfold write. rewrite remaining_capacity_eq by done.
  unfold accepted, bs_ok, buffer_size in *.
  zcase.
  - replace (zlen (ztake _ data)) with (bs_capacity s - zlen (bs_buffer s)) by zl. done.
  - rewrite (ztake_all (bs_capacity s - _)), ztake_all by lia. done.
Qed.

Lemma write_fits s data :
  bs_ok s -> buffer_size s + zlen data <= bs_capacity s -> accepted s data = data.
Proof. intros. apply ztake_all. lia. Qed.

Lemma write_ok s data : bs_ok s -> bs_ok (write s data).1.
Proof.
  intros H. rewrite write_eq by done. unfold bs_ok, accepted, buffer_size in *; simpl.
  pose proof (u64_range (bs_written_length s + zlen (ztake (bs_capacity s - zlen (bs_buffer s)) data))).
  zl.
Qed.

Lemma set_error_ok s : bs_ok s -> bs_ok (set_error s).
Proof. done. Qed.
Lemma end_input_ok s : bs_ok s -> bs_ok (end_input s).
Proof. done. Qed.

Lemma pop_output_ok s n : 0 <= n -> bs_ok s -> bs_ok (pop_output s n).
Proof.
  intros Hn H. unfold pop_output. zcase; [done|].
  unfold bs_ok, buffer_size in *; simpl. zl.
Qed.

Lemma read_ok s n : 0 <= n -> bs_ok s -> bs_ok (read s n).1.
Proof. intros. unfold read. case_match; simpl; [done|by apply pop_output_ok]. Qed.

#[export] Hint Resolve write_ok set_error_ok end_input_ok pop_output_ok read_ok
  new_ByteStream_ok : core.

(** ** The operations as one transition function *)

Inductive bs_op : Type :=
  | OWrite (data : bytes)
  | OEnd
  | OPop (len : Z)
  | ORead (len : Z)
  | OSetError.

(** What the caller sees. *)
Inductive bs_out : Type :=
  | Wrote (n : Z)
  | Got (data : bytes)
  | Nothing.

Definition bs_step (s : ByteStream) (o : bs_op) : ByteStream * bs_out :=
  match o with
  | OWrite d => ((write s d).1, Wrote (write s d).2)
  | OEnd => (end_input s, Nothing)
  | OPop n => (pop_output s n, Nothing)
  | ORead n => ((read s n).1, Got (read s n).2)
  | OSetError => (set_error s, Nothing)
  end.

Fixpoint bs_run (s : ByteStream) (os : list bs_op) : ByteStream * list bs_out :=
  match os with
  | [] => (s, [])
  | o :: os => let '(s1, r) := bs_step s o in
               let '(s2, rs) := bs_run s1 os in (s2, r :: rs)
  end.

(** Lengths are [size_t] values. *)
Definition bs_op_ok (o : bs_op) : Prop :=
  match o with OPop n | ORead n => 0 <= n | _ => True end.

Lemma bs_step_ok s o : bs_op_ok o -> bs_ok s -> bs_ok (bs_step s o).1.
Proof.
  intros Ho Hs. destruct o; cbn in *; auto.
Qed.

Lemma bs_step_cap s o : bs_capacity (bs_step s o).1 = bs_capacity s.
Proof. destruct o; unfold bs_step, read, write, pop_output; repeat case_match; done. Qed.

Lemma bs_step_error s o : bs_error s = true -> bs_error (bs_step s o).1 = true.
Proof. intros. destruct o; unfold bs_step, read, write, pop_output; repeat case_match; done. Qed.

(** ** The abstract pipe *)
Module Spec.

(** The bytes ever accepted, how many of them the reader has taken.  After
    the end no more bytes are accepted. *)
Record pipe : Type := mkPipe {
  hist : bytes;
  popped : Z;
  cap : Z;
  ended : bool;
  failed : bool }.

Definition empty (c : Z) : pipe := mkPipe [] 0 c false false.

Definition avail (p : pipe) : bytes := zdrop (popped p) (hist p).

Definition fail (p : pipe) : pipe := mkPipe (hist p) (popped p) (cap p) (ended p) true.

Definition step (p : pipe) (o : bs_op) : pipe * bs_out :=
  match o with
  | OWrite d =>
      let d' := if ended p then [] else ztake (cap p - zlen (avail p)) d in
      (mkPipe (hist p ++ d') (popped p) (cap p) (ended p) (failed p), Wrote (zlen d'))
  | OEnd => (mkPipe (hist p) (popped p) (cap p) true (failed p), Nothing)
  | OSetError => (fail p, Nothing)
  | OPop n =>
      if zlen (avail p) <? n then (fail p, Nothing)
      else (mkPipe (hist p) (popped p + n) (cap p) (ended p) (failed p), Nothing)
  | ORead n =>
      if zlen (avail p) <? n then (fail p, Got [])
      else (mkPipe (hist p) (popped p + n) (cap p) (ended p) (failed p),
            Got (ztake n (avail p)))
  end.

Fixpoint run (p : pipe) (os : list bs_op) : pipe * list bs_out :=
  match os with
  | [] => (p, [])
  | o :: os => let '(p1, r) := step p o in
               let '(p2, rs) := run p1 os in (p2, r :: rs)
  end.
End Spec.

(** A stream represents a pipe: its buffer is the part of the history not yet
    taken, and its counter is the length of the history as a [size_t]. *)
Record repr (s : ByteStream) (p : Spec.pipe) : Prop := {
  r_buffer : bs_buffer s = Spec.avail p;
  r_cap : bs_capacity s = Spec.cap p;
  r_ended : bs_is_ended s = Spec.ended p;
  r_error : bs_error s = Spec.failed p;
  r_written : bs_written_length s = u64 (zlen (Spec.hist p));
  r_popped : 0 <= Spec.popped p <= zlen (Spec.hist p) }.

Lemma repr_new c : repr (new_ByteStream c) (Spec.empty c).
Proof. by constructor. Qed.

(** The writer writes nothing after it has ended the input. *)
Fixpoint writes_before_end (ended : bool) (os : list bs_op) : bool :=
  match os with
  | [] => true
  | OWrite _ :: os => negb ended && writes_before_end ended os
  | OEnd :: os => writes_before_end true os
  | _ :: os => writes_before_end ended os
  end.

Lemma writes_before_end_step p o os :
  writes_before_end (Spec.ended p) (o :: os) = true ->
  (forall d, o = OWrite d -> Spec.ended p = false) /\
  writes_before_end (Spec.ended (Spec.step p o).1) os = true.
Proof.
  destruct o; cbn; [destruct (Spec.ended p); naive_solver|naive_solver|try case_match; naive_solver..].
Qed.

Lemma repr_step s p o :
  bs_ok s -> bs_op_ok o -> (forall d, o = OWrite d -> Spec.ended p = false) -> repr s p ->
  repr (bs_step s o).1 (Spec.step p o).1 /\ (bs_step s o).2 = (Spec.step p o).2.
Proof.
  intros Hs Ho Hend [Hb Hc He Hf Hw Hp].
  destruct o; cbn in *; try (rewrite (Hend _ eq_refl) in *); unfold read, pop_output, peek_output, buffer_size;
    try (split; [by constructor | done]).
  - rewrite write_eq by done. unfold accepted, buffer_size. rewrite Hb, Hc. cbn.
    split; [|done]. constructor; simpl; auto.
    + unfold Spec.avail; simpl. by rewrite zdrop_app_le by lia.
    + rewrite Hw, zlen_app. unfold u64. by rewrite Zplus_mod_idemp_l.
    + zl.
  - rewrite Hb. zcase; (split; [constructor; simpl; auto|done]).
    + unfold Spec.avail; simpl. by rewrite zdrop_zdrop by lia.
    + unfold Spec.avail in *. zl.
  - rewrite Hb. zcase; simpl; (split; [constructor; simpl; auto|done]).
    + unfold Spec.avail; simpl. by rewrite zdrop_zdrop by lia.
    + unfold Spec.avail in *. zl.
Qed.

(** C25: Refinement: a [ByteStream] is indistinguishable from the abstract pipe,
    which accepts nothing after its end.  Over any sequence of writes, pops,
    reads, endings and errors in which nothing is written after the end, both
    return the same results, and the stream still represents the pipe at the
    end.  (A write after the end, which the class comment rules out, is
    accepted by the code: [write_after_end].) *)
Theorem ByteStream_refines_pipe c os :
  0 <= c < W64 -> Forall bs_op_ok os -> writes_before_end false os = true ->
  repr (bs_run (new_ByteStream c) os).1 (Spec.run (Spec.empty c) os).1 /\
  (bs_run (new_ByteStream c) os).2 = (Spec.run (Spec.empty c) os).2.
Proof.
  intros Hc Hos.
  assert (H : forall s p, bs_ok s -> repr s p -> writes_before_end (Spec.ended p) os = true ->
    repr (bs_run s os).1 (Spec.run p os).1 /\ (bs_run s os).2 = (Spec.run p os).2).
  { induction Hos as [|o os Ho _ IH]; intros s p Hs Hr He; [done|].
    apply writes_before_end_step in He as [Hd He]. simpl.
    destruct (repr_step s p o Hs Ho Hd Hr) as [Hr' Ho'].
    pose proof (bs_step_ok s o Ho Hs) as Hs'.
    destruct (bs_step s o) as [s1 r1], (Spec.step p o) as [p1 r1']. simpl in *. subst.
    specialize (IH s1 p1 Hs' Hr' He).
    destruct (bs_run s1 os), (Spec.run p1 os). simpl in *. naive_solver. }
  apply (H (new_ByteStream c) (Spec.empty c)); [by apply new_ByteStream_ok | apply repr_new].
Qed.

Lemma ByteStream_refines_pipe_witness :
  (bs_run (new_ByteStream 2) [OWrite [x61; x62; x63]; ORead 1; OWrite [x63]; OEnd; ORead 2]).2
    = [Wrote 2; Got [x61]; Wrote 1; Nothing; Got [x62; x63]] /\
  (bs_run (new_ByteStream 2) [OWrite [x61; x62; x63]; ORead 1; OWrite [x63]; OEnd; ORead 2]).2
    = (Spec.run (Spec.empty 2) [OWrite [x61; x62; x63]; ORead 1; OWrite [x63]; OEnd; ORead 2]).2.
Proof.
  split; [reflexivity|].
  apply (ByteStream_refines_pipe 2); [lia | repeat constructor; simpl; lia | reflexivity].
Defined.

(** The bytes an operation takes out of a stream, and those it puts in. *)
Definition taken_out (s : ByteStream) (o : bs_op) : bytes :=
  match o with OPop n | ORead n => peek_output s n | _ => [] end.
Definition put_in (s : ByteStream) (o : bs_op) : bytes :=
  match o with OWrite d => ztake (write s d).2 d | _ => [] end.

Fixpoint flow (s : ByteStream) (os : list bs_op) : bytes * bytes :=
  match os with
  | [] => ([], [])
  | o :: os => let '(i, u) := flow (bs_step s o).1 os in
               (put_in s o ++ i, taken_out s o ++ u)
  end.

Lemma write_flow s d :
  bs_ok s -> bs_buffer s ++ ztake (write s d).2 d = bs_buffer (write s d).1.
Proof.
  intros Hs. rewrite write_eq by done. cbn. f_equal.
  unfold accepted, bs_ok, buffer_size in *.
  destruct (Z.le_gt_cases (zlen d) (bs_capacity s - zlen (bs_buffer s))).
  - by rewrite (ztake_all (_ - _)), ztake_all by lia.
  - f_equal. zl.
Qed.

Lemma flow_step s o :
  bs_ok s -> bs_op_ok o ->
  bs_buffer s ++ put_in s o = taken_out s o ++ bs_buffer (bs_step s o).1.
Proof.
  intros Hs Ho. destruct o; [by apply write_flow|cbn in *; rewrite ?app_nil_r; try done..].
  - unfold peek_output, pop_output. zcase; simpl; [done|]. by rewrite ztake_zdrop.
  - unfold read, peek_output, pop_output. zcase; simpl; [done|].
    by rewrite ztake_zdrop.
Qed.

(** First in, first out: the bytes taken out by reads and pops, followed by
    what is still buffered, are exactly the bytes accepted by the writes, in
    order; and the buffer never exceeds the capacity. *)
Theorem ByteStream_fifo c os :
  0 <= c < W64 -> Forall bs_op_ok os ->
  let s' := (bs_run (new_ByteStream c) os).1 in
  let '(i, u) := flow (new_ByteStream c) os in
  u ++ bs_buffer s' = i /\ buffer_size s' <= c.
Proof.
  intros Hc Hos. simpl.
  assert (H : forall s, bs_ok s ->
    (flow s os).2 ++ bs_buffer (bs_run s os).1 = bs_buffer s ++ (flow s os).1 /\
    bs_ok (bs_run s os).1 /\ bs_capacity (bs_run s os).1 = bs_capacity s).
  { induction Hos as [|o os Ho _ IH]; intros s Hs; simpl; [by rewrite app_nil_r|].
    pose proof (bs_step_ok s o Ho Hs) as Hs'. pose proof (flow_step s o Hs Ho) as Hf.
    assert (Hcap : bs_capacity (bs_step s o).1 = bs_capacity s).
    { by apply bs_step_cap. }
    destruct (bs_step s o) as [s1 r1]; simpl in *. destruct (IH s1 Hs') as (I1 & I2 & I3).
    destruct (flow s1 os) as [i u], (bs_run s1 os) as [s2 rs]; simpl in *.
    rewrite app_assoc, Hf, <- !app_assoc, I1. split; [done|]. split; [done|congruence]. }
  destruct (H (new_ByteStream c) (new_ByteStream_ok c Hc)) as (H1 & H2 & H3).
  destruct (flow _ os) as [i u]. simpl in *. split; [done|].
  destruct H2 as (_ & H2 & _). congruence.
Qed.

Lemma ByteStream_fifo_witness :
  flow (new_ByteStream 3) [OWrite [x61; x62]; OPop 1; OWrite [x63; x64; x65]]
    = ([x61; x62; x63; x64], [x61]) /\
  buffer_size (bs_run (new_ByteStream 3)
    [OWrite [x61; x62]; OPop 1; OWrite [x63; x64; x65]]).1 <= 3.
Proof.
  split; [reflexivity|].
  apply (ByteStream_fifo 3 [OWrite [x61; x62]; OPop 1; OWrite [x63; x64; x65]]);
    [lia | repeat constructor; simpl; lia].
Defined.

(** Overrunning the buffer: peeking, popping or reading more bytes than are
    buffered returns nothing and removes nothing; pop and read also raise the
    error flag, which no operation clears. *)
Theorem ByteStream_overrun s len :
  buffer_size s < len ->
  peek_output s len = [] /\
  pop_output s len = set_error s /\
  read s len = (set_error s, []) /\
  bs_buffer (pop_output s len) = bs_buffer s /\
  forall os, bs_error (bs_run (pop_output s len) os).1 = true.
Proof.
  intros H. unfold peek_output, read, pop_output.
  destruct (Z.ltb_spec (buffer_size s) len); [|lia].
  repeat split. intros os.
  assert (E : bs_error (set_error s) = true) by done. revert E.
  generalize (set_error s) as t. induction os as [|o os IH]; intros t E; [done|]. simpl.
  assert (E1 : bs_error (bs_step t o).1 = true).
  { by apply bs_step_error. }
  destruct (bs_step t o) as [t1 r]. simpl in *. specialize (IH t1 E1).
  by destruct (bs_run t1 os).
Qed.

Lemma ByteStream_overrun_witness :
  read (new_ByteStream 4) 1 = (set_error (new_ByteStream 4), []).
Proof. apply ByteStream_overrun. reflexivity. Defined.

(** Ending the input does not stop the writer: after [end_input] a write is
    still accepted, so a stream that had reached its end is no longer at its
    end (the class comment says no more bytes can be written). *)
Theorem write_after_end :
  let s := end_input (new_ByteStream 8) in
  eof s = true /\ (write s [x61]).2 = 1 /\ eof (write s [x61]).1 = false.
Proof. repeat split. Qed.

(** The counters agree with the buffer while the total fits in a [size_t]. *)
Lemma bytes_read_eq s :
  bs_ok s -> buffer_size s <= bytes_written s -> bytes_read s = bytes_written s - buffer_size s.
Proof.
  unfold bs_ok, bytes_read, buffer_size, bytes_written. intros. apply u64_id. zl.
Qed.
