(* ===== verification/StreamReassembler.v ===== *)
(** * The stream reassembler

    [libsponge/stream_reassembler.hh] and [.cc]: substrings of a byte stream
    arrive in any order and with overlaps; the contiguous prefix goes to the
    output [ByteStream] and the rest waits in a sorted list.  The contract is
    stated byte by byte: which bytes are pending, and that the output is
    extended up to the first byte that is missing. *)
From S2P Require Import Prelude ByteStream.

(** An element of [_staging_list]: first index, last index, the bytes. *)
Record staged : Type := mkStaged { st_start : Z; st_end : Z; st_data : bytes }.

Record StreamReassembler : Type := mkReassembler {
  ra_staging_list : list staged;
  ra_staging_size : Z;
  ra_unassembled_start_index : Z;
  ra_have_eof : bool;
  ra_eof_index : Z;
  ra_output : ByteStream;
  ra_capacity : Z }.

Definition new_StreamReassembler (capacity : Z) : StreamReassembler :=
  mkReassembler [] 0 0 false 0 (new_ByteStream capacity) capacity.

Definition stream_out (r : StreamReassembler) : ByteStream := ra_output r.
(** [stream_out()] also gives write access to the stream. *)
Definition with_stream_out (r : StreamReassembler) (s : ByteStream) : StreamReassembler :=
  mkReassembler (ra_staging_list r) (ra_staging_size r) (ra_unassembled_start_index r)
    (ra_have_eof r) (ra_eof_index r) s (ra_capacity r).

Definition unassembled_bytes (r : StreamReassembler) : Z := ra_staging_size r.
Definition empty (r : StreamReassembler) : bool := ra_staging_size r =? 0.

Definition eof_process (r : StreamReassembler) : StreamReassembler :=
  if ra_have_eof r && (ra_eof_index r <=? ra_unassembled_start_index r) then
    mkReassembler [] 0 (ra_unassembled_start_index r) (ra_have_eof r) (ra_eof_index r)
      (end_input (ra_output r)) (ra_capacity r)
  else r.

(** The loop that places [data] in the list, from the current iterator on:
    [temp_start] and [temp_end] are the two components of [temp], [size] is
    [_staging_size].  The case of the empty list is the code after the
    loop, which runs when the iterator has reached the end. *)
Fixpoint place (data : bytes) (index unassembled_max_index temp_start temp_end size : Z)
    (l : list staged) : result (list staged * Z) :=
  match l with
  | [] =>
      let max_end := Z.min temp_end unassembled_max_index in
      if temp_start <=? max_end then
        let substring_length := (max_end -! temp_start) +! 1 in
        let* d := substr data (temp_start -! index) substring_length in
        Ok ([mkStaged temp_start max_end d], size +! substring_length)
      else Ok ([], size)
  | iter :: rest =>
      if temp_start <? st_start iter then
        let max_end :=
          Z.min temp_end (Z.min (st_start iter -! 1) unassembled_max_index) in
        let next_start := st_end iter +! 1 in
        let next_end := temp_end in
        let* (inserted, size) :=
          if temp_start <=? max_end then
            let substring_length := (max_end -! temp_start) +! 1 in
            let* d := substr data (temp_start -! index) substring_length in
            Ok ([mkStaged temp_start max_end d], size +! substring_length)
          else Ok ([], size) in
        if next_end <? next_start then Ok (inserted ++ iter :: rest, size)
        else
          let* (rest, size) :=
            place data index unassembled_max_index next_start next_end size rest in
          Ok (inserted ++ iter :: rest, size)
      else if temp_end <=? st_end iter then Ok (iter :: rest, size)
      else
        let* (rest, size) :=
          place data index unassembled_max_index
            (Z.max (st_end iter +! 1) temp_start) temp_end size rest in
        Ok (iter :: rest, size)
  end.

(** The loop that moves the head of the list to the output while it starts
    at [_unassembled_start_index]. *)
Fixpoint assemble (l : list staged) (size start : Z) (out : ByteStream)
    : list staged * Z * Z * ByteStream :=
  match l with
  | [] => ([], size, start, out)
  | iter :: rest =>
      if st_start iter =? start then
        assemble rest (size -! ((st_end iter -! st_start iter) +! 1)) (st_end iter +! 1)
          (write out (st_data iter)).1
      else (l, size, start, out)
  end.

Definition push_substring (r : StreamReassembler) (data : bytes) (index : Z) (is_eof : bool)
    : result StreamReassembler :=
  let data_length := zlen data in
  let have_eof := if is_eof then true else ra_have_eof r in
  let eof_index := if is_eof then index +! data_length else ra_eof_index r in
  let start := ra_unassembled_start_index r in
  let r := mkReassembler (ra_staging_list r) (ra_staging_size r) start have_eof eof_index
             (ra_output r) (ra_capacity r) in
  if data_length <=? 0 then Ok (eof_process r)
  else if index +! data_length <? start then Ok (eof_process r)
  else
    let temp_start_index := Z.max start index in
    let temp_end := (index +! data_length) -! 1 in
    let unassembled_max_index :=
      (start -! buffer_size (ra_output r)) +! (ra_capacity r -! 1) in
    let* (l, size) :=
      place data index unassembled_max_index temp_start_index temp_end
        (ra_staging_size r) (ra_staging_list r) in
    let '(l, size, start, out) := assemble l size start (ra_output r) in
    Ok (eof_process
          (mkReassembler l size start have_eof eof_index out (ra_capacity r))).

Example push_example :
  let push d i e r := let* r := r in push_substring r d i e in
  let r := push [x61; x62] 0 false (push [x64; x65] 3 true (push [x62; x63; x64] 1 false
             (Ok (new_StreamReassembler 8)))) in
  match r with
  | Ok r => bs_buffer (ra_output r) = [x61; x62; x63; x64; x65] /\
            input_ended (ra_output r) = true /\ unassembled_bytes r = 0
  | Err _ => False
  end.
Proof. vm_compute. repeat split. Qed.

(** ** The list of waiting substrings, byte by byte *)

(** The byte waiting at index [i]. *)
Fixpoint staged_at (l : list staged) (i : Z) : option byte :=
  match l with
  | [] => None
  | s :: rest =>
      if (st_start s <=? i) && (i <=? st_end s) then znth (st_data s) (i - st_start s)
      else staged_at rest i
  end.

(** Sorted, disjoint, between [lo] and [hi], each with as many bytes as its
    indices say. *)
Fixpoint sorted_between (lo hi : Z) (l : list staged) : Prop :=
  match l with
  | [] => True
  | s :: rest =>
      lo <= st_start s <= st_end s /\ st_end s <= hi /\
      zlen (st_data s) = st_end s - st_start s + 1 /\
      sorted_between (st_end s + 1) hi rest
  end.

Fixpoint total (l : list staged) : Z :=
  match l with [] => 0 | s :: rest => st_end s - st_start s + 1 + total rest end.

Lemma sorted_weaken lo lo' hi hi' l :
  lo' <= lo -> hi <= hi' -> sorted_between lo hi l -> sorted_between lo' hi' l.
Proof.
  intros Hlo Hhi. revert lo lo' Hlo.
  induction l as [|s l IH]; intros lo lo' Hlo; simpl; [done|].
  intros (? & ? & ? & H). repeat split; try lia. by apply (IH (st_end s + 1)); [lia|].
Qed.

Lemma staged_at_below lo hi l i : sorted_between lo hi l -> i < lo -> staged_at l i = None.
Proof.
  revert lo. induction l as [|s l IH]; intros lo; simpl; [done|].
  intros (? & ? & ? & H) Hi. destruct (Z.leb_spec (st_start s) i); [lia|]. simpl.
  apply (IH _ H). lia.
Qed.

Lemma staged_at_above lo hi l i : sorted_between lo hi l -> hi < i -> staged_at l i = None.
Proof.
  revert lo. induction l as [|s l IH]; intros lo; simpl; [done|].
  intros (? & ? & ? & H) Hi. destruct (Z.leb_spec i (st_end s)); [lia|].
  rewrite andb_false_r. by apply (IH _ H).
Qed.

Lemma total_bound lo hi l :
  sorted_between lo hi l -> lo <= hi + 1 -> 0 <= total l <= hi + 1 - lo.
Proof.
  revert lo. induction l as [|s l IH]; intros lo; simpl; [lia|].
  intros (? & ? & ? & H) ?. specialize (IH _ H). lia.
Qed.

(** The bytes [data] at [index] offered to what is known as [f], within
    [lo..hi]: bytes already known stay. *)
Definition offer (f : Z -> option byte) (data : bytes) (index lo hi : Z) (i : Z) : option byte :=
  match f i with
  | Some b => Some b
  | None => if (lo <=? i) && (i <=? hi) then znth data (i - index) else None
  end.

(** ** Placing *)

Lemma place_nothing data index umax ts te size l :
  te < ts -> Forall (fun s => 0 <= st_start s <= st_end s /\ st_end s <= umax /\ st_end s < W64 - 1) l ->
  place data index umax ts te size l = Ok (l, size).
Proof.
  intros Hlt Hl. revert ts Hlt.
  induction Hl as [|s l Hs _ IH]; intros ts Hlt; cbn.
  { destruct (Z.leb_spec ts (Z.min te umax)); [lia|done]. }
  rewrite (u64_id (st_end s + 1)) by lia.
  destruct (Z.ltb_spec ts (st_start s)).
  - destruct (Z.leb_spec ts (Z.min te (Z.min (st_start s -! 1) umax))); [lia|]. cbn.
    destruct (Z.ltb_spec te (st_end s + 1)); [done|lia].
  - destruct (Z.leb_spec te (st_end s)); [done|]. by rewrite IH by lia.
Qed.

(** Likewise for a substring that starts behind the window. *)
Lemma place_outside data index umax ts te size l :
  umax < ts ->
  Forall (fun s => 0 <= st_start s <= st_end s /\ st_end s <= umax /\ st_end s < W64 - 1) l ->
  place data index umax ts te size l = Ok (l, size).
Proof.
  intros Hlt Hl. revert ts Hlt.
  induction Hl as [|s l Hs _ IH]; intros ts Hlt; cbn.
  { destruct (Z.leb_spec ts (Z.min te umax)); [lia|done]. }
  rewrite (u64_id (st_end s + 1)) by lia.
  destruct (Z.ltb_spec ts (st_start s)); [lia|].
  destruct (Z.leb_spec te (st_end s)); [done|]. by rewrite IH by lia.
Qed.

(** The piece of [data] that lands in [ts..m]. *)
Lemma substr_piece data index ts m :
  0 <= index <= ts -> ts <= m -> m < index + zlen data -> m < W64 - 1 -> index + zlen data <= W64 ->
  substr data (ts -! index) ((m -! ts) +! 1) =
    Ok (ztake (m - ts + 1) (zdrop (ts - index) data)) /\
  zlen (ztake (m - ts + 1) (zdrop (ts - index) data)) = m - ts + 1 /\
  (m -! ts) +! 1 = m - ts + 1.
Proof.
  intros. nowrap. unfold substr. zcase; [lia|]. split; [done|]. split; [zl|done].
Qed.

Lemma staged_at_piece (data : bytes) index ts m i :
  0 <= index <= ts -> ts <= i <= m ->
  znth (ztake (m - ts + 1) (zdrop (ts - index) data)) (i - ts) = znth data (i - index).
Proof.
  intros. rewrite znth_ztake by lia. zcase; [|lia].
  rewrite znth_zdrop by lia. f_equal. lia.
Qed.

(** Splitting a membership test of an interval. *)
Ltac in_range :=
  repeat match goal with
  | |- context [?a <=? ?b] => destruct (Z.leb_spec a b); try lia
  end; cbn [andb].

Section Place.
Context (data : bytes) (index umax te : Z).
Hypothesis Hidx : 0 <= index.
Hypothesis Hend : te < index + zlen data.
Hypothesis Hfit : index + zlen data <= W64.
Hypothesis Humax : 0 <= umax < W64 - 1.

(** What [place] promises when it starts at [ts] on the list [l]. *)
Definition placed (ts lo size : Z) (l : list staged) (r : result (list staged * Z)) : Prop :=
  exists l' size', r = Ok (l', size') /\
    sorted_between lo umax l' /\
    size' = u64 (size + (total l' - total l)) /\
    forall i, staged_at l' i = offer (staged_at l) data index ts (Z.min te umax) i.

(** The new element in front of [l], when there is room for one. *)
Lemma place_piece ts m lo size l :
  index <= ts -> lo <= ts -> ts <= m -> m <= te -> m <= umax -> 0 <= size < W64 ->
  sorted_between (m + 1) umax l ->
  exists d, substr data (ts -! index) ((m -! ts) +! 1) = Ok d /\
    (size +! ((m -! ts) +! 1)) = u64 (size + (m - ts + 1)) /\
    sorted_between lo umax (mkStaged ts m d :: l) /\
    forall i, staged_at (mkStaged ts m d :: l) i =
      if (ts <=? i) && (i <=? m) then znth data (i - index) else staged_at l i.
Proof.
  intros. destruct (substr_piece data index ts m) as (E & L & S); try lia.
  eexists. split; [exact E|]. rewrite S. split; [done|]. split.
  - simpl. repeat split; try lia. done.
  - intros i. simpl. in_range; try done. apply staged_at_piece; lia.
Qed.

(** Inside the head, its byte is there and hides the offer. *)
Lemma offer_head s l lo i ts hi :
  sorted_between lo umax (s :: l) -> st_start s <= i <= st_end s ->
  offer (staged_at (s :: l)) data index ts hi i = staged_at (s :: l) i.
Proof.
  intros (? & ? & Hz & _) Hi. unfold offer. simpl. in_range; try lia;
    (destruct (znth (st_data s) (i - st_start s)) eqn:E; [done|];
     apply znth_None in E; lia).
Qed.

Lemma offer_cons s l lo i ts hi :
  sorted_between lo umax (s :: l) -> ~ st_start s <= i <= st_end s ->
  offer (staged_at (s :: l)) data index ts hi i = offer (staged_at l) data index ts hi i.
Proof. intros _ Hi. unfold offer. simpl. in_range; try lia; done. Qed.

(** Below the next element nothing is known yet. *)
Lemma offer_fresh l lo i ts hi :
  sorted_between lo umax l -> i < lo ->
  offer (staged_at l) data index ts hi i =
    if (ts <=? i) && (i <=? hi) then znth data (i - index) else None.
Proof. intros Hl Hi. unfold offer. by rewrite (staged_at_below lo umax l i Hl Hi). Qed.

(** The offer may start anywhere in a region that is known. *)
Lemma offer_from l i ts ts' hi :
  (ts <= i < ts' -> i <= hi -> is_Some (staged_at l i)) -> ts <= ts' ->
  offer (staged_at l) data index ts hi i = offer (staged_at l) data index ts' hi i.
Proof.
  intros H Hle. unfold offer. destruct (staged_at l i); [done|].
  in_range; try done; try lia. by destruct (H ltac:(lia) ltac:(lia)).
Qed.

(** Going on behind the element [s]. *)
Lemma place_behind s l ts lo size :
  placed ts (st_end s + 1) size l (place data index umax ts te size l) ->
  st_end s < ts -> sorted_between lo umax (s :: l) ->
  placed ts lo size (s :: l)
    (let* (rest, size) := place data index umax ts te size l in Ok (s :: rest, size)).
Proof.
  intros (l' & size' & -> & Hs' & Hz & Hat) Hts Hl.
  pose proof Hl as (Hs1 & Hs2 & Hs3 & Hl').
  cbn. eexists _, _. split; [done|]. split; [by simpl|].
  split; [rewrite Hz; simpl; f_equal; lia|].
  intros i. destruct (decide (st_start s <= i <= st_end s)) as [Hr|Hr].
  - rewrite (offer_head _ _ _ _ _ _ Hl Hr). simpl. by in_range.
  - rewrite (offer_cons _ _ _ _ _ _ Hl Hr). simpl. rewrite Hat. by in_range.
Qed.

(** Nothing is left to offer. *)
Lemma placed_done ts lo size l :
  0 <= size < W64 -> sorted_between lo umax l ->
  (forall i, ts <= i <= te -> i <= umax -> is_Some (staged_at l i)) ->
  placed ts lo size l (Ok (l, size)).
Proof.
  intros Hsz Hl H. eexists _, _. split; [done|]. split; [done|].
  split; [rewrite u64_id; lia|]. intros i. unfold offer.
  destruct (staged_at l i) eqn:E; [done|]. in_range; try done.
  destruct (H i ltac:(lia) ltac:(lia)). congruence.
Qed.

Lemma staged_at_in s l lo i :
  sorted_between lo umax (s :: l) -> st_start s <= i <= st_end s ->
  is_Some (staged_at (s :: l) i).
Proof.
  intros (? & ? & Hz & _) Hi. simpl. in_range. apply znth_range. lia.
Qed.

(** Inserting in front of [s] what fits there, then going on behind it. *)
Lemma place_before s l ts lo size (k : Z -> result (list staged * Z)) :
  index <= ts -> lo <= ts -> 0 <= lo -> ts < st_start s -> 0 <= size < W64 ->
  sorted_between lo umax (s :: l) ->
  (forall size, 0 <= size < W64 -> placed (st_end s + 1) (st_start s) size (s :: l) (k size)) ->
  placed ts lo size (s :: l)
    (let* (inserted, size) :=
       if ts <=? Z.min te (Z.min (st_start s -! 1) umax) then
         let* d := substr data (ts -! index)
                     ((Z.min te (Z.min (st_start s -! 1) umax) -! ts) +! 1) in
         Ok ([mkStaged ts (Z.min te (Z.min (st_start s -! 1) umax)) d],
             size +! ((Z.min te (Z.min (st_start s -! 1) umax) -! ts) +! 1))
       else Ok ([], size) in
     let* (l, size) := k size in Ok (inserted ++ l, size)).
Proof.
  intros Hi Hlo Hlo0 Hlt Hsz Hl Hk. pose proof Hl as (Hs1 & Hs2 & Hs3 & Hl').
  rewrite (u64_id (st_start s - 1)) by lia.
  set (m := Z.min te (Z.min (st_start s - 1) umax)).
  assert (Hat' : forall i, ~ ts <= i <= m ->
    offer (staged_at (s :: l)) data index (st_end s + 1) (Z.min te umax) i =
    offer (staged_at (s :: l)) data index ts (Z.min te umax) i).
  { intros i Hn. destruct (decide (st_start s <= i <= st_end s)) as [Hr|Hr].
    - by rewrite !(offer_head _ _ _ _ _ _ Hl Hr).
    - unfold offer. destruct (staged_at (s :: l) i); [done|]. by in_range. }
  destruct (Z.leb_spec ts m) as [Hle|Hgt].
  - destruct (Hk (u64 (size + (m - ts + 1))) (u64_range _)) as (l2 & z2 & E & Hs' & Hz & Hat).
    destruct (place_piece ts m lo size l2) as (d & -> & -> & Hs & Hat2); try lia.
    { apply (sorted_weaken (st_start s) _ umax); [lia|lia|done]. }
    cbn. rewrite E. cbn. eexists _, _. split; [done|]. split; [done|]. split.
    { rewrite Hz. simpl. unfold u64. rewrite Zplus_mod_idemp_l. f_equal. lia. }
    intros i. rewrite Hat2, Hat.
    destruct (Z.leb_spec ts i); [destruct (Z.leb_spec i m)|]; cbn [andb];
      [|apply Hat'; lia..].
    rewrite (offer_fresh (s :: l) (st_start s)); [by in_range|simpl; split; [lia|done]|lia].
  - destruct (Hk size Hsz) as (l2 & z2 & E & Hs' & Hz & Hat).
    cbn. rewrite E. cbn. eexists _, _. split; [done|].
    split; [by apply (sorted_weaken (st_start s) _ umax); [lia|lia|]|]. split; [done|].
    intros i. rewrite Hat. apply Hat'. lia.
Qed.

Lemma place_spec l : forall ts lo size,
  index <= ts -> lo <= ts -> 0 <= lo -> 0 <= size < W64 ->
  sorted_between lo umax l ->
  placed ts lo size l (place data index umax ts te size l).
Proof.
  induction l as [|s l IH]; intros ts lo size Hi Hlo Hlo0 Hsz Hl; cbn.
  { (* the code after the loop *)
    destruct (Z.leb_spec ts (Z.min te umax)).
    - destruct (place_piece ts (Z.min te umax) lo size []) as (d & -> & -> & Hs & Hat);
        try done; try lia.
      cbn. eexists _, _. split; [done|]. split; [done|]. split; [simpl; f_equal; lia|].
      intros i. rewrite Hat. done.
    - apply placed_done; try done. lia. }
  pose proof Hl as (Hs1 & Hs2 & Hs3 & Hl').
  rewrite (u64_id (st_end s + 1)) by lia.
  destruct (Z.ltb_spec ts (st_start s)) as [Hlt|Hge].
  - assert (Hss : sorted_between (st_start s) umax (s :: l)) by (simpl; split; [lia|done]).
    pose proof (place_before s l ts lo size
      (fun size => if te <? st_end s + 1 then Ok (s :: l, size)
         else let* (rest, size) := place data index umax (st_end s + 1) te size l in
              Ok (s :: rest, size))) as HP.
    destruct HP as (l' & z' & E & HP); try done; try lia.
    { intros z Hz. destruct (Z.ltb_spec te (st_end s + 1)).
      - apply placed_done; try done. lia.
      - apply place_behind; [apply IH; try done; lia|lia|done]. }
    exists l', z'. split; [|done]. rewrite <- E.
    destruct (if ts <=? _ then _ else _) as [[ins z]|]; [|done]. cbn.
    destruct (te <? st_end s + 1); [done|].
    by destruct (place data index umax (st_end s + 1) te z l) as [[]|].
  - destruct (Z.leb_spec te (st_end s)) as [Hin|Hout].
    + apply placed_done; try done. intros i ? ?. apply (staged_at_in s l lo); [done|lia].
    + pose proof (IH (Z.max (st_end s + 1) ts) (st_end s + 1) size) as HI.
      destruct (place_behind s l (Z.max (st_end s + 1) ts) lo size)
        as (l' & z' & E & ? & ? & Hat); [apply HI; try done; lia|lia|done|].
      exists l', z'. repeat split; try done. intros i. rewrite Hat.
      symmetry. apply offer_from; [|lia]. intros ? ?. apply (staged_at_in s l lo); [done|lia].
Qed.
End Place.

(** ** Assembling *)

(** The output after [w] was written and all of it accepted. *)
Definition appended (out : ByteStream) (w : bytes) : ByteStream :=
  mkByteStream (bs_buffer out ++ w) (bs_capacity out) (bs_is_ended out)
    (bs_written_length out +! zlen w) (bs_error out).

Lemma write_appended out w :
  bs_ok out -> buffer_size out + zlen w <= bs_capacity out -> (write out w).1 = appended out w.
Proof. intros. rewrite write_eq by done. by rewrite write_fits. Qed.

Lemma appended_nil out : bs_ok out -> appended out [] = out.
Proof.
  intros (_ & _ & H). unfold appended. rewrite app_nil_r, zlen_nil, Z.add_0_r, u64_id by done.
  by destruct out.
Qed.

Lemma appended_app out w1 w2 : appended (appended out w1) w2 = appended out (w1 ++ w2).
Proof.
  unfold appended; simpl. rewrite <- app_assoc, zlen_app. f_equal.
  unfold u64. rewrite Zplus_mod_idemp_l. f_equal. lia.
Qed.

Lemma appended_ok out w :
  bs_ok out -> buffer_size out + zlen w <= bs_capacity out -> bs_ok (appended out w).
Proof. intros. rewrite <- write_appended by done. by apply write_ok. Qed.

(** The head of a sorted list that starts after [i] does not hold [i]. *)
Lemma assemble_stop l size start out hi :
  sorted_between (start + 1) hi l -> assemble l size start out = (l, size, start, out).
Proof.
  destruct l as [|s l]; simpl; [done|]. intros (? & _).
  destruct (Z.eqb_spec (st_start s) start); [lia|done].
Qed.

Record assembled (l : list staged) (start hi : Z) (out : ByteStream) (w : bytes)
    (l' : list staged) : Prop := {
  as_sorted : sorted_between (start + zlen w + 1) hi l';
  as_bound : start + zlen w <= hi + 1;
  as_total : total l' = total l - zlen w;
  as_kept : forall i, staged_at l' i = if i <? start + zlen w then None else staged_at l i;
  as_moved : forall i, start <= i < start + zlen w -> staged_at l i = znth w (i - start);
  as_first_missing : staged_at l (start + zlen w) = None }.

Lemma assemble_spec l : forall size start out hi,
  0 <= start -> hi < W64 - 1 -> start <= hi + 1 ->
  sorted_between start hi l -> bs_ok out ->
  buffer_size out + (hi + 1 - start) <= bs_capacity out ->
  total l <= size < W64 ->
  exists w l', assemble l size start out =
    (l', size - zlen w, start + zlen w, appended out w) /\ assembled l start hi out w l'.
Proof.
  induction l as [|s l IH]; intros size start out hi H0 Hhi Hse Hl Hout Hroom Hsz.
  { exists [], []. simpl. rewrite appended_nil, zlen_nil, Z.add_0_r, Z.sub_0_r by done.
    split; [done|]. constructor; simpl; rewrite ?zlen_nil; try done; try lia.
    intros i. by zcase. }
  pose proof Hl as (Hs1 & Hs2 & Hs3 & Hl').
  destruct (Z.eq_dec (st_start s) start) as [E|N].
  - assert (Hsz' : 0 <= total l) by (apply (total_bound (st_end s + 1) hi); [done|lia]).
    simpl in Hsz. cbn. rewrite (proj2 (Z.eqb_eq _ _) E).
    nowrap. rewrite write_appended by (try done; lia).
    destruct (IH (size - (st_end s - st_start s + 1)) (st_end s + 1)
                 (appended out (st_data s)) hi) as (w & l' & Ha & [A1 A2 A3 A4 A5 A6]);
      try lia; try done.
    { apply appended_ok; [done|lia]. }
    { unfold appended, buffer_size in *; simpl. zl. }
    exists (st_data s ++ w), l'. rewrite Ha, appended_app, zlen_app, Hs3.
    split; [repeat (f_equal; try lia)|].
    assert (Hw : start + (st_end s - st_start s + 1 + zlen w) = st_end s + 1 + zlen w) by lia.
    constructor; rewrite ?zlen_app, ?Hs3, ?Hw; try done; simpl; try lia.
    + intros i. rewrite A4. zcase; [done|]. zpos. by in_range.
    + intros i Hi. in_range.
      * rewrite znth_app_l by lia. f_equal. lia.
      * rewrite A5, znth_app_r by lia. f_equal. lia.
    + zpos. in_range. done.
  - assert (Hl2 : sorted_between (start + 1) hi (s :: l)) by (simpl; split; [lia|done]).
    rewrite (assemble_stop _ _ _ _ _ Hl2). exists [], (s :: l).
    rewrite appended_nil, zlen_nil, Z.add_0_r, Z.sub_0_r by done. split; [done|].
    constructor; rewrite ?zlen_nil, ?Z.add_0_r; try done; try lia.
    + intros i. zcase; [|done]. by apply (staged_at_below (start + 1) hi); [|lia].
    + by apply (staged_at_below (start + 1) hi); [|lia].
Qed.

(** ** The invariant *)

(** The last index the window admits: the first unread byte, plus the
    capacity. *)
Definition window_last (r : StreamReassembler) : Z :=
  ra_unassembled_start_index r - buffer_size (ra_output r) + ra_capacity r - 1.

(** [hist] is everything that was ever assembled.  The reader has taken a
    prefix of it, the rest is in the output's buffer. *)
Record ra_inv (r : StreamReassembler) (hist : bytes) : Prop := {
  ri_out : bs_ok (ra_output r);
  ri_cap : bs_capacity (ra_output r) = ra_capacity r;
  ri_pos : 1 <= ra_capacity r;
  ri_next : ra_unassembled_start_index r = zlen hist;
  ri_written : bs_written_length (ra_output r) = zlen hist;
  ri_le : buffer_size (ra_output r) <= zlen hist;
  ri_buffer : bs_buffer (ra_output r) = zdrop (zlen hist - buffer_size (ra_output r)) hist;
  ri_sorted : sorted_between (zlen hist + 1) (window_last r) (ra_staging_list r);
  ri_size : ra_staging_size r = total (ra_staging_list r) }.

(** Absolute indices stay below the end of the 64-bit range. *)
Definition no_overflow (r : StreamReassembler) : Prop :=
  ra_unassembled_start_index r + ra_capacity r < W64.

Lemma new_inv c : 1 <= c < W64 -> ra_inv (new_StreamReassembler c) [].
Proof. intros. constructor; simpl; try done; try lia. apply new_ByteStream_ok. lia. Qed.

(** Reading from the output keeps the invariant: the window moves on. *)
Lemma read_inv r hist n :
  0 <= n -> ra_inv r hist ->
  ra_inv (with_stream_out r (read (ra_output r) n).1) hist.
Proof.
  intros Hn [H1 H2 H3 H4 H5 H6 H7 H8 H9]. unfold read.
  destruct (Z.ltb_spec (buffer_size (ra_output r)) n) as [Hlt|Hge].
  { by constructor. }
  unfold pop_output. destruct (Z.ltb_spec (buffer_size (ra_output r)) n); [lia|].
  unfold buffer_size in *.
  constructor; unfold window_last, buffer_size in *; simpl; try done.
  - unfold bs_ok, buffer_size in *; simpl. zl.
  - zl.
  - rewrite zlen_zdrop by lia. rewrite H7 at 1. rewrite zdrop_zdrop by lia. f_equal. lia.
  - eapply sorted_weaken; [| |done]; [lia|]. zl.
Qed.

(** Likewise for ending the input or raising the error flag. *)
Lemma end_input_inv r hist : ra_inv r hist -> ra_inv (with_stream_out r (end_input (ra_output r))) hist.
Proof. intros []. by constructor. Qed.
Lemma set_error_inv r hist : ra_inv r hist -> ra_inv (with_stream_out r (set_error (ra_output r))) hist.
Proof. intros []. by constructor. Qed.

Lemma eof_process_inv r hist : ra_inv r hist -> ra_inv (eof_process r) hist.
Proof. intros []. unfold eof_process. case_match; by constructor. Qed.

Lemma flags_inv r hist have e :
  ra_inv r hist ->
  ra_inv (mkReassembler (ra_staging_list r) (ra_staging_size r)
            (ra_unassembled_start_index r) have e (ra_output r) (ra_capacity r)) hist.
Proof. intros []. by constructor. Qed.

#[export] Hint Resolve read_inv end_input_inv set_error_inv eof_process_inv flags_inv : sponge.

(** Nothing waits at the first missing index. *)
Lemma inv_first_missing r hist :
  ra_inv r hist -> staged_at (ra_staging_list r) (zlen hist) = None.
Proof. intros []. by apply (staged_at_below (zlen hist + 1) (window_last r)); [|lia]. Qed.

(** What is known after [data] arrived at [index]: the waiting bytes, and the
    bytes of [data] inside the window.  A substring that runs past the end of
    the 64-bit index range is not used at all. *)
Definition learned (r : StreamReassembler) (data : bytes) (index : Z) : Z -> option byte :=
  if index + zlen data <? W64 then
    offer (staged_at (ra_staging_list r)) data index
      (ra_unassembled_start_index r) (window_last r)
  else staged_at (ra_staging_list r).

(** The contract of [push_substring]. *)
Record pushed (r : StreamReassembler) (hist data : bytes) (index : Z) (is_eof : bool)
    (r' : StreamReassembler) (w : bytes) : Prop := {
  pu_inv : ra_inv r' (hist ++ w);
  pu_prefix : forall k, 0 <= k < zlen w ->
    znth w k = learned r data index (zlen hist + k);
  pu_maximal : learned r data index (zlen hist + zlen w) = None;
  pu_capacity : ra_capacity r' = ra_capacity r;
  pu_have_eof : ra_have_eof r' = (is_eof || ra_have_eof r);
  pu_eof_index : ra_eof_index r' = if is_eof then index +! zlen data else ra_eof_index r;
  pu_output : ra_output r' =
    if ra_have_eof r' && (ra_eof_index r' <=? zlen hist + zlen w)
    then end_input (appended (ra_output r) w) else appended (ra_output r) w;
  pu_pending : forall i, staged_at (ra_staging_list r') i =
    if ra_have_eof r' && (ra_eof_index r' <=? zlen hist + zlen w) then None
    else if i <? zlen hist + zlen w then None else learned r data index i }.

(** A push that teaches nothing new only runs the end-of-stream check. *)
Lemma pushed_nothing r hist data index is_eof :
  ra_inv r hist ->
  (forall i, zlen hist <= i -> learned r data index i = staged_at (ra_staging_list r) i) ->
  pushed r hist data index is_eof
    (eof_process (mkReassembler (ra_staging_list r) (ra_staging_size r)
       (ra_unassembled_start_index r) (if is_eof then true else ra_have_eof r)
       (if is_eof then index +! zlen data else ra_eof_index r)
       (ra_output r) (ra_capacity r))) [].
Proof.
  intros Hr Hl. pose proof (inv_first_missing r hist Hr) as Hm.
  pose proof (ri_next _ _ Hr) as Hn. pose proof (ri_sorted _ _ Hr) as Hs.
  assert (Ho : appended (ra_output r) [] = ra_output r) by (apply appended_nil, Hr).
  constructor; rewrite ?app_nil_r, ?zlen_nil, ?Z.add_0_r, ?Ho.
  - by apply eof_process_inv, flags_inv.
  - intros k Hk. unfold zlen in Hk. simpl in Hk. lia.
  - by rewrite Hl by lia.
  - unfold eof_process; simpl. by case_match.
  - unfold eof_process; simpl. case_match; by destruct is_eof.
  - unfold eof_process; simpl. by case_match.
  - unfold eof_process; simpl.
    destruct ((if is_eof then _ else _) && _) eqn:E; simpl; rewrite Hn in *; by rewrite E.
  - intros i. unfold eof_process; simpl. rewrite Hn.
    destruct ((if is_eof then _ else _) && _) eqn:E; simpl; rewrite E; [done|].
    zcase; [|symmetry; by apply Hl].
    apply (staged_at_below (zlen hist + 1) (window_last r)); [done|lia].
Qed.

(** The indices of a pushed substring do not end exactly at the end of the
    64-bit range inside the window. *)
Definition index_ok (r : StreamReassembler) (data : bytes) (index : Z) : Prop :=
  0 <= index < W64 /\ zlen data < W64 /\
  (index + zlen data = W64 -> window_last r < index).

(** Outside these bounds, an offer adds nothing. *)
Lemma learned_nothing r hist data index i :
  ra_inv r hist -> zlen hist <= i ->
  zlen data <= 0 \/ index +! zlen data < zlen hist \/ W64 <= index + zlen data ->
  0 <= index ->
  learned r data index i = staged_at (ra_staging_list r) i.
Proof.
  intros Hr Hi Hd Hidx. unfold learned. zcase; [|done].
  unfold offer. destruct (staged_at _ i); [done|]. case_match; [|done].
  apply znth_None. zpos. destruct Hd as [|[Hd|]]; try lia.
  rewrite u64_id in Hd by lia. lia.
Qed.

(** The main path of [push_substring]: placing, then assembling. *)
Lemma push_main r hist data index :
  ra_inv r hist -> no_overflow r -> 0 <= index -> 0 < zlen data -> index + zlen data < W64 ->
  zlen hist <= index + zlen data ->
  exists l' w, 
    (let* (l, size) :=
       place data index (window_last r) (Z.max (zlen hist) index) (index + zlen data - 1)
         (ra_staging_size r) (ra_staging_list r) in
     Ok (assemble l size (zlen hist) (ra_output r)))
    = Ok (l', total l', zlen hist + zlen w, appended (ra_output r) w) /\
    sorted_between (zlen hist + zlen w + 1) (window_last r) l' /\
    zlen hist + zlen w <= window_last r + 1 /\
    (forall i, staged_at l' i =
       if i <? zlen hist + zlen w then None else learned r data index i) /\
    (forall k, 0 <= k < zlen w -> znth w k = learned r data index (zlen hist + k)) /\
    learned r data index (zlen hist + zlen w) = None.
Proof.
  intros Hr Hov Hidx Hz Hfit Hge. pose proof Hr as [H1 H2 H3 H4 H5 H6 H7 H8 H9].
  unfold no_overflow in Hov. rewrite H4 in Hov. zpos.
  pose proof (buffer_size_nonneg (ra_output r)) as Hb0.
  assert (Hroom : buffer_size (ra_output r) <= bs_capacity (ra_output r)) by apply H1.
  assert (Hwin : window_last r = zlen hist - buffer_size (ra_output r) + ra_capacity r - 1)
    by (unfold window_last; lia).
  assert (Hs0 : sorted_between (zlen hist) (window_last r) (ra_staging_list r))
    by (apply (sorted_weaken (zlen hist + 1) _ (window_last r)); [lia|lia|done]).
  pose proof (total_bound _ _ _ Hs0) as Ht.
  destruct (place_spec data index (window_last r) (index + zlen data - 1)
    ltac:(lia) ltac:(lia) ltac:(lia) ltac:(lia) (ra_staging_list r)
    (Z.max (zlen hist) index) (zlen hist) (ra_staging_size r))
    as (l1 & z1 & -> & Hs1 & Hz1 & Hat1); try lia; try done.
  cbn. pose proof (total_bound _ _ _ Hs1) as Ht1.
  assert (Hz1' : z1 = total l1) by (rewrite Hz1, u64_id; lia). clear Hz1. subst z1.
  destruct (assemble_spec l1 (total l1) (zlen hist) (ra_output r) (window_last r))
    as (w & l' & -> & [A1 A2 A3 A4 A5 A6]); try lia; try done.
  exists l', w. rewrite <- A3. split; [done|].
  assert (Hle : forall i, zlen hist <= i -> staged_at l1 i = learned r data index i).
  { intros i Hi. rewrite Hat1. unfold learned. zcase; [|lia]. unfold offer.
    destruct (staged_at (ra_staging_list r) i); [done|]. rewrite H4.
    destruct (znth data (i - index)) eqn:E.
    - apply znth_Some in E. by in_range.
    - by repeat case_match. }
  repeat split; try done.
  - intros i. rewrite A4. zcase; [done|]. zpos. apply Hle. lia.
  - intros k Hk. rewrite <- Hle by lia. rewrite A5 by lia. f_equal. lia.
  - rewrite <- Hle; [done|]. zpos. lia.
Qed.

Lemma pushed_assembled r hist data index is_eof l' w :
  ra_inv r hist ->
  sorted_between (zlen hist + zlen w + 1) (window_last r) l' ->
  zlen hist + zlen w <= window_last r + 1 -> no_overflow r ->
  (forall i, staged_at l' i =
     if i <? zlen hist + zlen w then None else learned r data index i) ->
  (forall k, 0 <= k < zlen w -> znth w k = learned r data index (zlen hist + k)) ->
  learned r data index (zlen hist + zlen w) = None ->
  pushed r hist data index is_eof
    (eof_process (mkReassembler l' (total l') (zlen hist + zlen w)
       (if is_eof then true else ra_have_eof r)
       (if is_eof then index +! zlen data else ra_eof_index r)
       (appended (ra_output r) w) (ra_capacity r))) w.
Proof.
  intros [H1 H2 H3 H4 H5 H6 H7 H8 H9] B1 B2 Hov B3 B4 B5.
  unfold no_overflow, window_last in *. zpos.
  pose proof (buffer_size_nonneg (ra_output r)).
  assert (Hb : buffer_size (appended (ra_output r) w) = buffer_size (ra_output r) + zlen w)
    by (unfold buffer_size; simpl; zl).
  constructor; try done.
  - apply eof_process_inv. constructor; simpl; rewrite ?zlen_app, ?Hb; try done; try lia.
    + apply appended_ok; [done|lia].
    + rewrite H5, u64_id; lia.
    + rewrite H7, zdrop_app_le by lia. do 2 f_equal. lia.
    + unfold window_last; simpl. rewrite Hb. eapply sorted_weaken; [| |exact B1]; lia.
  - unfold eof_process; simpl. by case_match.
  - unfold eof_process; simpl. case_match; by destruct is_eof.
  - unfold eof_process; simpl. by case_match.
  - unfold eof_process; simpl. destruct ((if is_eof then _ else _) && _) eqn:E; simpl; by rewrite E.
  - intros i. unfold eof_process; simpl.
    destruct ((if is_eof then _ else _) && _) eqn:E; simpl; rewrite E; [done|apply B3].
Qed.

Lemma sorted_Forall lo hi l :
  0 <= lo -> hi < W64 - 1 -> sorted_between lo hi l ->
  Forall (fun s => 0 <= st_start s <= st_end s /\ st_end s <= hi /\ st_end s < W64 - 1) l.
Proof.
  revert lo. induction l as [|s l IH]; intros lo H0 Hh; simpl; [constructor|].
  intros (? & ? & ? & H). constructor; [lia|]. apply (IH (st_end s + 1)); [lia..|done].
Qed.

Lemma push_substring_pushed r hist data index is_eof :
  ra_inv r hist -> no_overflow r -> index_ok r data index ->
  exists r' w, push_substring r data index is_eof = Ok r' /\
    pushed r hist data index is_eof r' w.
Proof.
  intros Hr Hov (Hidx & Hlen & Htop). pose proof Hr as [H1 H2 H3 H4 H5 H6 H7 H8 H9].
  pose proof Hov as Hov'. unfold no_overflow in Hov'. rewrite H4 in Hov'.
  pose proof (buffer_size_nonneg (ra_output r)) as Hb0.
  assert (Hroom : buffer_size (ra_output r) <= bs_capacity (ra_output r)) by apply H1.
  unfold push_substring. zpos. rewrite H4.
  destruct (Z.leb_spec (zlen data) 0) as [Hz|Hz].
  { eexists _, []. split; [done|]. rewrite <- H4. apply pushed_nothing; [done|].
    intros. eapply learned_nothing; eauto. lia. }
  destruct (Z.ltb_spec (index +! zlen data) (zlen hist)) as [Ho|Ho].
  { eexists _, []. split; [done|]. rewrite <- H4. apply pushed_nothing; [done|].
    intros. eapply learned_nothing; eauto. lia. }
  assert (Hwin : (zlen hist -! buffer_size (ra_output r)) +! (ra_capacity r -! 1) = window_last r).
  { unfold window_last. nowrap. lia. }
  cbn [ra_staging_size ra_staging_list ra_output ra_capacity]. rewrite Hwin.
  assert (Hwin' : window_last r = zlen hist - buffer_size (ra_output r) + ra_capacity r - 1)
    by (unfold window_last; lia).
  destruct (Z.lt_ge_cases (index + zlen data) W64) as [Hfit|Hnofit].
  - replace ((index +! zlen data) -! 1) with (index + zlen data - 1) by (nowrap; lia).
    destruct (push_main r hist data index) as (l' & w & E & B1 & B2 & B3 & B4 & B5); try lia; try done.
    { rewrite u64_id in Ho by lia. lia. }
    destruct (place _ _ _ _ _ _ _) as [[l1 z1]|]; [|done]. cbn in E |- *.
    injection E as ->. eexists _, w. split; [done|]. by apply pushed_assembled.
  - assert (E : place data index (window_last r) (Z.max (zlen hist) index)
      ((index +! zlen data) -! 1) (ra_staging_size r) (ra_staging_list r)
      = Ok (ra_staging_list r, ra_staging_size r)).
    { pose proof (sorted_Forall (zlen hist + 1) (window_last r) _ ltac:(lia) ltac:(lia) H8).
      destruct (Z.eq_dec (index + zlen data) W64) as [E|N].
      - apply place_outside; [lia|done].
      - apply place_nothing; [wz|done]. }
    rewrite E. cbn. rewrite (assemble_stop _ _ _ _ (window_last r)) by done.
    eexists _, []. split; [done|]. rewrite <- H4. apply pushed_nothing; [done|].
    intros. eapply learned_nothing; eauto. lia.
Qed.

(** ** The contract of [push_substring] *)

(** C11: [push_substring] never throws and does exactly this, for any data and
    index: the output grows by the longest run of known bytes that starts at
    the first missing index, where the known bytes are those already waiting
    and those of [data] inside the window; earlier bytes win over later ones;
    everything else known keeps waiting; and when the end of the stream has
    been announced and reached, the input is ended and the list is cleared. *)
Theorem push_substring_correct r hist data index is_eof :
  ra_inv r hist -> no_overflow r -> index_ok r data index ->
  exists r' w,
    push_substring r data index is_eof = Ok r' /\
    ra_inv r' (hist ++ w) /\
    (forall k, 0 <= k < zlen w -> znth w k = learned r data index (zlen hist + k)) /\
    learned r data index (zlen hist + zlen w) = None /\
    let have_eof := is_eof || ra_have_eof r in
    let eof_index := if is_eof then index +! zlen data else ra_eof_index r in
    let finished := have_eof && (eof_index <=? zlen hist + zlen w) in
    ra_output r' =
      (if finished then end_input (appended (ra_output r) w) else appended (ra_output r) w) /\
    forall i, staged_at (ra_staging_list r') i =
      if finished then None
      else if i <? zlen hist + zlen w then None else learned r data index i.
Proof.
  intros Hr Hov Hi.
  destruct (push_substring_pushed r hist data index is_eof Hr Hov Hi) as (r' & w & E & []).
  exists r', w. rewrite <- pu_have_eof0, <- pu_eof_index0. auto 10.
Qed.

(** Bytes 2 to 4 wait, byte 0 arrives with byte 1: the run up to byte 4 is
    assembled. *)
Lemma push_substring_correct_witness :
  let r := mkReassembler [mkStaged 2 4 [x63; x64; x65]] 3 0 false 0 (new_ByteStream 8) 8 in
  exists r' w, push_substring r [x61; x62] 0 false = Ok r' /\ ra_inv r' ([] ++ w).
Proof.
  set (r := mkReassembler _ _ _ _ _ _ _).
  assert (Hr : ra_inv r []).
  { constructor; try done; try (vm_compute; intuition congruence). }
  destruct (push_substring_correct r [] [x61; x62] 0 false Hr) as (r' & w & H1 & H2 & _);
    [reflexivity| |eauto].
  split; [split; vm_compute; congruence|]. split; [reflexivity|]. vm_compute. discriminate.
Defined.

(** ** Counting *)

Definition waiting (l : list staged) (i : Z) : bool := bool_decide (is_Some (staged_at l i)).

Lemma filter_seqZ_none (P : Z -> bool) lo n :
  (forall i, lo <= i < lo + n -> P i = false) -> List.filter P (seqZ lo n) = [].
Proof.
  intros H.
  assert (Hf : Forall (fun i => P i = false) (seqZ lo n)).
  { apply Forall_forall. intros i Hi. apply elem_of_seqZ in Hi. apply H. lia. }
  induction Hf as [|i l Hi _ IH]; simpl; [done|]. by rewrite Hi.
Qed.

Lemma filter_seqZ_all (P : Z -> bool) lo n :
  (forall i, lo <= i < lo + n -> P i = true) -> List.filter P (seqZ lo n) = seqZ lo n.
Proof.
  intros H.
  assert (Hf : Forall (fun i => P i = true) (seqZ lo n)).
  { apply Forall_forall. intros i Hi. apply elem_of_seqZ in Hi. apply H. lia. }
  induction Hf as [|i l Hi _ IH]; simpl; [done|]. rewrite Hi. by f_equal.
Qed.

Lemma filter_seqZ_ext (P Q : Z -> bool) lo n :
  (forall i, lo <= i < lo + n -> P i = Q i) -> List.filter P (seqZ lo n) = List.filter Q (seqZ lo n).
Proof.
  intros H.
  assert (Hf : Forall (fun i => P i = Q i) (seqZ lo n)).
  { apply Forall_forall. intros i Hi. apply elem_of_seqZ in Hi. apply H. lia. }
  induction Hf as [|i l Hi _ IH]; simpl; [done|]. rewrite Hi. by rewrite IH.
Qed.

Lemma total_counts l : forall lo hi,
  sorted_between lo hi l -> lo <= hi + 1 ->
  total l = zlen (List.filter (waiting l) (seqZ lo (hi + 1 - lo))).
Proof.
  induction l as [|s l IH]; intros lo hi Hl Hlo.
  { rewrite filter_seqZ_none; [done|]. intros i _. done. }
  pose proof Hl as (H1 & H2 & H3 & Hl').
  replace (hi + 1 - lo) with
    ((st_start s - lo) + ((st_end s + 1 - st_start s) + (hi + 1 - (st_end s + 1)))) by lia.
  rewrite seqZ_app by lia. rewrite seqZ_app by lia. rewrite !List.filter_app, !zlen_app.
  replace (lo + (st_start s - lo)) with (st_start s) by lia.
  replace (st_start s + (st_end s + 1 - st_start s)) with (st_end s + 1) by lia.
  rewrite (filter_seqZ_none (waiting (s :: l)) lo), (filter_seqZ_all (waiting (s :: l)) (st_start s)).
  - rewrite (filter_seqZ_ext (waiting (s :: l)) (waiting l) (st_end s + 1)).
    + rewrite <- IH by (done || lia). rewrite zlen_nil. unfold zlen. rewrite length_seqZ. simpl. lia.
    + intros i Hi. unfold waiting. simpl. by in_range.
  - intros i Hi. unfold waiting. apply bool_decide_eq_true.
    simpl. in_range. apply znth_range. lia.
  - intros i Hi. unfold waiting. apply bool_decide_eq_false.
    rewrite (staged_at_below (st_start s) hi (s :: l)); [by intros []|simpl; split; [lia|done]|lia].
Qed.

Lemma empty_nil r hist : ra_inv r hist -> empty r = true <-> ra_staging_list r = [].
Proof.
  intros [H1 H2 H3 H4 H5 H6 H7 H8 H9]. unfold empty. rewrite H9, Z.eqb_eq.
  destruct (ra_staging_list r) as [|s l]; [done|].
  destruct H8 as (? & ? & ? & Hl). pose proof (total_bound _ _ _ Hl). simpl. split; [lia|done].
Qed.

Lemma held_bytes r hist :
  ra_inv r hist -> buffer_size (ra_output r) + unassembled_bytes r <= ra_capacity r.
Proof.
  intros [H1 H2 H3 H4 H5 H6 H7 H8 H9]. destruct H1 as (_ & Hb & _).
  assert (Hs0 : sorted_between (zlen hist) (window_last r) (ra_staging_list r))
    by (apply (sorted_weaken (zlen hist + 1) _ (window_last r)); [lia|lia|done]).
  assert (Hle : zlen hist <= window_last r + 1) by (unfold window_last; lia).
  unfold unassembled_bytes. rewrite H9. pose proof (total_bound _ _ _ Hs0 Hle).
  unfold window_last in *. lia.
Qed.

(** [unassembled_bytes] is the number of distinct indices inside the window
    whose byte has arrived and is not yet assembled, [empty] says whether it
    is zero, and together with the bytes in the output it never exceeds the
    capacity. *)
Theorem unassembled_bytes_counts r hist :
  ra_inv r hist ->
  unassembled_bytes r =
    zlen (List.filter (waiting (ra_staging_list r))
            (seqZ (zlen hist) (window_last r + 1 - zlen hist))) /\
  (empty r = true <-> ra_staging_list r = []) /\
  buffer_size (ra_output r) + unassembled_bytes r <= ra_capacity r.
Proof.
  intros Hr. split; [|split; [by eapply empty_nil|by eapply held_bytes]].
  destruct Hr as [H1 H2 H3 H4 H5 H6 H7 H8 H9]. destruct H1 as (_ & Hb & _).
  unfold unassembled_bytes. rewrite H9. apply total_counts; [|unfold window_last; lia].
  by apply (sorted_weaken (zlen hist + 1) _ (window_last r)); [lia|lia|].
Qed.

Lemma unassembled_bytes_counts_witness :
  let r := mkReassembler [mkStaged 2 4 [x63; x64; x65]] 3 0 false 0 (new_ByteStream 8) 8 in
  unassembled_bytes r = 3 /\ buffer_size (ra_output r) + unassembled_bytes r <= ra_capacity r.
Proof.
  set (r := mkReassembler _ _ _ _ _ _ _). split; [reflexivity|].
  apply (unassembled_bytes_counts r []).
  constructor; try done; try (vm_compute; intuition congruence).
Defined.

(** With capacity zero the bound on the window wraps around and the
    capacity is not respected: the byte is counted as assembled although the
    output accepted nothing, so the stream loses it. *)
Theorem push_capacity_zero :
  exists r', push_substring (new_StreamReassembler 0) [x61] 0 false = Ok r' /\
    ra_unassembled_start_index r' = 1 /\ bytes_written (ra_output r') = 0.
Proof. eexists. split; [vm_compute; reflexivity|]. split; reflexivity. Qed.

(** ** Reassembling a given stream *)

Inductive ra_event : Type :=
  | EPush (data : bytes) (index : Z) (is_eof : bool)
  | ERead (n : Z).

Definition ra_step (r : StreamReassembler) (e : ra_event) : result StreamReassembler :=
  match e with
  | EPush d i f => push_substring r d i f
  | ERead n => Ok (with_stream_out r (read (ra_output r) n).1)
  end.

Fixpoint ra_run (r : StreamReassembler) (es : list ra_event) : result StreamReassembler :=
  match es with
  | [] => Ok r
  | e :: es => let* r := ra_step r e in ra_run r es
  end.

Section Stream.
(** The stream the substrings are taken from, and the capacity. *)
Context (S : bytes) (c : Z).
Hypothesis Hc : 1 <= c.
Hypothesis HS : zlen S + c < W64.

(** An event is consistent with the stream: a pushed substring is a piece of
    it, flagged as last only if it reaches the end; an empty substring that is
    not flagged may come from anywhere. *)
Definition consistent (e : ra_event) : Prop :=
  match e with
  | EPush d i f => 0 <= i < W64 /\ d = ztake (zlen d) (zdrop i S) /\
                   (d <> [] \/ f = true -> i + zlen d <= zlen S) /\
                   (f = true -> i + zlen d = zlen S)
  | ERead n => 0 <= n
  end.

Record stream_inv (r : StreamReassembler) (hist : bytes) : Prop := {
  si_inv : ra_inv r hist;
  si_cap : ra_capacity r = c;
  si_hist : hist = ztake (zlen hist) S;
  si_staged : forall i b, staged_at (ra_staging_list r) i = Some b -> znth S i = Some b;
  si_eof : ra_have_eof r = true -> ra_eof_index r = zlen S }.

(** The output is ended exactly when the end was announced and the whole stream
    is there. *)
Definition ended_rightly (r : StreamReassembler) (hist : bytes) : Prop :=
  input_ended (ra_output r) = true <-> ra_have_eof r = true /\ zlen hist = zlen S.

(** The index [i] of the stream has been received. *)
Definition known (r : StreamReassembler) (hist : bytes) (i : Z) : Prop :=
  i < zlen hist \/ is_Some (staged_at (ra_staging_list r) i).

Definition covers (e : ra_event) (i : Z) : Prop :=
  match e with EPush d j _ => j <= i < j + zlen d | ERead _ => False end.

Lemma hist_le r hist : stream_inv r hist -> zlen hist <= zlen S.
Proof. intros []. rewrite si_hist0. zl. Qed.

Lemma consistent_byte d i k :
  0 <= i -> d = ztake (zlen d) (zdrop i S) -> 0 <= k < zlen d -> znth d k = znth S (i + k).
Proof.
  intros Hi E Hk. rewrite E, znth_ztake by lia. zcase; [|lia]. by rewrite znth_zdrop by lia.
Qed.

(** What is learned from a consistent push agrees with the stream. *)
Lemma learned_consistent r hist d i f j b :
  stream_inv r hist -> consistent (EPush d i f) ->
  learned r d i j = Some b -> znth S j = Some b.
Proof.
  intros Hr (Hi & Hd & Hle & _) Hl. unfold learned, offer in Hl.
  destruct (Z.ltb_spec (i + zlen d) W64); [|by apply (si_staged _ _ Hr)].
  destruct (staged_at (ra_staging_list r) j) eqn:E.
  { rewrite <- Hl. by apply (si_staged _ _ Hr). }
  destruct (_ && _); [|done]. pose proof (znth_Some _ _ _ Hl) as Hk.
  rewrite (consistent_byte d i (j - i)) in Hl by (done || lia).
  by replace (i + (j - i)) with j in Hl by lia.
Qed.

Lemma prefix_extend hist w :
  hist = ztake (zlen hist) S ->
  (forall k, 0 <= k < zlen w -> znth w k = znth S (zlen hist + k)) ->
  zlen hist + zlen w <= zlen S ->
  hist ++ w = ztake (zlen (hist ++ w)) S.
Proof.
  intros Hh Hw Hle. zpos. rewrite zlen_app, ztake_split, <- Hh by lia. f_equal.
  apply znth_ext. intros k Hk. rewrite znth_ztake by lia. zcase.
  - rewrite Hw, znth_zdrop by lia. done.
  - apply znth_None. lia.
Qed.

Lemma stream_push r hist d i f :
  stream_inv r hist -> consistent (EPush d i f) ->
  exists r' w, push_substring r d i f = Ok r' /\ stream_inv r' (hist ++ w) /\
    ra_have_eof r' = (f || ra_have_eof r) /\
    bs_buffer (ra_output r') = bs_buffer (ra_output r) ++ w /\
    (input_ended (ra_output r') = true <-> input_ended (ra_output r) = true \/
       (ra_have_eof r' = true /\ zlen (hist ++ w) = zlen S)) /\
    (forall j, known r hist j -> j < zlen S -> known r' (hist ++ w) j) /\
    (forall j, i <= j < i + zlen d -> j <= window_last r -> known r' (hist ++ w) j).
Proof.
  intros Hr Hcon. pose proof (hist_le _ _ Hr) as Hle.
  pose proof Hr as [Hinv Hcap Hh Hst Heof]. pose proof Hcon as (Hi & Hd & Hil & Hf).
  pose proof (ri_next _ _ Hinv) as Hnext. zpos.
  destruct (push_substring_pushed r hist d i f) as (r' & w & E & P); try done.
  { unfold no_overflow. lia. }
  { split; [lia|]. destruct d as [|b d]; [rewrite zlen_nil; lia|].
    specialize (Hil ltac:(by left)). split; lia. }
  destruct P as [P1 P2 P3 P4 P5 P6 P7 P8]. exists r', w.
  assert (Hw : forall k, 0 <= k < zlen w -> znth w k = znth S (zlen hist + k)).
  { intros k Hk. rewrite P2 by done. destruct (learned r d i (zlen hist + k)) eqn:El.
    - symmetry. eapply learned_consistent; eauto.
    - rewrite <- P2 in El by done. apply znth_None in El. lia. }
  assert (Hlen : zlen hist + zlen w <= zlen S).
  { destruct (Z.eq_dec (zlen w) 0) as [Z|Z]; [lia|]. zpos.
    specialize (Hw (zlen w - 1) ltac:(lia)). destruct (znth w (zlen w - 1)) eqn:Ew.
    - symmetry in Hw. apply znth_Some in Hw. lia.
    - apply znth_None in Ew. lia. }
  assert (He : ra_have_eof r' = true -> ra_eof_index r' = zlen S).
  { rewrite P5, P6. destruct f; simpl; [|done]. intros _. rewrite u64_id by lia. by apply Hf. }
  assert (Hfin : (ra_have_eof r' && (ra_eof_index r' <=? zlen hist + zlen w)) = true <->
                 ra_have_eof r' = true /\ zlen (hist ++ w) = zlen S).
  { rewrite andb_true_iff, Z.leb_le, zlen_app. split.
    - intros [Ha Hb]. rewrite (He Ha) in Hb. split; [done|lia].
    - intros [Ha Hb]. rewrite (He Ha). split; [done|lia]. }
  assert (Hknow : forall j, is_Some (learned r d i j) -> j < zlen S -> known r' (hist ++ w) j).
  { intros j Hj Hjs. unfold known. rewrite P8, zlen_app.
    destruct (_ && _); [left; destruct (proj1 Hfin eq_refl) as [_ Ef]; rewrite zlen_app in Ef; lia|].
    destruct (Z.ltb_spec j (zlen hist + zlen w)); [by left|by right]. }
  split; [done|]. split; [constructor; auto; try congruence|split; [done|split; [|split; [|split]]]].
  - by apply prefix_extend.
  - intros j b. rewrite P8. destruct (_ && _); [done|]. zcase; [done|].
    eapply learned_consistent; eauto.
  - rewrite P7. by destruct (_ && _).
  - rewrite P7, <- Hfin. unfold input_ended.
    destruct (_ && _) eqn:Ef; simpl; [tauto|]. split; [auto|]. by intros [|].
  - intros j [Hj|Hj] Hjs; [left; zl|].
    apply Hknow; [|done]. unfold learned, offer.
    zcase; [|done]. destruct (staged_at _ j); [done|by destruct Hj].
  - intros j Hj Hwin. assert (Hdn : d <> []) by (intros ->; rewrite zlen_nil in Hj; lia).
    specialize (Hil ltac:(by left)). destruct (Z.lt_ge_cases j (zlen hist)); [left; zl|].
    apply Hknow; [|lia]. unfold learned, offer.
    zcase; [|lia]. destruct (staged_at _ j); [done|].
    rewrite Hnext. in_range. apply znth_range. lia.
Qed.

Lemma stream_read r hist n :
  0 <= n -> stream_inv r hist ->
  stream_inv (with_stream_out r (read (ra_output r) n).1) hist.
Proof.
  intros Hn []. constructor; auto; simpl. by apply read_inv.
Qed.

Lemma read_ended s n : input_ended (read s n).1 = input_ended s.
Proof. unfold read, pop_output, set_error. by repeat case_match. Qed.

Lemma stream_run es : forall r hist,
  stream_inv r hist -> Forall consistent es ->
  exists r' w, ra_run r es = Ok r' /\ stream_inv r' (hist ++ w) /\
    (ra_have_eof r' = true <->
       ra_have_eof r = true \/ Exists (fun e => exists d i, e = EPush d i true) es) /\
    (ended_rightly r hist -> ended_rightly r' (hist ++ w)) /\
    (forall j, known r hist j -> j < zlen S -> known r' (hist ++ w) j) /\
    (zlen S <= c -> forall j, Exists (fun e => covers e j) es -> known r' (hist ++ w) j).
Proof.
  induction es as [|e es IH]; intros r hist Hr Hes.
  { exists r, []. rewrite app_nil_r, Exists_nil. repeat (split; [done || tauto|]).
    intros _ j H. by apply Exists_nil in H. }
  inversion Hes as [|? ? He Hes']; subst. destruct e as [d i f|n]; cbn.
  - destruct (stream_push r hist d i f Hr He) as (r1 & w1 & -> & Hr1 & Hf & _ & Hn & Hk & Hc1). cbn.
    destruct (IH r1 (hist ++ w1) Hr1 Hes') as (r2 & w2 & E & Hr2 & Hf2 & Hn2 & Hk2 & Hc2).
    exists r2, (w1 ++ w2). rewrite app_assoc. split; [done|]. split; [done|]. split; [|split; [|split]].
    + rewrite Hf2, Hf, orb_true_iff, Exists_cons. naive_solver.
    + intros Hend. apply Hn2. unfold ended_rightly in *. rewrite Hn, Hend, Hf.
      pose proof (hist_le _ _ Hr1) as Hle. rewrite zlen_app in *. zpos.
      split; [|by right]. intros [[Ha Hb]|Hx]; [|done]. rewrite Ha, orb_true_r. split; [done|lia].
    + auto.
    + intros HSc j Hj. apply Exists_cons in Hj as [Hj|Hj]; [|by apply Hc2].
      destruct He as (Hi & _ & Hil & _). simpl in Hj.
      assert (Hdn : d <> []) by (intros ->; rewrite zlen_nil in Hj; lia).
      specialize (Hil ltac:(by left)). apply Hk2; [|lia].
      apply Hc1; [lia|]. unfold window_last.
      pose proof Hr as [Hinv Hcap _ _ _]. rewrite (ri_next _ _ Hinv), Hcap.
      pose proof (ri_le _ _ Hinv). lia.
  - destruct (IH (with_stream_out r (read (ra_output r) n).1) hist)
      as (r2 & w2 & E & Hr2 & Hf2 & Hn2 & Hk2 & Hc2); [by apply stream_read|done|].
    exists r2, w2. split; [done|]. split; [done|]. split; [|split; [|split]].
    + rewrite Hf2, Exists_cons. simpl. naive_solver.
    + intros Hend. apply Hn2. unfold ended_rightly in *. simpl. by rewrite read_ended.
    + done.
    + intros HSc j Hj. apply Exists_cons in Hj as [[]|Hj]. by apply Hc2.
Qed.

Lemma stream_new : stream_inv (new_StreamReassembler c) [].
Proof.
  constructor; try done. apply new_inv. zpos. lia.
Qed.

Lemma ended_new : ended_rightly (new_StreamReassembler c) [].
Proof. split; [done|by intros []]. Qed.
(** A push teaches nothing beyond the bytes it carries and the window admits. *)
Lemma stream_push_only r hist d i f r' hist' j :
  stream_inv r hist -> consistent (EPush d i f) -> push_substring r d i f = Ok r' ->
  stream_inv r' hist' -> known r' hist' j ->
  known r hist j \/ (i <= j < i + zlen d /\ j <= window_last r).
Proof.
  intros Hr Hcon E Hr' Hk. pose proof (hist_le _ _ Hr) as Hle. pose proof (si_inv _ _ Hr) as Hinv.
  pose proof Hcon as (Hi & Hd & Hil & Hf). pose proof (ri_next _ _ Hinv) as Hnext. zpos.
  destruct (push_substring_pushed r hist d i f) as (r1 & w & E1 & P); try done.
  { unfold no_overflow. rewrite (si_cap _ _ Hr). lia. }
  { split; [lia|]. destruct d as [|b d]; [rewrite zlen_nil; lia|].
    specialize (Hil ltac:(by left)). split; lia. }
  rewrite E in E1. injection E1 as <-. destruct P as [P1 P2 _ _ _ _ _ P8].
  assert (Hlen : zlen hist' = zlen (hist ++ w))
    by (rewrite <- (ri_written _ _ (si_inv _ _ Hr')), <- (ri_written _ _ P1); done).
  assert (Hl : is_Some (learned r d i j) -> known r hist j \/ (i <= j < i + zlen d /\ j <= window_last r)).
  { unfold learned, offer, known. intros Hs. destruct (i + zlen d <? W64); [|tauto].
    destruct (staged_at (ra_staging_list r) j); [left; right; eauto|].
    destruct (_ && _) eqn:Ew in Hs; [|by destruct Hs]. destruct Hs as [b Hb].
    apply znth_Some in Hb. zb. right. lia. }
  destruct Hk as [Hk|Hk].
  - destruct (Z.lt_ge_cases j (zlen hist)); [left; by left|]. rewrite Hlen, zlen_app in Hk. apply Hl.
    specialize (P2 (j - zlen hist) ltac:(lia)). replace (zlen hist + (j - zlen hist)) with j in P2 by lia.
    rewrite <- P2. apply znth_range. lia.
  - rewrite P8 in Hk. destruct (_ && _) in Hk; [by destruct Hk|]. destruct (_ <? _) in Hk; [by destruct Hk|].
    auto.
Qed.

(** The index [j] was brought by a push while the window admitted it; the
    window moves with what is assembled and read. *)
Fixpoint window_covers (r : StreamReassembler) (es : list ra_event) (j : Z) : Prop :=
  match es with
  | [] => False
  | e :: es =>
      match e with
      | EPush d i _ => i <= j < i + zlen d /\ j <= window_last r
      | ERead _ => False
      end \/
      match ra_step r e with Ok r => window_covers r es j | Err _ => False end
  end.

(** What is known after a run is what was known before and what the window
    admitted. *)
Lemma stream_run_known es : forall r hist r' hist' j,
  stream_inv r hist -> Forall consistent es -> ra_run r es = Ok r' -> stream_inv r' hist' ->
  0 <= j < zlen S -> known r' hist' j <-> known r hist j \/ window_covers r es j.
Proof.
  induction es as [|e es IH]; intros r hist r' hist' j Hr Hes E Hr' Hj.
  { injection E as <-. rewrite (si_hist _ _ Hr), (si_hist _ _ Hr').
    rewrite <- (ri_written _ _ (si_inv _ _ Hr)), <- (ri_written _ _ (si_inv _ _ Hr')). cbn. tauto. }
  inversion Hes as [|? ? He Hes']; subst. destruct e as [d i f|n]; cbn in E |- *.
  - destruct (stream_push r hist d i f Hr He) as (r1 & w1 & E1 & Hr1 & _ & _ & _ & Hk & Hc1).
    pose proof (fun H => stream_push_only r hist d i f r1 (hist ++ w1) j Hr He E1 Hr1 H) as Ho.
    rewrite E1 in E |- *. cbn in E. rewrite (IH r1 (hist ++ w1) r' hist' j Hr1 Hes' E Hr' Hj).
    split; [|intros [H|[[H1 H2]|H]]]; [|left; apply Hk; [done|lia]|left; by apply Hc1|by right].
    intros [H|H]; [|by right; right]. destruct (Ho H); [by left|by right; left].
  - pose proof (stream_read r hist n He Hr) as Hr1.
    rewrite (IH _ hist r' hist' j Hr1 Hes' E Hr' Hj). unfold known. cbn. tauto.
Qed.
End Stream.

(** Safety of reassembly: whatever consistent pieces of a stream arrive, in
    any order, duplicated, overlapping or beyond the window, and whatever is
    read in between, nothing throws, the assembled bytes are a prefix of the
    stream, and the output is ended exactly when the end was announced and
    the whole stream is there. *)
Theorem reassembly_safe S c es :
  1 <= c -> zlen S + c < W64 -> Forall (consistent S) es ->
  exists r' hist, ra_run (new_StreamReassembler c) es = Ok r' /\ ra_inv r' hist /\
    hist = ztake (zlen hist) S /\
    (input_ended (ra_output r') = true -> hist = S).
Proof.
  intros Hc HS Hes.
  destruct (stream_run S c Hc HS es (new_StreamReassembler c) []) as (r' & w & E & H & _ & Hn & _);
    [by apply stream_new|done|].
  exists r', ([] ++ w). split; [done|]. destruct H. split; [done|]. split; [done|].
  intros H. destruct (proj1 (Hn (ended_new S c)) H) as [_ Hz]. rewrite si_hist0, Hz. apply ztake_all. lia.
Qed.

Lemma reassembly_safe_witness :
  exists r' hist, ra_run (new_StreamReassembler 2)
      [EPush [x62; x63] 1 true; ERead 1; EPush [x61; x62] 0 false] = Ok r' /\
    ra_inv r' hist /\ hist = ztake (zlen hist) [x61; x62; x63].
Proof.
  destruct (reassembly_safe [x61; x62; x63] 2
    [EPush [x62; x63] 1 true; ERead 1; EPush [x61; x62] 0 false]) as (r' & h & ? & ? & ? & _);
    [lia|reflexivity|repeat constructor; vm_compute; congruence|eauto].
Defined.

(** C10: Reassembly is exact.  Whatever consistent pieces of a stream arrive, in
    any order, duplicated, overlapping or beyond the window, and whatever is
    read in between: what is assembled is the prefix of the stream up to the
    first byte that no push brought while the moving window admitted it, and
    the output has ended exactly when that is the whole stream and a push
    announced the end.  If the stream fits in the capacity, the window admits
    every byte. *)
Theorem reassembly_complete S c es :
  1 <= c -> zlen S + c < W64 -> Forall (consistent S) es ->
  exists r' n, ra_run (new_StreamReassembler c) es = Ok r' /\
    0 <= n <= zlen S /\ ra_inv r' (ztake n S) /\
    (forall i, 0 <= i < n -> window_covers (new_StreamReassembler c) es i) /\
    (n < zlen S -> ~ window_covers (new_StreamReassembler c) es n) /\
    (input_ended (ra_output r') = true <->
       Exists (fun e => exists d i, e = EPush d i true) es /\ n = zlen S) /\
    (zlen S <= c -> forall i, 0 <= i < zlen S -> Exists (fun e => covers e i) es ->
       window_covers (new_StreamReassembler c) es i).
Proof.
  intros Hc HS Hes. pose proof (stream_new S c Hc HS) as H0.
  destruct (stream_run S c Hc HS es (new_StreamReassembler c) [] H0 Hes)
    as (r' & w & E & H & Hf & Hn & _ & Hk).
  pose proof (hist_le _ _ _ _ H) as Hle. pose proof (inv_first_missing _ _ (si_inv _ _ _ _ H)) as Hm.
  assert (Hkn : forall j, 0 <= j < zlen S -> known r' ([] ++ w) j <->
    window_covers (new_StreamReassembler c) es j).
  { intros j Hj. rewrite (stream_run_known S c Hc HS es _ [] r' ([] ++ w) j H0 Hes E H Hj).
    unfold known at 1. cbn. rewrite zlen_nil. split; [|by right].
    intros [[Hj0|[b Hb]]|Hx]; [lia|done|done]. }
  exists r', (zlen ([] ++ w)). zpos. split; [done|]. split; [split; [apply zlen_nonneg|done]|].
  split; [rewrite <- (si_hist _ _ _ _ H); apply H|]. split; [|split; [|split]].
  - intros i Hi. apply Hkn; [lia|]. left. lia.
  - intros Hlt Hw. apply Hkn in Hw; [|split; [apply zlen_nonneg|lia]]. destruct Hw as [Hw|[b Hb]]; [lia|].
    congruence.
  - specialize (Hn (ended_new S c)). unfold ended_rightly in Hn. rewrite Hn, Hf. cbn. naive_solver.
  - intros HSc i Hi Hx. apply Hkn; [done|]. by apply Hk.
Qed.

(** Capacity 2: the byte at index 2 is refused at first and admitted after a
    read. *)
Lemma reassembly_complete_witness :
  let es := [EPush [x62; x63] 1 true; EPush [x61; x62] 0 false; ERead 1; EPush [x63] 2 true] in
  exists r' n, ra_run (new_StreamReassembler 2) es = Ok r' /\
    ra_inv r' (ztake n [x61; x62; x63]) /\ n = 3 /\ input_ended (ra_output r') = true.
Proof.
  intros es. destruct (reassembly_complete [x61; x62; x63] 2 es)
    as (r' & n & E & Hn & Hi & _ & Hm & He & _); [lia|reflexivity|repeat constructor; vm_compute; congruence|].
  exists r', n. split; [exact E|]. split; [exact Hi|]. change (zlen [x61; x62; x63]) with 3 in *.
  assert (n = 3) as ->.
  { assert (Hb : bs_written_length (ra_output r') = 3)
      by (clear - E; vm_compute in E; injection E as <-; reflexivity).
    rewrite (ri_written _ _ Hi), zlen_ztake in Hb by lia. change (zlen [x61; x62; x63]) with 3 in Hb. lia. }
  split; [reflexivity|]. apply He. split; [|reflexivity]. apply Exists_cons_hd. eauto.
Defined.
