(* ===== verification/Buffer.v ===== *)
(** * Buffers

    [libsponge/util/buffer.hh] and [.cc]: a shared read-only string that can
    discard bytes from its front, a list of such strings, and a list of
    views.  The strings are never modified, so a shared storage is modelled
    by its contents.  Each class is shown to behave as one contiguous
    string. *)
From S2P Require Import Prelude.

(** [_storage] is null or points to a string. *)
Record Buffer : Type := mkBuffer { buf_storage : option bytes; buf_starting_offset : Z }.

Definition empty_Buffer : Buffer := mkBuffer None 0.
(** [Buffer(std::string &&)]. *)
Definition Buffer_of (s : bytes) : Buffer := mkBuffer (Some s) 0.

Definition buf_str (b : Buffer) : bytes :=
  match buf_storage b with
  | None => []
  | Some s => zdrop (buf_starting_offset b) s
  end.

(** [at]: the character as a [uint8_t]. *)
Definition buf_at (b : Buffer) (n : Z) : result Z :=
  match znth (buf_str b) n with Some c => Ok (b2z c) | None => Err out_of_range end.

Definition buf_size (b : Buffer) : Z := zlen (buf_str b).
Definition buf_copy (b : Buffer) : bytes := buf_str b.

Definition buf_remove_prefix (b : Buffer) (n : Z) : result Buffer :=
  if zlen (buf_str b) <? n then Err out_of_range
  else
    let offset := buf_starting_offset b +! n in
    match buf_storage b with
    | Some s => if offset =? zlen s then Ok (mkBuffer None offset) else Ok (mkBuffer (Some s) offset)
    | None => Ok (mkBuffer None offset)
    end.

(** The offset stays inside a string that exists in memory. *)
Definition buf_ok (b : Buffer) : Prop :=
  match buf_storage b with
  | None => True
  | Some s => 0 <= buf_starting_offset b <= zlen s /\ zlen s < W64
  end.

Lemma Buffer_of_ok s : zlen s < W64 -> buf_ok (Buffer_of s).
Proof. unfold buf_ok; simpl. zpos. lia. Qed.
Lemma empty_Buffer_ok : buf_ok empty_Buffer.
Proof. done. Qed.
Lemma buf_str_of s : buf_str (Buffer_of s) = s.
Proof. done. Qed.

Lemma buf_remove_prefix_ok b n :
  buf_ok b -> 0 <= n <= buf_size b ->
  exists b', buf_remove_prefix b n = Ok b' /\ buf_ok b' /\ buf_str b' = zdrop n (buf_str b).
Proof.
  destruct b as [[s|] o]; unfold buf_ok, buf_size, buf_remove_prefix, buf_str; simpl.
  - intros [Ho Hs] Hn. zl. destruct (Z.ltb_spec (Z.max 0 (zlen s - o)) n); [lia|].
    nowrap. zcase; (eexists; split; [done|]; simpl; split; [done || lia|]).
    + rewrite zdrop_zdrop by lia. symmetry. apply zdrop_all. lia.
    + by rewrite zdrop_zdrop by lia.
  - intros _ Hn. rewrite zlen_nil in *. destruct (Z.ltb_spec 0 n); [lia|].
    eexists. split; [done|]. split; [done|]. by rewrite zdrop_all by (rewrite zlen_nil; lia).
Qed.

Lemma buf_size_bound b : buf_ok b -> 0 <= buf_size b < W64.
Proof. destruct b as [[s|] o]; unfold buf_ok, buf_size, buf_str; simpl; intros; zl. Qed.

#[export] Hint Resolve Buffer_of_ok empty_Buffer_ok : sponge.

(** ** Lists of buffers *)

Definition BufferList : Type := list Buffer.

(** [BufferList(Buffer)] and [BufferList(std::string &&)]. *)
Definition BufferList_of_Buffer (b : Buffer) : BufferList := [b].
Definition BufferList_of (s : bytes) : BufferList := [Buffer_of s].

Definition bl_append (l other : BufferList) : BufferList := l ++ other.

(** [operator Buffer()]. *)
Definition bl_to_Buffer (l : BufferList) : result Buffer :=
  match l with
  | [] => Ok empty_Buffer
  | [b] => Ok b
  | _ => Err runtime_error
  end.

Definition bl_concatenate (l : BufferList) : bytes :=
  fold_left (fun ret buf => ret ++ buf_str buf) l [].

Definition bl_size (l : BufferList) : Z :=
  fold_left (fun ret buf => ret +! buf_size buf) l 0.

(** The loop ends: every iteration but the last drops a buffer. *)
Fixpoint bl_remove_prefix (l : BufferList) (n : Z) : result BufferList :=
  if 0 <? n then
    match l with
    | [] => Err out_of_range
    | b :: rest =>
        if n <? zlen (buf_str b) then let* b := buf_remove_prefix b n in Ok (b :: rest)
        else bl_remove_prefix rest (n -! zlen (buf_str b))
    end
  else Ok l.

(** ** Lists of views *)

Definition BufferViewList : Type := list bytes.

Definition BufferViewList_of_str (s : bytes) : BufferViewList := [s].
Definition BufferViewList_of (l : BufferList) : BufferViewList := map buf_str l.

Fixpoint bvl_remove_prefix (l : BufferViewList) (n : Z) : result BufferViewList :=
  if 0 <? n then
    match l with
    | [] => Err out_of_range
    | v :: rest =>
        if n <? zlen v then Ok (zdrop n v :: rest)
        else bvl_remove_prefix rest (n -! zlen v)
    end
  else Ok l.

Definition bvl_size (l : BufferViewList) : Z :=
  fold_left (fun ret v => ret +! zlen v) l 0.

(** An [iovec]: the bytes at [iov_base] and [iov_len]. *)
Definition as_iovecs (l : BufferViewList) : list (bytes * Z) :=
  map (fun v => (v, zlen v)) l.

(** ** A buffer list is one string *)

Lemma concatenate_eq l : bl_concatenate l = concat (map buf_str l).
Proof.
  unfold bl_concatenate.
  assert (H : forall acc, fold_left (fun ret buf => ret ++ buf_str buf) l acc
                          = acc ++ concat (map buf_str l)); [|apply H].
  induction l as [|b l IH]; intros acc; simpl; [by rewrite app_nil_r|].
  by rewrite IH, app_assoc.
Qed.

Lemma concatenate_cons b l : bl_concatenate (b :: l) = buf_str b ++ bl_concatenate l.
Proof. by rewrite !concatenate_eq. Qed.

Lemma concatenate_append l1 l2 :
  bl_concatenate (bl_append l1 l2) = bl_concatenate l1 ++ bl_concatenate l2.
Proof. unfold bl_append. by rewrite !concatenate_eq, map_app, concat_app. Qed.

(** Counting in [size_t] is counting, while the total fits. *)
Lemma fold_size {A} (f : A -> bytes) (l : list A) acc :
  0 <= acc -> acc + zlen (concat (map f l)) < W64 ->
  fold_left (fun ret x => ret +! zlen (f x)) l acc = acc + zlen (concat (map f l)).
Proof.
  revert acc. induction l as [|x l IH]; intros acc H0; simpl; [zl|]. intros Hb.
  rewrite zlen_app in *. zpos. rewrite u64_id by lia. rewrite IH by lia. lia.
Qed.

Lemma bl_size_eq l : zlen (bl_concatenate l) < W64 -> bl_size l = zlen (bl_concatenate l).
Proof. rewrite concatenate_eq. intros. by apply (fold_size buf_str l 0). Qed.

Lemma bvl_size_eq l : zlen (concat l) < W64 -> bvl_size l = zlen (concat l).
Proof.
  intros H. unfold bvl_size. rewrite (fold_size (fun v => v) l 0); rewrite ?map_id; lia || done.
Qed.

Lemma bl_remove_prefix_spec l : forall n,
  Forall buf_ok l -> 0 <= n < W64 -> zlen (bl_concatenate l) < W64 ->
  if zlen (bl_concatenate l) <? n then bl_remove_prefix l n = Err out_of_range
  else exists l', bl_remove_prefix l n = Ok l' /\ Forall buf_ok l' /\
       bl_concatenate l' = zdrop n (bl_concatenate l).
Proof.
  induction l as [|b l IH]; intros n Hl Hn Hsz.
  { simpl. change (bl_concatenate []) with (@nil byte). rewrite zlen_nil.
    destruct (Z.ltb_spec 0 n); [done|]. exists []. by replace n with 0 by lia. }
  inversion Hl as [|? ? Hb Hl']; subst. rewrite concatenate_cons in *.
  rewrite zlen_app in *. pose proof (zlen_nonneg (buf_str b)).
  pose proof (zlen_nonneg (bl_concatenate l)). cbn [bl_remove_prefix].
  destruct (Z.ltb_spec 0 n) as [Hpos|Hzero].
  - destruct (Z.ltb_spec n (zlen (buf_str b))) as [Hlt|Hge].
    + destruct (buf_remove_prefix_ok b n Hb) as (b' & -> & Hb' & Hs); [unfold buf_size; lia|].
      zcase; [lia|]. eexists. split; [done|]. split; [by constructor|].
      rewrite concatenate_cons, Hs, zdrop_app_le by lia. done.
    + destruct (Z.ltb_spec (zlen (buf_str b) + zlen (bl_concatenate l)) n) as [Hout|Hin].
      * rewrite u64_id by lia. specialize (IH (n - zlen (buf_str b)) Hl' ltac:(lia) ltac:(lia)).
        destruct (Z.ltb_spec (zlen (bl_concatenate l)) (n - zlen (buf_str b))); [done|lia].
      * rewrite u64_id by lia. specialize (IH (n - zlen (buf_str b)) Hl' ltac:(lia) ltac:(lia)).
        destruct (Z.ltb_spec (zlen (bl_concatenate l)) (n - zlen (buf_str b))); [lia|].
        rewrite zdrop_app_ge by lia. done.
  - replace n with 0 by lia. zcase; [lia|]. eexists. split; [done|]. split; [done|].
    by rewrite concatenate_cons.
Qed.

Lemma bvl_remove_prefix_spec l : forall n,
  0 <= n < W64 -> zlen (concat l) < W64 ->
  if zlen (concat l) <? n then bvl_remove_prefix l n = Err out_of_range
  else exists l', bvl_remove_prefix l n = Ok l' /\ concat l' = zdrop n (concat l).
Proof.
  induction l as [|v l IH]; intros n Hn Hsz; cbn [bvl_remove_prefix concat] in *.
  { rewrite zlen_nil. destruct (Z.ltb_spec 0 n); [done|]. exists [].
    by replace n with 0 by lia. }
  rewrite zlen_app in *. pose proof (zlen_nonneg v). pose proof (zlen_nonneg (concat l)).
  destruct (Z.ltb_spec 0 n) as [Hpos|Hzero].
  - destruct (Z.ltb_spec n (zlen v)) as [Hlt|Hge].
    + zcase; [lia|]. eexists. split; [done|]. simpl. by rewrite zdrop_app_le by lia.
    + rewrite u64_id by lia. specialize (IH (n - zlen v) ltac:(lia) ltac:(lia)).
      rewrite zdrop_app_ge by lia.
      destruct (Z.ltb_spec (zlen (concat l)) (n - zlen v));
        destruct (Z.ltb_spec (zlen v + zlen (concat l)) n); try lia; done.
  - replace n with 0 by lia. zcase; [lia|]. by eexists.
Qed.

(** A discontiguous [BufferList] behaves as one string: its size is the
    length of its concatenation, appending concatenates, and discarding a
    prefix drops that many bytes of the concatenation, or throws and only
    when there are fewer.  The views taken of it agree with it. *)
Theorem BufferList_is_string l other n :
  Forall buf_ok l -> zlen (bl_concatenate l) < W64 -> 0 <= n < W64 ->
  bl_size l = zlen (bl_concatenate l) /\
  bl_concatenate (bl_append l other) = bl_concatenate l ++ bl_concatenate other /\
  (match bl_remove_prefix l n with
   | Ok l' => n <= bl_size l /\ bl_concatenate l' = zdrop n (bl_concatenate l)
   | Err e => e = out_of_range /\ bl_size l < n
   end) /\
  (match bvl_remove_prefix (BufferViewList_of l) n with
   | Ok v => n <= bl_size l /\ concat v = zdrop n (bl_concatenate l)
   | Err e => e = out_of_range /\ bl_size l < n
   end) /\
  concat (map fst (as_iovecs (BufferViewList_of l))) = bl_concatenate l.
Proof.
  intros Hl Hsz Hn. rewrite bl_size_eq by done.
  split; [done|]. split; [apply concatenate_append|]. split; [|split].
  - pose proof (bl_remove_prefix_spec l n Hl Hn Hsz) as H.
    destruct (Z.ltb_spec (zlen (bl_concatenate l)) n); [by rewrite H|].
    destruct H as (l' & -> & _ & H). split; [lia|done].
  - rewrite concatenate_eq in *.
    pose proof (bvl_remove_prefix_spec (BufferViewList_of l) n Hn Hsz) as H.
    unfold BufferViewList_of in *.
    destruct (Z.ltb_spec (zlen (concat (map buf_str l))) n); [by rewrite H|].
    destruct H as (l' & -> & H). split; [lia|done].
  - unfold as_iovecs, BufferViewList_of. by rewrite map_map, map_id, concatenate_eq.
Qed.

Lemma BufferList_is_string_witness :
  bl_size [Buffer_of [x61; x62]; Buffer_of [x63]] = 3 /\
  bl_concatenate (bl_append [Buffer_of [x61; x62]; Buffer_of [x63]] [Buffer_of [x64]])
    = [x61; x62; x63; x64].
Proof.
  destruct (BufferList_is_string [Buffer_of [x61; x62]; Buffer_of [x63]] [Buffer_of [x64]] 1)
    as (H1 & H2 & _); [|reflexivity|lia|split; [exact H1|exact H2]].
  repeat constructor; vm_compute; congruence.
Defined.
