(* ===== verification/Parser.v ===== *)
(** * Parsing and unparsing integers in network byte order

    [libsponge/util/parser.hh] and [.cc].  A [NetParser] reads big-endian
    integers from a [Buffer] and keeps the first reason it failed; a
    [NetUnparser] appends them to a string. *)
From S2P Require Import Prelude Buffer.

Inductive ParseResult : Type :=
  | NoError
  | BadChecksum
  | PacketTooShort
  | WrongIPVersion
  | HeaderTooShort
  | TruncatedPacket
  | Unsupported.

#[global] Instance ParseResult_eq_dec : EqDecision ParseResult.
Proof. solve_decision. Defined.

Definition pr_eqb (a b : ParseResult) : bool := bool_decide (a = b).

(** The enumerators are numbered from zero in their order. *)
Definition ParseResult_index (r : ParseResult) : nat :=
  match r with
  | NoError => 0 | BadChecksum => 1 | PacketTooShort => 2 | WrongIPVersion => 3
  | HeaderTooShort => 4 | TruncatedPacket => 5 | Unsupported => 6
  end.

Definition result_names : list string :=
  ["NoError"; "BadChecksum"; "PacketTooShort"; "WrongIPVersion"; "HeaderTooShort";
   "TruncatedPacket"]%string.

(** [as_string] indexes the table without a check. *)
Definition as_string (r : ParseResult) : result string :=
  match result_names !! ParseResult_index r with
  | Some s => Ok s
  | None => Err undefined_behaviour
  end.

Record NetParser : Type := mkNetParser { np_buffer : Buffer; np_error : ParseResult }.

Definition new_NetParser (b : Buffer) : NetParser := mkNetParser b NoError.
Definition get_error (p : NetParser) : ParseResult := np_error p.
Definition set_parse_error (p : NetParser) (r : ParseResult) : NetParser :=
  mkNetParser (np_buffer p) r.
Definition parse_error (p : NetParser) : bool := negb (pr_eqb (get_error p) NoError).

Definition check_size (p : NetParser) (size : Z) : NetParser :=
  if buf_size (np_buffer p) <? size then set_parse_error p PacketTooShort else p.

(** The loop of [_parse_int] at the type of range [w]. *)
Fixpoint parse_loop (b : Buffer) (w i : Z) (n : nat) (ret : Z) : result Z :=
  match n with
  | O => Ok ret
  | S n =>
      let ret := Z.shiftl ret 8 mod w in
      let* c := buf_at b i in
      parse_loop b w (i + 1) n ((ret + c) mod w)
  end.

Definition parse_int (len : nat) (p : NetParser) : result (Z * NetParser) :=
  let p := check_size p (Z.of_nat len) in
  if parse_error p then Ok (0, p)
  else
    let* ret := parse_loop (np_buffer p) (256 ^ Z.of_nat len) 0 len 0 in
    let* b := buf_remove_prefix (np_buffer p) (Z.of_nat len) in
    Ok (ret, mkNetParser b (np_error p)).

Definition p_u32 : NetParser -> result (Z * NetParser) := parse_int 4.
Definition p_u16 : NetParser -> result (Z * NetParser) := parse_int 2.
Definition p_u8 : NetParser -> result (Z * NetParser) := parse_int 1.

Definition p_remove_prefix (p : NetParser) (n : Z) : result NetParser :=
  let p := check_size p n in
  if parse_error p then Ok p
  else
    let* b := buf_remove_prefix (np_buffer p) n in
    Ok (mkNetParser b (np_error p)).

(** [NetUnparser::_unparse_int]: appends the bytes of [val] to [s]. *)
Definition unparse_int (len : Z) (s : bytes) (val : Z) : bytes :=
  fold_left
    (fun s i => s ++ [z2b (Z.land (Z.shiftr val ((len - i - 1) * 8)) 255)])
    (seqZ 0 len) s.

Definition w_u32 : bytes -> Z -> bytes := unparse_int 4.
Definition w_u16 : bytes -> Z -> bytes := unparse_int 2.
Definition w_u8 : bytes -> Z -> bytes := unparse_int 1.

(** ** What the parser computes *)

(** The integer that bytes denote, the most significant first. *)
Definition be_val (l : bytes) : Z := fold_left (fun a b => 256 * a + b2z b) l 0.

Lemma be_val_from l : forall acc, 0 <= acc ->
  acc * 256 ^ zlen l <= fold_left (fun a b => 256 * a + b2z b) l acc
    < (acc + 1) * 256 ^ zlen l.
Proof.
  induction l as [|b l IH]; intros acc Ha; cbn [fold_left].
  { rewrite zlen_nil, Z.pow_0_r. lia. }
  pose proof (b2z_range b). specialize (IH (256 * acc + b2z b) ltac:(lia)).
  rewrite zlen_cons, Z.pow_add_r by (zpos; lia).
  assert (0 < 256 ^ zlen l) by (apply Z.pow_pos_nonneg; zpos; lia). nia.
Qed.

Lemma be_val_range l : 0 <= be_val l < 256 ^ zlen l.
Proof. pose proof (be_val_from l 0 ltac:(lia)). unfold be_val. lia. Qed.

Lemma parse_loop_spec b w n : forall i ret,
  0 <= i -> i + Z.of_nat n <= buf_size b -> 0 <= ret ->
  (ret + 1) * 256 ^ Z.of_nat n <= w ->
  parse_loop b w i n ret =
    Ok (fold_left (fun a c => 256 * a + b2z c) (ztake (Z.of_nat n) (zdrop i (buf_str b))) ret).
Proof.
  induction n as [|n IH]; intros i ret Hi Hn Hr Hw; cbn [parse_loop]; [done|].
  assert (Hp : 0 < 256 ^ Z.of_nat n) by (apply Z.pow_pos_nonneg; lia).
  rewrite Nat2Z.inj_succ, Z.pow_succ_r in Hw by lia.
  unfold buf_size in Hn.
  destruct (znth (buf_str b) i) as [c|] eqn:E; [|apply znth_None in E; lia].
  unfold buf_at. rewrite E. cbn [rbind]. pose proof (b2z_range c).
  rewrite Z.shiftl_mul_pow2 by lia. change (2 ^ 8) with 256.
  assert (Hm : (ret + 1) * 256 <= w) by nia.
  rewrite !Z.mod_small by (rewrite ?Z.mod_small; lia).
  rewrite IH by (unfold buf_size; nia || lia).
  assert (Hs : zdrop i (buf_str b) = c :: zdrop (i + 1) (buf_str b)).
  { unfold znth in E. destruct (Z.ltb_spec i 0); [lia|]. unfold zdrop.
    rewrite (drop_S _ c _ E). do 2 f_equal. lia. }
  rewrite Hs. replace (Z.of_nat (S n)) with (1 + Z.of_nat n) by lia.
  rewrite (ztake_split 1) by lia. change (ztake 1 (c :: _)) with [c].
  change (zdrop 1 (c :: ?l)) with l. cbn [app fold_left]. do 2 f_equal. lia.
Qed.

Definition np_ok (p : NetParser) : Prop := buf_ok (np_buffer p).
(** What is left to parse. *)
Definition rest (p : NetParser) : bytes := buf_str (np_buffer p).

Lemma check_size_enough p n : n <= zlen (rest p) -> check_size p n = p.
Proof. intros H. unfold check_size, buf_size. fold (rest p). zcase; [lia|done]. Qed.
Lemma check_size_short p n :
  zlen (rest p) < n -> check_size p n = set_parse_error p PacketTooShort.
Proof. intros H. unfold check_size, buf_size. fold (rest p). zcase; [done|lia]. Qed.

Lemma parse_error_false p : parse_error p = false <-> np_error p = NoError.
Proof.
  unfold parse_error, pr_eqb, get_error. rewrite negb_false_iff. apply bool_decide_eq_true.
Qed.

(** Enough bytes: the next [len] of them are consumed. *)
Lemma parse_int_enough len p :
  np_ok p -> np_error p = NoError -> Z.of_nat len <= zlen (rest p) ->
  exists p', parse_int len p = Ok (be_val (ztake (Z.of_nat len) (rest p)), p') /\
    np_ok p' /\ np_error p' = NoError /\ rest p' = zdrop (Z.of_nat len) (rest p).
Proof.
  intros Hok He Hlen. unfold parse_int. rewrite check_size_enough by done.
  rewrite (proj2 (parse_error_false p) He).
  rewrite parse_loop_spec by (unfold buf_size, rest in *; lia).
  destruct (buf_remove_prefix_ok (np_buffer p) (Z.of_nat len)) as (b & -> & Hb & Hs);
    [done|unfold buf_size; fold (rest p); lia|].
  eexists. split; [done|]. split; [done|]. split; [done|]. exact Hs.
Qed.

(** Too few bytes, or an earlier error: zero, and the buffer stays. *)
Lemma parse_int_short len p :
  np_error p = PacketTooShort \/ (np_error p = NoError /\ zlen (rest p) < Z.of_nat len) ->
  parse_int len p = Ok (0, mkNetParser (np_buffer p) PacketTooShort).
Proof.
  intros H. unfold parse_int.
  assert (E : check_size p (Z.of_nat len) = mkNetParser (np_buffer p) PacketTooShort).
  { unfold check_size. case_match; zb; [done|]. destruct H as [H|[_ H]].
    - destruct p; simpl in *. by subst.
    - unfold buf_size in *. fold (rest p) in *. lia. }
  by rewrite E.
Qed.

(** The parser only ever fails with [PacketTooShort]. *)
Definition np_state (p : NetParser) : Prop :=
  np_ok p /\ (np_error p = NoError \/ np_error p = PacketTooShort).

Lemma parse_int_total len p :
  np_state p -> exists v p', parse_int len p = Ok (v, p') /\ np_state p' /\
    0 <= v < 256 ^ Z.of_nat len /\ (np_error p = PacketTooShort -> np_error p' = PacketTooShort).
Proof.
  intros [Hok He].
  assert (H0 : 0 <= 0 < 256 ^ Z.of_nat len) by (split; [lia|apply Z.pow_pos_nonneg; lia]).
  destruct He as [He|He].
  - destruct (Z.le_gt_cases (Z.of_nat len) (zlen (rest p))) as [Hl|Hl].
    + destruct (parse_int_enough len p Hok He Hl) as (p' & -> & H1 & H2 & _).
      eexists _, _. split; [done|]. split; [split; auto|]. split; [|congruence].
      pose proof (be_val_range (ztake (Z.of_nat len) (rest p))) as Hb.
      rewrite zlen_ztake, Z.min_l in Hb by lia. done.
    + rewrite parse_int_short by auto. eexists _, _. split; [done|].
      split; [split; [done|by right]|]. done.
  - rewrite parse_int_short by auto. eexists _, _. split; [done|].
    split; [split; [done|by right]|]. done.
Qed.

Lemma p_remove_prefix_enough p n :
  np_ok p -> np_error p = NoError -> 0 <= n <= zlen (rest p) ->
  exists p', p_remove_prefix p n = Ok p' /\
    np_ok p' /\ np_error p' = NoError /\ rest p' = zdrop n (rest p).
Proof.
  intros Hok He Hn. unfold p_remove_prefix. rewrite check_size_enough by lia.
  rewrite (proj2 (parse_error_false p) He).
  destruct (buf_remove_prefix_ok (np_buffer p) n) as (b & -> & Hb & Hs); [done..|].
  eexists. split; [done|]. split; [done|]. split; [done|]. exact Hs.
Qed.

Lemma p_remove_prefix_short p n :
  np_error p = PacketTooShort \/ (np_error p = NoError /\ zlen (rest p) < n) ->
  p_remove_prefix p n = Ok (mkNetParser (np_buffer p) PacketTooShort).
Proof.
  intros H. unfold p_remove_prefix.
  assert (E : check_size p n = mkNetParser (np_buffer p) PacketTooShort).
  { unfold check_size. case_match; zb; [done|]. destruct H as [H|[_ H]].
    - destruct p; simpl in *. by subst.
    - unfold buf_size in *. fold (rest p) in *. lia. }
  by rewrite E.
Qed.

(** ** What the unparser appends *)

Definition be1 (v : Z) : bytes := [z2b v].
Definition be2 (v : Z) : bytes := [z2b (v / 256); z2b v].
Definition be4 (v : Z) : bytes :=
  [z2b (v / 16777216); z2b (v / 65536); z2b (v / 256); z2b v].

Lemma z2b_land v : z2b (Z.land v 255) = z2b v.
Proof.
  apply b2z_inj. rewrite !b2z_z2b. change 255 with (Z.ones 8).
  rewrite Z.land_ones by lia. unfold u8. change (2 ^ 8) with 256. by rewrite Zmod_mod.
Qed.

Lemma w_u8_eq s v : w_u8 s v = s ++ be1 v.
Proof. unfold w_u8, unparse_int, be1. simpl. by rewrite z2b_land, Z.shiftr_0_r. Qed.
Lemma w_u16_eq s v : w_u16 s v = s ++ be2 v.
Proof.
  unfold w_u16, unparse_int, be2. simpl. rewrite !z2b_land, <- app_assoc.
  by rewrite Z.shiftr_0_r, Z.shiftr_div_pow2 by lia.
Qed.
Lemma w_u32_eq s v : w_u32 s v = s ++ be4 v.
Proof.
  unfold w_u32, unparse_int, be4. simpl. rewrite !z2b_land, <- !app_assoc.
  by rewrite Z.shiftr_0_r, !Z.shiftr_div_pow2 by lia.
Qed.
#[export] Hint Rewrite w_u8_eq w_u16_eq w_u32_eq : zlist.

Lemma be1_val v : be_val (be1 v) = u8 v.
Proof. unfold be_val, be1. cbn [fold_left]. rewrite b2z_z2b. lia. Qed.
Lemma be2_val v : be_val (be2 v) = u16 v.
Proof. unfold be_val, be2. cbn [fold_left]. rewrite !b2z_z2b. wz. Qed.
Lemma be4_val v : be_val (be4 v) = u32 v.
Proof. unfold be_val, be4. cbn [fold_left]. rewrite !b2z_z2b. wz. Qed.

(** Reading back what was written, whatever follows it. *)
Lemma p_u8_be1 p v l :
  np_ok p -> np_error p = NoError -> rest p = be1 v ++ l ->
  exists p', p_u8 p = Ok (u8 v, p') /\ np_ok p' /\ np_error p' = NoError /\ rest p' = l.
Proof.
  intros Hok He Hr.
  assert (Hl : Z.of_nat 1 <= zlen (rest p)) by (rewrite Hr; unfold be1; zl).
  destruct (parse_int_enough 1 p Hok He Hl) as (p' & E & H1 & H2 & H3).
  exists p'. unfold p_u8. rewrite E, Hr, <- be1_val. rewrite Hr in H3. done.
Qed.
Lemma p_u16_be2 p v l :
  np_ok p -> np_error p = NoError -> rest p = be2 v ++ l ->
  exists p', p_u16 p = Ok (u16 v, p') /\ np_ok p' /\ np_error p' = NoError /\ rest p' = l.
Proof.
  intros Hok He Hr.
  assert (Hl : Z.of_nat 2 <= zlen (rest p)) by (rewrite Hr; unfold be2; zl).
  destruct (parse_int_enough 2 p Hok He Hl) as (p' & E & H1 & H2 & H3).
  exists p'. unfold p_u16. rewrite E, Hr, <- be2_val. rewrite Hr in H3. done.
Qed.
Lemma p_u32_be4 p v l :
  np_ok p -> np_error p = NoError -> rest p = be4 v ++ l ->
  exists p', p_u32 p = Ok (u32 v, p') /\ np_ok p' /\ np_error p' = NoError /\ rest p' = l.
Proof.
  intros Hok He Hr.
  assert (Hl : Z.of_nat 4 <= zlen (rest p)) by (rewrite Hr; unfold be4; zl).
  destruct (parse_int_enough 4 p Hok He Hl) as (p' & E & H1 & H2 & H3).
  exists p'. unfold p_u32. rewrite E, Hr, <- be4_val. rewrite Hr in H3. done.
Qed.

(** ** Parsing functions

    A member function that takes a [NetParser &] is a function of this type;
    [let!] sequences them. *)
Definition parser (A : Type) : Type := NetParser -> result (A * NetParser).

Definition pret {A} (a : A) : parser A := fun p => Ok (a, p).
Definition pbind {A B} (m : parser A) (k : A -> parser B) : parser B :=
  fun p => let* (a, p) := m p in k a p.

Notation "'let!' x ':=' m 'in' k" := (pbind m (fun x => k))
  (at level 10, x pattern, m at level 100, k at level 200) : sponge_scope.

Definition p_skip (n : Z) : parser unit := fun p => let* p := p_remove_prefix p n in Ok (tt, p).
Definition p_get_error : parser ParseResult := fun p => Ok (get_error p, p).
Definition p_buffer : parser Buffer := fun p => Ok (np_buffer p, p).

(** [reads m s v]: on input that starts with [s], [m] consumes [s] and
    returns [v]. *)
Definition reads {A} (m : parser A) (s : bytes) (v : A) : Prop :=
  forall p l, np_ok p -> np_error p = NoError -> rest p = s ++ l ->
  exists p', m p = Ok (v, p') /\ np_ok p' /\ np_error p' = NoError /\ rest p' = l.

(** [yields m P]: on any input, [m] returns a value that satisfies [P], and
    an input found too short stays so. *)
Definition yields {A} (m : parser A) (P : A -> Prop) : Prop :=
  forall p, np_state p -> exists v p', m p = Ok (v, p') /\ np_state p' /\ P v /\
    (np_error p = PacketTooShort -> np_error p' = PacketTooShort).

Lemma reads_bind {A B} (m : parser A) (k : A -> parser B) s1 s2 v w :
  reads m s1 v -> reads (k v) s2 w -> reads (pbind m k) (s1 ++ s2) w.
Proof.
  intros H1 H2 p l Hok He Hr. rewrite <- app_assoc in Hr.
  destruct (H1 p (s2 ++ l) Hok He Hr) as (p1 & E1 & A1 & B1 & C1).
  destruct (H2 p1 l A1 B1 C1) as (p2 & E2 & A2 & B2 & C2).
  exists p2. unfold pbind. by rewrite E1.
Qed.
Lemma reads_ret {A} (v : A) : reads (pret v) [] v.
Proof. intros p l Hok He Hr. exists p. done. Qed.
Lemma reads_skip n s : zlen s = n -> reads (p_skip n) s tt.
Proof.
  intros Hn p l Hok He Hr. pose proof (zlen_nonneg s). pose proof (zlen_nonneg l).
  assert (Hl : 0 <= n <= zlen (rest p)) by (rewrite Hr, zlen_app; lia).
  destruct (p_remove_prefix_enough p n Hok He Hl) as (p' & E & H1 & H2 & H3).
  exists p'. unfold p_skip. rewrite E. rewrite H3, Hr, <- Hn, zdrop_app_len. done.
Qed.
Lemma reads_get_error : reads p_get_error [] NoError.
Proof. intros p l Hok He Hr. exists p. unfold p_get_error, get_error. by rewrite He. Qed.
Lemma reads_u8 v : reads p_u8 (be1 v) (u8 v).
Proof. intros p l. apply p_u8_be1. Qed.
Lemma reads_u16 v : reads p_u16 (be2 v) (u16 v).
Proof. intros p l. apply p_u16_be2. Qed.
Lemma reads_u32 v : reads p_u32 (be4 v) (u32 v).
Proof. intros p l. apply p_u32_be4. Qed.

Lemma yields_bind {A B} (m : parser A) (k : A -> parser B) P Q :
  yields m P -> (forall v, P v -> yields (k v) Q) -> yields (pbind m k) Q.
Proof.
  intros H1 H2 p Hp. destruct (H1 p Hp) as (v & p1 & E1 & A1 & B1 & C1).
  destruct (H2 v B1 p1 A1) as (w & p2 & E2 & A2 & B2 & C2).
  exists w, p2. unfold pbind. rewrite E1. split_and!; auto.
Qed.
Lemma yields_ret {A} (v : A) (P : A -> Prop) : P v -> yields (pret v) P.
Proof. intros H p Hp. by exists v, p. Qed.
Lemma yields_weaken {A} (m : parser A) (P Q : A -> Prop) :
  yields m P -> (forall v, P v -> Q v) -> yields m Q.
Proof. intros H HPQ p Hp. destruct (H p Hp) as (v & p' & ? & ? & ? & ?). eauto 10. Qed.
Lemma yields_int len : yields (parse_int len) (fun v => 0 <= v < 256 ^ Z.of_nat len).
Proof.
  intros p Hp. destruct (parse_int_total len p Hp) as (v & p' & H1 & H2 & H3 & H4).
  by exists v, p'.
Qed.
Lemma yields_u8 : yields p_u8 (fun v => 0 <= v < W8).
Proof. exact (yields_int 1). Qed.
Lemma yields_u16 : yields p_u16 (fun v => 0 <= v < W16).
Proof. exact (yields_int 2). Qed.
Lemma yields_u32 : yields p_u32 (fun v => 0 <= v < W32).
Proof. exact (yields_int 4). Qed.
Lemma yields_skip n : 0 <= n -> yields (p_skip n) (fun _ => True).
Proof.
  intros Hn p [Hok He]. unfold p_skip.
  destruct (Z.le_gt_cases n (zlen (rest p))) as [Hl|Hl]; [destruct He as [He|He]|].
  - destruct (p_remove_prefix_enough p n Hok He ltac:(lia)) as (p' & -> & H1 & H2 & _).
    exists tt, p'. split; [done|]. split; [split; auto|]. split; [done|congruence].
  - rewrite p_remove_prefix_short by auto. eexists _, _. split; [done|].
    split; [split; [done|by right]|done].
  - rewrite p_remove_prefix_short by naive_solver. eexists _, _. split; [done|].
    split; [split; [done|by right]|done].
Qed.
Lemma yields_get_error : yields p_get_error (fun e => e = NoError \/ e = PacketTooShort).
Proof. intros p [Hok He]. eexists _, p. split; [done|]. split; [by split|]. done. Qed.
Lemma yields_buffer : yields p_buffer buf_ok.
Proof. intros p [Hok He]. eexists _, p. split; [done|]. split; [by split|]. done. Qed.

(** [consumes m n]: unless it ends in an error, [m] takes at least [n] bytes
    off the front of the input and leaves the rest. *)
Definition consumes {A} (m : parser A) (n : Z) : Prop :=
  forall p v p', np_state p -> m p = Ok (v, p') -> np_state p' /\
    (np_error p' = NoError ->
     np_error p = NoError /\ exists s, n <= zlen s /\ rest p = s ++ rest p').

Lemma consumes_bind {A B} (m : parser A) (k : A -> parser B) n1 n2 :
  consumes m n1 -> (forall v, consumes (k v) n2) -> consumes (pbind m k) (n1 + n2).
Proof.
  intros H1 H2 p v p' Hp E. unfold pbind in E. apply rbind_ok in E as ([w q] & E1 & E2).
  destruct (H1 p w q Hp E1) as [Hq C1]. destruct (H2 w q v p' Hq E2) as [Hp' C2].
  split; [done|]. intros Hn. destruct (C2 Hn) as (Hnq & s2 & L2 & R2).
  destruct (C1 Hnq) as (Hnp & s1 & L1 & R1). split; [done|]. exists (s1 ++ s2).
  rewrite zlen_app, R1, R2, app_assoc. split; [lia|done].
Qed.
Lemma consumes_ret {A} (v : A) : consumes (pret v) 0.
Proof. intros p w p' Hp [= <- <-]. split; [done|]. intros. split; [done|]. by exists []. Qed.
Lemma consumes_get_error : consumes p_get_error 0.
Proof. intros p w p' Hp [= <- <-]. split; [done|]. intros. split; [done|]. by exists []. Qed.
Lemma consumes_int len : consumes (parse_int len) (Z.of_nat len).
Proof.
  intros p v p' Hp E. destruct (parse_int_total len p Hp) as (v0 & p0 & E0 & H1 & H2 & H3).
  rewrite E in E0. injection E0 as <- <-. split; [done|]. intros Hn.
  destruct Hp as [Hok He]. destruct He as [He|He]; [|by rewrite (H3 He) in Hn].
  split; [done|]. destruct (Z.le_gt_cases (Z.of_nat len) (zlen (rest p))) as [Hl|Hl].
  - destruct (parse_int_enough len p Hok He Hl) as (q & E' & _ & _ & Hr).
    rewrite E in E'. injection E' as -> ->. exists (ztake (Z.of_nat len) (rest p)).
    rewrite Hr, ztake_zdrop. split; [|done]. rewrite zlen_ztake; lia.
  - rewrite parse_int_short in E by auto. by injection E as <- <-.
Qed.
Lemma consumes_skip n : 0 <= n -> consumes (p_skip n) n.
Proof.
  intros H0 p v p' Hp E. destruct (yields_skip n H0 p Hp) as (v0 & p0 & E0 & H1 & _ & H3).
  rewrite E in E0. injection E0 as <- <-. split; [done|]. intros Hn.
  destruct Hp as [Hok He]. destruct He as [He|He]; [|by rewrite (H3 He) in Hn].
  split; [done|]. unfold p_skip in E.
  destruct (Z.le_gt_cases n (zlen (rest p))) as [Hl|Hl].
  - destruct (p_remove_prefix_enough p n Hok He ltac:(lia)) as (q & E' & _ & _ & Hr).
    rewrite E' in E. injection E as <- <-. exists (ztake n (rest p)).
    rewrite Hr, ztake_zdrop. split; [|done]. rewrite zlen_ztake; lia.
  - rewrite p_remove_prefix_short in E by auto. by injection E as <- <-.
Qed.
Lemma consumes_u8 : consumes p_u8 1.
Proof. exact (consumes_int 1). Qed.
Lemma consumes_u16 : consumes p_u16 2.
Proof. exact (consumes_int 2). Qed.
Lemma consumes_u32 : consumes p_u32 4.
Proof. exact (consumes_int 4). Qed.
Lemma consumes_weaken {A} (m : parser A) n n' : consumes m n -> n' <= n -> consumes m n'.
Proof.
  intros H Hn p v p' Hp E. destruct (H p v p' Hp E) as [Hp' C]. split; [done|].
  intros He. destruct (C He) as (Hnp & s & L & R). split; [done|]. exists s. split; [lia|done].
Qed.
#[export] Hint Resolve consumes_u8 consumes_u16 consumes_u32 consumes_get_error : sponge.

(** [takes m n P]: with [n] bytes at hand, [m] succeeds, consumes no more than
    these and returns a value that satisfies [P]. *)
Definition takes {A} (m : parser A) (n : Z) (P : A -> Prop) : Prop :=
  forall p, np_ok p -> np_error p = NoError -> n <= zlen (rest p) ->
  exists v p', m p = Ok (v, p') /\ np_ok p' /\ np_error p' = NoError /\
    zlen (rest p) - n <= zlen (rest p') /\ P v.

Lemma takes_bind {A B} (m : parser A) (k : A -> parser B) n1 n2 P Q :
  0 <= n2 -> takes m n1 P -> (forall v, P v -> takes (k v) n2 Q) -> takes (pbind m k) (n1 + n2) Q.
Proof.
  intros H2 Hm Hk p Hok He Hl.
  destruct (Hm p Hok He ltac:(lia)) as (v & q & E & A1 & B1 & C1 & D1).
  destruct (Hk v D1 q A1 B1 ltac:(lia)) as (w & p' & E' & A2 & B2 & C2 & D2).
  exists w, p'. unfold pbind. rewrite E. split; [done|]. split; [done|]. split; [done|].
  split; [lia|done].
Qed.
Lemma takes_ret {A} (v : A) (P : A -> Prop) n : 0 <= n -> P v -> takes (pret v) n P.
Proof. intros Hn HP p Hok He Hl. exists v, p. split_and!; done || lia. Qed.
Lemma takes_get_error : takes p_get_error 0 (fun e => e = NoError).
Proof. intros p Hok He Hl. exists (np_error p), p. split_and!; done || lia. Qed.
Lemma takes_int len : takes (parse_int len) (Z.of_nat len) (fun v => 0 <= v < 256 ^ Z.of_nat len).
Proof.
  intros p Hok He Hl. destruct (parse_int_enough len p Hok He Hl) as (p' & E & A1 & B1 & C1).
  eexists _, p'. split; [exact E|]. split; [done|]. split; [done|].
  split; [rewrite C1, zlen_zdrop; lia|].
  pose proof (be_val_range (ztake (Z.of_nat len) (rest p))) as Hb.
  rewrite zlen_ztake, Z.min_l in Hb by lia. done.
Qed.
Lemma takes_u8 : takes p_u8 1 (fun v => 0 <= v < W8).
Proof. exact (takes_int 1). Qed.
Lemma takes_u16 : takes p_u16 2 (fun v => 0 <= v < W16).
Proof. exact (takes_int 2). Qed.
Lemma takes_u32 : takes p_u32 4 (fun v => 0 <= v < W32).
Proof. exact (takes_int 4). Qed.
#[export] Hint Resolve takes_u8 takes_u16 takes_u32 takes_get_error : sponge.

(** [tstep n] goes through one read of [n] bytes in a [takes] goal of which
    [k] bytes are left. *)
Ltac tstep n k := match goal with |- takes (pbind ?m ?f) ?t ?Q =>
  change (takes (pbind m f) (n + k) Q);
  eapply (takes_bind m f n k); [lia|solve [eauto with sponge]|intros ? ?] end.

#[export] Hint Resolve yields_u8 yields_u16 yields_u32 yields_get_error yields_buffer : sponge.
#[export] Hint Resolve reads_u8 reads_u16 reads_u32 reads_get_error : sponge.

(** [pstep] goes through one read of a parsing function, in a [yields] goal. *)
Ltac pstep := eapply yields_bind; [solve [eauto with sponge]|intros ? ?].

(** Integers survive the wire: what [NetUnparser] appends, [NetParser] reads
    back reduced to the width, consuming exactly those bytes and leaving the
    rest, at every width. *)
Theorem integer_roundtrip v8 v16 v32 l :
  zlen l + 7 < W64 ->
  exists p1 p2 p3,
    p_u8 (new_NetParser (Buffer_of (w_u32 (w_u16 (w_u8 [] v8) v16) v32 ++ l))) = Ok (u8 v8, p1) /\
    p_u16 p1 = Ok (u16 v16, p2) /\ p_u32 p2 = Ok (u32 v32, p3) /\
    rest p3 = l /\ get_error p3 = NoError.
Proof.
  intros Hl. rewrite w_u32_eq, w_u16_eq, w_u8_eq, <- !app_assoc. cbn [app].
  destruct (p_u8_be1 (new_NetParser (Buffer_of (be1 v8 ++ be2 v16 ++ be4 v32 ++ l)))
    v8 (be2 v16 ++ be4 v32 ++ l)) as (p1 & E1 & A1 & B1 & C1); try done.
  { apply Buffer_of_ok. unfold be1, be2, be4. zl. }
  destruct (p_u16_be2 p1 v16 (be4 v32 ++ l)) as (p2 & E2 & A2 & B2 & C2); try done.
  destruct (p_u32_be4 p2 v32 l) as (p3 & E3 & A3 & B3 & C3); try done.
  exists p1, p2, p3. auto.
Qed.

Lemma integer_roundtrip_witness :
  exists p1 p2 p3,
    p_u8 (new_NetParser (Buffer_of (w_u32 (w_u16 (w_u8 [] 7) 513) 4294967297 ++ [x61]))) = Ok (7, p1) /\
    p_u16 p1 = Ok (513, p2) /\ p_u32 p2 = Ok (1, p3) /\ rest p3 = [x61] /\ get_error p3 = NoError.
Proof. apply (integer_roundtrip 7 513 4294967297 [x61]). reflexivity. Defined.

(** The parser is total: on any buffer each read returns a value of its
    width without throwing, a read past the end returns zero, marks the
    parser [PacketTooShort] and consumes nothing, and the mark is never
    lost. *)
Theorem parser_total len p :
  np_state p ->
  exists v p', parse_int len p = Ok (v, p') /\ np_state p' /\ 0 <= v < 256 ^ Z.of_nat len /\
    (np_error p = PacketTooShort -> np_error p' = PacketTooShort) /\
    (np_error p' = NoError -> Z.of_nat len <= zlen (rest p) /\
       v = be_val (ztake (Z.of_nat len) (rest p)) /\ rest p' = zdrop (Z.of_nat len) (rest p)) /\
    (zlen (rest p) < Z.of_nat len -> v = 0 /\ np_error p' = PacketTooShort /\ rest p' = rest p).
Proof.
  intros Hp. destruct (parse_int_total len p Hp) as (v & p' & E & H1 & H2 & H3).
  exists v, p'. split; [done|]. split; [done|]. split; [done|]. split; [done|].
  destruct Hp as [Hok He].
  assert (Hs : zlen (rest p) < Z.of_nat len ->
    v = 0 /\ np_error p' = PacketTooShort /\ rest p' = rest p).
  { intros Hl. rewrite parse_int_short in E; [by injection E as <- <-|].
    destruct He; [right|left]; done. }
  split; [|done]. intros Hn.
  destruct (Z.lt_ge_cases (zlen (rest p)) (Z.of_nat len)) as [Hl|Hl].
  { destruct (Hs Hl) as (_ & Hc & _). congruence. }
  destruct He as [He|He]; [|by rewrite (H3 He) in Hn].
  destruct (parse_int_enough len p Hok He Hl) as (q & E' & _ & _ & Hr).
  rewrite E in E'. injection E' as -> ->. done.
Qed.

Lemma parser_total_witness :
  exists v p', parse_int 2 (new_NetParser (Buffer_of [x61])) = Ok (v, p') /\ np_state p'.
Proof.
  destruct (parser_total 2 (new_NetParser (Buffer_of [x61]))) as (v & p' & E & H & _).
  - split; [by apply Buffer_of_ok|by left].
  - eauto.
Defined.

(** [as_string] has a name for every parse result but [Unsupported], for
    which it indexes its table of six names out of bounds. *)
Theorem as_string_table r :
  as_string r = Err undefined_behaviour <-> r = Unsupported.
Proof. destruct r; vm_compute; split; congruence. Qed.
