(* ===== verification/Checksum.v ===== *)
(** * The Internet checksum

    [InternetChecksum] of [libsponge/util/util.hh] and [.cc]: a 32-bit sum of
    16-bit words, folded to 16 bits with end-around carry and complemented. *)
From S2P Require Import Prelude.

Record InternetChecksum : Type := mkChecksum { ck_sum : Z; ck_parity : bool }.

Definition new_InternetChecksum (initial_sum : Z) : InternetChecksum :=
  mkChecksum initial_sum false.

(** One iteration of the loop of [add]. *)
Definition ck_add_byte (c : InternetChecksum) (d : byte) : InternetChecksum :=
  let val := b2z d in
  let val := if negb (ck_parity c) then u16 (Z.shiftl val 8) else val in
  mkChecksum (u32 (ck_sum c + val)) (negb (ck_parity c)).

Definition ck_add (c : InternetChecksum) (data : bytes) : InternetChecksum :=
  fold_left ck_add_byte data c.

(** The loop of [value]; [fuel] bounds its iterations, and [fold_carries_enough]
    shows that a 32-bit sum needs at most two: the loop condition is then
    false, so more fuel changes nothing. *)
Fixpoint fold_carries (fuel : nat) (ret : Z) : Z :=
  if 65535 <? ret then
    match fuel with
    | O => ret
    | S fuel => fold_carries fuel (u32 (Z.shiftr ret 16 + Z.land ret 65535))
    end
  else ret.

Definition ck_value (c : InternetChecksum) : Z := u16 (Z.lnot (fold_carries 2 (ck_sum c))).
Arguments ck_value : simpl never.

Lemma ck_value_range c : 0 <= ck_value c < W16.
Proof. apply u16_range. Qed.

(** ** One's complement arithmetic *)

(** Every step of the loop keeps the sum modulo 65535. *)
Lemma carry_step ret : 0 <= ret < W32 ->
  Z.shiftr ret 16 + Z.land ret 65535 = ret / W16 + ret mod W16.
Proof.
  intros H. rewrite Z.shiftr_div_pow2 by lia. change 65535 with (Z.ones 16).
  rewrite Z.land_ones by lia. done.
Qed.

Lemma fold_carries_enough fuel ret : 0 <= ret < W32 -> (2 <= fuel)%nat ->
  exists v, fold_carries fuel ret = v /\ 0 <= v <= 65535 /\
    v mod 65535 = ret mod 65535 /\ (v = 0 <-> ret = 0).
Proof.
  intros H Hf. destruct fuel as [|[|fuel]]; [lia..|]. cbn [fold_carries].
  destruct (Z.ltb_spec 65535 ret); [|exists ret; split_and!; done || lia].
  rewrite carry_step by lia.
  assert (B1 : 0 <= ret / W16 + ret mod W16 < 2 * W16 - 1) by wz.
  assert (B2 : (ret / W16 + ret mod W16) mod 65535 = ret mod 65535) by wz.
  assert (B3 : ret / W16 + ret mod W16 <> 0) by wz.
  set (r := ret / W16 + ret mod W16) in *. rewrite u32_id by lia.
  destruct (Z.ltb_spec 65535 r); [|exists r; split_and!; done || lia].
  rewrite carry_step by lia.
  assert (C1 : 0 < r / W16 + r mod W16 <= 65535) by wz.
  assert (C2 : (r / W16 + r mod W16) mod 65535 = r mod 65535) by wz.
  set (q := r / W16 + r mod W16) in *. rewrite u32_id by lia.
  destruct fuel; cbn [fold_carries]; destruct (Z.ltb_spec 65535 q); try lia; exists q; split_and!; done || lia.
Qed.

Lemma fold_carries_fuel fuel ret : 0 <= ret < W32 -> (2 <= fuel)%nat ->
  fold_carries fuel ret = fold_carries 2 ret /\ fold_carries fuel ret <= 65535.
Proof.
  intros H Hf. destruct (fold_carries_enough fuel ret H Hf) as (v & E & Hv & Hm & H0).
  destruct (fold_carries_enough 2 ret H ltac:(lia)) as (v' & E' & Hv' & Hm' & H0').
  rewrite E, E'. wz.
Qed.

Lemma ck_value_eq c : 0 <= ck_sum c < W32 ->
  exists v, ck_value c = 65535 - v /\ 0 <= v <= 65535 /\
    v mod 65535 = ck_sum c mod 65535 /\ (v = 0 <-> ck_sum c = 0).
Proof.
  intros H. destruct (fold_carries_enough 2 (ck_sum c) H ltac:(lia)) as (v & E & Hv & Hm & H0).
  exists v. unfold ck_value. rewrite E. split; [|done]. unfold Z.lnot. wz.
Qed.

(** The sum of the 16-bit words of a string, the last one padded with a zero;
    [odd] when the string starts in the middle of a word. *)
Fixpoint words_sum (odd : bool) (data : bytes) : Z :=
  match data with
  | [] => 0
  | d :: data => (if odd then b2z d else 256 * b2z d) + words_sum (negb odd) data
  end.

Lemma words_sum_bound data : forall odd, 0 <= words_sum odd data <= 65280 * zlen data.
Proof.
  induction data as [|d data IH]; intros odd; cbn [words_sum]; [zl|].
  pose proof (b2z_range d). specialize (IH (negb odd)). rewrite zlen_cons. destruct odd; lia.
Qed.

Lemma words_sum_app d1 d2 : forall odd,
  words_sum odd (d1 ++ d2) = words_sum odd d1 + words_sum (xorb odd (Z.odd (zlen d1))) d2.
Proof.
  induction d1 as [|d d1 IH]; intros odd; cbn [words_sum app].
  { by destruct odd. }
  rewrite IH, zlen_cons, Z.odd_add. destruct odd, (Z.odd (zlen d1)); simpl; lia.
Qed.

Lemma ck_add_eq data : forall c,
  ck_add c data = mkChecksum
    (if decide (data = []) then ck_sum c else u32 (ck_sum c + words_sum (ck_parity c) data))
    (xorb (ck_parity c) (Z.odd (zlen data))).
Proof.
  induction data as [|d data IH]; intros [s p]; unfold ck_add in *; cbn [fold_left].
  { simpl. by destruct p. }
  rewrite IH. unfold ck_add_byte. cbn [ck_sum ck_parity words_sum].
  destruct (decide (d :: data = [])) as [|_]; [done|].
  pose proof (b2z_range d).
  replace (if negb p then u16 (Z.shiftl (b2z d) 8) else b2z d)
    with (if p then b2z d else 256 * b2z d).
  2:{ destruct p; [done|]. rewrite Z.shiftl_mul_pow2 by lia. simpl. rewrite u16_id; lia. }
  f_equal.
  - destruct (decide (data = [])) as [->|_]; [f_equal; simpl; lia|].
    unfold u32. rewrite Zplus_mod_idemp_l. f_equal. lia.
  - rewrite zlen_cons, Z.odd_add. by destruct p, (Z.odd (zlen data)).
Qed.

(** Strings that are short enough for the sum not to overflow. *)
Lemma ck_add_small c data :
  0 <= ck_sum c -> ck_sum c + 65280 * zlen data < W32 ->
  ck_sum (ck_add c data) = ck_sum c + words_sum (ck_parity c) data.
Proof.
  intros Hc Hb. rewrite ck_add_eq. simpl. pose proof (words_sum_bound data (ck_parity c)).
  destruct (decide _) as [->|_]; [simpl; lia|]. rewrite u32_id; lia.
Qed.

Lemma ck_add_app c d1 d2 : ck_add c (d1 ++ d2) = ck_add (ck_add c d1) d2.
Proof. apply fold_left_app. Qed.

(** Folding never depends on how the data was split into calls of [add]. *)
Lemma ck_value_verify s w :
  0 <= s -> 0 <= w <= 65535 -> s + w < W32 -> 0 < s ->
  ck_value (mkChecksum s false) = w -> ck_value (mkChecksum (s + w) false) = 0.
Proof.
  intros Hs Hw Hb Hpos E.
  destruct (ck_value_eq (mkChecksum s false)) as (v & E1 & Hv & Hm & H0); [simpl; lia|].
  rewrite E in E1. clear E. subst w. cbn [ck_sum] in *.
  destruct (ck_value_eq (mkChecksum (s + (65535 - v)) false)) as (v' & E2 & Hv' & Hm' & H0');
    [simpl; lia|]. rewrite E2. cbn [ck_sum] in *.
  assert (Hz : v' mod 65535 = 0).
  { rewrite Hm'. replace (s + (65535 - v)) with ((s - v) + 1 * 65535) by lia.
    rewrite Z.mod_add by lia. rewrite Zminus_mod, <- Hm, Z.sub_diag. done. }
  assert (v' <> 0) by lia. wz.
Qed.

(** A checksum verifies: when the checksum of a message whose checksum
    field (at an even offset) holds zero is written into that field, the
    receiver's sum over the whole message folds to zero.  The message may be
    added in any number of pieces, and must not be all zeros. *)
Lemma checksum_verifies initial pre post v :
  0 <= initial -> Z.even (zlen pre) = true ->
  0 < initial + words_sum false pre + words_sum false post ->
  initial + 65280 * (zlen pre + zlen post + 2) < W32 ->
  ck_value (ck_add (ck_add (new_InternetChecksum initial) (pre ++ [z2b 0; z2b 0])) post) = v ->
  ck_value (ck_add (ck_add (new_InternetChecksum initial) (pre ++ [z2b (v / 256); z2b v])) post)
    = 0.
Proof.
  intros Hi Hev Hnz Hb. zpos.
  assert (Hw : forall a b, ck_add (ck_add (new_InternetChecksum initial) (pre ++ [a; b])) post =
    mkChecksum (initial + words_sum false pre + (256 * b2z a + b2z b) + words_sum false post)
      (Z.odd (zlen post))).
  { intros a b. rewrite <- ck_add_app, ck_add_eq. cbn [ck_sum ck_parity new_InternetChecksum].
    assert (Ho : Z.odd (zlen pre) = false) by (rewrite <- Z.negb_even, Hev; done).
    destruct (decide _) as [E|_]; [by destruct pre|].
    assert (Hs : words_sum false ((pre ++ [a; b]) ++ post)
      = words_sum false pre + (256 * b2z a + b2z b) + words_sum false post).
    { rewrite <- app_assoc, !words_sum_app, Ho. change (Z.odd (zlen [a; b])) with false.
      cbn [words_sum xorb negb]. lia. }
    pose proof (words_sum_bound ((pre ++ [a; b]) ++ post) false) as Hsb. rewrite Hs in *.
    rewrite !zlen_app in *. change (zlen [a; b]) with 2 in *. zpos.
    rewrite u32_id by lia. f_equal; [lia|].
    change (zlen [a; b]) with 2. rewrite !Z.odd_add, Ho. by destruct (Z.odd (zlen post)). }
  rewrite !Hw, !b2z_z2b. pose proof (words_sum_bound pre false).
  pose proof (words_sum_bound post false). change (u8 0) with 0. intros E.
  destruct (ck_value_eq (mkChecksum (initial + words_sum false pre + (256 * 0 + 0)
    + words_sum false post) (Z.odd (zlen post)))) as (w & E' & Hv & _); [simpl; lia|].
  rewrite E in E'. rewrite E' in E |- *.
  assert (Hd : 256 * u8 ((65535 - w) / 256) + u8 (65535 - w) = 65535 - w) by wz.
  rewrite Hd. pose proof (ck_value_verify (initial + words_sum false pre + words_sum false post)
    (65535 - w)) as Hf. unfold ck_value in *. cbn [ck_sum] in *.
  replace (initial + words_sum false pre + (256 * 0 + 0) + words_sum false post)
    with (initial + words_sum false pre + words_sum false post) in E by lia.
  replace (initial + words_sum false pre + (65535 - w) + words_sum false post)
    with (initial + words_sum false pre + words_sum false post + (65535 - w)) by lia.
  apply Hf; lia || done.
Qed.

Lemma words_sum_pos l : forall odd b, b ∈ l -> 0 < b2z b -> 0 < words_sum odd l.
Proof.
  induction l as [|d l IH]; intros odd b Hin Hb; [by apply elem_of_nil in Hin|].
  cbn [words_sum]. pose proof (words_sum_bound l (negb odd)). pose proof (b2z_range d).
  apply elem_of_cons in Hin as [->|Hin]; [destruct odd; lia|].
  specialize (IH (negb odd) b Hin Hb). destruct odd; lia.
Qed.

(** The loop of [value] returns: for every 32-bit sum two iterations are
    enough, and the result is the complement of a number congruent to the sum
    modulo 65535 that is zero only for a zero sum. *)
Theorem checksum_value_total c :
  0 <= ck_sum c < W32 ->
  (forall fuel, (2 <= fuel)%nat ->
     fold_carries fuel (ck_sum c) = fold_carries 2 (ck_sum c) /\
     fold_carries fuel (ck_sum c) <= 65535) /\
  0 <= ck_value c <= 65535 /\
  (ck_value c + ck_sum c) mod 65535 = 0 /\ (ck_value c = 65535 <-> ck_sum c = 0).
Proof.
  intros H. split; [intros; by apply fold_carries_fuel|].
  destruct (ck_value_eq c H) as (v & -> & Hv & Hm & H0).
  split; [lia|]. split; [|lia].
  replace (65535 - v + ck_sum c) with ((ck_sum c - v) + 1 * 65535) by lia.
  rewrite Z.mod_add by lia. rewrite Zminus_mod, <- Hm, Z.sub_diag. done.
Qed.

Lemma checksum_value_total_witness :
  0 <= ck_value (mkChecksum 4294967295 false) <= 65535 /\
  fold_carries 5 4294967295 = fold_carries 2 4294967295.
Proof.
  destruct (checksum_value_total (mkChecksum 4294967295 false)) as (H & Hr & _); [simpl; lia|].
  split; [exact Hr|]. apply (H 5%nat). lia.
Defined.
