(* ===== verification/Hexdump.v ===== *)
(** * hexdump

    [hexdump] of [libsponge/util/util.cc]: what it writes to the standard output.
    The function is proved equal to a description of the text by rows, and the
    bytes can be read back from the text.  The counter [printed] is an [int];
    data of 2^31 bytes and more, where it overflows, are outside the model. *)
From S2P Require Import Prelude.
From Stdlib Require String.
Open Scope list_scope.
Open Scope Z_scope.

Abbreviation space := x20 (only parsing).
Abbreviation newline := x0a (only parsing).

(** ** Output of the Standard Library *)

Definition hex_digit (d : Z) : byte := z2b (if d <? 10 then 48 + d else 87 + d).

(** [hex] digits of a number; sixteen are enough for any integer type. *)
Fixpoint hex_digits (fuel : nat) (n : Z) : bytes :=
  match fuel with
  | O => []
  | S fuel => (if n <? 16 then [] else hex_digits fuel (n / 16)) ++ [hex_digit (n mod 16)]
  end.

(** [setfill('0') << setw(w) << hex << n]. *)
Definition put_hex (w : nat) (n : Z) : bytes :=
  let s := hex_digits 16 n in repeat x30 (w - length s) ++ s.

Definition isprint (b : byte) : bool := (32 <=? b2z b) && (b2z b <=? 126).

(** A [stringstream] open for writing: its contents and the position of the next
    character, which starts at the front also when there are contents. *)
Record stringstream : Type := mkStringstream { ss_contents : bytes; ss_put : nat }.

Definition new_stringstream (s : bytes) : stringstream := mkStringstream s 0.
Definition ss_put_char (c : byte) (s : stringstream) : stringstream :=
  mkStringstream (take (ss_put s) (ss_contents s) ++ c :: drop (S (ss_put s)) (ss_contents s)) (S (ss_put s)).

(** ** The function *)

Record dump : Type := mkDump { d_out : bytes; d_pchars : stringstream; d_printed : Z }.

Definition pchar (b : byte) : byte := if isprint b then b else x2e.

(** One round of the loop. *)
Definition dump_byte (indent : nat) (d : dump) (b : byte) : dump :=
  let (out, pchars) :=
    if Z.land (d_printed d) 15 =? 0 then
      let (out, pchars) :=
        if negb (d_printed d =? 0)
        then (d_out d ++ repeat space 4 ++ ss_contents (d_pchars d) ++ [newline], new_stringstream [space])
        else (d_out d, d_pchars d) in
      (out ++ repeat space indent ++ put_hex 8 (d_printed d) ++ x3a :: repeat space 4, pchars)
    else if Z.land (d_printed d) 1 =? 0 then (d_out d ++ [space], d_pchars d)
    else (d_out d, d_pchars d) in
  mkDump (out ++ put_hex 2 (b2z b)) (ss_put_char (pchar b) pchars) (d_printed d + 1).

Definition hexdump (data : bytes) (indent : nat) : bytes :=
  let d := fold_left (dump_byte indent) data (mkDump [] (new_stringstream [space]) 0) in
  let print_rem := (16 - Z.land (d_printed d) 15) mod 16 in
  d_out d ++ repeat space (Z.to_nat (2 * print_rem + print_rem / 2 + 4)) ++ ss_contents (d_pchars d) ++ [newline; newline].

(** ** The text, by rows *)

Fixpoint pairs (l : bytes) : bytes :=
  match l with
  | [] => []
  | [a] => put_hex 2 (b2z a)
  | a :: b :: l => put_hex 2 (b2z a) ++ put_hex 2 (b2z b) ++ match l with [] => [] | _ => space :: pairs l end
  end.

(** The sixteen bytes, or fewer, of the row at [offset]: the hexadecimal part
    takes 39 columns. *)
Definition row (indent : nat) (offset : Z) (l : bytes) : bytes :=
  repeat space indent ++ put_hex 8 offset ++ x3a :: repeat space 4 ++
  pairs l ++ repeat space (39 - length (pairs l)) ++ repeat space 4 ++ map pchar l.

(** The rows of [n] times sixteen bytes and of the rest. *)
Fixpoint text (indent : nat) (offset : Z) (n : nat) (l : bytes) : bytes :=
  match n with
  | O => row indent offset l
  | S n => row indent offset (take 16 l) ++ newline :: text indent (offset + 16) n (drop 16 l)
  end.

Definition hexdump_text (data : bytes) (indent : nat) : bytes :=
  match data with
  | [] => repeat space 5
  | _ => text indent 0 ((length data - 1) / 16) data
  end ++ [newline; newline].

(** ** The function writes the text *)

Lemma put_hex_byte b : exists x y, put_hex 2 (b2z b) = [x; y].
Proof. destruct b; by eexists _, _. Qed.
Lemma length_put_hex b : length (put_hex 2 (b2z b)) = 2%nat.
Proof. by destruct (put_hex_byte b) as (? & ? & ->). Qed.

(** What follows the first byte of a row. *)
Fixpoint more (odd : bool) (l : bytes) : bytes :=
  match l with
  | [] => []
  | b :: l => (if odd then [] else [space]) ++ put_hex 2 (b2z b) ++ more (negb odd) l
  end.

Lemma pairs_more l : forall a, pairs (a :: l) = put_hex 2 (b2z a) ++ more true l.
Proof.
  induction l as [l IH] using (induction_ltof1 _ (@length byte)). intros a.
  destruct l as [|b [|c l]]; [cbn; by rewrite ?app_nil_r..|].
  change (pairs (a :: b :: c :: l)) with (put_hex 2 (b2z a) ++ put_hex 2 (b2z b) ++ space :: pairs (c :: l)).
  rewrite IH by (unfold ltof; cbn; lia). done.
Qed.

Lemma length_more l : forall odd,
  Z.of_nat (length (more odd l)) = 2 * zlen l + (zlen l + (if odd then 0 else 1)) / 2.
Proof.
  induction l as [|b l IH]; intros odd; cbn [more]; [by destruct odd|].
  rewrite !length_app, length_put_hex, !Nat2Z.inj_add, IH, zlen_cons.
  destruct odd; cbn [length negb]; Z.to_euclidean_division_equations; lia.
Qed.

Lemma length_pairs l : l <> [] -> Z.of_nat (length (pairs l)) = 2 * zlen l + (zlen l - 1) / 2.
Proof.
  destruct l as [|a l]; [done|]. intros _.
  rewrite pairs_more, length_app, length_put_hex, Nat2Z.inj_add, length_more, zlen_cons.
  replace (1 + zlen l - 1) with (zlen l + 0) by lia. lia.
Qed.

Lemma land_15 n : Z.land n 15 = n mod 16.
Proof. apply (Z.land_ones n 4). lia. Qed.
Lemma land_1 n : Z.land n 1 = n mod 2.
Proof. apply (Z.land_ones n 1). lia. Qed.

(** The stream after the characters of [l]. *)
Definition shown (l : bytes) : stringstream := mkStringstream (map pchar l) (length l).

Lemma put_shown l b : ss_put_char (pchar b) (shown l) = shown (l ++ [b]).
Proof.
  unfold ss_put_char, shown. cbn [ss_put ss_contents].
  rewrite take_ge, drop_ge by (rewrite length_map; lia). rewrite map_app, length_app. f_equal. cbn. lia.
Qed.

Lemma put_first b : ss_put_char (pchar b) (new_stringstream [space]) = shown [b].
Proof. done. Qed.

Lemma dump_more indent l : forall pre out k,
  pre <> [] -> zlen pre + zlen l <= 16 ->
  fold_left (dump_byte indent) l (mkDump out (shown pre) (16 * k + zlen pre)) =
  mkDump (out ++ more (Z.odd (zlen pre)) l) (shown (pre ++ l)) (16 * k + zlen (pre ++ l)).
Proof.
  induction l as [|b l IH]; intros pre out k Hp Hl; cbn [fold_left more]; [by rewrite !app_nil_r|].
  assert (0 < zlen pre) by (destruct pre; [done|]; rewrite zlen_cons; zpos; lia).
  rewrite zlen_cons in Hl. zpos. unfold dump_byte at 2. cbn [d_printed d_out d_pchars].
  rewrite land_15, land_1, Zmod_odd.
  replace ((16 * k + zlen pre) mod 16) with (zlen pre)
    by (rewrite Z.mul_comm, Z.add_comm, Z.mod_add by lia; symmetry; apply Z.mod_small; lia).
  destruct (Z.eqb_spec (zlen pre) 0) as [|_]; [lia|].
  rewrite (Z.add_comm (16 * k)), Z.odd_add_mul_even by by exists 8.
  rewrite (Z.add_comm (zlen pre)).
  assert (Hn : 16 * k + zlen pre + 1 = 16 * k + zlen (pre ++ [b])) by (rewrite zlen_app, zlen_cons, zlen_nil; lia).
  assert (Ho : Z.odd (zlen (pre ++ [b])) = negb (Z.odd (zlen pre)))
    by (rewrite zlen_app; change (zlen [b]) with 1; rewrite Z.odd_add; by destruct (Z.odd _)).
  assert (Hnew : pre ++ [b] <> []) by (by destruct pre).
  destruct (Z.odd (zlen pre)) eqn:Eo; cbn [negb] in Ho.
  - change (1 =? 0) with false. cbn iota. rewrite put_shown, Hn, IH, Ho by (done || (rewrite zlen_app, zlen_cons, zlen_nil; lia)).
    by rewrite <- !app_assoc.
  - change (0 =? 0) with true. cbn iota. rewrite put_shown, Hn, IH, Ho by (done || (rewrite zlen_app, zlen_cons, zlen_nil; lia)).
    by rewrite <- !app_assoc.
Qed.

Ltac flat := repeat (rewrite <- app_assoc || rewrite <- app_comm_cons).

(** What a row begins with, after the row before it is ended. *)
Definition before (d : dump) : bytes :=
  if d_printed d =? 0 then d_out d
  else d_out d ++ repeat space 4 ++ ss_contents (d_pchars d) ++ [newline].
Definition at_row (d : dump) (k : Z) : Prop :=
  0 <= k /\ d_printed d = 16 * k /\ (k = 0 -> d_pchars d = new_stringstream [space]).

Lemma dump_row indent l d k :
  at_row d k -> l <> [] -> zlen l <= 16 ->
  fold_left (dump_byte indent) l d =
  mkDump (before d ++ repeat space indent ++ put_hex 8 (16 * k) ++ x3a :: repeat space 4 ++ pairs l)
    (shown l) (16 * k + zlen l).
Proof.
  intros (Hk & Hd & Hp) Hl Hlen. destruct l as [|b l]; [done|]. cbn [fold_left].
  assert (E : dump_byte indent d b =
    mkDump (before d ++ repeat space indent ++ put_hex 8 (16 * k) ++ x3a :: repeat space 4 ++ put_hex 2 (b2z b))
      (shown [b]) (16 * k + zlen [b])).
  { unfold dump_byte, before. rewrite Hd, land_15, Z.mul_comm, Z_mod_mult. change (0 =? 0) with true. cbn iota.
    destruct (Z.eqb_spec (k * 16) 0) as [E|]; cbn [negb].
    - rewrite Hp, put_first by lia. by rewrite <- !app_assoc.
    - rewrite put_first. by rewrite <- !app_assoc. }
  rewrite E, dump_more by (done || (rewrite zlen_cons in Hlen; change (zlen [b]) with 1; lia)).
  rewrite pairs_more. change (Z.odd (zlen [b])) with true. by rewrite <- !app_assoc.
Qed.

Definition finish (d : dump) : bytes :=
  let print_rem := (16 - Z.land (d_printed d) 15) mod 16 in
  d_out d ++ repeat space (Z.to_nat (2 * print_rem + print_rem / 2 + 4)) ++ ss_contents (d_pchars d) ++ [newline; newline].

(** The gap between the last byte and the characters. *)
Lemma gap_eq l k : l <> [] -> zlen l <= 16 ->
  let print_rem := (16 - (16 * k + zlen l) mod 16) mod 16 in
  Z.to_nat (2 * print_rem + print_rem / 2 + 4) = ((39 - length (pairs l)) + 4)%nat.
Proof.
  intros Hl Hlen. pose proof (length_pairs l Hl) as Hp.
  assert (0 < zlen l) by (destruct l; [done|]; rewrite zlen_cons; zpos; lia).
  rewrite (Z.add_comm (16 * k)), (Z.mul_comm 16), Z.mod_add by lia. cbv zeta.
  assert (Hr : (16 - zlen l mod 16) mod 16 = 16 - zlen l) by (Z.to_euclidean_division_equations; lia).
  rewrite Hr. Z.to_euclidean_division_equations; lia.
Qed.

Lemma dump_text indent n : forall l d k,
  at_row d k -> 16 * Z.of_nat n < zlen l <= 16 * Z.of_nat n + 16 ->
  finish (fold_left (dump_byte indent) l d) = before d ++ text indent (16 * k) n l ++ [newline; newline].
Proof.
  induction n as [|n IH]; intros l d k Hd Hl; cbn [text].
  - assert (l <> []) by (intros ->; change (zlen (@nil byte)) with 0 in Hl; lia).
    rewrite (dump_row indent l d k) by (done || lia). unfold finish. cbn [d_printed d_out d_pchars].
    pose proof (gap_eq l k H ltac:(lia)) as Hg. cbv zeta in Hg. rewrite land_15, Hg, repeat_app. unfold row.
    by flat.
  - rewrite <- (take_drop 16 l) at 1. rewrite fold_left_app.
    assert (Ht : zlen (take 16 l) = 16) by (unfold zlen in *; rewrite length_take; lia).
    assert (take 16 l <> []) by (intros E; rewrite E in Ht; done).
    rewrite (dump_row indent (take 16 l) d k) by (done || lia).
    rewrite (IH _ _ (k + 1)).
    + unfold before at 1. cbn [d_printed d_out d_pchars].
      destruct (Z.eqb_spec (16 * k + zlen (take 16 l)) 0); [destruct Hd; lia|].
      pose proof (length_pairs (take 16 l) ltac:(done)) as Hp. rewrite Ht in Hp. change (2 * 16 + (16 - 1) / 2) with 39 in Hp.
      unfold row. replace (39 - length (pairs (take 16 l)))%nat with 0%nat by lia.
      replace (16 * (k + 1)) with (16 * k + 16) by lia. cbn [repeat app]. by flat.
    + destruct Hd as (? & ? & ?). split; [lia|]. cbn [d_printed]. rewrite Ht. split; [lia|]. lia.
    + unfold zlen in *. rewrite length_drop. lia.
Qed.

Lemma hexdump_text_eq data indent : hexdump data indent = hexdump_text data indent.
Proof.
  unfold hexdump_text. destruct data as [|b data]; [done|].
  change (hexdump (b :: data) indent) with (finish (fold_left (dump_byte indent) (b :: data) (mkDump [] (new_stringstream [space]) 0))).
  rewrite (dump_text indent ((length (b :: data) - 1) / 16) _ _ 0); [done|done|].
  unfold zlen. cbn [length]. pose proof (Nat.div_mod (S (length data) - 1) 16 ltac:(done)).
  pose proof (Nat.mod_upper_bound (S (length data) - 1) 16 ltac:(done)). lia.
Qed.

(** The dump is the text: every row shows the offset of its first byte, sixteen
    bytes in pairs of two digits, as many spaces as bring the characters to the
    same column also in the last row, and the characters, those that do not print
    as full stops. *)
Theorem hexdump_exact data indent : hexdump data indent = hexdump_text data indent.
Proof. apply hexdump_text_eq. Qed.

(** ** Reading a dump *)

Definition unhex (b : byte) : option Z :=
  if (48 <=? b2z b) && (b2z b <=? 57) then Some (b2z b - 48)
  else if (97 <=? b2z b) && (b2z b <=? 102) then Some (b2z b - 87)
  else None.

Fixpoint read_pairs (s : bytes) : bytes :=
  match s with
  | a :: b :: s =>
      match unhex a, unhex b with
      | Some x, Some y =>
          z2b (16 * x + y) ::
          match s with
          | c :: s' => if bool_decide (c = space) then read_pairs s' else read_pairs s
          | [] => []
          end
      | _, _ => []
      end
  | _ => []
  end.

Fixpoint lines (line : bytes) (s : bytes) : list bytes :=
  match s with
  | [] => [line]
  | c :: s => if bool_decide (c = newline) then line :: lines [] s else lines (line ++ [c]) s
  end.

(** The bytes that a dump shows. *)
Definition undump (indent : nat) (s : bytes) : bytes :=
  concat (map (fun line => read_pairs (drop (indent + 13) line)) (lines [] s)).

Lemma unhex_byte b : exists x y h l, put_hex 2 (b2z b) = [x; y] /\ unhex x = Some h /\ unhex y = Some l /\
  z2b (16 * h + l) = b /\ bool_decide (x = space) = false /\ x <> newline /\ y <> newline.
Proof. destruct b; by eexists _, _, _, _. Qed.

Lemma read_more l : forall a odd rest,
  read_pairs (put_hex 2 (b2z a) ++ more odd l ++ space :: space :: rest) = a :: l.
Proof.
  induction l as [|b l IH]; intros a odd rest; cbn [more app]; destruct (unhex_byte a) as (x & y & h & k & -> & Hx & Hy & Ha & _).
  - cbn [app read_pairs]. rewrite Hx, Hy, Ha. cbn. by destruct rest.
  - rewrite <- !app_assoc. specialize (IH b (negb odd) rest).
    destruct (unhex_byte b) as (x' & y' & h' & k' & Hb & _ & _ & _ & Hs & _). rewrite Hb in *.
    destruct odd; cbn [app read_pairs] in *; rewrite Hx, Hy, Ha, ?Hs in *; [by rewrite IH|].
    change (bool_decide (space = space)) with true. cbn iota. by rewrite IH.
Qed.

Lemma hex_digit_line n : hex_digit (n mod 16) <> newline.
Proof.
  pose proof (Z.mod_pos_bound n 16 ltac:(lia)) as H. unfold hex_digit. intros E. apply (f_equal b2z) in E.
  rewrite b2z_z2b in E. change (b2z newline) with 10 in E.
  destruct (Z.ltb_spec (n mod 16) 10); rewrite u8_id in E by lia; lia.
Qed.

Lemma hex_digits_line fuel : forall n, newline ∉ hex_digits fuel n.
Proof.
  induction fuel as [|fuel IH]; intros n; cbn [hex_digits]; [apply not_elem_of_nil|].
  rewrite not_elem_of_app. split; [destruct (n <? 16); [apply not_elem_of_nil|apply IH]|].
  rewrite list_elem_of_singleton. intros E. by apply (hex_digit_line n).
Qed.

Lemma length_hex_digits fuel : forall n k, 0 <= n < 16 ^ Z.of_nat (S k) -> (length (hex_digits fuel n) <= S k)%nat.
Proof.
  induction fuel as [|fuel IH]; intros n k Hn; cbn [hex_digits]; [cbn; lia|]. rewrite length_app. cbn [length].
  destruct (Z.ltb_spec n 16); [cbn; lia|]. destruct k as [|k]; [cbn in Hn; lia|].
  rewrite Nat2Z.inj_succ, Z.pow_succ_r in Hn by lia.
  enough (length (hex_digits fuel (n / 16)) <= S k)%nat by lia. apply IH. Z.to_euclidean_division_equations; lia.
Qed.

Lemma length_put_hex8 n : 0 <= n < W32 -> length (put_hex 8 n) = 8%nat.
Proof.
  intros Hn. unfold put_hex. cbv zeta. rewrite length_app, repeat_length.
  pose proof (length_hex_digits 16 n 7 ltac:(exact Hn)). lia.
Qed.

Lemma pchar_line b : pchar b <> newline.
Proof. by destruct b. Qed.

Lemma repeat_line (c : byte) n : c <> newline -> newline ∉ repeat c n.
Proof. intros Hc Hin. apply list_elem_of_In, repeat_spec in Hin. by subst. Qed.

Lemma more_line l : forall odd, newline ∉ more odd l.
Proof.
  induction l as [|b l IH]; intros odd; cbn [more]; [apply not_elem_of_nil|].
  destruct (unhex_byte b) as (x & y & _ & _ & -> & _ & _ & _ & _ & Hx & Hy). specialize (IH (negb odd)).
  destruct odd; cbn [app]; rewrite !not_elem_of_cons; naive_solver.
Qed.

Lemma row_line indent offset l : newline ∉ row indent offset l.
Proof.
  unfold row, put_hex. cbv zeta. rewrite !not_elem_of_app, not_elem_of_cons, !not_elem_of_app.
  repeat split; try (by apply repeat_line); try done; [apply hex_digits_line| |].
  - destruct l as [|a l]; [apply not_elem_of_nil|]. rewrite pairs_more, not_elem_of_app.
    split; [|apply more_line]. destruct (unhex_byte a) as (x & y & _ & _ & -> & _ & _ & _ & _ & Hx & Hy).
    rewrite !not_elem_of_cons. split; [done|]. split; [done|apply not_elem_of_nil].
  - intros Hin. apply list_elem_of_fmap in Hin as (b & Hb & _). by apply (pchar_line b).
Qed.

Lemma lines_app s : forall line rest, newline ∉ s -> lines line (s ++ newline :: rest) = (line ++ s) :: lines [] rest.
Proof.
  induction s as [|c s IH]; intros line rest Hs; cbn [app lines]; [by rewrite app_nil_r|].
  apply not_elem_of_cons in Hs as [Hc Hs]. rewrite bool_decide_eq_false_2 by congruence.
  rewrite IH by done. by rewrite <- app_assoc.
Qed.

Lemma read_row indent offset l : 0 <= offset < W32 -> l <> [] ->
  read_pairs (drop (indent + 13) (row indent offset l)) = l.
Proof.
  intros Ho Hl. replace (indent + 13)%nat with (indent + (8 + 5))%nat by lia. unfold row.
  rewrite <- drop_drop, drop_app_length' by by rewrite repeat_length. rewrite <- drop_drop, drop_app_length' by by rewrite length_put_hex8.
  rewrite skipn_cons. cbn [repeat app skipn]. destruct l as [|a l]; [done|]. rewrite pairs_more, <- app_assoc.
  destruct (39 - length (put_hex 2 (b2z a) ++ more true l))%nat as [|[|g]]; cbn [repeat app]; apply read_more.
Qed.

Lemma undump_text indent n : forall offset l,
  0 <= offset -> offset + zlen l < W32 -> 16 * Z.of_nat n < zlen l ->
  undump indent (text indent offset n l ++ [newline; newline]) = l.
Proof.
  unfold undump. induction n as [|n IH]; intros offset l Ho Hb Hl; cbn [text].
  - assert (l <> []) by (intros ->; change (zlen (@nil byte)) with 0 in Hl; lia). zpos.
    rewrite lines_app by apply row_line. cbn [app map concat]. rewrite read_row by (done || lia).
    cbn [lines]. change (bool_decide (newline = newline)) with true. cbn. rewrite drop_nil. apply app_nil_r.
  - rewrite <- app_assoc. cbn [app]. rewrite lines_app by apply row_line. cbn [app map concat].
    assert (zlen (take 16 l) = 16) as Ht by (unfold zlen in *; rewrite length_take; lia).
    rewrite read_row by (lia || (intros E; rewrite E in Ht; done)).
    rewrite IH; [apply take_drop|lia|unfold zlen in *; rewrite length_drop; lia..].
Qed.

(** Nothing is lost in a dump: whatever the bytes and the indentation, the bytes
    can be read back from the text. *)
Theorem hexdump_readable data indent : zlen data < W31 -> undump indent (hexdump data indent) = data.
Proof.
  intros Hd. rewrite hexdump_text_eq. unfold hexdump_text. destruct data as [|b data].
  - unfold undump. change (lines [] _) with [repeat space 5; []; []]. cbn [map concat].
    by rewrite !drop_ge by (cbn; lia).
  - apply undump_text; [lia|lia|]. unfold zlen. cbn [length].
    pose proof (Nat.div_mod (S (length data) - 1) 16 ltac:(done)). lia.
Qed.

Lemma hexdump_readable_witness : undump 8 (hexdump (repeat x0a 40) 8) = repeat x0a 40.
Proof. apply (hexdump_readable (repeat x0a 40) 8). reflexivity. Defined.
