(* ===== verification/Random.v ===== *)
(** * The random generator

    [get_random_generator] of [libsponge/util/util.cc]: 624 words of the random
    device seed a Mersenne Twister through [std::seed_seq].  Both are the
    algorithms that the C++ standard prescribes for [std::seed_seq::generate]
    and [std::mt19937]; the words of the random device are an argument. *)
From S2P Require Import Prelude.

(** ** Words *)

Definition word_at (l : list Z) (i : nat) : Z := nth (i mod length l) l 0.
Definition set_word (l : list Z) (i : nat) (v : Z) : list Z := <[(i mod length l)%nat := v]> l.

(** ** [std::seed_seq] *)

Definition seed_mix (x : Z) : Z := Z.lxor x (Z.shiftr x 27).

(** One of the first rounds of [generate]: [v] are the seeds, [p] and [q] the two
    offsets, [k] the number of the round. *)
Definition seed_add (v : list Z) (p q k : nat) (l : list Z) : list Z :=
  let n := length l in
  let r1 := u32 (1664525 * seed_mix (Z.lxor (word_at l k) (Z.lxor (word_at l (k + p)) (word_at l (k + n - 1))))) in
  let r2 := u32 (r1 + if (k =? 0)%nat then zlen v
                      else if (k <=? length v)%nat then Z.of_nat (k mod n) + nth (k - 1) v 0
                      else Z.of_nat (k mod n)) in
  let l := set_word l (k + p) (u32 (word_at l (k + p) + r1)) in
  let l := set_word l (k + q) (u32 (word_at l (k + q) + r2)) in
  set_word l k r2.

(** One of the last rounds. *)
Definition seed_xor (p q k : nat) (l : list Z) : list Z :=
  let n := length l in
  let r3 := u32 (1566083941 * seed_mix (u32 (word_at l k + word_at l (k + p) + word_at l (k + n - 1)))) in
  let r4 := u32 (r3 - Z.of_nat (k mod n)) in
  let l := set_word l (k + p) (Z.lxor (word_at l (k + p)) r3) in
  let l := set_word l (k + q) (Z.lxor (word_at l (k + q)) r4) in
  set_word l k r4.

Definition seed_stride (n : nat) : nat :=
  if (623 <=? n)%nat then 11 else if (68 <=? n)%nat then 7 else if (39 <=? n)%nat then 5
  else if (7 <=? n)%nat then 3 else ((n - 1) / 2)%nat.

(** [generate] of [n] words. *)
Definition seed_generate (v : list Z) (n : nat) : list Z :=
  let t := seed_stride n in
  let p := ((n - t) / 2)%nat in
  let q := (p + t)%nat in
  let m := Nat.max (length v + 1) n in
  let l := repeat 2341178251 n in
  let l := fold_left (fun l k => seed_add v p q k l) (seq 0 m) l in
  fold_left (fun l k => seed_xor p q k l) (seq m n) l.

(** ** [std::mt19937] *)

Definition state_size : nat := 624.

(** The last [state_size] words of the sequence, oldest first. *)
Definition mt19937 : Type := list Z.

(** The next word of the sequence, from the oldest two and the one in the middle. *)
Definition mt_twist (x0 x1 xm : Z) : Z :=
  let y := Z.lor (Z.land x0 2147483648) (Z.land x1 2147483647) in
  Z.lxor xm (Z.lxor (Z.shiftr y 1) (if Z.odd y then 2567483615 else 0)).

Definition mt_temper (x : Z) : Z :=
  let z := Z.lxor x (Z.shiftr x 11) in
  let z := Z.lxor z (Z.land (u32 (Z.shiftl z 7)) 2636928640) in
  let z := Z.lxor z (Z.land (u32 (Z.shiftl z 15)) 4022730752) in
  Z.lxor z (Z.shiftr z 18).

(** [operator()]. *)
Definition mt_next (s : mt19937) : Z * mt19937 :=
  let x := mt_twist (nth 0 s 0) (nth 1 s 0) (nth 397 s 0) in
  (mt_temper x, tail s ++ [x]).

(** [seed(sseq)]: the words of the sequence, unless they are all zero but for bits
    that do not count. *)
Definition mt_seed (a : list Z) : mt19937 :=
  match a with
  | x :: rest => if (Z.shiftr x 31 =? 0) && forallb (Z.eqb 0) rest then 2147483648 :: rest else a
  | [] => []
  end.

(** [get_random_generator]: [rd] is what the random device returns, call by call. *)
Definition get_random_generator (rd : nat -> Z) : mt19937 :=
  let seed_data := map (fun i => u32 (rd i)) (seq 0 state_size) in
  mt_seed (seed_generate seed_data state_size).

(** ** Agreement with published values *)

(** [mt19937(value)], to compare with the value that the standard requires. *)
Fixpoint mt_init (fuel : nat) (i prev : Z) : list Z :=
  match fuel with
  | O => []
  | S fuel => let x := u32 (1812433253 * Z.lxor prev (Z.shiftr prev 30) + i) in x :: mt_init fuel (i + 1) x
  end.

Fixpoint draws (n : nat) (s : mt19937) : list Z * mt19937 :=
  match n with
  | O => ([], s)
  | S n => let (x, s) := mt_next s in let (xs, s) := draws n s in (x :: xs, s)
  end.

(** The seeds 1 to 5 expanded to ten words. *)
Example seed_seq_example : seed_generate [1; 2; 3; 4; 5] 10 =
  [4204997637; 4246533866; 1856049002; 1129615051; 690460811; 1075771511; 46783058; 3904109078; 1534123438; 1495905678].
Proof. vm_compute. reflexivity. Qed.

(** The standard: the 10000th number of a generator with the default seed. *)
Example mt19937_example : last (draws (Z.to_nat 10000) (5489 :: mt_init 623 1 5489)).1 = Some 4123659995.
Proof. vm_compute. reflexivity. Qed.

(** ** The generator is well formed *)

Definition is_word (x : Z) : Prop := 0 <= x < W32.

Lemma word_log2 x : 0 <= x -> is_word x <-> Z.log2 x < 32.
Proof.
  intros H. unfold is_word. destruct (Z.eq_dec x 0) as [->|Hn]; [by split|].
  rewrite (Z.log2_lt_pow2 x 32) by lia. change (2 ^ 32) with W32. lia.
Qed.

Lemma lxor_word x y : is_word x -> is_word y -> is_word (Z.lxor x y).
Proof.
  intros Hx Hy. assert (H : 0 <= Z.lxor x y) by (apply Z.lxor_nonneg; unfold is_word in *; lia).
  apply word_log2; [done|]. pose proof (Z.log2_lxor x y ltac:(apply Hx) ltac:(apply Hy)).
  apply word_log2 in Hx, Hy; [lia|apply Hy|apply Hx].
Qed.

Lemma lor_word x y : is_word x -> is_word y -> is_word (Z.lor x y).
Proof.
  intros Hx Hy. assert (H : 0 <= Z.lor x y) by (apply Z.lor_nonneg; unfold is_word in *; lia).
  apply word_log2; [done|]. rewrite Z.log2_lor by (apply Hx || apply Hy).
  apply word_log2 in Hx, Hy; [lia|apply Hy|apply Hx].
Qed.

Lemma land_word x y : is_word x -> is_word y -> is_word (Z.land x y).
Proof.
  intros Hx Hy. assert (H : 0 <= Z.land x y) by (apply Z.land_nonneg; left; apply Hx).
  apply word_log2; [done|]. pose proof (Z.log2_land x y ltac:(apply Hx) ltac:(apply Hy)).
  apply word_log2 in Hx, Hy; [lia|apply Hy|apply Hx].
Qed.

Lemma shiftr_word x n : 0 <= n -> is_word x -> is_word (Z.shiftr x n).
Proof.
  intros Hn Hx. split; [by apply Z.shiftr_nonneg, Hx|]. rewrite Z.shiftr_div_pow2 by done.
  assert (0 < 2 ^ n) by (apply Z.pow_pos_nonneg; lia). unfold is_word in Hx.
  apply Z.le_lt_trans with x; [|lia]. apply Z.div_le_upper_bound; nia.
Qed.

Lemma u32_word x : is_word (u32 x).
Proof. apply u32_range. Qed.

Lemma temper_word x : is_word x -> is_word (mt_temper x).
Proof.
  intros Hx. unfold mt_temper. set (z1 := Z.lxor x _). assert (H1 : is_word z1) by (apply lxor_word; [done|by apply shiftr_word]).
  set (z2 := Z.lxor z1 _). assert (H2 : is_word z2) by (apply lxor_word; [done|apply land_word; [apply u32_word|done]]).
  set (z3 := Z.lxor z2 _). assert (H3 : is_word z3) by (apply lxor_word; [done|apply land_word; [apply u32_word|done]]).
  apply lxor_word; [done|by apply shiftr_word].
Qed.

Lemma twist_word x0 x1 xm : is_word x0 -> is_word x1 -> is_word xm -> is_word (mt_twist x0 x1 xm).
Proof.
  intros H0 H1 Hm. unfold mt_twist. set (y := Z.lor _ _). assert (Hy : is_word y) by (apply lor_word; by apply land_word).
  apply lxor_word; [done|]. apply lxor_word; [by apply shiftr_word|]. by destruct (Z.odd y).
Qed.

(** A state of the generator: as many words as it should have, in their range. *)
Definition mt_ok (s : mt19937) : Prop := length s = state_size /\ Forall is_word s.

Lemma nth_word l i : Forall is_word l -> is_word (nth i l 0).
Proof.
  intros H. destruct (Nat.lt_ge_cases i (length l)) as [Hi|Hi]; [|by rewrite nth_overflow].
  apply (proj1 (List.Forall_forall is_word l) H), nth_In, Hi.
Qed.

Lemma set_word_ok l i v : is_word v -> Forall is_word l -> Forall is_word (set_word l i v) /\ length (set_word l i v) = length l.
Proof. intros Hv Hl. unfold set_word. split; [by apply Forall_insert|apply length_insert]. Qed.

Lemma seed_fold_ok (f : nat -> list Z -> list Z) ks : forall l,
  (forall k l, Forall is_word l -> Forall is_word (f k l) /\ length (f k l) = length l) ->
  Forall is_word l -> Forall is_word (fold_left (fun l k => f k l) ks l) /\ length (fold_left (fun l k => f k l) ks l) = length l.
Proof.
  induction ks as [|k ks IH]; intros l Hf Hl; cbn [fold_left]; [done|]. destruct (Hf k l Hl) as [H1 <-]. by apply IH.
Qed.

(** The three words that a round changes. *)
Lemma set_words_ok l i v j (g : list Z -> Z) k w :
  is_word v -> (forall l, Forall is_word l -> is_word (g l)) -> is_word w -> Forall is_word l ->
  let l1 := set_word l i v in let l2 := set_word l1 j (g l1) in
  Forall is_word (set_word l2 k w) /\ length (set_word l2 k w) = length l.
Proof.
  intros Hv Hg Hw Hl l1 l2. destruct (set_word_ok l i v Hv Hl) as [H1 L1]. fold l1 in H1, L1.
  destruct (set_word_ok l1 j (g l1) (Hg _ H1) H1) as [H2 L2]. fold l2 in H2, L2.
  destruct (set_word_ok l2 k w Hw H2) as [H3 L3]. split; [done|congruence].
Qed.

Lemma seed_add_ok v p q k l : Forall is_word l -> Forall is_word (seed_add v p q k l) /\ length (seed_add v p q k l) = length l.
Proof.
  intros Hl. refine (set_words_ok l _ _ _ (fun l1 => u32 (word_at l1 (k + q) + _)) _ _ _ _ _ Hl);
    intros; apply u32_word.
Qed.

Lemma seed_xor_ok p q k l : Forall is_word l -> Forall is_word (seed_xor p q k l) /\ length (seed_xor p q k l) = length l.
Proof.
  intros Hl. refine (set_words_ok l _ _ _ (fun l1 => Z.lxor (word_at l1 (k + q)) _) _ _ _ _ _ Hl);
    [|intros l' Hl'|apply u32_word]; (apply lxor_word; [by apply nth_word|apply u32_word]).
Qed.

Lemma seed_generate_ok v n : Forall is_word (seed_generate v n) /\ length (seed_generate v n) = n.
Proof.
  unfold seed_generate. set (l0 := repeat _ n).
  assert (H0 : Forall is_word l0) by (apply List.Forall_forall; intros y Hy%repeat_spec; rewrite Hy; split; [lia|reflexivity]).
  match goal with |- context [fold_left (fun l k => seed_add v ?p ?q k l) ?ks l0] =>
    destruct (seed_fold_ok (seed_add v p q) ks l0 (seed_add_ok v p q) H0) as [H1 L1];
    set (l1 := fold_left (fun l k => seed_add v p q k l) ks l0) in * end.
  match goal with |- context [fold_left (fun l k => seed_xor ?p ?q k l) ?ks l1] =>
    destruct (seed_fold_ok (seed_xor p q) ks l1 (seed_xor_ok p q) H1) as [H2 L2] end.
  split; [exact H2|]. etransitivity; [exact L2|]. etransitivity; [exact L1|apply repeat_length].
Qed.

Lemma mt_seed_ok a : Forall is_word a -> Forall is_word (mt_seed a) /\ length (mt_seed a) = length a.
Proof.
  intros H. destruct a as [|x a]; [done|]. cbn [mt_seed]. destruct (_ && _); [|done].
  split; [|done]. inversion H. by constructor.
Qed.

Lemma mt_next_ok s : mt_ok s -> is_word (mt_next s).1 /\ mt_ok (mt_next s).2.
Proof.
  intros [Hl Hs]. cbn [mt_next fst snd].
  assert (Hx : is_word (mt_twist (nth 0 s 0) (nth 1 s 0) (nth 397 s 0))) by (apply twist_word; by apply nth_word).
  split; [by apply temper_word|]. destruct s as [|x s]; [done|]. cbn [tail]. split.
  - rewrite length_app. cbn [length] in *. lia.
  - apply Forall_cons in Hs as [_ Hs]. apply Forall_app. split; [done|]. by apply Forall_singleton.
Qed.

Lemma draws_ok n : forall s, mt_ok s -> Forall is_word (draws n s).1 /\ mt_ok (draws n s).2.
Proof.
  induction n as [|n IH]; intros s Hs; cbn [draws]; [by split; [constructor|]|]. destruct (mt_next_ok s Hs) as [H1 H2].
  destruct (mt_next s) as [x s']. cbn [fst snd] in H1, H2. destruct (IH s' H2) as [H3 H4].
  destruct (draws n s') as [xs s'']. split; [by constructor|done].
Qed.

(** The generator of the programs: whatever the random device returns, it is a
    Mersenne Twister in a proper state; every number drawn from it is a 32-bit word
    and leaves it in a proper state, and it does not start in the state of zeros,
    from which only zeros are drawn. *)
Theorem random_generator_ok rd n :
  mt_ok (get_random_generator rd) /\
  Forall is_word (draws n (get_random_generator rd)).1 /\ mt_ok (draws n (get_random_generator rd)).2 /\
  ~ Forall (eq 0) (get_random_generator rd).
Proof.
  unfold get_random_generator. destruct (seed_generate_ok (map (fun i => u32 (rd i)) (seq 0 state_size)) state_size) as [Hg Lg].
  set (a := seed_generate _ state_size) in *. clearbody a. destruct (mt_seed_ok a Hg) as [Hs Ls].
  assert (Hok : mt_ok (mt_seed a)) by (split; [congruence|done]). split; [done|]. destruct (draws_ok n _ Hok) as [H1 H2].
  split; [done|]. split; [done|]. intros Hz. destruct a as [|x a]; [done|]. cbn [mt_seed] in Hz.
  destruct ((Z.shiftr x 31 =? 0) && forallb (Z.eqb 0) a) eqn:E; inversion Hz as [|? ? Hx Ha]; subst; [done|].
  apply andb_false_iff in E as [E|E]; [done|]. apply not_true_iff_false in E. apply E, forallb_forall.
  intros y Hy. apply Z.eqb_eq. by apply (proj1 (List.Forall_forall (eq 0) a) Ha).
Qed.
