(* ===== verification/TCPSegment.v ===== *)
(** * TCP headers and segments

    [libsponge/tcp_helpers/tcp_header.hh], [tcp_segment.hh] and their [.cc]:
    parsing, serialisation and the checksum of a segment. *)
From S2P Require Import Prelude WrappingIntegers Buffer Parser Checksum.

Record TCPHeader : Type := mkTCPHeader {
  th_sport : Z;
  th_dport : Z;
  th_seqno : WrappingInt32;
  th_ackno : WrappingInt32;
  th_doff : Z;
  th_urg : bool;
  th_ack : bool;
  th_psh : bool;
  th_rst : bool;
  th_syn : bool;
  th_fin : bool;
  th_win : Z;
  th_cksum : Z;
  th_uptr : Z }.

Definition TCPHeader_LENGTH : Z := 20.

Definition default_TCPHeader : TCPHeader :=
  mkTCPHeader 0 0 (mkW32 0) (mkW32 0) (TCPHeader_LENGTH / 4)
    false false false false false false 0 0 0.

(** The assignments to the members. *)
Definition set_sport v h := mkTCPHeader v (th_dport h) (th_seqno h) (th_ackno h) (th_doff h)
  (th_urg h) (th_ack h) (th_psh h) (th_rst h) (th_syn h) (th_fin h) (th_win h) (th_cksum h) (th_uptr h).
Definition set_dport v h := mkTCPHeader (th_sport h) v (th_seqno h) (th_ackno h) (th_doff h)
  (th_urg h) (th_ack h) (th_psh h) (th_rst h) (th_syn h) (th_fin h) (th_win h) (th_cksum h) (th_uptr h).
Definition set_seqno v h := mkTCPHeader (th_sport h) (th_dport h) v (th_ackno h) (th_doff h)
  (th_urg h) (th_ack h) (th_psh h) (th_rst h) (th_syn h) (th_fin h) (th_win h) (th_cksum h) (th_uptr h).
Definition set_ackno v h := mkTCPHeader (th_sport h) (th_dport h) (th_seqno h) v (th_doff h)
  (th_urg h) (th_ack h) (th_psh h) (th_rst h) (th_syn h) (th_fin h) (th_win h) (th_cksum h) (th_uptr h).
Definition set_ack v h := mkTCPHeader (th_sport h) (th_dport h) (th_seqno h) (th_ackno h) (th_doff h)
  (th_urg h) v (th_psh h) (th_rst h) (th_syn h) (th_fin h) (th_win h) (th_cksum h) (th_uptr h).
Definition set_rst v h := mkTCPHeader (th_sport h) (th_dport h) (th_seqno h) (th_ackno h) (th_doff h)
  (th_urg h) (th_ack h) (th_psh h) v (th_syn h) (th_fin h) (th_win h) (th_cksum h) (th_uptr h).
Definition set_syn v h := mkTCPHeader (th_sport h) (th_dport h) (th_seqno h) (th_ackno h) (th_doff h)
  (th_urg h) (th_ack h) (th_psh h) (th_rst h) v (th_fin h) (th_win h) (th_cksum h) (th_uptr h).
Definition set_fin v h := mkTCPHeader (th_sport h) (th_dport h) (th_seqno h) (th_ackno h) (th_doff h)
  (th_urg h) (th_ack h) (th_psh h) (th_rst h) (th_syn h) v (th_win h) (th_cksum h) (th_uptr h).
Definition set_win v h := mkTCPHeader (th_sport h) (th_dport h) (th_seqno h) (th_ackno h) (th_doff h)
  (th_urg h) (th_ack h) (th_psh h) (th_rst h) (th_syn h) (th_fin h) v (th_cksum h) (th_uptr h).
Definition set_cksum v h := mkTCPHeader (th_sport h) (th_dport h) (th_seqno h) (th_ackno h) (th_doff h)
  (th_urg h) (th_ack h) (th_psh h) (th_rst h) (th_syn h) (th_fin h) (th_win h) v (th_uptr h).

(** [TCPHeader::parse] assigns every member before its first return. *)
Definition TCPHeader_parse : parser (ParseResult * TCPHeader) :=
  let! sport := p_u16 in
  let! dport := p_u16 in
  let! seqno := p_u32 in
  let! ackno := p_u32 in
  let! doff_b := p_u8 in
  let doff := Z.shiftr doff_b 4 in
  let! fl_b := p_u8 in
  let urg := negb (Z.land fl_b 32 =? 0) in
  let ack := negb (Z.land fl_b 16 =? 0) in
  let psh := negb (Z.land fl_b 8 =? 0) in
  let rst := negb (Z.land fl_b 4 =? 0) in
  let syn := negb (Z.land fl_b 2 =? 0) in
  let fin := negb (Z.land fl_b 1 =? 0) in
  let! win := p_u16 in
  let! cksum := p_u16 in
  let! uptr := p_u16 in
  let h := mkTCPHeader sport dport (mkW32 seqno) (mkW32 ackno) doff
    urg ack psh rst syn fin win cksum uptr in
  if doff <? 5 then pret (HeaderTooShort, h)
  else
    let! _ := p_skip (doff * 4 -! TCPHeader_LENGTH) in
    let! e := p_get_error in
    if negb (pr_eqb e NoError) then pret (e, h) else pret (NoError, h).

Definition flags_byte (h : TCPHeader) : Z :=
  u8 (Z.lor (Z.lor (Z.lor (Z.lor (Z.lor (if th_urg h then 32 else 0) (if th_ack h then 16 else 0))
    (if th_psh h then 8 else 0)) (if th_rst h then 4 else 0)) (if th_syn h then 2 else 0))
    (if th_fin h then 1 else 0)).

Definition TCPHeader_serialize (h : TCPHeader) : result bytes :=
  if th_doff h <? 5 then Err runtime_error
  else
    let ret := [] in
    let ret := w_u16 ret (th_sport h) in
    let ret := w_u16 ret (th_dport h) in
    let ret := w_u32 ret (raw_value (th_seqno h)) in
    let ret := w_u32 ret (raw_value (th_ackno h)) in
    let ret := w_u8 ret (u8 (Z.shiftl (th_doff h) 4)) in
    let ret := w_u8 ret (flags_byte h) in
    let ret := w_u16 ret (th_win h) in
    let ret := w_u16 ret (th_cksum h) in
    let ret := w_u16 ret (th_uptr h) in
    Ok (resize ret (4 * th_doff h)).

(** [operator==]: the checksum and the ports are left out. *)
Definition TCPHeader_eqb (a b : TCPHeader) : bool :=
  w32_eqb (th_seqno a) (th_seqno b) && w32_eqb (th_ackno a) (th_ackno b)
  && (th_doff a =? th_doff b) && Bool.eqb (th_urg a) (th_urg b) && Bool.eqb (th_ack a) (th_ack b)
  && Bool.eqb (th_psh a) (th_psh b) && Bool.eqb (th_rst a) (th_rst b) && Bool.eqb (th_syn a) (th_syn b)
  && Bool.eqb (th_fin a) (th_fin b) && (th_win a =? th_win b) && (th_uptr a =? th_uptr b).

(** ** Segments *)

Record TCPSegment : Type := mkTCPSegment { header : TCPHeader; payload : Buffer }.

Definition new_TCPSegment : TCPSegment := mkTCPSegment default_TCPHeader empty_Buffer.

(** Changing a segment through the reference that [header()] returns. *)
Definition with_header (f : TCPHeader -> TCPHeader) (s : TCPSegment) : TCPSegment :=
  mkTCPSegment (f (header s)) (payload s).

(** The result of [_header.parse] is not looked at. *)
Definition TCPSegment_parse (s : TCPSegment) (buffer : Buffer) (datagram_layer_checksum : Z)
    : result (ParseResult * TCPSegment) :=
  let check := ck_add (new_InternetChecksum datagram_layer_checksum) (buf_str buffer) in
  if negb (ck_value check =? 0) then Ok (BadChecksum, s)
  else
    let p := new_NetParser buffer in
    let* (hr, p) := TCPHeader_parse p in
    Ok (get_error p, mkTCPSegment (snd hr) (np_buffer p)).

Definition length_in_sequence_space (s : TCPSegment) : Z :=
  zlen (buf_str (payload s)) +! (if th_syn (header s) then 1 else 0)
    +! (if th_fin (header s) then 1 else 0).

Definition TCPSegment_serialize (s : TCPSegment) (datagram_layer_checksum : Z) : result BufferList :=
  let header_out := set_cksum 0 (header s) in
  let* hs := TCPHeader_serialize header_out in
  let check := new_InternetChecksum datagram_layer_checksum in
  let check := ck_add check hs in
  let check := ck_add check (buf_str (payload s)) in
  let header_out := set_cksum (ck_value check) header_out in
  let* hs := TCPHeader_serialize header_out in
  Ok (bl_append (bl_append [] (BufferList_of hs)) (BufferList_of_Buffer (payload s))).

(** ** Well-formed headers and segments *)

(** The members hold values of their types, and [doff] fits its four bits. *)
Record TCPHeader_ok (h : TCPHeader) : Prop := mkTCPHeader_ok {
  tho_sport : 0 <= th_sport h < W16;
  tho_dport : 0 <= th_dport h < W16;
  tho_seqno : w32_ok (th_seqno h);
  tho_ackno : w32_ok (th_ackno h);
  tho_doff : 5 <= th_doff h <= 15;
  tho_win : 0 <= th_win h < W16;
  tho_cksum : 0 <= th_cksum h < W16;
  tho_uptr : 0 <= th_uptr h < W16 }.

Definition TCPSegment_ok (s : TCPSegment) : Prop :=
  TCPHeader_ok (header s) /\ buf_ok (payload s) /\ zlen (buf_str (payload s)) < W16 - 60.

(** The bytes around the checksum field. *)
Definition tcp_pre (h : TCPHeader) : bytes :=
  be2 (th_sport h) ++ be2 (th_dport h) ++ be4 (raw_value (th_seqno h)) ++
  be4 (raw_value (th_ackno h)) ++ be1 (u8 (Z.shiftl (th_doff h) 4)) ++ be1 (flags_byte h) ++
  be2 (th_win h).
Definition tcp_post (h : TCPHeader) : bytes :=
  be2 (th_uptr h) ++ repeat x00 (Z.to_nat (4 * th_doff h - 20)).

Lemma tcp_pre_len h : zlen (tcp_pre h) = 16.
Proof. reflexivity. Qed.
Lemma tcp_post_len h : 5 <= th_doff h -> zlen (tcp_post h) = 4 * th_doff h - 18.
Proof.
  intros. unfold tcp_post. rewrite zlen_app, zlen_repeat by lia.
  change (zlen (be2 (th_uptr h))) with 2. lia.
Qed.

Lemma TCPHeader_serialize_eq h :
  5 <= th_doff h ->
  TCPHeader_serialize h = Ok (tcp_pre h ++ be2 (th_cksum h) ++ tcp_post h).
Proof.
  intros H. unfold TCPHeader_serialize. zcase; [lia|]. cbv zeta.
  rewrite !w_u16_eq, !w_u32_eq, !w_u8_eq.
  rewrite <- !app_assoc. cbn [app]. f_equal. rewrite resize_pad by (change (20 <= 4 * th_doff h); lia).
  unfold tcp_pre, tcp_post. rewrite <- !app_assoc. do 9 f_equal.
Qed.

Lemma flags_read h :
  negb (Z.land (flags_byte h) 32 =? 0) = th_urg h /\
  negb (Z.land (flags_byte h) 16 =? 0) = th_ack h /\
  negb (Z.land (flags_byte h) 8 =? 0) = th_psh h /\
  negb (Z.land (flags_byte h) 4 =? 0) = th_rst h /\
  negb (Z.land (flags_byte h) 2 =? 0) = th_syn h /\
  negb (Z.land (flags_byte h) 1 =? 0) = th_fin h.
Proof.
  unfold flags_byte. destruct (th_urg h), (th_ack h), (th_psh h), (th_rst h), (th_syn h), (th_fin h);
    vm_compute; split_and!; reflexivity.
Qed.

Lemma doff_read d : 0 <= d <= 15 -> Z.shiftr (u8 (u8 (Z.shiftl d 4))) 4 = d.
Proof.
  intros. rewrite Z.shiftl_mul_pow2, Z.shiftr_div_pow2 by lia. change (2 ^ 4) with 16. wz.
Qed.

Lemma reads_TCPHeader h :
  TCPHeader_ok h ->
  reads TCPHeader_parse (tcp_pre h ++ be2 (th_cksum h) ++ tcp_post h) (NoError, h).
Proof.
  intros [H1 H2 H3 H4 H5 H6 H7 H8]. unfold TCPHeader_parse, tcp_pre, tcp_post.
  rewrite <- !app_assoc.
  do 9 (eapply reads_bind; [solve [eauto with sponge]|]).
  rewrite doff_read by lia. destruct (Z.ltb_spec (th_doff h) 5); [lia|].
  destruct (flags_read h) as (F1 & F2 & F3 & F4 & F5 & F6).
  assert (E : u8 (flags_byte h) = flags_byte h) by (apply u8_id, u8_range).
  rewrite E, F1, F2, F3, F4, F5, F6. red in H3, H4. nowrap.
  rewrite <- (app_nil_r (repeat _ _)). eapply reads_bind.
  { apply reads_skip. rewrite zlen_repeat by lia. unfold TCPHeader_LENGTH. nowrap. lia. }
  rewrite <- (app_nil_r []). eapply reads_bind; [apply reads_get_error|].
  destruct h as [? ? [?] [?]]. apply reads_ret.
Qed.

Lemma yields_TCPHeader : yields TCPHeader_parse (fun _ => True).
Proof.
  unfold TCPHeader_parse. do 9 pstep. case_match; [by apply yields_ret|].
  eapply yields_bind; [apply yields_skip, u64_range|intros _ _]. pstep.
  case_match; by apply yields_ret.
Qed.

Lemma new_NetParser_state b : buf_ok b -> np_state (new_NetParser b).
Proof. split; [done|by left]. Qed.

Lemma consumes_TCPHeader : consumes TCPHeader_parse 20.
Proof.
  unfold TCPHeader_parse. eapply consumes_weaken.
  - do 9 (eapply consumes_bind; [solve [eauto with sponge]|intros ?]).
    instantiate (1 := 0). case_match; [apply consumes_ret|].
    eapply (consumes_weaken _ (0 + (0 + 0))); [|lia]. eapply consumes_bind; [|intros []].
    { eapply consumes_weaken; [apply consumes_skip, u64_range|apply u64_range]. }
    eapply consumes_bind; [apply consumes_get_error|intros e]. case_match; apply consumes_ret.
  - lia.
Qed.

(** The sum over a serialised segment. *)
Lemma tcp_checksum_verifies h pay c :
  5 <= th_doff h <= 15 -> 0 <= c < 8388608 -> zlen pay < W16 - 60 ->
  let sum v := ck_value (ck_add (ck_add (new_InternetChecksum c)
                 (tcp_pre h ++ be2 v ++ tcp_post h)) pay) in
  0 <= sum 0 < W16 /\ sum (sum 0) = 0.
Proof.
  intros Hd Hc Hp sum. pose proof (tcp_pre_len h) as Lp. pose proof (tcp_post_len h ltac:(lia)) as Lq.
  assert (Hs : forall v, sum v = ck_value (ck_add (ck_add (new_InternetChecksum c)
      (tcp_pre h ++ be2 v)) (tcp_post h ++ pay))).
  { intros v. unfold sum. rewrite <- !ck_add_app, <- !app_assoc. done. }
  split.
  - apply ck_value_range.
  - rewrite Hs. apply checksum_verifies; rewrite ?Lp, ?zlen_app, ?Lq; zpos; try lia; try done.
    assert (Hb : z2b (u8 (Z.shiftl (th_doff h) 4)) ∈ tcp_pre h).
    { unfold tcp_pre. rewrite !elem_of_app. do 4 right. left. by left. }
    apply (words_sum_pos _ false) in Hb.
    + pose proof (words_sum_bound (tcp_post h ++ pay) false). lia.
    + rewrite b2z_z2b, Z.shiftl_mul_pow2 by lia. change (2 ^ 4) with 16. wz.
Qed.

Lemma set_cksum_ok h v : TCPHeader_ok h -> 0 <= v < W16 -> TCPHeader_ok (set_cksum v h).
Proof. intros [] Hv. by constructor. Qed.

(** Parsing what was serialised, from any buffer that holds those bytes. *)
Lemma segment_wire s c :
  TCPSegment_ok s -> 0 <= c < 8388608 ->
  exists l, TCPSegment_serialize s c = Ok l /\
    zlen (bl_concatenate l) = 4 * th_doff (header s) + zlen (buf_str (payload s)) /\
    Forall buf_ok l /\
    forall b s0, buf_ok b -> buf_str b = bl_concatenate l ->
    exists s', TCPSegment_parse s0 b c = Ok (NoError, s') /\
      header s' = set_cksum (th_cksum (header s')) (header s) /\
      buf_str (payload s') = buf_str (payload s) /\ TCPSegment_ok s'.
Proof.
  intros (Hh & Hb & Hl) Hc. pose proof (tho_doff _ Hh) as Hd.
  destruct (tcp_checksum_verifies (header s) (buf_str (payload s)) c Hd Hc Hl) as [Hr Hz].
  unfold TCPSegment_serialize. rewrite TCPHeader_serialize_eq by (simpl; lia). cbn [rbind th_cksum set_cksum].
  change (tcp_pre (set_cksum ?v (header s))) with (tcp_pre (header s)).
  change (tcp_post (set_cksum ?v (header s))) with (tcp_post (header s)).
  set (v := ck_value _) in *. rewrite TCPHeader_serialize_eq by (simpl; lia). cbn [rbind].
  match goal with |- exists l, Ok ?a = Ok l /\ _ => exists a end. split; [done|]. set (h' := set_cksum v (header s)).
  assert (Hok' : TCPHeader_ok h') by by apply set_cksum_ok.
  unfold bl_append, BufferList_of, BufferList_of_Buffer. cbn [app].
  rewrite !concatenate_cons, buf_str_of. change (bl_concatenate []) with (@nil byte).
  change (tcp_pre (set_cksum v (set_cksum 0 (header s)))) with (tcp_pre (header s)).
  change (tcp_post (set_cksum v (set_cksum 0 (header s)))) with (tcp_post (header s)).
  cbn [th_cksum set_cksum]. rewrite app_nil_r.
  assert (Lh : zlen (tcp_pre (header s) ++ be2 v ++ tcp_post (header s)) = 4 * th_doff (header s)).
  { rewrite !zlen_app, tcp_pre_len, tcp_post_len by lia. change (zlen (be2 v)) with 2. lia. }
  split; [by rewrite zlen_app, Lh|]. split.
  { constructor; [apply Buffer_of_ok; lia|]. by constructor. }
  intros b s0 Hbok Hbs. unfold TCPSegment_parse. rewrite Hbs, ck_add_app, Hz. cbn [negb Z.eqb].
  destruct (reads_TCPHeader h' Hok' (new_NetParser b) (buf_str (payload s)))
    as (p & E & H1 & H2 & H3); [done|done|done|].
  rewrite E. cbn [rbind snd]. unfold get_error. rewrite H2. eexists. split; [done|].
  split; [done|]. split; [done|]. split; [done|]. split; [done|]. unfold rest in H3. simpl. by rewrite H3.
Qed.

(** C27: Segments survive the wire: serialising a well-formed segment succeeds,
    and parsing the bytes with the same pseudo-header checksum accepts them
    and gives back every field and the payload; only the checksum field is
    new.  The bound on [c] holds for every [IPv4Header::pseudo_cksum]. *)
Theorem TCPSegment_roundtrip s c s0 :
  TCPSegment_ok s -> 0 <= c < 8388608 ->
  exists l s', TCPSegment_serialize s c = Ok l /\
    TCPSegment_parse s0 (Buffer_of (bl_concatenate l)) c = Ok (NoError, s') /\
    header s' = set_cksum (th_cksum (header s')) (header s) /\
    buf_str (payload s') = buf_str (payload s) /\ TCPSegment_ok s'.
Proof.
  intros Hs Hc. destruct (segment_wire s c Hs Hc) as (l & E & Hl & _ & Hw).
  destruct (Hw (Buffer_of (bl_concatenate l)) s0) as (s' & Hs'); [|done|by exists l, s'].
  apply Buffer_of_ok. rewrite Hl. destruct Hs as (Hh & _ & Hp). pose proof (tho_doff _ Hh). lia.
Qed.

Lemma TCPSegment_roundtrip_witness :
  exists l s', TCPSegment_serialize (mkTCPSegment (set_syn true (set_win 5 default_TCPHeader))
      (Buffer_of [x61; x62; x63])) 77 = Ok l /\
    TCPSegment_parse new_TCPSegment (Buffer_of (bl_concatenate l)) 77 = Ok (NoError, s') /\
    th_syn (header s') = true /\ buf_str (payload s') = [x61; x62; x63].
Proof.
  destruct (TCPSegment_roundtrip (mkTCPSegment (set_syn true (set_win 5 default_TCPHeader))
      (Buffer_of [x61; x62; x63])) 77 new_TCPSegment) as (l & s' & H1 & H2 & H3 & H4 & _).
  - split; [constructor; unfold w32_ok; simpl; try lia; done|]. split; [by apply Buffer_of_ok|done].
  - lia.
  - exists l, s'. split; [exact H1|]. split; [exact H2|]. rewrite H3. done.
Defined.

(** [TCPSegment::parse] is total: on any bytes it returns a result without
    throwing.  It reports a bad checksum exactly when the sum over the bytes
    and the pseudo-header does not fold to zero, and then leaves the segment
    as it was; otherwise the only error it reports is a short packet, and
    when it reports none the input was at least a header long and the
    payload is a suffix of it. *)
Theorem TCPSegment_parse_total s b c :
  buf_ok b ->
  exists r s', TCPSegment_parse s b c = Ok (r, s') /\
    (r = BadChecksum <->
       ck_value (ck_add (new_InternetChecksum c) (buf_str b)) <> 0) /\
    (r = BadChecksum -> s' = s) /\
    (r = NoError \/ r = PacketTooShort \/ r = BadChecksum) /\
    (r = NoError -> exists hdr, TCPHeader_LENGTH <= zlen hdr /\
       buf_str b = hdr ++ buf_str (payload s')).
Proof.
  intros Hb. unfold TCPSegment_parse.
  destruct (Z.eqb_spec (ck_value (ck_add (new_InternetChecksum c) (buf_str b))) 0) as [Hz|Hz]; cbn [negb].
  2:{ exists BadChecksum, s. split_and!; try done; auto. }
  destruct (yields_TCPHeader _ (new_NetParser_state b Hb)) as (v & p & E & [Hp He] & _ & _).
  rewrite E. cbn [rbind]. unfold get_error. eexists _, _. split; [done|].
  assert (Hr : np_error p <> BadChecksum) by (destruct He; congruence).
  split; [naive_solver|]. split; [naive_solver|]. split; [naive_solver|]. intros Hn.
  destruct (consumes_TCPHeader _ _ _ (new_NetParser_state b Hb) E) as [_ C].
  destruct (C Hn) as (_ & hdr & L & R). exists hdr. done.
Qed.

Lemma TCPSegment_parse_total_witness :
  exists r s', TCPSegment_parse new_TCPSegment (Buffer_of [x61]) 0 = Ok (r, s') /\
    r = BadChecksum.
Proof.
  destruct (TCPSegment_parse_total new_TCPSegment (Buffer_of [x61]) 0) as (r & s' & E & H & _).
  - by apply Buffer_of_ok.
  - exists r, s'. split; [exact E|]. apply H. by vm_compute.
Defined.

(** The documentation of [TCPHeader::parse] lists a data offset below the
    minimum among the errors to check for, and the function does return
    [HeaderTooShort]; [TCPSegment::parse] drops that result, so a 20-byte
    segment with a valid checksum and a data offset of zero is accepted. *)
Theorem TCPSegment_accepts_short_doff :
  let b := Buffer_of (repeat x00 16 ++ [xff; xff; x00; x00]) in
  (exists p h, TCPHeader_parse (new_NetParser b) = Ok (HeaderTooShort, h, p)) /\
  exists s', TCPSegment_parse new_TCPSegment b 0 = Ok (NoError, s') /\ th_doff (header s') = 0.
Proof. split; eexists _, _ || eexists; vm_compute; [reflexivity|split; reflexivity]. Qed.
