(* ===== verification/IPv4.v ===== *)
(** * IPv4 headers and datagrams

    [libsponge/tcp_helpers/ipv4_header.hh], [ipv4_datagram.hh] and their [.cc]. *)
From S2P Require Import Prelude Buffer Parser Checksum.

Record IPv4Header : Type := mkIPv4Header {
  ih_ver : Z;
  ih_hlen : Z;
  ih_tos : Z;
  ih_len : Z;
  ih_id : Z;
  ih_df : bool;
  ih_mf : bool;
  ih_offset : Z;
  ih_ttl : Z;
  ih_proto : Z;
  ih_cksum : Z;
  ih_src : Z;
  ih_dst : Z }.

Definition IPv4Header_LENGTH : Z := 20.
Definition DEFAULT_TTL : Z := 128.
Definition PROTO_TCP : Z := 6.

Definition default_IPv4Header : IPv4Header :=
  mkIPv4Header 4 (IPv4Header_LENGTH / 4) 0 0 0 true false 0 DEFAULT_TTL PROTO_TCP 0 0 0.

(** The assignments to the members. *)
Definition set_ip_len v h := mkIPv4Header (ih_ver h) (ih_hlen h) (ih_tos h) v (ih_id h) (ih_df h)
  (ih_mf h) (ih_offset h) (ih_ttl h) (ih_proto h) (ih_cksum h) (ih_src h) (ih_dst h).
Definition set_ip_ttl v h := mkIPv4Header (ih_ver h) (ih_hlen h) (ih_tos h) (ih_len h) (ih_id h) (ih_df h)
  (ih_mf h) (ih_offset h) v (ih_proto h) (ih_cksum h) (ih_src h) (ih_dst h).
Definition set_ip_cksum v h := mkIPv4Header (ih_ver h) (ih_hlen h) (ih_tos h) (ih_len h) (ih_id h) (ih_df h)
  (ih_mf h) (ih_offset h) (ih_ttl h) (ih_proto h) v (ih_src h) (ih_dst h).
Definition set_ip_src v h := mkIPv4Header (ih_ver h) (ih_hlen h) (ih_tos h) (ih_len h) (ih_id h) (ih_df h)
  (ih_mf h) (ih_offset h) (ih_ttl h) (ih_proto h) (ih_cksum h) v (ih_dst h).
Definition set_ip_dst v h := mkIPv4Header (ih_ver h) (ih_hlen h) (ih_tos h) (ih_len h) (ih_id h) (ih_df h)
  (ih_mf h) (ih_offset h) (ih_ttl h) (ih_proto h) (ih_cksum h) (ih_src h) v.

(** [IPv4Header::parse] on a header [h], after the buffer was copied: the first
    return leaves [h] as it was. *)
Definition IPv4Header_parse_fields (original_serialized_version : Buffer) (h : IPv4Header)
    : parser (ParseResult * IPv4Header) :=
  let data_size := buf_size original_serialized_version in
  if data_size <? IPv4Header_LENGTH then pret (PacketTooShort, h)
  else
    let! first_byte := p_u8 in
    let ver := Z.shiftr first_byte 4 in
    let hlen := Z.land first_byte 15 in
    let! tos := p_u8 in
    let! len := p_u16 in
    let! id := p_u16 in
    let! fo_val := p_u16 in
    let df := negb (Z.land fo_val 16384 =? 0) in
    let mf := negb (Z.land fo_val 8192 =? 0) in
    let offset := Z.land fo_val 8191 in
    let! ttl := p_u8 in
    let! proto := p_u8 in
    let! cksum := p_u16 in
    let! src := p_u32 in
    let! dst := p_u32 in
    let h := mkIPv4Header ver hlen tos len id df mf offset ttl proto cksum src dst in
    if data_size <? 4 * hlen then pret (PacketTooShort, h)
    else if negb (ver =? 4) then pret (WrongIPVersion, h)
    else if hlen <? 5 then pret (HeaderTooShort, h)
    else if negb (data_size =? len) then pret (TruncatedPacket, h)
    else
      let! _ := p_skip (hlen * 4 -! IPv4Header_LENGTH) in
      let! e := p_get_error in
      if negb (pr_eqb e NoError) then pret (e, h)
      else
        let check := ck_add (new_InternetChecksum 0)
          (ztake (4 * hlen) (buf_str original_serialized_version)) in
        if negb (ck_value check =? 0) then pret (BadChecksum, h)
        else pret (NoError, h).

Definition IPv4Header_parse (h : IPv4Header) : parser (ParseResult * IPv4Header) :=
  let! original_serialized_version := p_buffer in
  IPv4Header_parse_fields original_serialized_version h.

Definition frag_word (h : IPv4Header) : Z :=
  u16 (Z.lor (Z.lor (if ih_df h then 16384 else 0) (if ih_mf h then 8192 else 0))
    (Z.land (ih_offset h) 8191)).

Definition IPv4Header_serialize (h : IPv4Header) : result bytes :=
  if negb (ih_ver h =? 4) then Err runtime_error
  else if 4 * ih_hlen h <? IPv4Header_LENGTH then Err runtime_error
  else
    let ret := [] in
    let first_byte := u8 (Z.lor (Z.shiftl (ih_ver h) 4) (Z.land (ih_hlen h) 15)) in
    let ret := w_u8 ret first_byte in
    let ret := w_u8 ret (ih_tos h) in
    let ret := w_u16 ret (ih_len h) in
    let ret := w_u16 ret (ih_id h) in
    let ret := w_u16 ret (frag_word h) in
    let ret := w_u8 ret (ih_ttl h) in
    let ret := w_u8 ret (ih_proto h) in
    let ret := w_u16 ret (ih_cksum h) in
    let ret := w_u32 ret (ih_src h) in
    let ret := w_u32 ret (ih_dst h) in
    Ok (resize ret (4 * ih_hlen h)).

Definition payload_length (h : IPv4Header) : Z := u16 (ih_len h - 4 * ih_hlen h).

Definition pseudo_cksum (h : IPv4Header) : Z :=
  let pcksum := u32 (Z.shiftr (ih_src h) 16 + Z.land (ih_src h) 65535) in
  let pcksum := u32 (pcksum + u32 (Z.shiftr (ih_dst h) 16 + Z.land (ih_dst h) 65535)) in
  let pcksum := u32 (pcksum + ih_proto h) in
  u32 (pcksum + payload_length h).

(** ** Datagrams *)

Record IPv4Datagram : Type := mkIPv4Datagram { ip_header : IPv4Header; ip_payload : BufferList }.
Abbreviation InternetDatagram := IPv4Datagram.

Definition new_IPv4Datagram : IPv4Datagram := mkIPv4Datagram default_IPv4Header [].

(** The result of [_header.parse] is not looked at. *)
Definition IPv4Datagram_parse (d : IPv4Datagram) (buffer : Buffer)
    : result (ParseResult * IPv4Datagram) :=
  let p := new_NetParser buffer in
  let* (hr, p) := IPv4Header_parse (ip_header d) p in
  let d := mkIPv4Datagram (snd hr) (BufferList_of_Buffer (np_buffer p)) in
  if negb (bl_size (ip_payload d) =? payload_length (ip_header d)) then Ok (PacketTooShort, d)
  else Ok (get_error p, d).

Definition IPv4Datagram_serialize (d : IPv4Datagram) : result BufferList :=
  if negb (bl_size (ip_payload d) =? payload_length (ip_header d)) then Err runtime_error
  else
    let header_out := set_ip_cksum 0 (ip_header d) in
    let* header_zero_checksum := IPv4Header_serialize header_out in
    let check := ck_add (new_InternetChecksum 0) header_zero_checksum in
    let header_out := set_ip_cksum (ck_value check) header_out in
    let* hs := IPv4Header_serialize header_out in
    Ok (bl_append (bl_append [] (BufferList_of hs)) (ip_payload d)).

(** ** Well-formed headers and datagrams *)

Record IPv4Header_ok (h : IPv4Header) : Prop := mkIPv4Header_ok {
  iho_ver : ih_ver h = 4;
  iho_hlen : 5 <= ih_hlen h <= 15;
  iho_tos : 0 <= ih_tos h < W8;
  iho_len : 0 <= ih_len h < W16;
  iho_id : 0 <= ih_id h < W16;
  iho_offset : 0 <= ih_offset h < 8192;
  iho_ttl : 0 <= ih_ttl h < W8;
  iho_proto : 0 <= ih_proto h < W8;
  iho_cksum : 0 <= ih_cksum h < W16;
  iho_src : 0 <= ih_src h < W32;
  iho_dst : 0 <= ih_dst h < W32 }.

(** The length field says how long the datagram is. *)
Definition IPv4Datagram_ok (d : IPv4Datagram) : Prop :=
  IPv4Header_ok (ip_header d) /\ Forall buf_ok (ip_payload d) /\
  zlen (bl_concatenate (ip_payload d)) = ih_len (ip_header d) - 4 * ih_hlen (ip_header d).

(** The bytes around the checksum field. *)
Definition ip_pre (h : IPv4Header) : bytes :=
  be1 (u8 (Z.lor (Z.shiftl (ih_ver h) 4) (Z.land (ih_hlen h) 15))) ++ be1 (ih_tos h) ++
  be2 (ih_len h) ++ be2 (ih_id h) ++ be2 (frag_word h) ++ be1 (ih_ttl h) ++ be1 (ih_proto h).
Definition ip_post (h : IPv4Header) : bytes :=
  be4 (ih_src h) ++ be4 (ih_dst h) ++ repeat x00 (Z.to_nat (4 * ih_hlen h - 20)).

Lemma ip_pre_len h : zlen (ip_pre h) = 10.
Proof. reflexivity. Qed.
Lemma ip_post_len h : 5 <= ih_hlen h -> zlen (ip_post h) = 4 * ih_hlen h - 12.
Proof.
  intros. unfold ip_post. rewrite !zlen_app, zlen_repeat by lia.
  change (zlen (be4 _)) with 4. lia.
Qed.

Lemma IPv4Header_serialize_eq h :
  ih_ver h = 4 -> 5 <= ih_hlen h ->
  IPv4Header_serialize h = Ok (ip_pre h ++ be2 (ih_cksum h) ++ ip_post h).
Proof.
  intros Hv H. unfold IPv4Header_serialize, IPv4Header_LENGTH. rewrite Hv. cbn [Z.eqb negb].
  zcase; [lia|]. cbv zeta.
  rewrite !w_u32_eq, !w_u16_eq, !w_u8_eq.
  rewrite <- !app_assoc. cbn [app]. f_equal.
  rewrite resize_pad by (change (20 <= 4 * ih_hlen h); lia).
  unfold ip_pre, ip_post. rewrite <- !app_assoc, Hv. do 10 f_equal.
Qed.

Lemma frag_word_range h : 0 <= frag_word h < W16.
Proof. apply u16_range. Qed.

Lemma frag_read h : 0 <= ih_offset h < 8192 ->
  negb (Z.land (frag_word h) 16384 =? 0) = ih_df h /\
  negb (Z.land (frag_word h) 8192 =? 0) = ih_mf h /\
  Z.land (frag_word h) 8191 = ih_offset h.
Proof.
  intros Ho.
  assert (Hu : forall x m, Z.land 65535 m = m -> Z.land (u16 x) m = Z.land x m).
  { intros x m Hm. unfold u16. change W16 with (2 ^ 16).
    rewrite <- Z.land_ones by lia. change (Z.ones 16) with 65535. by rewrite <- Z.land_assoc, Hm. }
  assert (Hl : Z.land (ih_offset h) 8191 = ih_offset h).
  { change 8191 with (Z.ones 13). rewrite Z.land_ones by lia. apply Z.mod_small. lia. }
  unfold frag_word. rewrite !Hu by reflexivity.
  rewrite !Z.land_lor_distr_l, <- !Z.land_assoc.
  change (Z.land 8191 16384) with 0. change (Z.land 8191 8192) with 0.
  change (Z.land 8191 8191) with 8191. rewrite Hl, Z.land_0_r.
  split_and!; [by destruct (ih_df h), (ih_mf h)..|].
  by destruct (ih_df h), (ih_mf h).
Qed.

Lemma first_byte_read hlen : 5 <= hlen <= 15 ->
  let b := u8 (Z.lor (Z.shiftl 4 4) (Z.land hlen 15)) in
  u8 b = b /\ Z.shiftr b 4 = 4 /\ Z.land b 15 = hlen.
Proof.
  intros H. assert (Hc : hlen = 5 \/ hlen = 6 \/ hlen = 7 \/ hlen = 8 \/ hlen = 9 \/ hlen = 10 \/
    hlen = 11 \/ hlen = 12 \/ hlen = 13 \/ hlen = 14 \/ hlen = 15) by lia.
  repeat destruct Hc as [->|Hc]; [..|subst hlen]; vm_compute; done.
Qed.

Lemma reads_IPv4Header h h0 b :
  IPv4Header_ok h -> buf_size b = ih_len h -> 4 * ih_hlen h <= ih_len h ->
  let hdr := ip_pre h ++ be2 (ih_cksum h) ++ ip_post h in
  ztake (4 * ih_hlen h) (buf_str b) = hdr ->
  ck_value (ck_add (new_InternetChecksum 0) hdr) = 0 ->
  reads (IPv4Header_parse_fields b h0) hdr (NoError, h).
Proof.
  intros [Hv H1 H2 H3 H4 H5 H6 H7 H8 H9 H10] Hsz Hlen hdr Htake Hck.
  unfold IPv4Header_parse_fields, IPv4Header_LENGTH. rewrite Hsz.
  destruct (Z.ltb_spec (ih_len h) 20); [lia|].
  unfold hdr, ip_pre, ip_post. rewrite <- !app_assoc.
  do 10 (eapply reads_bind; [solve [eauto with sponge]|]).
  rewrite Hv. destruct (first_byte_read (ih_hlen h) H1) as (E1 & E2 & E3).
  rewrite E1, E2, E3. destruct (frag_read h H5) as (F1 & F2 & F3).
  rewrite (u16_id (frag_word h)) by apply frag_word_range. rewrite F1, F2, F3. nowrap.
  destruct (Z.ltb_spec (ih_len h) (4 * ih_hlen h)); [lia|]. cbn [Z.eqb negb Pos.eqb].
  destruct (Z.ltb_spec (ih_hlen h) 5); [lia|]. rewrite Z.eqb_refl. cbn [negb].
  rewrite <- (app_nil_r (repeat _ _)). eapply reads_bind.
  { apply reads_skip. rewrite zlen_repeat by lia. lia. }
  rewrite <- (app_nil_r []). eapply reads_bind; [apply reads_get_error|].
  change (pr_eqb NoError NoError) with true. cbn [negb].
  rewrite Htake, Hck. cbn [Z.eqb negb]. destruct h; simpl in Hv; subst; apply reads_ret.
Qed.

(** The parser returns and never throws. *)
Lemma yields_IPv4Header b h : yields (IPv4Header_parse_fields b h) (fun _ => True).
Proof.
  unfold IPv4Header_parse_fields. case_match; [by apply yields_ret|]. do 10 pstep.
  do 4 (case_match; [by apply yields_ret|]).
  eapply yields_bind; [apply yields_skip, u64_range|intros _ _]. pstep.
  case_match; [by apply yields_ret|]. case_match; by apply yields_ret.
Qed.

Lemma ip_checksum_verifies h :
  ih_ver h = 4 -> 5 <= ih_hlen h <= 15 ->
  let sum v := ck_value (ck_add (new_InternetChecksum 0) (ip_pre h ++ be2 v ++ ip_post h)) in
  0 <= sum 0 < W16 /\ sum (sum 0) = 0.
Proof.
  intros Hv Hd sum. pose proof (ip_pre_len h) as Lp. pose proof (ip_post_len h ltac:(lia)) as Lq.
  assert (Hs : forall v, sum v = ck_value (ck_add (ck_add (new_InternetChecksum 0)
      (ip_pre h ++ be2 v)) (ip_post h))).
  { intros v. unfold sum. rewrite <- ck_add_app, <- app_assoc. done. }
  split.
  - apply ck_value_range.
  - rewrite Hs. apply checksum_verifies; rewrite ?Lp, ?Lq; try lia; try done.
    assert (Hb : z2b (u8 (Z.lor (Z.shiftl (ih_ver h) 4) (Z.land (ih_hlen h) 15))) ∈ ip_pre h)
      by (by left).
    apply (words_sum_pos _ false) in Hb.
    + pose proof (words_sum_bound (ip_post h) false). lia.
    + destruct (first_byte_read (ih_hlen h) Hd) as (E1 & _ & E3).
      rewrite b2z_z2b, Hv, E1. pose proof (u8_range (Z.lor (Z.shiftl 4 4) (Z.land (ih_hlen h) 15))).
      destruct (Z.eq_dec (u8 (Z.lor (Z.shiftl 4 4) (Z.land (ih_hlen h) 15))) 0) as [E|]; [|lia].
      exfalso. rewrite E, Z.land_0_l in E3. lia.
Qed.

Lemma set_ip_cksum_ok h v : IPv4Header_ok h -> 0 <= v < W16 -> IPv4Header_ok (set_ip_cksum v h).
Proof. intros [] Hv. by constructor. Qed.

Lemma payload_length_ok h : IPv4Header_ok h -> 4 * ih_hlen h <= ih_len h ->
  payload_length h = ih_len h - 4 * ih_hlen h.
Proof. intros [] Hl. unfold payload_length. apply u16_id. lia. Qed.

Lemma concatenate_one b : bl_concatenate (BufferList_of_Buffer b) = buf_str b.
Proof. done. Qed.

(** Parsing what was serialised. *)
Lemma datagram_wire d :
  IPv4Datagram_ok d ->
  exists l, IPv4Datagram_serialize d = Ok l /\ zlen (bl_concatenate l) < W16 /\
    forall b d0, buf_ok b -> buf_str b = bl_concatenate l ->
    exists d', IPv4Datagram_parse d0 b = Ok (NoError, d') /\
      (exists p, IPv4Header_parse (ip_header d0) (new_NetParser b) = Ok (NoError, ip_header d', p)) /\
      ip_header d' = set_ip_cksum (ih_cksum (ip_header d')) (ip_header d) /\
      bl_concatenate (ip_payload d') = bl_concatenate (ip_payload d) /\ IPv4Datagram_ok d'.
Proof.
  intros (Hh & Hb & Hl). pose proof (iho_hlen _ Hh) as Hd. pose proof (iho_ver _ Hh) as Hv.
  pose proof (iho_len _ Hh) as Hlen. pose proof (zlen_nonneg (bl_concatenate (ip_payload d))) as Hnn.
  pose proof (payload_length_ok _ Hh ltac:(lia)) as Hpl.
  destruct (ip_checksum_verifies (ip_header d) Hv Hd) as [Hr Hz].
  unfold IPv4Datagram_serialize. rewrite bl_size_eq, Hl, Hpl, Z.eqb_refl by lia. cbn [negb].
  rewrite IPv4Header_serialize_eq by done || (simpl; lia). cbn [rbind ih_cksum set_ip_cksum].
  change (ip_pre (set_ip_cksum ?v (ip_header d))) with (ip_pre (ip_header d)).
  change (ip_post (set_ip_cksum ?v (ip_header d))) with (ip_post (ip_header d)).
  set (v := ck_value _) in *.
  rewrite IPv4Header_serialize_eq by done || (simpl; lia). cbn [rbind ih_cksum set_ip_cksum].
  set (h' := set_ip_cksum v (ip_header d)).
  assert (Hok' : IPv4Header_ok h') by by apply set_ip_cksum_ok.
  change (ip_pre (set_ip_cksum v _)) with (ip_pre h').
  change (ip_post (set_ip_cksum v _)) with (ip_post h').
  match goal with |- exists l, Ok ?a = Ok l /\ _ => exists a end. split; [done|].
  unfold bl_append, BufferList_of. cbn [app]. rewrite concatenate_cons, buf_str_of.
  set (hdr := ip_pre h' ++ be2 v ++ ip_post h').
  assert (Lh : zlen hdr = 4 * ih_hlen (ip_header d)).
  { unfold hdr. rewrite !zlen_app, ip_pre_len, ip_post_len by (simpl; lia).
    change (zlen (be2 v)) with 2. simpl. lia. }
  set (bs := hdr ++ bl_concatenate (ip_payload d)).
  assert (Lbs : zlen bs = ih_len (ip_header d)) by (unfold bs; rewrite zlen_app; lia).
  split; [lia|]. intros b d0 Hbok Hbs.
  destruct (reads_IPv4Header h' (ip_header d0) b Hok') with
    (p := new_NetParser b) (l := bl_concatenate (ip_payload d)) as (p & E & H1 & H2 & H3);
    try done; cbn [ih_len ih_hlen ih_cksum set_ip_cksum h'].
  { unfold buf_size. rewrite Hbs. done. }
  { lia. }
  { rewrite Hbs, <- Lh. unfold bs. apply ztake_app_len. }
  assert (E' : IPv4Header_parse (ip_header d0) (new_NetParser b) = Ok (NoError, h', p))
    by exact E.
  exists (mkIPv4Datagram h' (BufferList_of_Buffer (np_buffer p))).
  assert (Hpay : bl_concatenate (BufferList_of_Buffer (np_buffer p)) = bl_concatenate (ip_payload d)).
  { rewrite concatenate_one. exact H3. }
  split; [|split; [by exists p|]; split; [done|]; split; [done|]].
  - unfold IPv4Datagram_parse. rewrite E'. cbn [rbind snd ip_payload ip_header].
    rewrite bl_size_eq, Hpay by (rewrite Hpay; lia).
    change (payload_length h') with (payload_length (ip_header d)).
    rewrite Hpl, Hl, Z.eqb_refl. unfold get_error. by rewrite H2.
  - split; [done|]. split; [by repeat constructor|]. cbn [ip_payload ip_header]. rewrite Hpay. done.
Qed.

(** Datagrams survive the wire: serialising a well-formed datagram
    succeeds, and parsing the bytes gives back every field and the payload;
    only the checksum field is new, and with it the header's own parse
    reports no error, its checksum included. *)
Theorem IPv4Datagram_roundtrip d d0 :
  IPv4Datagram_ok d ->
  exists l d', IPv4Datagram_serialize d = Ok l /\
    IPv4Datagram_parse d0 (Buffer_of (bl_concatenate l)) = Ok (NoError, d') /\
    (exists p, IPv4Header_parse (ip_header d0) (new_NetParser (Buffer_of (bl_concatenate l)))
       = Ok (NoError, ip_header d', p)) /\
    ip_header d' = set_ip_cksum (ih_cksum (ip_header d')) (ip_header d) /\
    bl_concatenate (ip_payload d') = bl_concatenate (ip_payload d) /\ IPv4Datagram_ok d'.
Proof.
  intros H. destruct (datagram_wire d H) as (l & E & Hl & Hw). zpos.
  destruct (Hw (Buffer_of (bl_concatenate l)) d0) as (d' & Hd'); [apply Buffer_of_ok; lia|done|].
  by exists l, d'.
Qed.

Definition example_datagram : IPv4Datagram :=
  mkIPv4Datagram (set_ip_len 23 (set_ip_src 16909060 default_IPv4Header))
    [Buffer_of [x61]; Buffer_of [x62; x63]].

Lemma example_datagram_ok : IPv4Datagram_ok example_datagram.
Proof.
  split; [constructor; simpl; try lia; vm_compute; split; congruence|].
  split; [|reflexivity]. by repeat constructor.
Qed.

Lemma IPv4Datagram_roundtrip_witness :
  exists l d', IPv4Datagram_serialize example_datagram = Ok l /\
    IPv4Datagram_parse new_IPv4Datagram (Buffer_of (bl_concatenate l)) = Ok (NoError, d') /\
    bl_concatenate (ip_payload d') = [x61; x62; x63].
Proof.
  destruct (IPv4Datagram_roundtrip example_datagram new_IPv4Datagram example_datagram_ok)
    as (l & d' & H1 & H2 & _ & _ & H3 & _).
  exists l, d'. split; [exact H1|]. split; [exact H2|exact H3].
Defined.

(** The outcomes of parsing a datagram. *)
Lemma datagram_parse_cases d b :
  buf_ok b ->
  exists r d', IPv4Datagram_parse d b = Ok (r, d') /\
    (r = NoError \/ r = PacketTooShort) /\
    (r = NoError -> zlen (bl_concatenate (ip_payload d')) = payload_length (ip_header d')).
Proof.
  intros Hb. unfold IPv4Datagram_parse, IPv4Header_parse, pbind, p_buffer. cbn [rbind].
  destruct (yields_IPv4Header (np_buffer (new_NetParser b)) (ip_header d) (new_NetParser b))
    as (v & p & -> & [Hp He] & _ & _); [split; [done|by left]|]. cbn [rbind ip_payload ip_header].
  assert (Hs : bl_size (BufferList_of_Buffer (np_buffer p)) = buf_size (np_buffer p)).
  { rewrite bl_size_eq; [done|]. by apply (buf_size_bound (np_buffer p)). }
  rewrite Hs. destruct (Z.eqb_spec (buf_size (np_buffer p)) (payload_length (snd v))) as [E|E]; cbn [negb].
  - eexists _, _. split; [done|]. split; [exact He|]. intros _. exact E.
  - eexists _, _. split; [done|]. split; [by right|done].
Qed.

(** [IPv4Datagram::parse] is total, and the only error it ever reports is
    [PacketTooShort]: a wrong version, a short header, a wrong length or a
    bad checksum, which [IPv4Header::parse] does report, are dropped.  When
    it reports no error the payload is as long as the header says. *)
Theorem IPv4Datagram_parse_total d b :
  buf_ok b ->
  exists r d', IPv4Datagram_parse d b = Ok (r, d') /\
    (r = NoError \/ r = PacketTooShort) /\
    (r = NoError -> zlen (bl_concatenate (ip_payload d')) = payload_length (ip_header d')).
Proof. apply datagram_parse_cases. Qed.

Lemma IPv4Datagram_parse_total_witness :
  exists r d', IPv4Datagram_parse new_IPv4Datagram (Buffer_of [x61]) = Ok (r, d') /\
    (r = NoError \/ r = PacketTooShort).
Proof.
  destruct (IPv4Datagram_parse_total new_IPv4Datagram (Buffer_of [x61])) as (r & d' & E & H & _).
  - by apply Buffer_of_ok.
  - eauto.
Defined.

(** A datagram of version 6 whose checksum is wrong is rejected by
    [IPv4Header::parse] and accepted by [IPv4Datagram::parse]. *)
Theorem IPv4Datagram_accepts_bad_header :
  let b := Buffer_of ([x65; x00; x00; x14] ++ repeat x00 16) in
  (exists h p, IPv4Header_parse default_IPv4Header (new_NetParser b) = Ok (WrongIPVersion, h, p)) /\
  exists d', IPv4Datagram_parse new_IPv4Datagram b = Ok (NoError, d') /\
    ih_ver (ip_header d') = 6.
Proof. split; eexists _, _ || eexists; vm_compute; [reflexivity|split; reflexivity]. Qed.

Lemma pseudo_cksum_bound h : IPv4Header_ok h -> 0 <= pseudo_cksum h < 8388608.
Proof.
  intros [Hv H1 H2 H3 H4 H5 H6 H7 H8 H9 H10]. unfold pseudo_cksum.
  rewrite !carry_step by lia. pose proof (u16_range (ih_len h - 4 * ih_hlen h)).
  unfold payload_length. set (l := u16 _) in *. wz.
Qed.
