(* ===== verification/Ethernet.v ===== *)
(** * Ethernet frames and ARP messages

    [libsponge/tcp_helpers/ethernet_header.hh], [ethernet_frame.hh],
    [arp_message.hh] and their [.cc]. *)
From S2P Require Import Prelude Buffer Parser.

(** An array of six [uint8_t]. *)
Definition EthernetAddress : Type := list Z.
#[global] Instance EthernetAddress_eq_dec : EqDecision EthernetAddress.
Proof. unfold EthernetAddress. solve_decision. Defined.

Definition ETHERNET_BROADCAST : EthernetAddress := [255; 255; 255; 255; 255; 255].
Definition zero_EthernetAddress : EthernetAddress := [0; 0; 0; 0; 0; 0].

Definition EthernetHeader_LENGTH : Z := 14.
Definition TYPE_IPv4 : Z := 2048.
Definition TYPE_ARP : Z := 2054.

Record EthernetHeader : Type := mkEthernetHeader {
  eh_dst : EthernetAddress;
  eh_src : EthernetAddress;
  eh_type : Z }.

(** The loop that fills an array from the parser. *)
Fixpoint p_array (n : nat) : parser (list Z) :=
  match n with
  | O => pret []
  | S n => let! b := p_u8 in let! l := p_array n in pret (b :: l)
  end.
(** The loop that writes one. *)
Definition w_array (ret : bytes) (a : list Z) : bytes := fold_left w_u8 a ret.

Definition EthernetHeader_parse (h : EthernetHeader) : parser (ParseResult * EthernetHeader) :=
  let! b := p_buffer in
  if buf_size b <? EthernetHeader_LENGTH then pret (PacketTooShort, h)
  else
    let! dst := p_array 6 in
    let! src := p_array 6 in
    let! type := p_u16 in
    let! e := p_get_error in
    pret (e, mkEthernetHeader dst src type).

Definition EthernetHeader_serialize (h : EthernetHeader) : bytes :=
  let ret := [] in
  let ret := w_array ret (eh_dst h) in
  let ret := w_array ret (eh_src h) in
  w_u16 ret (eh_type h).

Record EthernetFrame : Type := mkEthernetFrame { ef_header : EthernetHeader; ef_payload : BufferList }.

Definition new_EthernetFrame : EthernetFrame :=
  mkEthernetFrame (mkEthernetHeader zero_EthernetAddress zero_EthernetAddress 0) [].

(** The result of [_header.parse] is not looked at. *)
Definition EthernetFrame_parse (f : EthernetFrame) (buffer : Buffer)
    : result (ParseResult * EthernetFrame) :=
  let p := new_NetParser buffer in
  let* (hr, p) := EthernetHeader_parse (ef_header f) p in
  Ok (get_error p, mkEthernetFrame (snd hr) (BufferList_of_Buffer (np_buffer p))).

Definition EthernetFrame_serialize (f : EthernetFrame) : BufferList :=
  bl_append (bl_append [] (BufferList_of (EthernetHeader_serialize (ef_header f)))) (ef_payload f).

(** ** ARP *)

Definition ARPMessage_LENGTH : Z := 28.
Definition TYPE_ETHERNET : Z := 1.
Definition OPCODE_REQUEST : Z := 1.
Definition OPCODE_REPLY : Z := 2.

Record ARPMessage : Type := mkARPMessage {
  arp_hardware_type : Z;
  arp_protocol_type : Z;
  arp_hardware_address_size : Z;
  arp_protocol_address_size : Z;
  arp_opcode : Z;
  arp_sender_ethernet_address : EthernetAddress;
  arp_sender_ip_address : Z;
  arp_target_ethernet_address : EthernetAddress;
  arp_target_ip_address : Z }.

Definition new_ARPMessage : ARPMessage :=
  mkARPMessage TYPE_ETHERNET TYPE_IPv4 6 4 0 zero_EthernetAddress 0 zero_EthernetAddress 0.

Definition supported (m : ARPMessage) : bool :=
  (arp_hardware_type m =? TYPE_ETHERNET) && (arp_protocol_type m =? TYPE_IPv4)
  && (arp_hardware_address_size m =? 6) && (arp_protocol_address_size m =? 4)
  && ((arp_opcode m =? OPCODE_REQUEST) || (arp_opcode m =? OPCODE_REPLY)).

(** The body of [ARPMessage::parse] after its check of the size. *)
Definition ARPMessage_parse_fields (m : ARPMessage) : parser (ParseResult * ARPMessage) :=
  let! hardware_type := p_u16 in
  let! protocol_type := p_u16 in
  let! hardware_address_size := p_u8 in
  let! protocol_address_size := p_u8 in
  let! opcode := p_u16 in
  let m := mkARPMessage hardware_type protocol_type hardware_address_size protocol_address_size
    opcode (arp_sender_ethernet_address m) (arp_sender_ip_address m)
    (arp_target_ethernet_address m) (arp_target_ip_address m) in
  if negb (supported m) then pret (Unsupported, m)
  else
    let! sender_ethernet_address := p_array 6 in
    let! sender_ip_address := p_u32 in
    let! target_ethernet_address := p_array 6 in
    let! target_ip_address := p_u32 in
    let! e := p_get_error in
    pret (e, mkARPMessage hardware_type protocol_type hardware_address_size protocol_address_size
      opcode sender_ethernet_address sender_ip_address target_ethernet_address target_ip_address).

Definition ARPMessage_parse (m : ARPMessage) (buffer : Buffer) : result (ParseResult * ARPMessage) :=
  let p := new_NetParser buffer in
  if buf_size (np_buffer p) <? ARPMessage_LENGTH then Ok (PacketTooShort, m)
  else let* (rm, _) := ARPMessage_parse_fields m p in Ok rm.

Definition ARPMessage_serialize (m : ARPMessage) : result bytes :=
  if negb (supported m) then Err runtime_error
  else
    let ret := [] in
    let ret := w_u16 ret (arp_hardware_type m) in
    let ret := w_u16 ret (arp_protocol_type m) in
    let ret := w_u8 ret (arp_hardware_address_size m) in
    let ret := w_u8 ret (arp_protocol_address_size m) in
    let ret := w_u16 ret (arp_opcode m) in
    let ret := w_array ret (arp_sender_ethernet_address m) in
    let ret := w_u32 ret (arp_sender_ip_address m) in
    let ret := w_array ret (arp_target_ethernet_address m) in
    let ret := w_u32 ret (arp_target_ip_address m) in
    Ok ret.

(** ** Well-formed values *)

Definition ea_ok (a : EthernetAddress) : Prop :=
  length a = 6%nat /\ Forall (fun b => 0 <= b < W8) a.

Record EthernetHeader_ok (h : EthernetHeader) : Prop := mkEthernetHeader_ok {
  eho_dst : ea_ok (eh_dst h);
  eho_src : ea_ok (eh_src h);
  eho_type : 0 <= eh_type h < W16 }.

Record ARPMessage_ok (m : ARPMessage) : Prop := mkARPMessage_ok {
  ao_supported : supported m = true;
  ao_sender : ea_ok (arp_sender_ethernet_address m);
  ao_sender_ip : 0 <= arp_sender_ip_address m < W32;
  ao_target : ea_ok (arp_target_ethernet_address m);
  ao_target_ip : 0 <= arp_target_ip_address m < W32 }.

Lemma w_array_eq a : forall ret, w_array ret a = ret ++ map z2b a.
Proof.
  unfold w_array. induction a as [|b a IH]; intros ret; cbn [fold_left map]; [by rewrite app_nil_r|].
  rewrite IH, w_u8_eq, <- app_assoc. done.
Qed.

Lemma reads_array a : Forall (fun b => 0 <= b < W8) a -> reads (p_array (length a)) (map z2b a) a.
Proof.
  induction 1 as [|b a Hb Ha IH]; cbn [length p_array map]; [apply reads_ret|].
  change (z2b b :: map z2b a) with (be1 b ++ map z2b a).
  eapply reads_bind; [apply reads_u8|]. rewrite <- (app_nil_r (map z2b a)).
  eapply reads_bind; [exact IH|]. rewrite u8_id by done. apply reads_ret.
Qed.
Lemma reads_array6 a : ea_ok a -> reads (p_array 6) (map z2b a) a.
Proof. intros [<- H]. by apply reads_array. Qed.
Lemma yields_array n : yields (p_array n) (fun a => length a = n /\ Forall (fun b => 0 <= b < W8) a).
Proof.
  induction n as [|n IH]; cbn [p_array]; [apply yields_ret; by split|]. pstep.
  eapply yields_bind; [exact IH|]. intros l [Hl Hf]. apply yields_ret. simpl.
  split; [by rewrite Hl|by constructor].
Qed.
Lemma yields_array6 : yields (p_array 6) ea_ok.
Proof. exact (yields_array 6). Qed.
Lemma takes_array n :
  takes (p_array n) (Z.of_nat n) (fun a => length a = n /\ Forall (fun b => 0 <= b < W8) a).
Proof.
  induction n as [|n IH]; cbn [p_array]; [apply takes_ret; [lia|by split]|].
  replace (Z.of_nat (S n)) with (1 + (Z.of_nat n + 0)) by lia.
  eapply takes_bind; [lia|apply takes_u8|intros b Hb].
  eapply takes_bind; [lia|exact IH|intros l [Hl Hf]].
  apply takes_ret; [lia|]. simpl. split; [by rewrite Hl|by constructor].
Qed.
Lemma takes_array6 : takes (p_array 6) 6 ea_ok.
Proof. exact (takes_array 6). Qed.
#[export] Hint Resolve takes_array6 : sponge.
#[export] Hint Resolve reads_array6 yields_array6 : sponge.

Definition eh_bytes (h : EthernetHeader) : bytes :=
  map z2b (eh_dst h) ++ map z2b (eh_src h) ++ be2 (eh_type h).

Lemma EthernetHeader_serialize_eq h : EthernetHeader_serialize h = eh_bytes h.
Proof. unfold EthernetHeader_serialize. by rewrite w_u16_eq, !w_array_eq, <- app_assoc. Qed.

Lemma zlen_array a : ea_ok a -> zlen (map z2b a) = 6.
Proof. intros [H _]. unfold zlen. rewrite length_map, H. done. Qed.

Lemma eh_bytes_len h : EthernetHeader_ok h -> zlen (eh_bytes h) = 14.
Proof.
  intros [H1 H2 _]. unfold eh_bytes. rewrite !zlen_app, !zlen_array by done. reflexivity.
Qed.

Lemma reads_EthernetHeader h h0 p l :
  EthernetHeader_ok h -> np_ok p -> np_error p = NoError -> rest p = eh_bytes h ++ l ->
  exists p', EthernetHeader_parse h0 p = Ok (NoError, h, p') /\ np_ok p' /\
    np_error p' = NoError /\ rest p' = l.
Proof.
  intros Hh Hok He Hr. unfold EthernetHeader_parse, pbind at 1, p_buffer, buf_size. cbn [rbind].
  fold (rest p). rewrite Hr, zlen_app, eh_bytes_len by done. zpos.
  unfold EthernetHeader_LENGTH. zcase; [lia|]. revert p l Hok He Hr H H0.
  destruct Hh as [H1 H2 H3]. intros p l Hok He Hr _ _. revert p l Hok He Hr.
  change (reads (let! dst := p_array 6 in let! src := p_array 6 in let! type := p_u16 in
    let! e := p_get_error in pret (e, mkEthernetHeader dst src type)) (eh_bytes h) (NoError, h)).
  unfold eh_bytes. rewrite <- (app_nil_r (be2 _)).
  do 3 (eapply reads_bind; [solve [eauto with sponge]|]).
  rewrite <- (app_nil_r []). eapply reads_bind; [apply reads_get_error|].
  nowrap. destruct h. apply reads_ret.
Qed.

Lemma yields_EthernetHeader h : EthernetHeader_ok h ->
  yields (EthernetHeader_parse h) (fun r => EthernetHeader_ok (snd r)).
Proof.
  intros Hh. unfold EthernetHeader_parse. pstep. case_match; [by apply yields_ret|].
  do 4 pstep. apply yields_ret. by constructor.
Qed.

(** Parsing what was serialised, with any payload behind the header. *)
Lemma EthernetFrame_parse_bytes f f0 :
  EthernetHeader_ok (ef_header f) -> zlen (bl_concatenate (ef_payload f)) + 14 < W64 ->
  exists b, EthernetFrame_parse f0 (Buffer_of (bl_concatenate (EthernetFrame_serialize f)))
      = Ok (NoError, mkEthernetFrame (ef_header f) [b]) /\
    buf_ok b /\ buf_str b = bl_concatenate (ef_payload f).
Proof.
  intros Hh Hl. unfold EthernetFrame_serialize, bl_append, BufferList_of. cbn [app].
  rewrite concatenate_cons, buf_str_of, EthernetHeader_serialize_eq.
  destruct (reads_EthernetHeader (ef_header f) (ef_header f0)
    (new_NetParser (Buffer_of (eh_bytes (ef_header f) ++ bl_concatenate (ef_payload f))))
    (bl_concatenate (ef_payload f)) Hh) as (p & E & H1 & H2 & H3).
  { apply Buffer_of_ok. rewrite zlen_app, eh_bytes_len by done. lia. }
  { done. }
  { done. }
  exists (np_buffer p). unfold EthernetFrame_parse. rewrite E. cbn [rbind snd].
  unfold get_error. by rewrite H2.
Qed.

(** Frames survive the wire: parsing the serialisation of a frame gives
    back its header and its payload. *)
Theorem EthernetFrame_roundtrip f f0 :
  EthernetHeader_ok (ef_header f) -> zlen (bl_concatenate (ef_payload f)) + 14 < W64 ->
  exists f', EthernetFrame_parse f0 (Buffer_of (bl_concatenate (EthernetFrame_serialize f)))
      = Ok (NoError, f') /\
    ef_header f' = ef_header f /\ bl_concatenate (ef_payload f') = bl_concatenate (ef_payload f).
Proof.
  intros Hh Hl. destruct (EthernetFrame_parse_bytes f f0 Hh Hl) as (b & E & _ & Hb).
  eexists. split; [exact E|]. split; [done|]. simpl. by rewrite concatenate_cons, Hb, app_nil_r.
Qed.

Lemma EthernetFrame_roundtrip_witness :
  exists f', EthernetFrame_parse new_EthernetFrame (Buffer_of (bl_concatenate
      (EthernetFrame_serialize (mkEthernetFrame (mkEthernetHeader ETHERNET_BROADCAST
        [2; 0; 0; 0; 0; 1] TYPE_ARP) [Buffer_of [x61]; Buffer_of [x62]])))) = Ok (NoError, f') /\
    eh_type (ef_header f') = TYPE_ARP /\ bl_concatenate (ef_payload f') = [x61; x62].
Proof.
  destruct (EthernetFrame_roundtrip (mkEthernetFrame (mkEthernetHeader ETHERNET_BROADCAST
    [2; 0; 0; 0; 0; 1] TYPE_ARP) [Buffer_of [x61]; Buffer_of [x62]]) new_EthernetFrame)
    as (f' & E & H1 & H2).
  - constructor; [split; [done|repeat constructor; simpl; lia]..|done].
  - reflexivity.
  - exists f'. split; [exact E|]. rewrite H1. split; [done|exact H2].
Defined.

(** [EthernetFrame::parse] reports no error for a frame that is too short to
    hold a header, although [EthernetHeader::parse] does: the header of the
    frame object keeps what it held, and the whole input becomes the
    payload. *)
Theorem EthernetFrame_accepts_short f b :
  buf_ok b -> buf_size b < EthernetHeader_LENGTH ->
  EthernetFrame_parse f b = Ok (NoError, mkEthernetFrame (ef_header f) [b]) /\
  exists p, EthernetHeader_parse (ef_header f) (new_NetParser b) = Ok (PacketTooShort, ef_header f, p).
Proof.
  intros Hb Hs.
  assert (E : EthernetHeader_parse (ef_header f) (new_NetParser b)
    = Ok (PacketTooShort, ef_header f, new_NetParser b)).
  { unfold EthernetHeader_parse, pbind, p_buffer. cbn [rbind np_buffer new_NetParser].
    zcase; [done|lia]. }
  split; [|by eexists]. unfold EthernetFrame_parse. by rewrite E.
Qed.

Lemma EthernetFrame_accepts_short_witness :
  EthernetFrame_parse new_EthernetFrame (Buffer_of [x61])
    = Ok (NoError, mkEthernetFrame (ef_header new_EthernetFrame) [Buffer_of [x61]]).
Proof.
  apply (EthernetFrame_accepts_short new_EthernetFrame (Buffer_of [x61]));
    [by apply Buffer_of_ok|reflexivity].
Defined.

(** ** ARP messages *)

Definition arp_bytes (m : ARPMessage) : bytes :=
  be2 (arp_hardware_type m) ++ be2 (arp_protocol_type m) ++ be1 (arp_hardware_address_size m) ++
  be1 (arp_protocol_address_size m) ++ be2 (arp_opcode m) ++
  map z2b (arp_sender_ethernet_address m) ++ be4 (arp_sender_ip_address m) ++
  map z2b (arp_target_ethernet_address m) ++ be4 (arp_target_ip_address m).

Lemma ARPMessage_serialize_eq m : supported m = true -> ARPMessage_serialize m = Ok (arp_bytes m).
Proof.
  intros H. unfold ARPMessage_serialize. rewrite H. cbn [negb]. cbv zeta.
  rewrite !w_u32_eq, !w_array_eq, !w_u16_eq, !w_u8_eq.
  by rewrite <- !app_assoc.
Qed.

Lemma supported_fields m : supported m = true ->
  arp_hardware_type m = 1 /\ arp_protocol_type m = 2048 /\ arp_hardware_address_size m = 6 /\
  arp_protocol_address_size m = 4 /\ (arp_opcode m = 1 \/ arp_opcode m = 2).
Proof.
  unfold supported, TYPE_ETHERNET, TYPE_IPv4, OPCODE_REQUEST, OPCODE_REPLY.
  rewrite !andb_true_iff, orb_true_iff, !Z.eqb_eq. tauto.
Qed.

Lemma reads_ARPMessage m m0 : ARPMessage_ok m -> reads (ARPMessage_parse_fields m0) (arp_bytes m) (NoError, m).
Proof.
  intros [H1 H2 H3 H4 H5]. pose proof (supported_fields m H1) as (F1 & F2 & F3 & F4 & F5).
  unfold ARPMessage_parse_fields, arp_bytes.
  do 5 (eapply reads_bind; [solve [eauto with sponge]|]). nowrap.
  replace (supported _) with (supported m) by done. rewrite H1. cbn [negb].
  rewrite <- (app_nil_r (be4 (arp_target_ip_address m))).
  do 4 (eapply reads_bind; [solve [eauto with sponge]|]).
  rewrite <- (app_nil_r []). eapply reads_bind; [apply reads_get_error|].
  nowrap. destruct m. apply reads_ret.
Qed.

Lemma arp_bytes_len m : ARPMessage_ok m -> zlen (arp_bytes m) = 28.
Proof.
  intros [H1 H2 H3 H4 H5]. unfold arp_bytes. rewrite !zlen_app, !zlen_array by done. reflexivity.
Qed.

Lemma ARPMessage_parse_bytes m m0 b l :
  ARPMessage_ok m -> buf_ok b -> buf_str b = arp_bytes m ++ l -> ARPMessage_parse m0 b = Ok (NoError, m).
Proof.
  intros Hm Hb Hs. pose proof (arp_bytes_len m Hm). unfold ARPMessage_parse, buf_size.
  cbn [np_buffer new_NetParser]. rewrite Hs, zlen_app. zpos. unfold ARPMessage_LENGTH. zcase; [lia|].
  destruct (reads_ARPMessage m m0 Hm (new_NetParser b) l) as (p & -> & _); done.
Qed.

(** ARP messages survive the wire: a supported message serialises to 28
    bytes, an unsupported one throws, and parsing the bytes, padded or not,
    gives the message back. *)
Theorem ARPMessage_roundtrip m m0 l :
  ARPMessage_ok m -> zlen l + 28 < W64 ->
  exists s, ARPMessage_serialize m = Ok s /\ zlen s = ARPMessage_LENGTH /\
    ARPMessage_parse m0 (Buffer_of (s ++ l)) = Ok (NoError, m).
Proof.
  intros Hm Hl. exists (arp_bytes m). rewrite ARPMessage_serialize_eq by apply Hm.
  split; [done|]. split; [by apply arp_bytes_len|]. apply (ARPMessage_parse_bytes m m0 _ l); [done| |done].
  apply Buffer_of_ok. rewrite zlen_app, arp_bytes_len by done. lia.
Qed.

Lemma ARPMessage_roundtrip_witness :
  exists s, ARPMessage_serialize (mkARPMessage 1 2048 6 4 2 [1; 2; 3; 4; 5; 6] 167772161
      [255; 0; 0; 0; 0; 9] 167772162) = Ok s /\ zlen s = 28 /\
    ARPMessage_parse new_ARPMessage (Buffer_of (s ++ [x00])) = Ok (NoError,
      mkARPMessage 1 2048 6 4 2 [1; 2; 3; 4; 5; 6] 167772161 [255; 0; 0; 0; 0; 9] 167772162).
Proof.
  apply ARPMessage_roundtrip; [|reflexivity].
  constructor; simpl; try lia; [done|split; [done|repeat constructor; simpl; lia]..].
Defined.

Lemma takes_ARPMessage m0 :
  takes (ARPMessage_parse_fields m0) ARPMessage_LENGTH (fun rm =>
    (fst rm = Unsupported /\ supported (snd rm) = false) \/
    (fst rm = NoError /\ ARPMessage_ok (snd rm))).
Proof.
  unfold ARPMessage_parse_fields. tstep 2 26. tstep 2 24. tstep 1 23. tstep 1 22. tstep 2 20.
  case_match eqn:E.
  { apply takes_ret; [lia|]. left. apply negb_true_iff in E. done. }
  apply negb_false_iff in E. tstep 6 14. tstep 4 10. tstep 6 4. tstep 4 0. tstep 0 0.
  apply takes_ret; [lia|]. right. simpl. split; [done|]. by constructor.
Qed.

(** The outcomes of parsing an ARP message. *)
Lemma arp_parse_cases m0 b :
  buf_ok b ->
  exists r m, ARPMessage_parse m0 b = Ok (r, m) /\
    (r = PacketTooShort <-> buf_size b < ARPMessage_LENGTH) /\
    (r = PacketTooShort -> m = m0) /\
    (r = Unsupported -> supported m = false) /\
    (r = NoError -> ARPMessage_ok m) /\
    (r = NoError \/ r = PacketTooShort \/ r = Unsupported).
Proof.
  intros Hb. unfold ARPMessage_parse. cbn [np_buffer new_NetParser]. zcase.
  { eexists _, _. split; [done|]. naive_solver. }
  destruct (takes_ARPMessage m0 (new_NetParser b)) as ([r m] & p' & -> & _ & _ & _ & HQ); [done..|].
  cbn [rbind]. exists r, m. split; [done|]. simpl in HQ.
  destruct HQ as [[-> HQ]|[-> HQ]]; (split; [split; [done|intros; exfalso; lia]|]); split_and!; auto; done.
Qed.

(** [ARPMessage::parse] is total on any bytes: exactly the inputs below 28
    bytes are too short, and leave the message as it was; a longer input is
    reported as unsupported when its first fields are, and otherwise parsed
    without error into fields that are in range. *)
Theorem ARPMessage_parse_total m0 b :
  buf_ok b ->
  exists r m, ARPMessage_parse m0 b = Ok (r, m) /\
    (r = PacketTooShort <-> buf_size b < ARPMessage_LENGTH) /\
    (r = PacketTooShort -> m = m0) /\
    (r = Unsupported -> supported m = false) /\
    (r = NoError -> ARPMessage_ok m) /\
    (r = NoError \/ r = PacketTooShort \/ r = Unsupported).
Proof. apply arp_parse_cases. Qed.

Lemma ARPMessage_parse_total_witness :
  exists r m, ARPMessage_parse new_ARPMessage (Buffer_of (repeat x00 28)) = Ok (r, m) /\
    (r = NoError \/ r = PacketTooShort \/ r = Unsupported) /\ r <> PacketTooShort.
Proof.
  destruct (ARPMessage_parse_total new_ARPMessage (Buffer_of (repeat x00 28)))
    as (r & m & E & H & _ & _ & _ & Hr); [by apply Buffer_of_ok|].
  exists r, m. split; [exact E|]. split; [exact Hr|]. rewrite H. by vm_compute.
Defined.
