(* ===== verification/TCPReceiver.v ===== *)
(** * The TCP receiver

    [libsponge/tcp_receiver.hh] and [.cc]: turns segments into pushes to the
    reassembler and computes the acknowledgement number and the window. *)
From S2P Require Import Prelude WrappingIntegers ByteStream StreamReassembler Buffer Parser TCPSegment.

Record TCPReceiver : Type := mkTCPReceiver {
  rx_reassembler : StreamReassembler;
  rx_capacity : Z;
  rx_have_SYN : bool;
  rx_have_FIN : bool;
  rx_icn : WrappingInt32 }.

Definition new_TCPReceiver (capacity : Z) : TCPReceiver :=
  mkTCPReceiver (new_StreamReassembler capacity) capacity false false (mkW32 0).

Definition rx_stream_out (r : TCPReceiver) : ByteStream := stream_out (rx_reassembler r).
(** [stream_out()] also gives write access to the stream. *)
Definition rx_with_stream_out (r : TCPReceiver) (s : ByteStream) : TCPReceiver :=
  mkTCPReceiver (with_stream_out (rx_reassembler r) s) (rx_capacity r) (rx_have_SYN r)
    (rx_have_FIN r) (rx_icn r).
Definition rx_unassembled_bytes (r : TCPReceiver) : Z := unassembled_bytes (rx_reassembler r).

(** The last statement of [segment_received]. *)
Definition rx_finish (have_FIN : bool) (ra : StreamReassembler) : StreamReassembler :=
  if have_FIN && empty ra then with_stream_out ra (end_input (stream_out ra)) else ra.

(** [segment_received] from the computation of the checkpoint on. *)
Definition rx_push (r : TCPReceiver) (seg : TCPSegment) (seqno : WrappingInt32) : result TCPReceiver :=
  let checkpoint := bytes_written (stream_out (rx_reassembler r)) in
  let* ra := push_substring (rx_reassembler r) (buf_copy (payload seg))
    (unwrap seqno (rx_icn r) checkpoint -! 1) (th_fin (header seg)) in
  let have_FIN := if th_fin (header seg) then true else rx_have_FIN r in
  Ok (mkTCPReceiver (rx_finish have_FIN ra) (rx_capacity r) (rx_have_SYN r) have_FIN (rx_icn r)).

Definition rx_segment_received (r : TCPReceiver) (seg : TCPSegment) : result TCPReceiver :=
  let seqno := th_seqno (header seg) in
  if negb (rx_have_SYN r) then
    if negb (th_syn (header seg)) then Ok r
    else
      let icn := th_seqno (header seg) in
      let r := mkTCPReceiver (rx_reassembler r) (rx_capacity r) true (rx_have_FIN r) icn in
      rx_push r seg (wrap 1 icn)
  else if th_syn (header seg) then Ok r
  else rx_push r seg seqno.

Definition rx_ackno (r : TCPReceiver) : option WrappingInt32 :=
  let length_wo_flag := bytes_written (stream_out (rx_reassembler r)) in
  if rx_have_SYN r then
    if rx_have_FIN r && input_ended (stream_out (rx_reassembler r)) then
      Some (wrap (length_wo_flag +! 2) (rx_icn r))
    else Some (wrap (length_wo_flag +! 1) (rx_icn r))
  else None.

Definition rx_window_size (r : TCPReceiver) : Z :=
  rx_capacity r -! (bytes_written (stream_out (rx_reassembler r))
                      -! bytes_read (stream_out (rx_reassembler r))).

(** ** Any segments *)

(** What holds whatever arrives. *)
Record rx_wf (r : TCPReceiver) (hist : bytes) : Prop := {
  rw_ra : ra_inv (rx_reassembler r) hist;
  rw_cap : rx_capacity r = ra_capacity (rx_reassembler r);
  rw_icn : w32_ok (rx_icn r) }.

(** Absolute sequence numbers stay away from the end of the 64-bit range. *)
Definition rx_room (r : TCPReceiver) (hist : bytes) : Prop :=
  zlen hist + rx_capacity r + 4 * W32 < W64.

Lemma new_TCPReceiver_wf c : 1 <= c < W64 -> rx_wf (new_TCPReceiver c) [].
Proof. intros. constructor; [by apply new_inv|done|done]. Qed.

Lemma rx_finish_inv f ra hist : ra_inv ra hist -> ra_inv (rx_finish f ra) hist.
Proof. intros. unfold rx_finish. case_match; [by apply end_input_inv|done]. Qed.
Lemma rx_finish_capacity f ra : ra_capacity (rx_finish f ra) = ra_capacity ra.
Proof. unfold rx_finish. by case_match. Qed.

(** The output of a receiver grows by [w] and otherwise may only end. *)
Definition rx_grown (r r' : TCPReceiver) (w : bytes) : Prop :=
  rx_capacity r' = rx_capacity r /\
  bs_buffer (rx_stream_out r') = bs_buffer (rx_stream_out r) ++ w /\
  bs_error (rx_stream_out r') = bs_error (rx_stream_out r) /\
  (bs_is_ended (rx_stream_out r) = true -> bs_is_ended (rx_stream_out r') = true).

Lemma rx_grown_refl r : rx_grown r r [].
Proof. unfold rx_grown. by rewrite app_nil_r. Qed.

Lemma rx_finish_grown r ra cap syn fin icn f w :
  cap = rx_capacity r ->
  ra_output ra = end_input (appended (rx_stream_out r) w) \/ ra_output ra = appended (rx_stream_out r) w ->
  rx_grown r (mkTCPReceiver (rx_finish f ra) cap syn fin icn) w.
Proof.
  intros -> H. unfold rx_grown, rx_finish, rx_stream_out, stream_out in *. cbn [rx_capacity rx_reassembler].
  split; [done|]. destruct (f && empty ra); cbn [ra_output with_stream_out]; destruct H as [-> | ->]; by cbn.
Qed.

Lemma rx_push_wf r hist seg seqno :
  rx_wf r hist -> rx_room r hist -> w32_ok seqno -> zlen (buf_str (payload seg)) < W32 ->
  exists r' w, rx_push r seg seqno = Ok r' /\ rx_wf r' (hist ++ w) /\
    rx_have_SYN r' = rx_have_SYN r /\ rx_grown r r' w.
Proof.
  intros [Hra Hcap Hicn] Hroom Hseq Hpay. unfold rx_room in Hroom. rewrite Hcap in Hroom.
  pose proof (ri_next _ _ Hra) as Hn. pose proof (ri_written _ _ Hra) as Hw.
  pose proof (ri_pos _ _ Hra) as Hpos. zpos.
  unfold rx_push, buf_copy, bytes_written, stream_out. rewrite Hw.
  pose proof (unwrap_bound seqno (rx_icn r) (zlen hist) Hseq Hicn ltac:(lia)) as Hu.
  pose proof (u64_range (unwrap seqno (rx_icn r) (zlen hist) - 1)) as Hr.
  destruct (push_substring_pushed (rx_reassembler r) hist (buf_str (payload seg))
    (unwrap seqno (rx_icn r) (zlen hist) -! 1) (th_fin (header seg)) Hra) as (ra & w & E & P).
  { unfold no_overflow. lia. }
  { split; [done|]. split; [lia|]. intros Hx. unfold window_last.
    pose proof (buffer_size_nonneg (ra_output (rx_reassembler r))).
    destruct (Z.eq_dec (unwrap seqno (rx_icn r) (zlen hist)) 0) as [->|Hne].
    - change (0 -! 1) with 18446744073709551615 in *. lia.
    - rewrite u64_id in Hx by lia. lia. }
  rewrite E. cbn [rbind]. eexists _, w. split; [done|]. split.
  { destruct P. constructor; cbn [rx_reassembler rx_capacity rx_icn];
      [by apply rx_finish_inv|rewrite rx_finish_capacity; congruence|done]. }
  split; [done|]. apply rx_finish_grown; [done|]. rewrite (pu_output _ _ _ _ _ _ _ P). case_match; auto.
Qed.

Lemma rx_segment_wf r hist seg :
  rx_wf r hist -> rx_room r hist -> w32_ok (th_seqno (header seg)) ->
  zlen (buf_str (payload seg)) < W32 ->
  exists r' w, rx_segment_received r seg = Ok r' /\ rx_wf r' (hist ++ w) /\
    rx_have_SYN r' = (rx_have_SYN r || th_syn (header seg)) /\ rx_grown r r' w.
Proof.
  intros Hwf Hroom Hs Hp. unfold rx_segment_received. pose proof (rx_grown_refl r) as Hrefl.
  destruct (rx_have_SYN r) eqn:ES; cbn [negb].
  - destruct (th_syn (header seg)) eqn:Esyn.
    + exists r, []. rewrite app_nil_r. split; [done|]. by rewrite ES.
    + destruct (rx_push_wf r hist seg _ Hwf Hroom Hs Hp) as (r' & w & E & H1 & H2 & H3).
      exists r', w. by rewrite H2, ES.
  - destruct (th_syn (header seg)) eqn:Esyn; cbn [negb].
    + destruct (rx_push_wf (mkTCPReceiver (rx_reassembler r) (rx_capacity r) true (rx_have_FIN r)
        (th_seqno (header seg))) hist seg (wrap 1 (th_seqno (header seg)))) as (r' & w & E & H1 & H2 & H3).
      * by destruct Hwf.
      * done.
      * apply wrap_ok.
      * done.
      * exists r', w. by rewrite H2.
    + exists r, []. rewrite app_nil_r. split; [done|]. by rewrite ES.
Qed.

(** ** Segments of one peer *)

Inductive rx_event : Type :=
  | RSegment (seg : TCPSegment)
  | RRead (n : Z).

Definition rx_step (r : TCPReceiver) (e : rx_event) : result TCPReceiver :=
  match e with
  | RSegment seg => rx_segment_received r seg
  | RRead n => Ok (rx_with_stream_out r (read (rx_stream_out r) n).1)
  end.

Section Peer.
(** The peer's stream and initial sequence number, and the capacity. *)
Context (S : bytes) (isn : WrappingInt32) (c : Z).
Hypothesis Hc : 1 <= c.
Hypothesis HS : zlen S + c + 4 * W32 < W64.
Hypothesis Hisn : w32_ok isn.

(** [seg] carries the peer's stream from the absolute sequence number [a] on:
    zero is the SYN, byte [i] of the stream has number [i + 1], and a FIN
    follows the last byte. *)
Definition from_peer (seg : TCPSegment) (a : Z) : Prop :=
  th_seqno (header seg) = wrap a isn /\
  (if th_syn (header seg) then a = 0 else 1 <= a) /\
  consistent S (EPush (buf_str (payload seg)) (if th_syn (header seg) then 0 else a - 1)
                  (th_fin (header seg))).

Record rx_inv (r : TCPReceiver) (hist : bytes) : Prop := {
  rx_stream : stream_inv S c (rx_reassembler r) hist;
  rx_cap : rx_capacity r = c;
  rx_syn : if rx_have_SYN r then rx_icn r = isn else hist = [] /\ rx_have_FIN r = false;
  rx_fin : rx_have_FIN r = ra_have_eof (rx_reassembler r) }.

(** The output was ended for good reason: a FIN was seen and the stream is
    complete.  Until then, the byte before the FIN has been received. *)
Record rx_ended (r : TCPReceiver) (hist : bytes) : Prop := {
  re_ended : input_ended (rx_stream_out r) = true <-> rx_have_FIN r = true /\ zlen hist = zlen S;
  re_last : rx_have_FIN r = true -> zlen S <= zlen hist \/ known (rx_reassembler r) hist (zlen S - 1) }.

(** The FIN of [seg], if any, is in order, or comes with the last byte of the
    stream inside the window. *)
Definition fin_fits (r : TCPReceiver) (seg : TCPSegment) : Prop :=
  th_fin (header seg) = true ->
  zlen S <= bytes_written (rx_stream_out r) \/
  (buf_str (payload seg) <> [] /\ zlen S - 1 <= window_last (rx_reassembler r)).

Lemma rx_finish_stream f ra hist : stream_inv S c ra hist -> stream_inv S c (rx_finish f ra) hist.
Proof.
  intros []. unfold rx_finish. case_match; [|done]. constructor; auto. by apply end_input_inv.
Qed.

Lemma rx_finish_known f ra hist j : known (rx_finish f ra) hist j <-> known ra hist j.
Proof. unfold rx_finish. by case_match. Qed.

Lemma rx_finish_eof f ra : ra_have_eof (rx_finish f ra) = ra_have_eof ra.
Proof. unfold rx_finish. by case_match. Qed.

Lemma rx_finish_ended f ra hist :
  ra_inv ra hist ->
  (input_ended (ra_output (rx_finish f ra)) = true <->
   input_ended (ra_output ra) = true \/ (f = true /\ ra_staging_list ra = [])).
Proof.
  intros H. rewrite <- (empty_nil ra hist H). unfold rx_finish, stream_out.
  destruct f, (empty ra); simpl; unfold input_ended; simpl; naive_solver.
Qed.

(** One push of a piece of the stream. *)
Lemma rx_push_inv r hist seg i a :
  stream_inv S c (rx_reassembler r) hist -> rx_icn r = isn -> rx_capacity r = c ->
  rx_have_SYN r = true -> rx_have_FIN r = ra_have_eof (rx_reassembler r) ->
  consistent S (EPush (buf_str (payload seg)) i (th_fin (header seg))) -> a = i + 1 ->
  Z.abs (a - zlen hist) < W31 ->
  exists r' w, rx_push r seg (wrap a isn) = Ok r' /\ rx_inv r' (hist ++ w) /\
    rx_have_SYN r' = true /\
    rx_have_FIN r' = (th_fin (header seg) || rx_have_FIN r) /\
    bs_buffer (rx_stream_out r') = bs_buffer (rx_stream_out r) ++ w /\
    (rx_ended r hist -> fin_fits r seg -> rx_ended r' (hist ++ w)) /\
    (forall j, i <= j < i + zlen (buf_str (payload seg)) -> j <= window_last (rx_reassembler r) ->
       known (rx_reassembler r') (hist ++ w) j) /\
    (forall j, known (rx_reassembler r) hist j -> j < zlen S -> known (rx_reassembler r') (hist ++ w) j).
Proof.
  intros Hst Hicn Hcap Hsyn Hfin Hcon -> Hnear.
  pose proof (hist_le _ _ _ _ Hst) as Hle. pose proof (si_inv _ _ _ _ Hst) as Hra.
  pose proof Hcon as (Hi & Hd & Hil & Hfl). zpos.
  unfold rx_push, bytes_written, stream_out. rewrite (ri_written _ _ Hra), Hicn.
  rewrite unwrap_near by (done || lia). rewrite u64_id by lia. replace (i + 1 - 1) with i by lia.
  destruct (stream_push S c Hc ltac:(lia) (rx_reassembler r) hist _ _ _ Hst Hcon)
    as (ra & w & E & Hst' & He & Hbuf & Hend & Hk & Hnew).
  unfold buf_copy. rewrite E. cbn [rbind].
  pose proof (hist_le _ _ _ _ Hst') as Hle'.
  assert (Hff : (if th_fin (header seg) then true else rx_have_FIN r) = th_fin (header seg) || rx_have_FIN r)
    by by destruct (th_fin (header seg)).
  rewrite Hff. eexists _, w. split; [done|]. split; [|split; [done|split; [done|split; [|split; [|split]]]]].
  - constructor; cbn [rx_reassembler rx_capacity rx_have_SYN rx_have_FIN rx_icn].
    + by apply rx_finish_stream.
    + done.
    + by rewrite Hsyn.
    + by rewrite rx_finish_eof, He, Hfin.
  - unfold rx_stream_out, stream_out, rx_finish. cbn [rx_reassembler]. rewrite <- Hbuf.
    by destruct (_ && _).
  - intros [Hr1 Hr2] Hfits.
    assert (Hlast : th_fin (header seg) || rx_have_FIN r = true ->
      zlen S <= zlen (hist ++ w) \/ known ra (hist ++ w) (zlen S - 1)).
    { rewrite zlen_app. zpos. intros Hf. apply orb_true_iff in Hf as [Hf|Hf].
      - destruct (Hfits Hf) as [Hz|[Hne Hwin]];
          [left; unfold bytes_written, rx_stream_out, stream_out in Hz;
           rewrite (ri_written _ _ Hra) in Hz; lia|]. right. specialize (Hfl Hf).
        apply Hnew; [|done]. destruct (buf_str (payload seg)); [done|]. rewrite zlen_cons in *. zpos. lia.
      - destruct (Hr2 Hf) as [Hz|Hz]; [left; lia|right]. apply Hk; [done|lia]. }
    constructor; cbn [rx_reassembler rx_have_FIN rx_stream_out stream_out].
    + unfold rx_stream_out, stream_out. cbn [rx_reassembler].
      rewrite (rx_finish_ended _ ra (hist ++ w)) by apply Hst'. rewrite Hend.
      rewrite Hr1, He, <- Hfin. unfold rx_stream_out, stream_out. split.
      * intros [[[-> Hz]|Hz]|[Hf Hnil]]; [|done|].
        { rewrite orb_true_r. split; [done|]. rewrite zlen_app in *. zpos. lia. }
        split; [done|]. destruct (Hlast Hf) as [|[|Hs]]; [lia|lia|].
        rewrite Hnil in Hs. by destruct Hs.
      * intros Hz. left. by right.
    + intros Hf. rewrite rx_finish_known. by apply Hlast.
  - intros j Hj Hw. cbn [rx_reassembler]. rewrite rx_finish_known. by apply Hnew.
  - intros j Hj Hjs. cbn [rx_reassembler]. rewrite rx_finish_known. by apply Hk.
Qed.

Lemma rx_new : rx_inv (new_TCPReceiver c) [].
Proof. constructor; try done. apply stream_new; lia. Qed.
Lemma rx_new_ended : rx_ended (new_TCPReceiver c) [].
Proof. constructor; [|done]. split; [done|by intros []]. Qed.

Lemma rx_segment_inv r hist seg a :
  rx_inv r hist -> from_peer seg a -> Z.abs (a - zlen hist) < W31 ->
  exists r' w, rx_segment_received r seg = Ok r' /\ rx_inv r' (hist ++ w) /\
    rx_have_SYN r' = (rx_have_SYN r || th_syn (header seg)) /\
    bs_buffer (rx_stream_out r') = bs_buffer (rx_stream_out r) ++ w /\
    (rx_ended r hist -> fin_fits r seg -> rx_ended r' (hist ++ w)) /\
    (rx_have_FIN r' = true -> rx_have_FIN r = true \/ th_fin (header seg) = true) /\
    (rx_have_SYN r = true -> th_syn (header seg) = false ->
       rx_have_FIN r' = (th_fin (header seg) || rx_have_FIN r)) /\
    (forall j, rx_have_SYN r = true -> th_syn (header seg) = false ->
       a - 1 <= j < a - 1 + zlen (buf_str (payload seg)) -> j <= window_last (rx_reassembler r) ->
       known (rx_reassembler r') (hist ++ w) j) /\
    (forall j, known (rx_reassembler r) hist j -> j < zlen S -> known (rx_reassembler r') (hist ++ w) j).
Proof.
  intros Hr (Hseq & Ha & Hcon) Hnear. pose proof Hr as [Hst Hcap Hsyn Hfin].
  unfold rx_segment_received. rewrite Hseq.
  destruct (rx_have_SYN r) eqn:ES, (th_syn (header seg)) eqn:Esyn; cbn [negb orb].
  - exists r, []. rewrite !app_nil_r. split_and!; try done. by left.
  - destruct (rx_push_inv r hist seg (a - 1) a) as (r' & w & E & H1 & H2 & H3 & Hbuf & H4 & H5 & H6); try done.
    { lia. }
    exists r', w. split_and!; try done.
    + rewrite H3. intros HF. apply orb_true_iff in HF. tauto.
    + intros j _ _. apply H5.
  - subst a. rewrite wrap_0 by done. destruct Hsyn as [-> HF].
    destruct (rx_push_inv (mkTCPReceiver (rx_reassembler r) (rx_capacity r) true (rx_have_FIN r) isn)
      [] seg 0 1) as (r' & w & E & H1 & H2 & H3 & Hbuf & H4 & H5 & H6); try done.
    exists r', w. split_and!; try done.
    + intros [R1 R2] Hf. apply H4; [by constructor|exact Hf].
    + rewrite H3. intros Hx. apply orb_true_iff in Hx. tauto.
  - exists r, []. rewrite !app_nil_r. split_and!; try done. by left.
Qed.

(** A segment teaches nothing beyond the bytes it carries. *)
Lemma rx_segment_only r hist seg a r' hist' j :
  rx_inv r hist -> from_peer seg a -> Z.abs (a - zlen hist) < W31 ->
  rx_segment_received r seg = Ok r' -> rx_inv r' hist' -> known (rx_reassembler r') hist' j ->
  known (rx_reassembler r) hist j \/
  (let i := if th_syn (header seg) then 0 else a - 1 in i <= j < i + zlen (buf_str (payload seg))).
Proof.
  intros Hr (Hseq & Ha & Hcon) Hnear E Hr' Hk. pose proof Hr as [Hst Hcap Hsyn Hfin].
  pose proof Hr' as [Hst' _ _ _]. pose proof (si_inv _ _ _ _ Hst) as Hra.
  assert (Hsame : r' = r -> known (rx_reassembler r) hist j).
  { intros ->. unfold known in *. by rewrite <- (ri_written _ _ Hra), (ri_written _ _ (si_inv _ _ _ _ Hst')). }
  pose proof (hist_le _ _ _ _ Hst). zpos.
  assert (Hpush : forall r0 b i, rx_reassembler r0 = rx_reassembler r -> rx_icn r0 = isn ->
    i = (if th_syn (header seg) then 0 else a - 1) -> b = i + 1 -> Z.abs (b - zlen hist) < W31 ->
    rx_push r0 seg (wrap b isn) = Ok r' ->
    known (rx_reassembler r) hist j \/ i <= j < i + zlen (buf_str (payload seg))).
  { intros r0 b i E0 Ei Hi -> Hb Ep. rewrite <- Hi in Hcon. pose proof Hcon as (Hi0 & _).
    unfold rx_push, bytes_written, stream_out in Ep. rewrite E0, (ri_written _ _ Hra), Ei in Ep.
    rewrite unwrap_near in Ep by (done || (destruct (th_syn (header seg)); lia)).
    rewrite u64_id in Ep by lia. replace (i + 1 - 1) with i in Ep by lia.
    destruct (stream_push S c Hc ltac:(lia) (rx_reassembler r) hist _ _ _ Hst Hcon)
      as (ra & w & E1 & Hst1 & _). unfold buf_copy in Ep. rewrite E1 in Ep. cbn [rbind] in Ep.
    injection Ep as <-. cbn [rx_reassembler] in *. rewrite rx_finish_known in Hk.
    destruct (stream_push_only S c Hc ltac:(lia) (rx_reassembler r) hist _ _ _ ra (hist ++ w) j Hst Hcon E1 Hst1)
      as [Hx|[Hx _]]; [|by left|by right].
    assert (El : zlen hist' = zlen (hist ++ w)); [|unfold known in *; by rewrite <- El].
    rewrite <- (ri_written _ _ (si_inv _ _ _ _ Hst1)), <- (ri_written _ _ (si_inv _ _ _ _ Hst')).
    unfold rx_finish. by destruct (_ && empty ra). }
  unfold rx_segment_received in E. rewrite Hseq in E. cbn zeta.
  destruct (rx_have_SYN r) eqn:ES, (th_syn (header seg)) eqn:Esyn; cbn [negb] in E;
    try (left; apply Hsame; by injection E).
  - apply (Hpush r a (a - 1)); try done; lia.
  - subst a. rewrite wrap_0 in E by done. destruct Hsyn as [-> HF]. by eapply (Hpush (mkTCPReceiver (rx_reassembler r) _ _ _ isn) 1 0).
Qed.

Lemma rx_read_inv r hist n :
  0 <= n -> rx_inv r hist -> rx_inv (rx_with_stream_out r (read (rx_stream_out r) n).1) hist.
Proof. intros Hn [H1 H2 H3 H4]. constructor; try done. by apply stream_read. Qed.
Lemma rx_read_ended r hist n :
  rx_ended r hist -> rx_ended (rx_with_stream_out r (read (rx_stream_out r) n).1) hist.
Proof.
  intros [H1 H2]. constructor; [|done]. unfold rx_stream_out, stream_out in *. simpl.
  by rewrite read_ended.
Qed.

Lemma rx_written r hist : rx_inv r hist -> bytes_written (rx_stream_out r) = zlen hist.
Proof. intros [[H]]. apply H. Qed.

(** The receivers that can be reached from a new one by segments of the peer,
    in any order and any number of times, that are less than half a turn of
    the sequence space away from what was assembled, and by reads.  With
    [fits], every FIN is received as [fin_fits] says. *)
Inductive rx_reachable (fits : bool) : TCPReceiver -> Prop :=
  | rr_new : rx_reachable fits (new_TCPReceiver c)
  | rr_segment r seg a r' :
      rx_reachable fits r -> from_peer seg a ->
      Z.abs (a - bytes_written (rx_stream_out r)) < W31 ->
      (fits = true -> fin_fits r seg) ->
      rx_step r (RSegment seg) = Ok r' -> rx_reachable fits r'
  | rr_read r n r' :
      rx_reachable fits r -> 0 <= n -> rx_step r (RRead n) = Ok r' -> rx_reachable fits r'.

Lemma rx_reachable_inv fits r :
  rx_reachable fits r -> exists hist, rx_inv r hist /\ (fits = true -> rx_ended r hist).
Proof.
  induction 1 as [|r seg a r' _ (hist & Hi & He) Hp Hn Hf E|r n r' _ (hist & Hi & He) Hn E].
  - exists []. split; [apply rx_new|intros; apply rx_new_ended].
  - rewrite (rx_written r hist Hi) in Hn.
    destruct (rx_segment_inv r hist seg a Hi Hp Hn) as (r1 & w & E1 & H1 & _ & _ & H2 & _).
    simpl in E. rewrite E1 in E. injection E as <-. eauto 10.
  - injection E as <-. exists hist. split; [by apply rx_read_inv|].
    intros. by apply rx_read_ended, He.
Qed.
End Peer.

Lemma rx_window_size_eq r hist :
  ra_inv (rx_reassembler r) hist -> zlen hist < W64 -> rx_capacity r = ra_capacity (rx_reassembler r) ->
  rx_window_size r = rx_capacity r - buffer_size (rx_stream_out r).
Proof.
  intros H Hh Hcap. unfold rx_window_size, bytes_read, rx_stream_out, stream_out, bytes_written.
  pose proof (ri_le _ _ H). pose proof (ri_out _ _ H) as (? & ? & ?). pose proof (ri_cap _ _ H).
  pose proof (buffer_size_nonneg (ra_output (rx_reassembler r))). rewrite (ri_written _ _ H).
  rewrite (u64_id (zlen hist - buffer_size _)) by lia.
  rewrite (u64_id (zlen hist - (zlen hist - _))) by lia. rewrite u64_id; lia.
Qed.

(** C15: The receiver accepts anything: for any segment whatsoever, with any
    sequence number, flags and payload, [segment_received] returns without
    throwing and keeps the reassembler's invariant; the assembled stream only
    grows, the window never exceeds the capacity, and the connection is
    synchronised from the first SYN on. *)
Theorem receiver_total r hist seg :
  rx_wf r hist -> rx_room r hist -> w32_ok (th_seqno (header seg)) ->
  zlen (buf_str (payload seg)) < W32 ->
  exists r' w, rx_segment_received r seg = Ok r' /\ rx_wf r' (hist ++ w) /\
    rx_have_SYN r' = (rx_have_SYN r || th_syn (header seg)) /\
    (rx_ackno r = None <-> rx_have_SYN r = false) /\
    0 <= rx_window_size r <= rx_capacity r.
Proof.
  intros Hwf Hroom Hs Hp.
  destruct (rx_segment_wf r hist seg Hwf Hroom Hs Hp) as (r' & w & E & H1 & H2 & _).
  exists r', w. split; [done|]. split; [done|]. split; [done|]. destruct Hwf as [Hra Hcap Hicn].
  unfold rx_room in Hroom. pose proof (ri_pos _ _ Hra). zpos. split.
  - unfold rx_ackno. destruct (rx_have_SYN r); [|done]. by case_match.
  - rewrite (rx_window_size_eq r hist) by (done || lia). pose proof (ri_out _ _ Hra) as (? & Hb & ?).
    pose proof (ri_cap _ _ Hra). pose proof (buffer_size_nonneg (rx_stream_out r)).
    unfold rx_stream_out, stream_out in *. lia.
Qed.

(** A segment of an attacker: no SYN yet, or a sequence number far away. *)
Lemma receiver_total_witness :
  exists r' w, rx_segment_received (new_TCPReceiver 8)
    (mkTCPSegment (set_syn true (set_fin true default_TCPHeader)) (Buffer_of [x61])) = Ok r' /\
    rx_wf r' ([] ++ w) /\ rx_have_SYN r' = true.
Proof.
  destruct (receiver_total (new_TCPReceiver 8) [] (mkTCPSegment (set_syn true
    (set_fin true default_TCPHeader)) (Buffer_of [x61]))) as (r' & w & H1 & H2 & H3 & _).
  - apply new_TCPReceiver_wf. lia.
  - reflexivity.
  - unfold w32_ok. simpl. lia.
  - reflexivity.
  - exists r', w. split; [exact H1|]. split; [exact H2|exact H3].
Defined.

(** Safety of the receiver.  Whatever segments of the peer's stream [S]
    arrive, lost, duplicated or reordered, as long as each is less than half
    a turn of the sequence space from what was assembled, and whatever is
    read in between: every further segment is accepted without throwing, the
    assembled bytes are a prefix of [S], those not yet read are in the output,
    the acknowledgement number is the sequence number of the first missing
    byte (one more once the stream was ended), and the window is the free
    space of the buffer. *)
Theorem receiver_safe S isn c fits r :
  1 <= c -> zlen S + c + 4 * W32 < W64 -> w32_ok isn -> rx_reachable S isn c fits r ->
  exists hist, hist = ztake (zlen hist) S /\
    bs_buffer (rx_stream_out r) = zdrop (zlen hist - buffer_size (rx_stream_out r)) hist /\
    rx_ackno r = (if rx_have_SYN r then Some (wrap (zlen hist + 1 +
        (if rx_have_FIN r && input_ended (rx_stream_out r) then 1 else 0)) isn) else None) /\
    rx_window_size r = c - buffer_size (rx_stream_out r) /\
    forall seg a, from_peer S isn seg a -> Z.abs (a - bytes_written (rx_stream_out r)) < W31 ->
      exists r', rx_segment_received r seg = Ok r'.
Proof.
  intros Hc HS Hisn Hr. destruct (rx_reachable_inv S isn c Hc HS Hisn fits r Hr) as (hist & Hi & _).
  exists hist. pose proof Hi as [Hst Hcap Hsyn Hfin]. pose proof (hist_le _ _ _ _ Hst).
  pose proof (si_inv _ _ _ _ Hst) as Hra. zpos.
  split; [apply Hst|]. split; [apply Hra|]. split; [|split].
  - unfold rx_ackno, rx_stream_out, stream_out, bytes_written. rewrite (ri_written _ _ Hra).
    destruct (rx_have_SYN r); [|done]. rewrite Hsyn. case_match; rewrite u64_id by lia; do 2 f_equal; lia.
  - rewrite (rx_window_size_eq r hist); [by rewrite Hcap|done|lia|by rewrite Hcap, (si_cap _ _ _ _ Hst)].
  - intros seg a Hp Hn. rewrite (rx_written S isn c r hist Hi) in Hn.
    destruct (rx_segment_inv S isn c Hc HS Hisn r hist seg a Hi Hp Hn) as (r' & w & E & _). eauto.
Qed.

(** The segments of the examples: the bytes "ab" with initial number 7. *)
Definition seg_at (seqno : Z) (syn fin : bool) (d : bytes) : TCPSegment :=
  mkTCPSegment (set_seqno (mkW32 seqno) (set_syn syn (set_fin fin default_TCPHeader))) (Buffer_of d).

Lemma seg_at_peer S isn a (syn fin : bool) (d : bytes) :
  (if syn then a = 0 else 1 <= a) ->
  consistent S (EPush d (if syn then 0 else a - 1) fin) ->
  from_peer S isn (seg_at (raw_value (wrap a isn)) syn fin d) a.
Proof. intros H1 H2. split; [by apply w32_ext|]. split; [done|exact H2]. Qed.

Lemma receiver_safe_witness :
  exists r hist, rx_reachable [x61; x62] (mkW32 7) 4 false r /\ hist = ztake (zlen hist) [x61; x62] /\
    rx_ackno r = Some (wrap (zlen hist + 1) (mkW32 7)) /\ rx_unassembled_bytes r = 1.
Proof.
  assert (E : exists r1 r2, rx_step (new_TCPReceiver 4) (RSegment (seg_at 7 true false [])) = Ok r1 /\
    rx_step r1 (RSegment (seg_at 9 false false [x62])) = Ok r2 /\ rx_unassembled_bytes r2 = 1 /\
    bytes_written (rx_stream_out r1) = 0 /\ rx_have_SYN r2 = true /\ rx_have_FIN r2 = false).
  { eexists _, _. split; [vm_compute; reflexivity|]. split; [vm_compute; reflexivity|].
    split_and!; reflexivity. }
  destruct E as (r1 & r2 & E1 & E2 & E3 & E4 & E5 & E6). exists r2.
  assert (R : rx_reachable [x61; x62] (mkW32 7) 4 false r2).
  { eapply (rr_segment _ _ _ _ r1 _ 2); [eapply (rr_segment _ _ _ _ _ _ 0); [apply rr_new|..]|..]; try exact E2; try exact E1.
    - apply (seg_at_peer _ (mkW32 7) 0); vm_compute; intuition congruence.
    - reflexivity.
    - done.
    - apply (seg_at_peer _ (mkW32 7) 2); vm_compute; intuition congruence.
    - rewrite E4. reflexivity.
    - done. }
  destruct (receiver_safe [x61; x62] (mkW32 7) 4 false r2) as (hist & H1 & _ & H3 & _);
    [lia|reflexivity|done|exact R|].
  exists hist. split; [exact R|]. split; [exact H1|]. rewrite H3, E5, E6. split; [|exact E3].
  cbn [andb]. do 2 f_equal. lia.
Defined.

(** C14: The end of the stream: when every FIN arrives in order, or together with
    the last byte of the stream inside the window, the output is ended
    exactly when a FIN was received and the whole stream is assembled. *)
Theorem receiver_end S isn c r :
  1 <= c -> zlen S + c + 4 * W32 < W64 -> w32_ok isn -> rx_reachable S isn c true r ->
  exists hist, hist = ztake (zlen hist) S /\ bytes_written (rx_stream_out r) = zlen hist /\
    (input_ended (rx_stream_out r) = true <-> rx_have_FIN r = true /\ hist = S).
Proof.
  intros Hc HS Hisn Hr. destruct (rx_reachable_inv S isn c Hc HS Hisn true r Hr) as (hist & Hi & He).
  exists hist. pose proof (si_hist _ _ _ _ (rx_stream _ _ _ _ _ Hi)) as Hh.
  split; [done|]. split; [by eapply rx_written|]. destruct (He eq_refl) as [-> _].
  split; intros [H1 H2]; split; try done; [|by rewrite H2].
  rewrite Hh, H2. apply ztake_all. lia.
Qed.

Lemma receiver_end_witness :
  exists r hist, rx_reachable [x61] (mkW32 7) 4 true r /\ hist = ztake (zlen hist) [x61] /\
    input_ended (rx_stream_out r) = true.
Proof.
  assert (E : exists r1 r2, rx_step (new_TCPReceiver 4) (RSegment (seg_at 7 true false [])) = Ok r1 /\
    rx_step r1 (RSegment (seg_at 8 false true [x61])) = Ok r2 /\
    bytes_written (rx_stream_out r1) = 0 /\ window_last (rx_reassembler r1) = 3 /\
    input_ended (rx_stream_out r2) = true).
  { eexists _, _. split; [vm_compute; reflexivity|]. split; [vm_compute; reflexivity|].
    split_and!; reflexivity. }
  destruct E as (r1 & r2 & E1 & E2 & E3 & E4 & E5). exists r2.
  assert (R : rx_reachable [x61] (mkW32 7) 4 true r2).
  { eapply (rr_segment _ _ _ _ r1 _ 1); [eapply (rr_segment _ _ _ _ _ _ 0); [apply rr_new|..]|..]; try exact E2; try exact E1.
    - apply (seg_at_peer _ (mkW32 7) 0); vm_compute; intuition congruence.
    - reflexivity.
    - intros _ [=].
    - apply (seg_at_peer _ (mkW32 7) 1); vm_compute; intuition congruence.
    - rewrite E3. reflexivity.
    - intros _ _. right. split; [done|]. rewrite E4. vm_compute. congruence. }
  destruct (receiver_end [x61] (mkW32 7) 4 r2) as (hist & H1 & _ & H2); [lia|reflexivity|done|exact R|].
  exists hist. split; [exact R|]. split; [exact H1|exact E5].
Defined.

(** Otherwise the receiver ends the stream too early.  The peer sends SYN,
    the byte "a", and a bare FIN; when the FIN overtakes the byte, nothing
    waits in the reassembler, and the receiver ends its output and
    acknowledges the FIN although no byte of the stream has arrived. *)
Theorem receiver_premature_end :
  exists r, rx_reachable [x61] (mkW32 7) 4 false r /\
    input_ended (rx_stream_out r) = true /\ eof (rx_stream_out r) = true /\
    bytes_written (rx_stream_out r) = 0 /\ rx_ackno r = Some (wrap 2 (mkW32 7)).
Proof.
  assert (E : exists r1 r2, rx_step (new_TCPReceiver 4) (RSegment (seg_at 7 true false [])) = Ok r1 /\
    rx_step r1 (RSegment (seg_at 9 false true [])) = Ok r2 /\
    bytes_written (rx_stream_out r1) = 0 /\
    input_ended (rx_stream_out r2) = true /\ eof (rx_stream_out r2) = true /\
    bytes_written (rx_stream_out r2) = 0 /\ rx_ackno r2 = Some (wrap 2 (mkW32 7))).
  { eexists _, _. split; [vm_compute; reflexivity|]. split; [vm_compute; reflexivity|].
    split_and!; reflexivity. }
  destruct E as (r1 & r2 & E1 & E2 & E3 & E4). exists r2. split; [|done].
  eapply (rr_segment _ _ _ _ r1 _ 2); [eapply (rr_segment _ _ _ _ _ _ 0); [apply rr_new|..]|..]; try exact E2; try exact E1.
  - apply (seg_at_peer _ (mkW32 7) 0); vm_compute; intuition congruence.
  - reflexivity.
  - done.
  - apply (seg_at_peer _ (mkW32 7) 2); vm_compute; intuition congruence.
  - by rewrite E3.
  - done.
Qed.

(** ** Completeness *)

Fixpoint rx_run (r : TCPReceiver) (es : list rx_event) : result TCPReceiver :=
  match es with
  | [] => Ok r
  | e :: es => let* r := rx_step r e in rx_run r es
  end.

Section Complete.
Context (S : bytes) (isn : WrappingInt32) (c : Z).
Hypothesis Hc : zlen S <= c.
Hypothesis Hpos : 1 <= c.
Hypothesis HS : zlen S + c + 4 * W32 < W64.
Hypothesis Hhalf : zlen S < W31 - 2.
Hypothesis Hisn : w32_ok isn.

(** A data segment of the peer at most one behind the end of the stream; a FIN
    comes with the last byte. *)
Definition good_segment (seg : TCPSegment) : Prop :=
  exists a, from_peer S isn seg a /\ a <= zlen S + 2 /\ th_syn (header seg) = false /\
    (th_fin (header seg) = true -> buf_str (payload seg) <> []).

Definition good_event (e : rx_event) : Prop :=
  match e with RSegment seg => good_segment seg | RRead n => 0 <= n end.

(** The event brings byte [i] of the stream. *)
Definition brings (e : rx_event) (i : Z) : Prop :=
  match e with
  | RSegment seg => exists a, from_peer S isn seg a /\ a <= zlen S + 2 /\
      a - 1 <= i < a - 1 + zlen (buf_str (payload seg))
  | RRead _ => False
  end.

Definition brings_fin (e : rx_event) : Prop :=
  match e with RSegment seg => th_fin (header seg) = true | RRead _ => False end.

Lemma wide_window r hist : rx_inv S isn c r hist -> zlen S - 1 <= window_last (rx_reassembler r).
Proof.
  intros [Hst Hcap _ _]. unfold window_last. pose proof (si_inv _ _ _ _ Hst) as Hra.
  rewrite (ri_next _ _ Hra), (si_cap _ _ _ _ Hst). pose proof (ri_le _ _ Hra). lia.
Qed.

Lemma peer_position seg a b :
  from_peer S isn seg a -> from_peer S isn seg b -> 0 <= a <= zlen S + 2 -> 0 <= b <= zlen S + 2 -> a = b.
Proof.
  intros (Ha & _) (Hb & _) La Lb. rewrite Ha in Hb. apply (wrap_inj_near a b isn); [lia|done].
Qed.

Lemma rx_run_inv es : forall r hist,
  rx_inv S isn c r hist -> rx_ended S r hist -> rx_have_SYN r = true -> Forall good_event es ->
  exists r' w, rx_run r es = Ok r' /\ rx_inv S isn c r' (hist ++ w) /\ rx_ended S r' (hist ++ w) /\
    rx_have_SYN r' = true /\
    (rx_have_FIN r' = true <-> rx_have_FIN r = true \/ Exists brings_fin es) /\
    (forall j, known (rx_reassembler r) hist j -> j < zlen S -> known (rx_reassembler r') (hist ++ w) j) /\
    (forall j, 0 <= j < zlen S -> Exists (fun e => brings e j) es -> known (rx_reassembler r') (hist ++ w) j).
Proof.
  induction es as [|e es IH]; intros r hist Hi He Hsyn Hes.
  { exists r, []. rewrite app_nil_r. split_and!; try done.
    - rewrite Exists_nil. tauto.
    - intros j _ H. by apply Exists_nil in H. }
  inversion Hes as [|? ? Hg Hes']; subst. pose proof (rx_stream _ _ _ _ _ Hi) as Hst.
  pose proof (hist_le _ _ _ _ Hst) as Hle. zpos. destruct e as [seg|n]; cbn [rx_run rx_step].
  - destruct Hg as (a & Hp & Ha & Hns & Hff).
    pose proof Hp as (_ & Ha' & Hcon). rewrite Hns in Ha', Hcon.
    destruct (rx_segment_inv S isn c Hpos HS Hisn r hist seg a Hi Hp)
      as (r1 & w1 & E1 & I1 & S1 & _ & N1 & _ & F1 & K1 & M1); [lia|].
    rewrite E1. cbn [rbind].
    assert (Hf : fin_fits S r seg).
    { intros Hfin. right. split; [auto|by apply (wide_window r hist)]. }
    rewrite Hsyn in S1. simpl in S1. specialize (F1 Hsyn Hns).
    destruct (IH r1 (hist ++ w1) I1 (N1 He Hf) S1 Hes') as (r2 & w2 & E2 & I2 & N2 & S2 & F2 & M2 & K2).
    exists r2, (w1 ++ w2). rewrite app_assoc. split_and!; try done.
    + rewrite F2, F1, orb_true_iff, Exists_cons. simpl. tauto.
    + auto.
    + intros j Hj Hex. apply Exists_cons in Hex as [(b & Hb & Lb & Hbr)|Hex]; [|by apply K2].
      assert (a = b) as <-.
      { pose proof Hb as (_ & Hb' & _). rewrite Hns in Hb'. apply (peer_position seg); done || lia. }
      apply M2; [|lia]. apply K1; try done. pose proof (wide_window r hist Hi). lia.
  - destruct (IH _ hist (rx_read_inv S isn c r hist n Hg Hi) (rx_read_ended S r hist n He) Hsyn Hes')
      as (r2 & w2 & E2 & I2 & N2 & S2 & F2 & M2 & K2).
    cbn [rbind]. exists r2, w2. split_and!; try done.
    + rewrite F2, Exists_cons. simpl. naive_solver.
    + intros j Hj Hex. apply Exists_cons in Hex as [[]|Hex]. by apply K2.
Qed.
End Complete.

(** C13: Completeness of the receiver: after the SYN, when the data segments that
    arrive bring every byte of the stream at least once and the FIN, the whole
    stream is assembled and ended, and the acknowledgement covers the FIN;
    the order, the duplicates, the overlaps and the reads in between do not
    matter.  The stream must fit in the capacity and in half a turn of the
    sequence space, and a FIN comes with the last byte. *)
Theorem receiver_complete S isn c syn es :
  zlen S <= c -> 1 <= c -> zlen S + c + 4 * W32 < W64 -> zlen S < W31 - 2 -> w32_ok isn ->
  from_peer S isn syn 0 -> th_syn (header syn) = true -> th_fin (header syn) = false ->
  Forall (good_event S isn) es ->
  (forall i, 0 <= i < zlen S -> Exists (fun e => brings S isn e i) es) ->
  Exists brings_fin es ->
  exists r, rx_run (new_TCPReceiver c) (RSegment syn :: es) = Ok r /\
    ra_inv (rx_reassembler r) S /\ input_ended (rx_stream_out r) = true /\
    rx_ackno r = Some (wrap (zlen S + 2) isn).
Proof.
  intros Hc Hpos HS Hhalf Hisn Hsp Hss Hsf Hes Hcov Hfin.
  destruct (rx_segment_inv S isn c Hpos HS Hisn (new_TCPReceiver c) [] syn 0)
    as (r1 & w1 & E1 & I1 & S1 & _ & N1 & _); [by apply rx_new|done|done|].
  rewrite Hss, orb_true_r in S1.
  assert (He1 : rx_ended S r1 ([] ++ w1)).
  { apply N1; [apply rx_new_ended|]. intros Hf. congruence. }
  destruct (rx_run_inv S isn c Hc Hpos HS Hhalf Hisn es r1 ([] ++ w1) I1 He1 S1 Hes)
    as (r & w & E & I2 & N2 & S2 & F2 & _ & K2).
  exists r. cbn [rx_run rx_step]. rewrite E1. cbn [rbind]. split; [done|].
  pose proof (rx_stream _ _ _ _ _ I2) as Hst. pose proof (hist_le _ _ _ _ Hst) as Hle.
  pose proof (si_inv _ _ _ _ Hst) as Hra. set (hist := ([] ++ w1) ++ w) in *. zpos.
  assert (Hfull : zlen hist = zlen S).
  { destruct (Z.eq_dec (zlen hist) (zlen S)) as [|Hne]; [done|].
    destruct (K2 (zlen hist) ltac:(lia) (Hcov (zlen hist) ltac:(lia))) as [|Hs]; [lia|].
    rewrite (inv_first_missing _ _ Hra) in Hs. by destruct Hs. }
  assert (HhS : hist = S) by (rewrite (si_hist _ _ _ _ Hst), Hfull; apply ztake_all; lia).
  assert (Hff : rx_have_FIN r = true) by (apply F2; by right).
  assert (Hend : input_ended (rx_stream_out r) = true) by (by apply N2).
  rewrite HhS in Hra. split; [done|]. split; [done|].
  unfold rx_ackno. rewrite S2, Hff. unfold rx_stream_out in Hend. rewrite Hend. cbn [andb].
  unfold bytes_written, stream_out. rewrite (ri_written _ _ Hra).
  pose proof (rx_syn _ _ _ _ _ I2) as Hicn. rewrite S2 in Hicn. by rewrite Hicn, u64_id by lia.
Qed.

(** "b" with the FIN arrives before "a". *)
Lemma receiver_complete_witness :
  exists r, rx_run (new_TCPReceiver 2) [RSegment (seg_at 7 true false []);
      RSegment (seg_at 9 false true [x62]); RSegment (seg_at 8 false false [x61])] = Ok r /\
    ra_inv (rx_reassembler r) [x61; x62] /\ input_ended (rx_stream_out r) = true /\
    rx_ackno r = Some (wrap 4 (mkW32 7)).
Proof.
  assert (P0 : from_peer [x61; x62] (mkW32 7) (seg_at 7 true false []) 0)
    by (apply (seg_at_peer _ (mkW32 7) 0); vm_compute; intuition congruence).
  assert (P1 : from_peer [x61; x62] (mkW32 7) (seg_at 8 false false [x61]) 1)
    by (apply (seg_at_peer _ (mkW32 7) 1); vm_compute; intuition congruence).
  assert (P2 : from_peer [x61; x62] (mkW32 7) (seg_at 9 false true [x62]) 2)
    by (apply (seg_at_peer _ (mkW32 7) 2); vm_compute; intuition congruence).
  apply (receiver_complete [x61; x62] (mkW32 7) 2 (seg_at 7 true false [])
    [RSegment (seg_at 9 false true [x62]); RSegment (seg_at 8 false false [x61])]);
    [vm_compute; congruence|lia|reflexivity|reflexivity|done|exact P0|done|done|..].
  - repeat constructor.
    + exists 2. split; [exact P2|]. split; [vm_compute; congruence|done].
    + exists 1. split; [exact P1|]. split; [vm_compute; congruence|done].
  - intros i Hi. change (zlen [x61; x62]) with 2 in Hi. destruct (Z.eq_dec i 0) as [->|Hi0].
    + apply Exists_cons_tl, Exists_cons_hd. exists 1. split; [exact P1|]. by vm_compute.
    + apply Exists_cons_hd. exists 2. split; [exact P2|]. split; [by vm_compute|].
      replace i with 1 by lia. by vm_compute.
  - by apply Exists_cons_hd.
Defined.
