(* ===== verification/TCPSender.v ===== *)
(** * The TCP sender

    [libsponge/tcp_sender.hh] and [.cc]: cuts the outgoing stream into segments
    that fit the peer's window, keeps those not yet acknowledged, and
    retransmits the oldest when its timer expires. *)
From S2P Require Import Prelude WrappingIntegers ByteStream StreamReassembler Buffer Parser TCPSegment TCPReceiver.

(** [TCPConfig]. *)
Definition MAX_PAYLOAD_SIZE : Z := 1000.

Record TCPSender : Type := mkTCPSender {
  tx_isn : WrappingInt32;
  tx_segments_out : list TCPSegment;
  tx_initial_retransmission_timeout : Z;
  tx_stream : ByteStream;
  tx_next_seqno : Z;
  tx_next_ackno : Z;
  (** newest first *)
  tx_tracking_segments : list TCPSegment;
  tx_tracked_count : Z;
  tx_timer : Z;
  tx_retransmission_timeout : Z;
  tx_window_size : Z;
  tx_remain_window_size : Z;
  tx_consecutive_time_out_count : Z }.

(** The initial sequence number is [fixed_isn] or a random one. *)
Definition new_TCPSender (capacity retx_timeout : Z) (isn : WrappingInt32) : TCPSender :=
  mkTCPSender isn [] retx_timeout (new_ByteStream capacity) 0 0 [] 0 0 retx_timeout 1 1 0.

Definition tx_bytes_in_flight (t : TCPSender) : Z := tx_tracked_count t.
Definition tx_consecutive_retransmissions (t : TCPSender) : Z := tx_consecutive_time_out_count t.
Definition tx_stream_in (t : TCPSender) : ByteStream := tx_stream t.
Definition next_seqno_absolute (t : TCPSender) : Z := tx_next_seqno t.
Definition next_seqno (t : TCPSender) : WrappingInt32 := wrap (tx_next_seqno t) (tx_isn t).

(** The changes the operations make to the members. *)
Definition tx_with_stream (t : TCPSender) (s : ByteStream) : TCPSender :=
  mkTCPSender (tx_isn t) (tx_segments_out t) (tx_initial_retransmission_timeout t) s
    (tx_next_seqno t) (tx_next_ackno t) (tx_tracking_segments t) (tx_tracked_count t) (tx_timer t)
    (tx_retransmission_timeout t) (tx_window_size t) (tx_remain_window_size t)
    (tx_consecutive_time_out_count t).
Definition tx_with_out (t : TCPSender) (out : list TCPSegment) : TCPSender :=
  mkTCPSender (tx_isn t) out (tx_initial_retransmission_timeout t) (tx_stream t)
    (tx_next_seqno t) (tx_next_ackno t) (tx_tracking_segments t) (tx_tracked_count t) (tx_timer t)
    (tx_retransmission_timeout t) (tx_window_size t) (tx_remain_window_size t)
    (tx_consecutive_time_out_count t).

Inductive TCPSenderState : Type := Closed | SynSent | SynAcked | SynAckedEof | FinSent | FinAcked.
#[global] Instance TCPSenderState_eq_dec : EqDecision TCPSenderState.
Proof. solve_decision. Defined.

Definition current_state (t : TCPSender) : TCPSenderState :=
  if next_seqno_absolute t =? 0 then Closed
  else if (0 <? next_seqno_absolute t) && (next_seqno_absolute t =? tx_bytes_in_flight t) then SynSent
  else if (tx_bytes_in_flight t <? next_seqno_absolute t) && negb (eof (tx_stream t)) then SynAcked
  else if eof (tx_stream t) && (next_seqno_absolute t <? bytes_written (tx_stream t) +! 2) then SynAckedEof
  else if eof (tx_stream t) && (next_seqno_absolute t =? bytes_written (tx_stream t) +! 2)
          && (0 <? tx_bytes_in_flight t) then FinSent
  else if eof (tx_stream t) && (next_seqno_absolute t =? bytes_written (tx_stream t) +! 2)
          && (tx_bytes_in_flight t =? 0) then FinAcked
  else Closed.

(** The condition of the loop of [fill_window]. *)
Definition fill_guard (t : TCPSender) : bool :=
  (next_seqno_absolute t <? tx_next_ackno t +! tx_remain_window_size t)
  && (negb (buffer_empty (tx_stream t)) || bool_decide (current_state t = SynAckedEof)).

Definition fill_read_size (t : TCPSender) : Z :=
  let space := (tx_next_ackno t +! tx_remain_window_size t) -! next_seqno_absolute t in
  u16 (Z.min (if buffer_size (tx_stream t) <? space then buffer_size (tx_stream t) else space)
         MAX_PAYLOAD_SIZE).

(** The segment that one iteration sends, and the stream after it. *)
Definition fill_segment (t : TCPSender) : TCPSegment * ByteStream :=
  let read_size := fill_read_size t in
  let segment := new_TCPSegment in
  let '(stream, segment) :=
    if negb (read_size =? 0) then
      let '(stream, data) := read (tx_stream t) read_size in
      (stream, mkTCPSegment (header segment) (Buffer_of data))
    else (tx_stream t, segment) in
  let segment := with_header (set_seqno (next_seqno t)) segment in
  let segment :=
    if (read_size <? tx_remain_window_size t) && eof stream then
      with_header (set_ack true) (with_header (set_fin true) segment)
    else segment in
  let segment := with_header (set_ackno (w32_add (th_seqno (header segment))
                                           (length_in_sequence_space segment))) segment in
  (segment, stream).

Definition fill_step (t : TCPSender) : TCPSender :=
  let '(segment, stream) := fill_segment t in
  mkTCPSender (tx_isn t) (tx_segments_out t ++ [segment]) (tx_initial_retransmission_timeout t) stream
    (tx_next_seqno t +! length_in_sequence_space segment) (tx_next_ackno t)
    (segment :: tx_tracking_segments t) (tx_tracked_count t +! length_in_sequence_space segment)
    (tx_timer t) (tx_retransmission_timeout t) (tx_window_size t)
    (if negb (tx_remain_window_size t =? tx_window_size t) then 0 else tx_remain_window_size t)
    (tx_consecutive_time_out_count t).

(** The loop; [fill_loop_spec] shows that the fuel of [fill_window] makes the
    condition false, so the loop has ended by then. *)
Fixpoint fill_loop (fuel : nat) (t : TCPSender) : TCPSender :=
  match fuel with
  | O => t
  | S fuel => if fill_guard t then fill_loop fuel (fill_step t) else t
  end.

Definition fill_fuel (t : TCPSender) : nat :=
  Z.to_nat (tx_next_ackno t + tx_remain_window_size t - tx_next_seqno t).

(** The SYN. *)
Definition fill_syn (t : TCPSender) : TCPSender :=
  let next := tx_next_seqno t +! 1 in
  let header := set_ackno (wrap next (tx_isn t)) (set_syn true (set_seqno (tx_isn t) default_TCPHeader)) in
  let segment := with_header (fun _ => header) new_TCPSegment in
  mkTCPSender (tx_isn t) (tx_segments_out t ++ [segment]) (tx_initial_retransmission_timeout t)
    (tx_stream t) next (tx_next_ackno t) (segment :: tx_tracking_segments t) (tx_tracked_count t +! 1)
    0 (tx_retransmission_timeout t) (tx_window_size t) (tx_remain_window_size t)
    (tx_consecutive_time_out_count t).

Definition fill_window (t : TCPSender) : TCPSender :=
  match current_state t with
  | Closed => fill_syn t
  | SynSent => t
  | _ => fill_loop (fill_fuel t) t
  end.

(** The loop of [ack_received] over the tracked segments: the length of those
    it passes, and, when it finds the acknowledged one, what [erase] keeps. *)
Fixpoint ack_scan (ackno : WrappingInt32) (l : list TCPSegment) (remain_tracked_length : Z)
    : Z * option (list TCPSegment) :=
  match l with
  | [] => (remain_tracked_length, None)
  | s :: l =>
      if w32_eqb (th_ackno (header s)) ackno then (remain_tracked_length, Some [])
      else
        let '(remain, kept) := ack_scan ackno l (remain_tracked_length +! length_in_sequence_space s) in
        (remain, option_map (cons s) kept)
  end.

Definition ack_received (t : TCPSender) (ackno : WrappingInt32) (window_size : Z) : TCPSender :=
  let absolute := unwrap ackno (tx_isn t) (tx_next_ackno t) in
  let window := if (tx_next_ackno t <=? absolute) && (absolute <=? tx_next_seqno t)
                then window_size else tx_window_size t in
  let '(remain, kept) := ack_scan ackno (tx_tracking_segments t) 0 in
  let t :=
    match kept with
    | Some tracking =>
        mkTCPSender (tx_isn t) (tx_segments_out t) (tx_initial_retransmission_timeout t) (tx_stream t)
          (tx_next_seqno t) (if tx_next_ackno t <? absolute then absolute else tx_next_ackno t)
          tracking (tx_tracked_count t) 0 (tx_initial_retransmission_timeout t) window
          (tx_remain_window_size t) 0
    | None =>
        mkTCPSender (tx_isn t) (tx_segments_out t) (tx_initial_retransmission_timeout t) (tx_stream t)
          (tx_next_seqno t) (tx_next_ackno t) (tx_tracking_segments t) (tx_tracked_count t)
          (tx_timer t) (tx_retransmission_timeout t) window (tx_remain_window_size t)
          (tx_consecutive_time_out_count t)
    end in
  if (tx_tracked_count t =? remain)
     && match last (tx_tracking_segments t) with
        | Some s => raw_value (th_seqno (header s)) <? raw_value ackno
        | None => false
        end
  then t
  else
    mkTCPSender (tx_isn t) (tx_segments_out t) (tx_initial_retransmission_timeout t) (tx_stream t)
      (tx_next_seqno t) (tx_next_ackno t) (tx_tracking_segments t) remain (tx_timer t)
      (tx_retransmission_timeout t) (tx_window_size t)
      (if (tx_window_size t =? 0) && (remain =? 0) then 1 else tx_window_size t)
      (tx_consecutive_time_out_count t).

Definition tx_tick (t : TCPSender) (ms_since_last_tick : Z) : result TCPSender :=
  let timer := if negb (tx_bytes_in_flight t =? 0) then tx_timer t +! ms_since_last_tick else tx_timer t in
  if (tx_retransmission_timeout t <=? timer) && negb (tx_bytes_in_flight t =? 0) then
    match last (tx_tracking_segments t) with
    | None => Err undefined_behaviour
    | Some oldest =>
        Ok (mkTCPSender (tx_isn t) (tx_segments_out t ++ [oldest]) (tx_initial_retransmission_timeout t)
              (tx_stream t) (tx_next_seqno t) (tx_next_ackno t) (tx_tracking_segments t)
              (tx_tracked_count t) 0
              (if negb (tx_window_size t =? 0)
               then tx_retransmission_timeout t +! tx_retransmission_timeout t
               else tx_retransmission_timeout t)
              (tx_window_size t) (tx_remain_window_size t)
              (u16 (tx_consecutive_time_out_count t + 1)))
    end
  else
    Ok (mkTCPSender (tx_isn t) (tx_segments_out t) (tx_initial_retransmission_timeout t) (tx_stream t)
          (tx_next_seqno t) (tx_next_ackno t) (tx_tracking_segments t) (tx_tracked_count t) timer
          (tx_retransmission_timeout t) (tx_window_size t) (tx_remain_window_size t)
          (tx_consecutive_time_out_count t)).

Definition send_empty_segment (t : TCPSender) : TCPSender :=
  let header := set_ackno (next_seqno t) (set_seqno (next_seqno t) default_TCPHeader) in
  tx_with_out t (tx_segments_out t ++ [with_header (fun _ => header) new_TCPSegment]).

(** ** What the sender sends *)

(** The length in sequence space, without the reduction to [size_t]. *)
Definition seg_len (s : TCPSegment) : Z :=
  zlen (buf_str (payload s)) + (if th_syn (header s) then 1 else 0) + (if th_fin (header s) then 1 else 0).

Lemma seg_len_eq s : zlen (buf_str (payload s)) < W32 -> length_in_sequence_space s = seg_len s.
Proof.
  intros H. unfold length_in_sequence_space, seg_len. zpos.
  destruct (th_syn _), (th_fin _); nowrap; lia.
Qed.

(** [s] carries a piece of the stream [S] that starts at the absolute sequence
    number [a]; [ended] says whether more can be written to the stream. *)
Definition sent_seg (S : bytes) (isn : WrappingInt32) (ended : bool) (s : TCPSegment) (a : Z) : Prop :=
  from_peer S isn s a /\ (th_fin (header s) = true -> ended = true) /\
  zlen (buf_str (payload s)) <= MAX_PAYLOAD_SIZE.

Lemma sent_seg_len S isn e s a : sent_seg S isn e s a -> length_in_sequence_space s = seg_len s.
Proof. intros (_ & _ & H). apply seg_len_eq. unfold MAX_PAYLOAD_SIZE in H. lia. Qed.

Lemma sent_seg_ended S isn e s a : sent_seg S isn e s a -> sent_seg S isn true s a.
Proof. intros (H1 & H2 & H3). by split_and!. Qed.

(** Writing more to the stream does not disturb the pieces already sent. *)
Lemma sent_seg_write S d isn s a : sent_seg S isn false s a -> sent_seg (S ++ d) isn false s a.
Proof.
  intros ((Hs & Ha & Hi & Hd & Hl & Hf) & H2 & H3).
  assert (Hnf : th_fin (header s) = false) by (destruct (th_fin _); [by discriminate H2|done]).
  split; [|done]. split; [done|]. split; [done|]. rewrite Hnf in *.
  set (i := if th_syn (header s) then 0 else a - 1) in *. split; [done|]. zpos.
  destruct (buf_str (payload s)) as [|b p] eqn:Ep.
  { split; [done|]. split; [|done]. by intros [|]. }
  specialize (Hl ltac:(by left)). split; [|split; [|done]].
  - rewrite Hd at 1. rewrite zdrop_app_le by (rewrite zlen_cons in *; zpos; lia).
    rewrite ztake_app_le; [done|]. rewrite zlen_zdrop by lia. lia.
  - intros _. rewrite zlen_app. zpos. lia.
Qed.

(** The tracked segments, newest first, follow each other from [lo] to [hi]
    without a gap; each remembers where it ends. *)
Fixpoint chain (S : bytes) (isn : WrappingInt32) (e : bool) (lo hi : Z) (l : list TCPSegment) : Prop :=
  match l with
  | [] => lo = hi
  | s :: l =>
      sent_seg S isn e s (hi - seg_len s) /\ th_ackno (header s) = wrap hi isn /\
      1 <= seg_len s /\ chain S isn e lo (hi - seg_len s) l
  end.

Lemma chain_le S isn e l : forall lo hi, chain S isn e lo hi l -> lo <= hi.
Proof.
  induction l as [|s l IH]; intros lo hi; cbn [chain]; [lia|].
  intros (_ & _ & H1 & H2). apply IH in H2. lia.
Qed.

Lemma chain_empty S isn e lo hi l : chain S isn e lo hi l -> lo = hi <-> l = [].
Proof.
  destruct l as [|s l]; cbn [chain]; [done|]. intros (_ & _ & H1 & H2). apply chain_le in H2.
  split; [lia|done].
Qed.

Lemma chain_weaken (S S' : bytes) isn e e' lo hi l :
  (forall s a, sent_seg S isn e s a -> sent_seg S' isn e' s a) ->
  chain S isn e lo hi l -> chain S' isn e' lo hi l.
Proof.
  intros H. revert hi. induction l as [|s l IH]; intros hi; cbn [chain]; [done|].
  intros (H1 & H2 & H3 & H4). split_and!; auto.
Qed.

(** The oldest tracked segment starts at the first unacknowledged number. *)
Lemma chain_last S isn e l : forall lo hi,
  chain S isn e lo hi l -> l <> [] ->
  exists s, last l = Some s /\ sent_seg S isn e s lo /\ lo + seg_len s <= hi.
Proof.
  induction l as [|s l IH]; intros lo hi; cbn [chain]; [done|].
  intros (H1 & H2 & H3 & H4) _. destruct l as [|s' l].
  - exists s. cbn [chain] in H4. subst lo. split; [done|]. split; [done|lia].
  - destruct (IH lo _ H4) as (o & E & H5 & H6); [done|]. exists o. split; [exact E|]. split; [done|lia].
Qed.

(** Scanning for an acknowledgement number. *)
Lemma ack_scan_spec S isn e ackno l : forall lo hi acc,
  chain S isn e lo hi l -> 0 <= acc -> acc + (hi - lo) < W64 ->
  match ack_scan ackno l acc with
  | (remain, Some kept) => exists x, ackno = wrap x isn /\ lo < x <= hi /\
      remain = acc + (hi - x) /\ chain S isn e x hi kept
  | (remain, None) => remain = acc + (hi - lo)
  end.
Proof.
  induction l as [|s l IH]; intros lo hi acc; cbn [chain ack_scan]; [lia|].
  intros (H1 & H2 & H3 & H4) Hacc Hb. pose proof (chain_le _ _ _ _ _ _ H4) as Hle.
  destruct (w32_eqb (th_ackno (header s)) ackno) eqn:E.
  { apply w32_eqb_eq in E. exists hi. split; [congruence|]. split; [lia|]. by split; [lia|]. }
  rewrite (sent_seg_len _ _ _ _ _ H1), u64_id by lia.
  specialize (IH lo (hi - seg_len s) (acc + seg_len s) H4 ltac:(lia) ltac:(lia)).
  destruct (ack_scan ackno l (acc + seg_len s)) as [remain [kept|]]; simpl; [|lia].
  destruct IH as (x & Hx & Hr & Hrem & Hch). exists x. split; [done|]. split; [lia|].
  split; [lia|]. by split_and!.
Qed.

(** The scan finds every number at which a tracked segment ends. *)
Lemma ack_scan_none S isn e ackno l : forall lo hi acc,
  chain S isn e lo hi l -> (ack_scan ackno l acc).2 = None ->
  Forall (fun s => th_ackno (header s) <> ackno) l.
Proof.
  induction l as [|s l IH]; intros lo hi acc; cbn [chain ack_scan]; [constructor|].
  intros (H1 & H2 & H3 & H4). destruct (w32_eqb (th_ackno (header s)) ackno) eqn:E; [done|].
  destruct (ack_scan ackno l _) as [remain kept] eqn:Es. simpl. intros Hn.
  constructor; [|eapply (IH lo _ _ H4); rewrite Es; by destruct kept].
  intros Heq. apply w32_eqb_eq in Heq. congruence.
Qed.

(** ** The invariant *)

(** The bytes of the stream that were read from it, and so sent. *)
Definition sent (t : TCPSender) (S : bytes) : Z := zlen S - buffer_size (tx_stream t).

(** [S] is everything that was ever written to the stream. *)
Record stream_of (b : ByteStream) (S : bytes) : Prop := {
  so_ok : bs_ok b;
  so_written : bs_written_length b = zlen S;
  so_le : buffer_size b <= zlen S;
  so_buffer : bs_buffer b = zdrop (zlen S - buffer_size b) S }.

(** How far [next_seqno] is: nothing was sent, or the SYN and the bytes, or
    the FIN as well. *)
Definition progress (t : TCPSender) (S : bytes) : Prop :=
  (tx_next_seqno t = 0 /\ sent t S = 0) \/ tx_next_seqno t = 1 + sent t S \/
  (tx_next_seqno t = 2 + sent t S /\ eof (tx_stream t) = true).

Record tx_inv (t : TCPSender) (S : bytes) : Prop := {
  ti_isn : w32_ok (tx_isn t);
  ti_stream : stream_of (tx_stream t) S;
  ti_room : zlen S + 4 * W32 < W64;
  ti_window : 0 <= tx_window_size t < W16;
  ti_remain : 0 <= tx_remain_window_size t < W16;
  ti_progress : progress t S;
  ti_acked : 0 <= tx_next_ackno t;
  ti_chain : chain S (tx_isn t) (input_ended (tx_stream t)) (tx_next_ackno t) (tx_next_seqno t)
               (tx_tracking_segments t);
  ti_syn : tx_next_ackno t = 0 -> tx_next_seqno t <= 1;
  ti_count : tx_tracked_count t = tx_next_seqno t - tx_next_ackno t;
  ti_flight : tx_next_seqno t - tx_next_ackno t <= W16;
  ti_out : Forall (fun s => (exists a, sent_seg S (tx_isn t) (input_ended (tx_stream t)) s a /\
             a + seg_len s <= tx_next_seqno t)) (tx_segments_out t) }.

Lemma new_TCPSender_inv c rto isn :
  0 <= c < W64 -> w32_ok isn -> tx_inv (new_TCPSender c rto isn) [].
Proof.
  intros Hc Hi. constructor; try done.
  - constructor; try done. by apply new_ByteStream_ok.
  - by left.
Qed.

Lemma tx_next_bound t S : tx_inv t S -> 0 <= tx_next_ackno t <= tx_next_seqno t /\ tx_next_seqno t <= zlen S + 2.
Proof.
  intros []. pose proof (chain_le _ _ _ _ _ _ ti_chain0). pose proof (so_le _ _ ti_stream0).
  pose proof (buffer_size_nonneg (tx_stream t)). zpos.
  destruct ti_progress0 as [[]|[|[]]]; unfold sent in *; lia.
Qed.

Lemma stream_of_written t S : tx_inv t S -> bytes_written (tx_stream t) = zlen S.
Proof. intros []. apply ti_stream0. Qed.

(** ** Filling the window *)

Lemma current_state_eof t S :
  tx_inv t S -> current_state t = SynAckedEof ->
  eof (tx_stream t) = true /\ tx_next_seqno t = 1 + zlen S /\ sent t S = zlen S.
Proof.
  intros Ht. pose proof (tx_next_bound t S Ht) as Hb. pose proof Ht as [? ? Hroom ? ? Hp ? ? ? ? ? ?].
  unfold current_state, next_seqno_absolute. rewrite (stream_of_written t S Ht).
  rewrite (u64_id (zlen S + 2)) by (zpos; lia).
  destruct (eof (tx_stream t)) eqn:Ee; cbn [andb negb]; repeat case_match; try done; intros _; zb.
  apply andb_true_iff in Ee as [_ Ee]. apply buffer_empty_true in Ee. unfold progress, sent in *.
  split; [done|]. lia.
Qed.

(** What the guard of the loop means. *)
Lemma fill_guard_spec t S :
  tx_inv t S -> fill_guard t = true -> 1 <= tx_next_ackno t ->
  tx_next_seqno t < tx_next_ackno t + tx_remain_window_size t /\ tx_next_seqno t = 1 + sent t S /\
  (0 < buffer_size (tx_stream t) \/ eof (tx_stream t) = true).
Proof.
  intros Ht Hg Ha. pose proof (tx_next_bound t S Ht) as Hb.
  pose proof Ht as [? ? Hroom ? Hrem Hp ? ? ? ? ? ?]. unfold fill_guard, next_seqno_absolute in Hg.
  apply andb_true_iff in Hg as [Hg1 Hg2]. rewrite u64_id in Hg1 by lia. zb. split; [done|].
  apply orb_true_iff in Hg2 as [Hg2|Hg2].
  - apply negb_true_iff, buffer_empty_false in Hg2. split; [|by left].
    destruct Hp as [[]|[|[_ He]]]; [lia|done|]. unfold eof in He.
    apply andb_true_iff in He as [_ He]. apply buffer_empty_true in He. lia.
  - apply bool_decide_eq_true in Hg2. destruct (current_state_eof t S Ht Hg2) as (He & Hn & Hs).
    split; [lia|by right].
Qed.

Lemma fill_read_size_spec t S :
  tx_inv t S -> tx_next_seqno t < tx_next_ackno t + tx_remain_window_size t ->
  fill_read_size t = Z.min (Z.min (buffer_size (tx_stream t))
    (tx_next_ackno t + tx_remain_window_size t - tx_next_seqno t)) MAX_PAYLOAD_SIZE.
Proof.
  intros Ht Hw. pose proof (tx_next_bound t S Ht) as Hb. pose proof Ht as [? ? Hroom ? Hrem Hp ? ? ? ? ? ?].
  unfold fill_read_size, next_seqno_absolute, MAX_PAYLOAD_SIZE.
  pose proof (buffer_size_nonneg (tx_stream t)).
  rewrite (u64_id (tx_next_ackno t + _)) by lia.
  rewrite (u64_id (tx_next_ackno t + _ - _)) by lia. zcase; rewrite u16_id; lia.
Qed.

Lemma stream_of_read b S n :
  stream_of b S -> 0 <= n <= buffer_size b ->
  exists b', read b n = (b', ztake n (zdrop (zlen S - buffer_size b) S)) /\ stream_of b' S /\
    buffer_size b' = buffer_size b - n /\ input_ended b' = input_ended b.
Proof.
  intros [H1 H2 H3 H4] Hn. unfold read, pop_output, peek_output. rewrite H4.
  destruct (Z.ltb_spec (buffer_size b) n); [lia|]. eexists. split; [done|].
  set (b' := mkByteStream _ _ _ _ _).
  assert (Hs : buffer_size b' = buffer_size b - n).
  { unfold buffer_size at 1. cbn. zpos. rewrite zdrop_zdrop, zlen_zdrop; lia. }
  split; [|by split]. constructor; rewrite ?Hs.
  - destruct H1 as (? & ? & ?). unfold bs_ok. rewrite Hs. split; [done|]. split; [cbn; lia|done].
  - done.
  - lia.
  - cbn. rewrite zdrop_zdrop by lia. f_equal. lia.
Qed.

(** The read of one iteration: the payload is the next part of the stream. *)
Lemma fill_read_spec t S n :
  stream_of (tx_stream t) S -> 0 <= n <= buffer_size (tx_stream t) ->
  exists b pay, stream_of b S /\ input_ended b = input_ended (tx_stream t) /\
    buffer_size b = buffer_size (tx_stream t) - n /\
    buf_str pay = ztake n (zdrop (zlen S - buffer_size (tx_stream t)) S) /\
    (if negb (n =? 0) then let '(stream, data) := read (tx_stream t) n in
       (stream, mkTCPSegment (header new_TCPSegment) (Buffer_of data)) else (tx_stream t, new_TCPSegment))
    = (b, mkTCPSegment default_TCPHeader pay).
Proof.
  intros Hso Hn. destruct (Z.eqb_spec n 0) as [E0|E0]; cbn [negb].
  - exists (tx_stream t), empty_Buffer. rewrite E0. split_and!; try done. lia.
  - destruct (stream_of_read _ _ n Hso Hn) as (b & -> & H1 & H2 & H3).
    exists b, (Buffer_of (ztake n (zdrop (zlen S - buffer_size (tx_stream t)) S))).
    split_and!; try done.
Qed.

(** A stream at its end stays there when nothing is read. *)
Lemma eof_after_read b b' :
  input_ended b' = input_ended b -> buffer_size b' = buffer_size b -> eof b = true -> eof b' = true.
Proof.
  intros H1 H2 Ee. unfold eof in *. apply andb_true_iff in Ee as [E1 E2].
  rewrite H1, E1. cbn [andb]. apply buffer_empty_true. apply buffer_empty_true in E2. lia.
Qed.

(** One iteration: the segment starts at [next_seqno], is not empty, and only
    its FIN can lie outside the window. *)
Lemma fill_segment_spec t S :
  tx_inv t S -> fill_guard t = true -> 1 <= tx_next_ackno t ->
  exists s b, fill_segment t = (s, b) /\ stream_of b S /\
    input_ended b = input_ended (tx_stream t) /\
    sent_seg S (tx_isn t) (input_ended b) s (tx_next_seqno t) /\ 1 <= seg_len s /\
    th_ackno (header s) = wrap (tx_next_seqno t + seg_len s) (tx_isn t) /\
    th_syn (header s) = false /\
    zlen (buf_str (payload s)) = buffer_size (tx_stream t) - buffer_size b /\
    (th_fin (header s) = true -> eof b = true /\ zlen (buf_str (payload s)) < tx_remain_window_size t) /\
    tx_next_seqno t + zlen (buf_str (payload s)) <= tx_next_ackno t + tx_remain_window_size t.
Proof.
  intros Ht Hg Ha. destruct (fill_guard_spec t S Ht Hg Ha) as (Hw & Hn & Hor).
  pose proof (fill_read_size_spec t S Ht Hw) as Hrs. pose proof (tx_next_bound t S Ht) as Hb.
  pose proof Ht as [Hisn Hso Hroom ? Hrem Hp ? ? ? ? ? ?]. zpos.
  pose proof (buffer_size_nonneg (tx_stream t)) as Hb0. unfold MAX_PAYLOAD_SIZE in Hrs.
  pose proof (so_le _ _ Hso) as Hle. unfold sent in Hn.
  set (n := fill_read_size t) in *. assert (Hn0 : 0 <= n <= buffer_size (tx_stream t)) by lia.
  destruct (fill_read_spec t S n Hso Hn0) as (b & pay & Hsb & Heb & Hbb & Hpay & E).
  replace (zlen S - buffer_size (tx_stream t)) with (tx_next_seqno t - 1) in Hpay by lia.
  assert (Hpl : zlen (buf_str pay) = n) by (rewrite Hpay, zlen_ztake, zlen_zdrop; lia).
  unfold fill_segment. fold n. rewrite E. set (fin := (n <? tx_remain_window_size t) && eof b).
  set (h0 := set_seqno (next_seqno t) default_TCPHeader).
  set (h1 := if fin then set_ack true (set_fin true h0) else h0).
  assert (Es : (if fin then with_header (set_ack true) (with_header (set_fin true)
      (with_header (set_seqno (next_seqno t)) (mkTCPSegment default_TCPHeader pay)))
    else with_header (set_seqno (next_seqno t)) (mkTCPSegment default_TCPHeader pay)) = mkTCPSegment h1 pay)
    by (unfold h1; by destruct fin).
  rewrite Es. assert (Hq : th_seqno h1 = next_seqno t /\ th_syn h1 = false /\ th_fin h1 = fin)
    by (unfold h1; by destruct fin).
  destruct Hq as (Hq1 & Hq2 & Hq3).
  assert (Hlen : length_in_sequence_space (mkTCPSegment h1 pay) = n + (if fin then 1 else 0)).
  { rewrite seg_len_eq; unfold seg_len; simpl; rewrite ?Hpl, ?Hq2, ?Hq3; lia. }
  set (s1 := with_header (set_ackno (w32_add (th_seqno h1) (n + (if fin then 1 else 0))))
    (mkTCPSegment h1 pay)).
  assert (Hsl : seg_len s1 = n + (if fin then 1 else 0))
    by (unfold seg_len; cbn; rewrite Hq2, Hq3, Hpl; lia).
  exists s1, b. rewrite Hlen, Hsl. split; [done|].
  assert (Hfin : fin = true -> eof b = true) by (intros Hf; by apply andb_true_iff in Hf as [_ ?]).
  assert (Hall : fin = true -> input_ended b = true /\ buffer_size b = 0).
  { intros Hf. apply Hfin, andb_true_iff in Hf as [? Hf]. split; [done|by apply buffer_empty_true]. }
  split_and!; try done; try lia.
  - split; [|split].
    + split; [exact Hq1|]. cbn. rewrite Hq2, Hq3, Hpl. split; [lia|]. split; [lia|]. split; [done|].
      split; [intros _; lia|]. intros Hf. destruct (Hall Hf). lia.
    + intros Hf. apply Hall. rewrite <- Hq3. exact Hf.
    + cbn. rewrite Hpl. unfold MAX_PAYLOAD_SIZE. lia.
  - destruct (Z.eq_dec n 0) as [E0|E0]; [|destruct fin; lia].
    assert (Ee : eof (tx_stream t) = true) by (destruct Hor as [|]; [lia|done]).
    assert (fin = true) as ->; [|lia]. unfold fin.
    rewrite (eof_after_read _ b Heb ltac:(lia) Ee), andb_true_r. apply Z.ltb_lt. lia.
  - cbn. rewrite Hq1. apply w32_add_wrap.
  - cbn. rewrite Hpl. lia.
  - intros Hf. cbn in Hf. rewrite Hq3 in Hf. split; [by apply Hfin|].
    apply andb_true_iff in Hf as [Hf _]. cbn. rewrite Hpl. by apply Z.ltb_lt.
  - cbn. rewrite Hpl. lia.
Qed.

Lemma fill_step_inv t S :
  tx_inv t S -> fill_guard t = true -> 1 <= tx_next_ackno t ->
  let t' := fill_step t in
  tx_inv t' S /\ tx_isn t' = tx_isn t /\ input_ended (tx_stream t') = input_ended (tx_stream t) /\
  tx_next_ackno t' = tx_next_ackno t /\ tx_next_seqno t < tx_next_seqno t' /\
  tx_remain_window_size t' <= tx_remain_window_size t /\
  tx_next_seqno t' <= tx_next_ackno t + tx_remain_window_size t + 1 /\
  exists s, tx_segments_out t' = tx_segments_out t ++ [s] /\
    tx_next_seqno t + zlen (buf_str (payload s)) <= tx_next_ackno t + tx_remain_window_size t.
Proof.
  intros Ht Hg Ha. destruct (fill_segment_spec t S Ht Hg Ha)
    as (s & b & E & Hso & Hend & Hsent & Hlen & Hack & Hsyn & Hpay & Hfin & Hwin).
  destruct (fill_guard_spec t S Ht Hg Ha) as (Hw & Hn & _).
  pose proof (tx_next_bound t S Ht) as Hb.
  pose proof Ht as [Hisn Hso0 Hroom Hwd Hrem Hp Hack0 Hch Hsynq Hcnt Hfl Hout].
  assert (Hsl : seg_len s = zlen (buf_str (payload s)) + (if th_fin (header s) then 1 else 0))
    by (unfold seg_len; rewrite Hsyn; lia).
  pose proof Hsent as (_ & _ & Hmax). unfold MAX_PAYLOAD_SIZE in Hmax. zpos.
  pose proof (so_le _ _ Hso). pose proof (so_le _ _ Hso0). unfold sent in Hn.
  assert (Hns : tx_next_seqno t + seg_len s < W64) by (destruct (th_fin _); lia).
  cbn zeta. unfold fill_step. rewrite E, (sent_seg_len _ _ _ _ _ Hsent).
  cbn [tx_isn tx_next_ackno tx_next_seqno tx_remain_window_size tx_segments_out].
  rewrite !u64_id by lia. split_and!; try done; try lia.
  - constructor; cbn [tx_isn tx_stream tx_window_size tx_remain_window_size tx_next_ackno
      tx_next_seqno tx_tracking_segments tx_tracked_count tx_segments_out]; try done; try lia.
    + destruct (negb _); lia.
    + right. unfold sent. cbn [tx_next_seqno tx_stream]. destruct (th_fin (header s)) eqn:Ef.
      * right. split; [lia|by apply Hfin].
      * left. lia.
    + cbn [chain]. replace (tx_next_seqno t + seg_len s - seg_len s) with (tx_next_seqno t) by lia.
      split_and!; try done. by rewrite Hend.
    + destruct (th_fin _); lia.
    + rewrite Hend. apply Forall_app. split.
      * eapply Forall_impl; [exact Hout|]. intros x (a & Hx1 & Hx2). exists a. split; [done|lia].
      * constructor; [|constructor]. exists (tx_next_seqno t). rewrite Hend in Hsent. split; [done|lia].
  - destruct (negb _); lia.
  - destruct (th_fin _); lia.
  - by exists s.
Qed.

(** The loop ends: after [fill_fuel] iterations its condition is false. *)
Lemma fill_loop_spec fuel : forall t S,
  tx_inv t S -> 1 <= tx_next_ackno t -> (fill_fuel t <= fuel)%nat ->
  let t' := fill_loop fuel t in
  tx_inv t' S /\ tx_isn t' = tx_isn t /\ input_ended (tx_stream t') = input_ended (tx_stream t) /\
  tx_next_ackno t' = tx_next_ackno t /\ tx_next_seqno t <= tx_next_seqno t' /\ fill_guard t' = false /\
  (tx_next_seqno t' <= Z.max (tx_next_seqno t) (tx_next_ackno t + tx_remain_window_size t + 1)) /\
  exists out, tx_segments_out t' = tx_segments_out t ++ out.
Proof.
  induction fuel as [|fuel IH]; intros t S Ht Ha Hf; cbn [fill_loop].
  - assert (Hg : fill_guard t = false).
    { destruct (fill_guard t) eqn:Hg; [|done]. unfold fill_fuel in Hf.
      destruct (fill_guard_spec t S Ht Hg Ha) as (Hw & _). lia. }
    split_and!; try done; try lia. exists []. by rewrite app_nil_r.
  - destruct (fill_guard t) eqn:Hg.
    2:{ split_and!; try done; try lia. exists []. by rewrite app_nil_r. }
    destruct (fill_step_inv t S Ht Hg Ha) as (H1 & H2 & He & H3 & H4 & H5 & H6 & s & H7 & H8).
    destruct (IH (fill_step t) S H1) as (I1 & I2 & Ie & I3 & I4 & I5 & I6 & out & I7).
    + lia.
    + destruct (fill_guard_spec t S Ht Hg Ha) as (Hw & _). unfold fill_fuel in *. lia.
    + split_and!; try done; try congruence; try lia. exists (s :: out).
      rewrite I7, H7, <- app_assoc. done.
Qed.

Lemma fill_syn_inv t S :
  tx_inv t S -> tx_next_seqno t = 0 -> tx_inv (fill_syn t) S /\ tx_next_seqno (fill_syn t) = 1.
Proof.
  intros Ht Hn. pose proof (tx_next_bound t S Ht) as Hb.
  pose proof Ht as [Hisn Hso0 Hroom Hwd Hrem Hp Hack0 Hch Hsynq Hcnt Hfl Hout].
  assert (Ha : tx_next_ackno t = 0) by lia. assert (Hsent : sent t S = 0)
    by (unfold progress in Hp; pose proof (so_le _ _ Hso0); unfold sent in *; lia).
  assert (Hl : tx_tracking_segments t = []) by (apply (chain_empty _ _ _ _ _ _ Hch); lia).
  unfold fill_syn. rewrite Hn, Hl, Hcnt, Hn, Ha. cbn [Z.sub Z.opp Z.add].
  change (0 +! 1) with 1. split; [|done].
  assert (Hs : forall e, sent_seg S (tx_isn t) e (with_header (fun _ => set_ackno (wrap 1 (tx_isn t))
      (set_syn true (set_seqno (tx_isn t) default_TCPHeader))) new_TCPSegment) 0).
  { intros e. split; [|done]. split; [cbn; by rewrite wrap_0|]. split; [done|]. cbn.
    split; [lia|]. split; [done|]. split; [|done]. by intros [|]. }
  constructor; cbn [tx_isn tx_stream tx_window_size tx_remain_window_size tx_next_ackno
      tx_next_seqno tx_tracking_segments tx_tracked_count tx_segments_out]; try done; try lia.
  - right. left. unfold sent in *. cbn. lia.
  - apply Forall_app. split; [|constructor; [|constructor]].
    + eapply Forall_impl; [exact Hout|]. intros x (a & Hx1 & Hx2). exists a. split; [done|lia].
    + exists 0. split; [apply Hs|done].
Qed.

Lemma current_state_closed t S :
  tx_inv t S -> current_state t = Closed <-> tx_next_seqno t = 0.
Proof.
  intros Ht. pose proof (tx_next_bound t S Ht) as Hb.
  pose proof Ht as [Hisn Hso0 Hroom Hwd Hrem Hp Hack0 Hch Hsynq Hcnt Hfl Hout].
  unfold current_state, next_seqno_absolute, tx_bytes_in_flight. rewrite (stream_of_written t S Ht), Hcnt.
  rewrite u64_id by (zpos; lia).
  destruct (Z.eqb_spec (tx_next_seqno t) 0) as [|Hz]; [done|]. split; [|done].
  destruct (eof (tx_stream t)) eqn:Ee; cbn [andb negb].
  - repeat case_match; try done. zb. lia.
  - destruct (Z.ltb_spec (tx_next_seqno t - tx_next_ackno t) (tx_next_seqno t));
      repeat case_match; try done. zb. lia.
Qed.

Lemma current_state_synsent t S :
  tx_inv t S -> current_state t = SynSent <-> tx_next_seqno t <> 0 /\ tx_next_ackno t = 0.
Proof.
  intros Ht. pose proof (tx_next_bound t S Ht) as Hb. pose proof (ti_count _ _ Ht) as Hcnt.
  unfold current_state, next_seqno_absolute, tx_bytes_in_flight. rewrite Hcnt.
  destruct (Z.eqb_spec (tx_next_seqno t) 0); [split; [done|lia]|].
  destruct (Z.ltb_spec 0 (tx_next_seqno t)); [|lia]. cbn [andb].
  destruct (Z.eqb_spec (tx_next_seqno t) (tx_next_seqno t - tx_next_ackno t)).
  - split; [lia|done].
  - split; [|lia]. repeat case_match; done.
Qed.

Lemma fill_window_inv t S :
  tx_inv t S -> tx_inv (fill_window t) S /\ tx_isn (fill_window t) = tx_isn t /\
    input_ended (tx_stream (fill_window t)) = input_ended (tx_stream t) /\
    exists out, tx_segments_out (fill_window t) = tx_segments_out t ++ out.
Proof.
  intros Ht. pose proof (tx_next_bound t S Ht) as Hb. unfold fill_window.
  destruct (current_state t) eqn:Es.
  { apply (current_state_closed t S Ht) in Es. split; [by apply fill_syn_inv|]. split; [done|]. split; [done|].
    by eexists [_]. }
  { do 3 (split; [done|]). exists []. by rewrite app_nil_r. }
  all: assert (Ha : 1 <= tx_next_ackno t) by (
    destruct (Z.eq_dec (tx_next_ackno t) 0) as [E0|]; [|lia];
    destruct (Z.eq_dec (tx_next_seqno t) 0) as [E1|E1];
    [apply (current_state_closed t S Ht) in E1; congruence
    |assert (Hx : current_state t = SynSent) by (by apply (current_state_synsent t S Ht)); congruence]);
    destruct (fill_loop_spec (fill_fuel t) t S Ht Ha) as (H1 & H2 & H3 & _ & _ & _ & _ & H4); auto 10.
Qed.

(** ** Acknowledgements *)

(** What [ack_received] does: it looks for the tracked segment that ends at the
    acknowledgement number; if there is one, everything up to it is
    acknowledged and the timer restarts with the initial timeout; if there is
    none, nothing is acknowledged. *)
Lemma ack_received_spec t S ackno win :
  tx_inv t S -> w32_ok ackno -> 0 <= win < W16 ->
  let t' := ack_received t ackno win in
  tx_inv t' S /\ tx_isn t' = tx_isn t /\ tx_next_seqno t' = tx_next_seqno t /\
  tx_stream t' = tx_stream t /\ tx_segments_out t' = tx_segments_out t /\
  ((exists x, ackno = wrap x (tx_isn t) /\ tx_next_ackno t < x <= tx_next_seqno t /\
      tx_next_ackno t' = x /\ tx_timer t' = 0 /\ tx_consecutive_time_out_count t' = 0 /\
      tx_retransmission_timeout t' = tx_initial_retransmission_timeout t /\
      tx_window_size t' = win /\ tx_remain_window_size t' = (if (win =? 0) && (x =? tx_next_seqno t) then 1 else win)) \/
   (Forall (fun s => th_ackno (header s) <> ackno) (tx_tracking_segments t) /\
      tx_next_ackno t' = tx_next_ackno t /\ tx_tracking_segments t' = tx_tracking_segments t /\
      tx_timer t' = tx_timer t /\ tx_retransmission_timeout t' = tx_retransmission_timeout t)).
Proof.
  intros Ht Hok Hw. pose proof (tx_next_bound t S Ht) as Hb.
  pose proof Ht as [Hisn Hso0 Hroom Hwd Hrem Hp Hack0 Hch Hsynq Hcnt Hfl Hout].
  pose proof (ack_scan_spec _ _ _ ackno _ _ _ 0 Hch ltac:(lia) ltac:(lia)) as Hscan.
  pose proof (ack_scan_none _ _ _ ackno _ _ _ 0 Hch) as Hnone.
  cbn zeta. unfold ack_received. destruct (ack_scan ackno (tx_tracking_segments t) 0) as [remain [kept|]].
  - destruct Hscan as (x & Hx & Hr & Hrem' & Hch').
    assert (Hu : unwrap ackno (tx_isn t) (tx_next_ackno t) = x)
      by (rewrite Hx; apply unwrap_near; done || lia).
    rewrite Hu. destruct (Z.leb_spec (tx_next_ackno t) x); [|lia].
    destruct (Z.leb_spec x (tx_next_seqno t)); [|lia]. destruct (Z.ltb_spec (tx_next_ackno t) x); [|lia].
    cbn [andb tx_tracked_count tx_tracking_segments].
    destruct (Z.eqb_spec (tx_tracked_count t) remain); [lia|].
    cbn [andb tx_isn tx_next_seqno tx_stream tx_segments_out tx_next_ackno tx_timer tx_window_size
      tx_consecutive_time_out_count tx_retransmission_timeout tx_remain_window_size].
    assert (Hz : (remain =? 0) = (x =? tx_next_seqno t))
      by (destruct (Z.eqb_spec remain 0), (Z.eqb_spec x (tx_next_seqno t)); done || lia).
    split_and!; try done.
    + constructor; cbn; try done; try lia. case_match; lia.
    + left. exists x. rewrite Hz. by split_and!.
  - set (window := if _ && _ then win else tx_window_size t).
    assert (Hwin : 0 <= window < W16) by (unfold window; destruct (_ && _); done).
    cbn [tx_isn tx_next_seqno tx_stream tx_segments_out tx_next_ackno tx_timer tx_window_size
      tx_consecutive_time_out_count tx_retransmission_timeout tx_remain_window_size
      tx_tracking_segments tx_tracked_count tx_initial_retransmission_timeout].
    set (early := (tx_tracked_count t =? remain) && _). destruct early.
    + split; [by constructor|]. do 4 (split; [done|]). right. split; [by apply Hnone|done].
    + split; [constructor; cbn; try done; try lia; repeat case_match; lia|].
      do 4 (split; [done|]). right. split; [by apply Hnone|done].
Qed.

(** ** Time *)

Lemma tx_tick_spec t S ms :
  tx_inv t S -> 0 <= ms ->
  exists t', tx_tick t ms = Ok t' /\ tx_inv t' S /\ tx_isn t' = tx_isn t /\
    tx_stream t' = tx_stream t /\ tx_next_seqno t' = tx_next_seqno t /\
    tx_next_ackno t' = tx_next_ackno t /\
    let timer := if tx_next_ackno t =? tx_next_seqno t then tx_timer t else tx_timer t +! ms in
    if (tx_retransmission_timeout t <=? timer) && negb (tx_next_ackno t =? tx_next_seqno t) then
      (exists s, last (tx_tracking_segments t) = Some s /\
        sent_seg S (tx_isn t) (input_ended (tx_stream t)) s (tx_next_ackno t) /\
        tx_segments_out t' = tx_segments_out t ++ [s]) /\
      tx_timer t' = 0 /\
      tx_consecutive_time_out_count t' = u16 (tx_consecutive_time_out_count t + 1) /\
      tx_retransmission_timeout t' = (if tx_window_size t =? 0 then tx_retransmission_timeout t
                                      else tx_retransmission_timeout t +! tx_retransmission_timeout t)
    else tx_segments_out t' = tx_segments_out t /\ tx_timer t' = timer /\
      tx_consecutive_time_out_count t' = tx_consecutive_time_out_count t /\
      tx_retransmission_timeout t' = tx_retransmission_timeout t.
Proof.
  intros Ht Hms. pose proof (tx_next_bound t S Ht) as Hb.
  pose proof Ht as [Hisn Hso0 Hroom Hwd Hrem Hp Hack0 Hch Hsynq Hcnt Hfl Hout].
  unfold tx_tick, tx_bytes_in_flight.
  assert (Hz : (tx_tracked_count t =? 0) = (tx_next_ackno t =? tx_next_seqno t)).
  { rewrite Hcnt. destruct (Z.eqb_spec (tx_next_seqno t - tx_next_ackno t) 0),
      (Z.eqb_spec (tx_next_ackno t) (tx_next_seqno t)); done || lia. }
  rewrite Hz. destruct (Z.eqb_spec (tx_next_ackno t) (tx_next_seqno t)) as [E|E]; cbn [negb].
  - rewrite andb_false_r. eexists. split; [done|]. split; [by constructor|]. done.
  - rewrite andb_true_r. destruct (Z.leb_spec (tx_retransmission_timeout t) (tx_timer t +! ms)).
    + destruct (chain_last _ _ _ _ _ _ Hch) as (s & Hs & Hsent & Hsl).
      { intros E0. apply E. by apply (chain_empty _ _ _ _ _ _ Hch). }
      rewrite Hs. eexists. split; [done|]. split_and!; try done.
      * constructor; cbn; try done. apply Forall_app. split; [done|]. constructor; [|constructor].
        exists (tx_next_ackno t). split; [done|lia].
      * by exists s.
      * cbn. by destruct (tx_window_size t =? 0).
    + eexists. split; [done|]. split; [by constructor|]. done.
Qed.

(** ** The writer's side, and the queue *)

Lemma tx_write_inv t S d :
  tx_inv t S -> input_ended (tx_stream t) = false -> zlen S + zlen d + 4 * W32 < W64 ->
  exists w, tx_inv (tx_with_stream t (write (tx_stream t) d).1) (S ++ w) /\
    w = ztake (zlen w) d /\ zlen w = (write (tx_stream t) d).2.
Proof.
  intros Ht He Hd. pose proof Ht as [Hisn Hso Hroom Hwd Hrem Hp Hack0 Hch Hsynq Hcnt Hfl Hout].
  destruct Hso as [H1 H2 H3 H4]. rewrite write_eq by done. set (w := accepted (tx_stream t) d).
  exists w. pose proof (buffer_size_nonneg (tx_stream t)).
  assert (Hcap : buffer_size (tx_stream t) <= bs_capacity (tx_stream t)) by apply H1.
  assert (Hw : zlen w = Z.min (bs_capacity (tx_stream t) - buffer_size (tx_stream t)) (zlen d))
    by (unfold w, accepted; rewrite zlen_ztake; lia).
  assert (Hwd' : w = ztake (zlen w) d).
  { rewrite Hw. unfold w, accepted. destruct (Z.le_gt_cases (zlen d) (bs_capacity (tx_stream t) - buffer_size (tx_stream t))).
    - rewrite Z.min_r by lia. rewrite !ztake_all; lia || done.
    - by rewrite Z.min_l by lia. }
  split; [|by split]. zpos. cbn [fst].
  set (b := mkByteStream _ _ _ _ _).
  assert (Hbs : buffer_size b = buffer_size (tx_stream t) + zlen w) by (unfold b, buffer_size; cbn; apply zlen_app).
  assert (Hsent : sent (tx_with_stream t b) (S ++ w) = sent t S)
    by (unfold sent; cbn [tx_stream tx_with_stream]; rewrite Hbs, zlen_app; lia).
  constructor; cbn [tx_with_stream tx_isn tx_stream tx_window_size tx_remain_window_size tx_next_ackno
      tx_next_seqno tx_tracking_segments tx_tracked_count tx_segments_out]; try done.
  - constructor.
    + unfold bs_ok in *. rewrite Hbs. cbn. rewrite u64_id by lia. lia.
    + cbn. rewrite H2, u64_id, zlen_app; lia.
    + rewrite Hbs, zlen_app. lia.
    + rewrite Hbs, zlen_app. cbn [bs_buffer b]. rewrite H4 at 1. rewrite zdrop_app_le by lia. do 2 f_equal. lia.
  - rewrite zlen_app. lia.
  - destruct Hp as [[]|[|[E1 E2]]].
    + left. rewrite Hsent. done.
    + right. left. rewrite Hsent. done.
    + unfold eof in E2. rewrite He in E2. done.
  - change (input_ended b) with (input_ended (tx_stream t)). rewrite He in *.
    eapply chain_weaken; [|exact Hch]. intros; by apply sent_seg_write.
  - change (input_ended b) with (input_ended (tx_stream t)). rewrite He in *.
    eapply Forall_impl; [exact Hout|]. intros s (a & Ha1 & Ha2). exists a. split; [by apply sent_seg_write|done].
Qed.

Lemma tx_end_input_inv t S :
  tx_inv t S -> tx_inv (tx_with_stream t (end_input (tx_stream t))) S.
Proof.
  intros [Hisn Hso Hroom Hwd Hrem Hp Hack0 Hch Hsynq Hcnt Hfl Hout].
  constructor; cbn [tx_with_stream tx_isn tx_stream tx_window_size tx_remain_window_size tx_next_ackno
      tx_next_seqno tx_tracking_segments tx_tracked_count tx_segments_out]; try done.
  - by destruct Hso.
  - destruct Hp as [|[|[E1 E2]]]; [by left|by right; left|right; right].
    split; [done|]. unfold eof in *. apply andb_true_iff in E2 as [_ E2]. exact E2.
  - eapply chain_weaken; [|exact Hch]. intros; by eapply sent_seg_ended.
  - eapply Forall_impl; [exact Hout|]. intros s (a & Ha1 & Ha2). exists a.
    split; [by eapply sent_seg_ended|done].
Qed.

Lemma send_empty_segment_inv t S :
  tx_inv t S -> 1 <= tx_next_seqno t -> tx_inv (send_empty_segment t) S.
Proof.
  intros Ht Hn. pose proof (tx_next_bound t S Ht).
  destruct Ht as [Hisn Hso Hroom Hwd Hrem Hp Hack0 Hch Hsynq Hcnt Hfl Hout].
  constructor; try done. cbn. apply Forall_app. split; [done|]. constructor; [|constructor].
  exists (tx_next_seqno t). split; [|unfold seg_len; cbn; zl]. split; [|done]. split; [done|]. cbn.
  split; [done|]. split; [lia|]. split; [done|]. split; [|done]. by intros [|].
Qed.

Lemma tx_queue_inv t S out :
  tx_inv t S -> out ⊆ tx_segments_out t -> tx_inv (tx_with_out t out) S.
Proof.
  intros [Hisn Hso Hroom Hwd Hrem Hp Hack0 Hch Hsynq Hcnt Hfl Hout] Hin. constructor; try done.
  cbn. rewrite Forall_forall in *. auto.
Qed.

(** ** Runs of a sender *)

Inductive tx_op : Type :=
  | TxEnd
  | TxFill
  | TxAck (ackno : WrappingInt32) (window_size : Z)
  | TxTick (ms : Z)
  | TxEmpty
  | TxDequeue (n : nat).

Definition tx_step (t : TCPSender) (o : tx_op) : result TCPSender :=
  match o with
  | TxEnd => Ok (tx_with_stream t (end_input (tx_stream t)))
  | TxFill => Ok (fill_window t)
  | TxAck ackno win => Ok (ack_received t ackno win)
  | TxTick ms => tx_tick t ms
  | TxEmpty => Ok (send_empty_segment t)
  | TxDequeue n => Ok (tx_with_out t (drop n (tx_segments_out t)))
  end.

(** Arguments are of their types; an empty segment is only sent after the SYN. *)
Definition tx_op_ok (t : TCPSender) (o : tx_op) : Prop :=
  match o with
  | TxAck ackno win => w32_ok ackno /\ 0 <= win < W16
  | TxTick ms => 0 <= ms
  | TxEmpty => 1 <= tx_next_seqno t
  | _ => True
  end.

(** The senders that can be reached, with what was written to their stream: any
    acknowledgements at all may arrive.  Nothing is written after the end. *)
Inductive tx_reachable (c rto : Z) (isn : WrappingInt32) : TCPSender -> bytes -> Prop :=
  | tr_new : tx_reachable c rto isn (new_TCPSender c rto isn) []
  | tr_write t S d :
      tx_reachable c rto isn t S -> input_ended (tx_stream t) = false ->
      zlen S + zlen d + 4 * W32 < W64 ->
      tx_reachable c rto isn (tx_with_stream t (write (tx_stream t) d).1)
        (S ++ ztake (write (tx_stream t) d).2 d)
  | tr_step t S o t' :
      tx_reachable c rto isn t S -> tx_op_ok t o -> tx_step t o = Ok t' ->
      tx_reachable c rto isn t' S.

Lemma tx_step_inv t S o :
  tx_inv t S -> tx_op_ok t o ->
  exists t', tx_step t o = Ok t' /\ tx_inv t' S /\ tx_isn t' = tx_isn t /\
    (input_ended (tx_stream t) = true -> input_ended (tx_stream t') = true).
Proof.
  intros Ht Ho. destruct o; cbn [tx_step tx_op_ok] in *.
  - eexists. split; [done|]. split; [by apply tx_end_input_inv|done].
  - eexists. split; [done|]. destruct (fill_window_inv t S Ht) as (? & ? & He & _). by rewrite He.
  - destruct Ho. eexists. split; [done|].
    destruct (ack_received_spec t S ackno window_size Ht) as (? & ? & _ & He & _); [done..|]. by rewrite He.
  - destruct (tx_tick_spec t S ms Ht Ho) as (t' & ? & ? & ? & He & _). exists t'. by rewrite He.
  - eexists. split; [done|]. split; [by apply send_empty_segment_inv|done].
  - eexists. split; [done|]. split; [apply tx_queue_inv; [done|]|done].
    intros s Hs. rewrite <- (take_drop n (tx_segments_out t)). apply elem_of_app. by right.
Qed.

Lemma tx_reachable_inv c rto isn t S :
  0 <= c < W64 -> w32_ok isn -> tx_reachable c rto isn t S -> tx_inv t S /\ tx_isn t = isn.
Proof.
  intros Hc Hi. induction 1 as [|t S d _ [IH1 IH2] He Hd|t S o t' _ [IH1 IH2] Ho E].
  - split; [by apply new_TCPSender_inv|done].
  - destruct (tx_write_inv t S d IH1 He Hd) as (w & H1 & H2 & H3). rewrite <- H3, <- H2. done.
  - destruct (tx_step_inv t S o IH1 Ho) as (t1 & E1 & H1 & H2 & _). rewrite E in E1.
    injection E1 as <-. split; [done|congruence].
Qed.

(** The sum of the lengths of the tracked segments. *)
Definition flight_size (l : list TCPSegment) : Z := fold_right Z.add 0 (map seg_len l).

Lemma chain_flight S isn e l : forall lo hi, chain S isn e lo hi l -> flight_size l = hi - lo.
Proof.
  unfold flight_size. induction l as [|s l IH]; intros lo hi; cbn; [lia|].
  intros (_ & _ & _ & H). apply IH in H. unfold seg_len in *. lia.
Qed.

(** Segments, newest first, that carry consecutive pieces of the stream: the
    newest ends at the absolute sequence number [hi], each other one where the
    one sent after it starts, and the oldest starts at [lo]. *)
Fixpoint consecutive (S : bytes) (isn : WrappingInt32) (lo hi : Z) (l : list TCPSegment) : Prop :=
  match l with
  | [] => lo = hi
  | s :: l => from_peer S isn s (hi - seg_len s) /\ 1 <= seg_len s /\
              consecutive S isn lo (hi - seg_len s) l
  end.

Lemma chain_consecutive S isn e l : forall lo hi,
  chain S isn e lo hi l -> consecutive S isn lo hi l.
Proof. induction l as [|s l IH]; intros lo hi; cbn; [done|]. intros ((H1 & _) & _ & H2 & H3). auto. Qed.

(** The pieces put in front of a chain start where it ends. *)
Lemma chain_front S isn e new l : forall lo mid hi,
  chain S isn e lo hi (new ++ l) -> chain S isn e lo mid l ->
  consecutive S isn mid hi new /\ Forall (fun s => zlen (buf_str (payload s)) <= MAX_PAYLOAD_SIZE) new.
Proof.
  induction new as [|s new IH]; intros lo mid hi H Hl; cbn in *.
  - apply chain_flight in H, Hl. split; [lia|constructor].
  - destruct H as ((H1 & _ & Hp) & _ & H2 & H3). destruct (IH _ _ _ H3 Hl). split; [done|by constructor].
Qed.

(** C16: The sender's bookkeeping.  Whatever is written, whatever acknowledgements
    arrive and whatever time passes: no operation throws or touches an empty
    list; the tracked segments are consecutive pieces of the stream, newest
    first, from the acknowledged to the next sequence number;
    [bytes_in_flight] is their sequence space, at most 65536; and every
    segment the sender queued or tracks carries the bytes of the stream at its
    sequence number, SYN at the start and FIN only at the end of an ended
    stream. *)
Theorem sender_invariant c rto isn t S :
  0 <= c < W64 -> w32_ok isn -> tx_reachable c rto isn t S ->
  consecutive S isn (tx_next_ackno t) (next_seqno_absolute t) (tx_tracking_segments t) /\
  tx_bytes_in_flight t = flight_size (tx_tracking_segments t) /\
  tx_bytes_in_flight t = next_seqno_absolute t - tx_next_ackno t /\
  0 <= tx_bytes_in_flight t <= W16 /\
  (forall s, s ∈ tx_segments_out t \/ s ∈ tx_tracking_segments t ->
     exists a, from_peer S isn s a /\ a + seg_len s <= next_seqno_absolute t /\
       (th_fin (header s) = true -> input_ended (tx_stream t) = true)) /\
  (forall o, tx_op_ok t o -> exists t', tx_step t o = Ok t').
Proof.
  intros Hc Hi Hr. destruct (tx_reachable_inv c rto isn t S Hc Hi Hr) as [Ht Hisn].
  pose proof (tx_next_bound t S Ht) as Hb.
  pose proof Ht as [_ Hso Hroom Hwd Hrem Hp Hack0 Hch Hsynq Hcnt Hfl Hout].
  unfold tx_bytes_in_flight, next_seqno_absolute. rewrite (chain_flight _ _ _ _ _ _ Hch).
  split; [by rewrite <- Hisn; eapply chain_consecutive|].
  split; [lia|]. split; [lia|]. split; [lia|]. split.
  - rewrite Hisn in *. intros s [Hs|Hs].
    + rewrite Forall_forall in Hout. destruct (Hout s Hs) as (a & (H1 & H2 & _) & H3). by exists a.
    + revert Hch Hs. generalize (Z.le_refl (tx_next_seqno t)). generalize (tx_next_seqno t) at 1 3 as hi.
      induction (tx_tracking_segments t) as [|s' l IH]; intros hi Hhi Hch Hs; [by apply elem_of_nil in Hs|].
      destruct Hch as (Hsent & _ & Hl & Hch). apply elem_of_cons in Hs as [->|Hs].
      * destruct Hsent as (H1 & H2 & _). exists (hi - seg_len s'). split; [done|]. split; [lia|done].
      * apply (IH (hi - seg_len s')); [lia|done|done].
  - intros o Ho. destruct (tx_step_inv t S o Ht Ho) as (t' & E & _). eauto.
Qed.

(** Two segments of one byte in flight after the SYN was acknowledged. *)
Lemma sender_invariant_witness :
  let t0 := new_TCPSender 10 1000 (mkW32 5) in
  let t1 := fill_window t0 in
  let t2 := ack_received t1 (mkW32 6) 10 in
  let t3 := fill_window (tx_with_stream t2 (write (tx_stream t2) [x61]).1) in
  let t4 := fill_window (tx_with_stream t3 (write (tx_stream t3) [x62]).1) in
  tx_bytes_in_flight t4 = 2 /\ length (tx_tracking_segments t4) = 2%nat /\
  consecutive [x61; x62] (mkW32 5) 1 3 (tx_tracking_segments t4).
Proof.
  intros t0 t1 t2 t3 t4. split; [reflexivity|]. split; [reflexivity|].
  assert (R3 : tx_reachable 10 1000 (mkW32 5) t3 [x61]).
  { apply (tr_step _ _ _ (tx_with_stream t2 (write (tx_stream t2) [x61]).1) _ TxFill); [|done|reflexivity].
    apply (tr_write _ _ _ t2 [] [x61]); [|done|reflexivity].
    apply (tr_step _ _ _ t1 _ (TxAck (mkW32 6) 10)); [|split; [done|lia]|reflexivity].
    apply (tr_step _ _ _ t0 _ TxFill); [apply tr_new|done|reflexivity]. }
  assert (R : tx_reachable 10 1000 (mkW32 5) t4 [x61; x62]).
  { apply (tr_step _ _ _ (tx_with_stream t3 (write (tx_stream t3) [x62]).1) _ TxFill); [|done|reflexivity].
    apply (tr_write _ _ _ t3 [x61] [x62]); [exact R3|done|reflexivity]. }
  destruct (sender_invariant 10 1000 (mkW32 5) t4 [x61; x62]) as (H & _); [lia|done|exact R|].
  exact H.
Defined.

Lemma fill_loop_more fuel fuel' : forall t,
  fill_guard (fill_loop fuel t) = false -> (fuel <= fuel')%nat -> fill_loop fuel' t = fill_loop fuel t.
Proof.
  revert fuel'. induction fuel as [|fuel IH]; intros fuel' t; cbn [fill_loop].
  - intros Hg _. destruct fuel'; cbn [fill_loop]; [done|]. by rewrite Hg.
  - intros Hg Hf. destruct fuel' as [|fuel']; [lia|]. cbn [fill_loop].
    destruct (fill_guard t); [|done]. apply IH; [done|lia].
Qed.

(** When the loop stops, the window is used up or nothing is left to send. *)
Lemma fill_guard_false t S :
  tx_inv t S -> 1 <= tx_next_ackno t -> fill_guard t = false ->
  tx_next_ackno t + tx_remain_window_size t <= tx_next_seqno t \/
  (buffer_size (tx_stream t) = 0 /\ (input_ended (tx_stream t) = true -> tx_next_seqno t = zlen S + 2)).
Proof.
  intros Ht Ha Hg. pose proof (tx_next_bound t S Ht) as Hb.
  pose proof Ht as [Hisn Hso Hroom Hwd Hrem Hp Hack0 Hch Hsynq Hcnt Hfl Hout].
  unfold fill_guard, next_seqno_absolute in Hg. rewrite u64_id in Hg by lia.
  destruct (Z.ltb_spec (tx_next_seqno t) (tx_next_ackno t + tx_remain_window_size t)) as [Hlt|]; [|by left].
  right. cbn [andb] in Hg. apply orb_false_iff in Hg as [Hg1 Hg2].
  apply negb_false_iff in Hg1. pose proof Hg1 as Hbs. apply buffer_empty_true in Hbs. split; [done|].
  intros He. apply bool_decide_eq_false in Hg2. unfold progress, sent in Hp.
  destruct Hp as [[]|[Hp|[Hp _]]]; [lia| |lia]. exfalso. apply Hg2.
  unfold current_state, next_seqno_absolute, tx_bytes_in_flight, eof.
  rewrite (stream_of_written t S Ht), Hcnt, He, Hg1. cbn [andb negb]. rewrite u64_id by (zpos; lia).
  repeat case_match; zb; try done; try lia.
Qed.

(** What the loop queues it also tracks. *)
Lemma fill_loop_queues fuel : forall t, exists out,
  tx_segments_out (fill_loop fuel t) = tx_segments_out t ++ out /\
  tx_tracking_segments (fill_loop fuel t) = rev out ++ tx_tracking_segments t.
Proof.
  induction fuel as [|fuel IH]; intros t; cbn [fill_loop]; [by exists []; rewrite app_nil_r|].
  destruct (fill_guard t); [|by exists []; rewrite app_nil_r].
  destruct (IH (fill_step t)) as (out & H1 & H2). rewrite H1, H2. unfold fill_step.
  destruct (fill_segment t) as [seg st]. exists (seg :: out). cbn.
  by rewrite <- !app_assoc.
Qed.



(** The FIN can exceed the peer's window.  The test for adding it compares
    the size of the payload with the whole window instead of with what is
    left of it: with a window of three, one byte in flight and two bytes and
    the end of the stream left to send, the FIN is sent as a fourth number. *)
Theorem sender_fin_overruns_window :
  exists t S, tx_reachable 10 1000 (mkW32 5) t S /\ tx_window_size t = 3 /\
    next_seqno_absolute (fill_window t) = tx_next_ackno t + tx_window_size t + 1.
Proof.
  set (t0 := new_TCPSender 10 1000 (mkW32 5)).
  set (t1 := fill_window (tx_with_stream t0 (write (tx_stream t0) [x61]).1)).
  set (t2 := fill_window (ack_received t1 (mkW32 6) 3)).
  set (t3 := tx_with_stream t2 (write (tx_stream t2) [x62; x63]).1).
  exists (tx_with_stream t3 (end_input (tx_stream t3))), [x61; x62; x63].
  split; [|split; reflexivity].
  apply (tr_step _ _ _ t3 _ TxEnd); [|done|reflexivity].
  apply (tr_write _ _ _ t2 [x61] [x62; x63]); [|reflexivity|reflexivity].
  apply (tr_step _ _ _ (ack_received t1 (mkW32 6) 3) _ TxFill); [|done|reflexivity].
  apply (tr_step _ _ _ t1 _ (TxAck (mkW32 6) 3)); [|split; [done|lia]|reflexivity].
  apply (tr_step _ _ _ (tx_with_stream t0 (write (tx_stream t0) [x61]).1) _ TxFill); [|done|reflexivity].
  apply (tr_write _ _ _ t0 [] [x61]); [apply tr_new|done|reflexivity].
Qed.

(** C18: Acknowledgements.  A number at which a tracked segment ends acknowledges
    everything up to there: these segments are dropped, the timer restarts
    with the initial timeout, the count of retransmissions is cleared, and the
    advertised window is taken over, as one when it is zero and nothing is in
    flight.  Any other number, old, in the middle of a segment or never sent,
    leaves what is tracked and the timer alone. *)
Theorem sender_ack c rto isn t S ackno win :
  0 <= c < W64 -> w32_ok isn -> tx_reachable c rto isn t S -> w32_ok ackno -> 0 <= win < W16 ->
  let t' := ack_received t ackno win in
  (Exists (fun s => th_ackno (header s) = ackno) (tx_tracking_segments t) ->
     exists x, ackno = wrap x isn /\ tx_next_ackno t < x <= next_seqno_absolute t /\
       tx_next_ackno t' = x /\ tx_bytes_in_flight t' = next_seqno_absolute t - x /\
       tx_timer t' = 0 /\ tx_retransmission_timeout t' = tx_initial_retransmission_timeout t /\
       tx_consecutive_retransmissions t' = 0 /\ tx_window_size t' = win /\
       tx_remain_window_size t' = (if (win =? 0) && (tx_bytes_in_flight t' =? 0) then 1 else win)) /\
  (Forall (fun s => th_ackno (header s) <> ackno) (tx_tracking_segments t) ->
     tx_next_ackno t' = tx_next_ackno t /\ tx_tracking_segments t' = tx_tracking_segments t /\
     tx_bytes_in_flight t' = tx_bytes_in_flight t /\ tx_timer t' = tx_timer t).
Proof.
  intros Hc Hi Hr Hok Hw t'. destruct (tx_reachable_inv c rto isn t S Hc Hi Hr) as [Ht Hisn].
  destruct (ack_received_spec t S ackno win Ht Hok Hw) as (Ht' & _ & Hns & _ & _ & Hcase).
  fold t' in Ht', Hns, Hcase. pose proof (ti_count _ _ Ht') as Hcnt'. pose proof (ti_count _ _ Ht) as Hcnt.
  unfold tx_bytes_in_flight, next_seqno_absolute, tx_consecutive_retransmissions. split.
  - intros Hex. destruct Hcase as [(x & H1 & H2 & H3 & H4 & H5 & H6 & H7 & H8)|[Hf _]].
    + exists x. rewrite Hisn in H1. rewrite Hcnt', Hns, H3. split_and!; try done; try lia.
      rewrite H8. replace (tx_next_seqno t - x =? 0) with (x =? tx_next_seqno t); [done|].
      destruct (Z.eqb_spec x (tx_next_seqno t)), (Z.eqb_spec (tx_next_seqno t - x) 0); done || lia.
    + exfalso. apply Exists_exists in Hex as (s & Hs & E). rewrite Forall_forall in Hf. by apply (Hf s Hs).
  - intros Hf. destruct Hcase as [(x & H1 & H2 & H3 & _)|(_ & H1 & H2 & H3 & _)].
    2:{ rewrite Hcnt', Hcnt, Hns, H1. done. }
    exfalso. pose proof (ack_scan_spec _ _ _ ackno _ _ _ 0 (ti_chain _ _ Ht) ltac:(lia)) as Hs.
    pose proof (ti_flight _ _ Ht). specialize (Hs ltac:(lia)).
    assert (Hk : (ack_scan ackno (tx_tracking_segments t) 0).2 = None).
    { clear -Hf. revert Hf. generalize 0. induction (tx_tracking_segments t) as [|s l IH]; intros z Hf; [done|].
      inversion Hf as [|? ? Hs Hl]; subst. cbn [ack_scan]. destruct (w32_eqb _ ackno) eqn:E.
      - by apply w32_eqb_eq in E.
      - specialize (IH (z +! length_in_sequence_space s) Hl).
        destruct (ack_scan ackno l _) as [r k]. simpl in *. by rewrite IH. }
    unfold t', ack_received in H3. destruct (ack_scan ackno (tx_tracking_segments t) 0) as [r k].
    simpl in Hk. subst k. destruct (_ && _) in H3; simpl in H3; lia.
Qed.

Lemma sender_ack_witness :
  let t1 := fill_window (new_TCPSender 10 1000 (mkW32 5)) in
  exists x, mkW32 6 = wrap x (mkW32 5) /\ tx_next_ackno (ack_received t1 (mkW32 6) 0) = x /\
    tx_remain_window_size (ack_received t1 (mkW32 6) 0) = 1.
Proof.
  cbn zeta. set (t1 := fill_window (new_TCPSender 10 1000 (mkW32 5))).
  destruct (sender_ack 10 1000 (mkW32 5) t1 [] (mkW32 6) 0) as [H _]; [lia|done| |done|lia|].
  - apply (tr_step _ _ _ (new_TCPSender 10 1000 (mkW32 5)) _ TxFill); [apply tr_new|done|reflexivity].
  - destruct H as (x & H1 & _ & H2 & _); [by apply Exists_cons_hd|].
    exists x. split; [exact H1|]. split; [exact H2|reflexivity].
Defined.

(** C19: The retransmission timer.  It runs only while something is in flight.
    When it reaches the timeout, the oldest unacknowledged segment is sent
    again, the timer restarts, the retransmission is counted, and the timeout
    doubles unless the peer's window is zero; otherwise nothing is sent. *)
Theorem sender_tick c rto isn t S ms :
  0 <= c < W64 -> w32_ok isn -> tx_reachable c rto isn t S -> 0 <= ms ->
  exists t', tx_tick t ms = Ok t' /\
    let timer := if tx_bytes_in_flight t =? 0 then tx_timer t else tx_timer t +! ms in
    if (tx_retransmission_timeout t <=? timer) && negb (tx_bytes_in_flight t =? 0) then
      (exists s, tx_segments_out t' = tx_segments_out t ++ [s] /\ s ∈ tx_tracking_segments t /\
         from_peer S isn s (tx_next_ackno t)) /\
      tx_timer t' = 0 /\
      tx_consecutive_retransmissions t' = u16 (tx_consecutive_retransmissions t + 1) /\
      tx_retransmission_timeout t' = (if tx_window_size t =? 0 then tx_retransmission_timeout t
                                      else u64 (2 * tx_retransmission_timeout t))
    else tx_segments_out t' = tx_segments_out t /\ tx_timer t' = timer /\
      tx_consecutive_retransmissions t' = tx_consecutive_retransmissions t /\
      tx_retransmission_timeout t' = tx_retransmission_timeout t.
Proof.
  intros Hc Hi Hr Hms. destruct (tx_reachable_inv c rto isn t S Hc Hi Hr) as [Ht Hisn].
  destruct (tx_tick_spec t S ms Ht Hms) as (t' & E & _ & _ & _ & _ & _ & H). exists t'. split; [done|].
  assert (Hz : (tx_bytes_in_flight t =? 0) = (tx_next_ackno t =? tx_next_seqno t)).
  { unfold tx_bytes_in_flight. rewrite (ti_count _ _ Ht).
    destruct (Z.eqb_spec (tx_next_seqno t - tx_next_ackno t) 0),
      (Z.eqb_spec (tx_next_ackno t) (tx_next_seqno t)); done || lia. }
  cbn zeta in *. rewrite Hz. unfold tx_consecutive_retransmissions. destruct (_ && _); [|done].
  destruct H as ((s & Hs & (Hf & _) & Ho) & H1 & H2 & H3). rewrite Hisn in Hf.
  split; [exists s; split; [done|]; split; [by apply last_Some_elem_of|done]|].
  split; [done|]. split; [done|]. rewrite H3. case_match; [done|]. f_equal. lia.
Qed.

Lemma sender_tick_witness :
  let t1 := fill_window (new_TCPSender 10 1000 (mkW32 5)) in
  exists t', tx_tick t1 1000 = Ok t' /\ tx_retransmission_timeout t' = 2000.
Proof.
  cbn zeta. set (t1 := fill_window (new_TCPSender 10 1000 (mkW32 5))).
  destruct (sender_tick 10 1000 (mkW32 5) t1 [] 1000) as (t' & E & H); [lia|done| |lia|].
  - apply (tr_step _ _ _ (new_TCPSender 10 1000 (mkW32 5)) _ TxFill); [apply tr_new|done|reflexivity].
  - exists t'. split; [exact E|]. clear H. vm_compute in E. injection E as <-. reflexivity.
Defined.
