(* ===== verification/Transfer.v ===== *)
(** * End to end: a sender, an unreliable network and a receiver

    The sender of [tcp_sender.cc] and the receiver of [tcp_receiver.cc] with
    nothing between them but a network that loses, duplicates and reorders
    segments.  What the reader gets is what the writer wrote. *)
From S2P Require Import Prelude WrappingIntegers ByteStream StreamReassembler Buffer TCPSegment TCPReceiver TCPSender.

(** The bytes written so far ([S]) and those read so far ([got]); every segment
    ever put on the wire, with its absolute sequence number. *)
Record system : Type := mkSystem {
  sy_tx : TCPSender;
  sy_S : bytes;
  sy_net : list (TCPSegment * Z);
  sy_rx : TCPReceiver;
  sy_got : bytes }.

Section Transfer.
(** The capacities of the two sides and the sender's initial timeout and
    sequence number. *)
Context (tx_cap rx_cap rto : Z) (isn : WrappingInt32).

(** A step of one of the parties.  The acknowledgements the sender is given are
    arbitrary.  Delivering a segment leaves it in the network: it may arrive
    again, later, or never. *)
Inductive sy_step : system -> system -> Prop :=
  | sy_write t S net r got d :
      input_ended (tx_stream t) = false -> zlen S + zlen d + rx_cap + 4 * W32 < W64 ->
      sy_step (mkSystem t S net r got)
        (mkSystem (tx_with_stream t (write (tx_stream t) d).1) (S ++ ztake (write (tx_stream t) d).2 d)
           net r got)
  | sy_sender t S net r got o t' :
      tx_op_ok t o -> tx_step t o = Ok t' ->
      sy_step (mkSystem t S net r got) (mkSystem t' S net r got)
  | sy_transmit t S net r got s out a :
      tx_segments_out t = s :: out -> sent_seg S isn (input_ended (tx_stream t)) s a ->
      sy_step (mkSystem t S net r got) (mkSystem (tx_with_out t out) S ((s, a) :: net) r got)
  | sy_deliver t S net r got s a r' :
      (s, a) ∈ net -> Z.abs (a - bytes_written (rx_stream_out r)) < W31 ->
      rx_segment_received r s = Ok r' ->
      sy_step (mkSystem t S net r got) (mkSystem t S net r' got)
  | sy_read t S net r got n :
      0 <= n ->
      sy_step (mkSystem t S net r got)
        (mkSystem t S net (rx_with_stream_out r (read (rx_stream_out r) n).1)
           (got ++ (read (rx_stream_out r) n).2)).

Definition sy_start : system :=
  mkSystem (new_TCPSender tx_cap rto isn) [] [] (new_TCPReceiver rx_cap) [].

Inductive sy_reachable : system -> Prop :=
  | sr_start : sy_reachable sy_start
  | sr_step s s' : sy_reachable s -> sy_step s s' -> sy_reachable s'.

Hypothesis Htx : 0 <= tx_cap < W64.
Hypothesis Hrx : 1 <= rx_cap.
Hypothesis Hroom : rx_cap + 4 * W32 < W64.
Hypothesis Hisn : w32_ok isn.

Record sy_inv (s : system) (hist : bytes) : Prop := {
  sy_tx_inv : tx_inv (sy_tx s) (sy_S s);
  sy_tx_isn : tx_isn (sy_tx s) = isn;
  sy_space : zlen (sy_S s) + rx_cap + 4 * W32 < W64;
  sy_net_ok : Forall (fun p => sent_seg (sy_S s) isn (input_ended (tx_stream (sy_tx s))) p.1 p.2) (sy_net s);
  sy_rx_inv : rx_inv (sy_S s) isn rx_cap (sy_rx s) hist;
  sy_fin : rx_have_FIN (sy_rx s) = true -> input_ended (tx_stream (sy_tx s)) = true;
  sy_got_ok : sy_got s ++ bs_buffer (rx_stream_out (sy_rx s)) = hist }.

(** Writing more does not disturb the receiver. *)
Lemma rx_inv_write S d r hist :
  rx_have_FIN r = false -> rx_inv S isn rx_cap r hist -> rx_inv (S ++ d) isn rx_cap r hist.
Proof.
  intros Hf [Hst Hcap Hsyn Hfin]. pose proof (hist_le _ _ _ _ Hst) as Hle.
  constructor; try done. destruct Hst as [H1 H2 H3 H4 H5]. constructor; try done.
  - rewrite ztake_app_le by done. done.
  - intros i b Hi. specialize (H4 i b Hi). pose proof (znth_Some _ _ _ H4). rewrite znth_app_l; [done|lia].
  - rewrite <- Hfin, Hf. done.
Qed.

Lemma net_weaken (S S' : bytes) (e e' : bool) (net : list (TCPSegment * Z)) :
  (forall s a, sent_seg S isn e s a -> sent_seg S' isn e' s a) ->
  Forall (fun p => sent_seg S isn e p.1 p.2) net -> Forall (fun p => sent_seg S' isn e' p.1 p.2) net.
Proof. intros H Hn. eapply Forall_impl; [exact Hn|]. intros [s a]. apply H. Qed.

(** Reading moves bytes from the output to the reader. *)
Lemma read_moves b n got hist :
  got ++ bs_buffer b = hist -> (got ++ (read b n).2) ++ bs_buffer (read b n).1 = hist.
Proof.
  intros <-. unfold read, pop_output, peek_output. rewrite <- app_assoc. f_equal.
  destruct (buffer_size b <? n); simpl; [done|]. apply ztake_zdrop.
Qed.


Lemma sy_start_inv : sy_inv sy_start [].
Proof.
  constructor; cbn; try done.
  - by apply new_TCPSender_inv.
  - by apply rx_new.
Qed.

Lemma sy_step_inv s s' hist :
  sy_inv s hist -> sy_step s s' -> exists w, sy_inv s' (hist ++ w).
Proof.
  intros [Ht Hti Hsp Hnet Hr Hf Hg] Hstep.
  destruct Hstep as [t S net r got d He Hd|t S net r got o t' Ho E|t S net r got s out a Eo Hs
    |t S net r got s a r' Hin Hnear E|t S net r got n Hn]; cbn in *.
  - destruct (tx_write_inv t S d Ht He ltac:(lia)) as (w & H1 & H2 & H3). exists [].
    rewrite app_nil_r. rewrite <- H3, <- H2 in *.
    assert (Hlw : zlen w <= zlen d) 
      by (pose proof (f_equal zlen H2) as Hz; zpos; rewrite zlen_ztake in Hz; lia).
    assert (Hnf : rx_have_FIN r = false) 
      by (apply not_true_is_false; intros HF; specialize (Hf HF); congruence).
    constructor; cbn; try done.
    + rewrite zlen_app. lia.
    + change (input_ended (write (tx_stream t) d).1) with (input_ended (tx_stream t)).
      rewrite He in *. eapply net_weaken; [|exact Hnet]. intros. by apply sent_seg_write.
    + by apply rx_inv_write.
  - exists []. rewrite app_nil_r. destruct (tx_step_inv t S o Ht Ho) as (t1 & E1 & H1 & H2 & H3).
    rewrite E in E1. injection E1 as <-. constructor; cbn; auto; [congruence|].
    destruct (input_ended (tx_stream t)) eqn:Ee.
    + by rewrite (H3 eq_refl).
    + destruct (input_ended (tx_stream t')); [|done].
      eapply net_weaken; [|exact Hnet]. intros. by eapply sent_seg_ended.
  - exists []. rewrite app_nil_r. constructor; cbn; try done.
    + apply tx_queue_inv; [done|]. rewrite Eo. intros x Hx. by right.
    + by constructor.
  - rewrite Forall_forall in Hnet. destruct (Hnet (s, a) Hin) as (Hp & Hpf & _). cbn in Hp, Hpf.
    rewrite (rx_written S isn rx_cap r hist Hr) in Hnear.
    destruct (rx_segment_inv S isn rx_cap Hrx Hsp Hisn r hist s a Hr Hp Hnear)
      as (r1 & w & E1 & H1 & H2 & H3 & _ & H4 & _).
    rewrite E in E1. injection E1 as <-. exists w. constructor; cbn; try done.
    + by apply Forall_forall.
    + intros HF. destruct (H4 HF); auto.
    + rewrite H3, app_assoc, Hg. done.
  - exists []. rewrite app_nil_r. constructor; cbn; try done.
    + by apply rx_read_inv.
    + by apply read_moves.
Qed.

Lemma sy_reachable_inv s : sy_reachable s -> exists hist, sy_inv s hist.
Proof.
  induction 1 as [|s s' _ (hist & IH) Hstep]; [exists []; apply sy_start_inv|].
  destruct (sy_step_inv s s' hist IH Hstep) as (w & H). eauto.
Qed.
End Transfer.

(** End-to-end safety.  Over a network that loses, duplicates and reorders
    segments, with any retransmissions and any acknowledgements, forged ones
    included: what the reader has read, followed by what is waiting in the
    receiver's output, is a prefix of what the writer wrote; delivering a
    segment never fails, and neither does handing the next queued segment to
    the network.  Segments are delivered within half a turn of the sequence
    space of the receiver's position, as TCP assumes. *)
Theorem transfer_safe tx_cap rx_cap rto isn s :
  0 <= tx_cap < W64 -> 1 <= rx_cap -> rx_cap + 4 * W32 < W64 -> w32_ok isn ->
  sy_reachable tx_cap rx_cap rto isn s ->
  let arrived := sy_got s ++ bs_buffer (rx_stream_out (sy_rx s)) in
  arrived = ztake (zlen arrived) (sy_S s) /\
  zlen arrived = bytes_written (rx_stream_out (sy_rx s)) /\
  (forall seg a, (seg, a) ∈ sy_net s -> Z.abs (a - bytes_written (rx_stream_out (sy_rx s))) < W31 ->
     exists r', rx_segment_received (sy_rx s) seg = Ok r') /\
  (forall seg out, tx_segments_out (sy_tx s) = seg :: out ->
     exists a s', sy_step rx_cap isn s s' /\ sy_net s' = (seg, a) :: sy_net s).
Proof.
  intros Htx Hrx Hroom Hisn Hreach arrived.
  destruct (sy_reachable_inv tx_cap rx_cap rto isn Htx Hrx Hroom Hisn s Hreach)
    as (hist & [Ht Hti Hsp Hnet Hr Hf Hg]).
  unfold arrived. rewrite Hg. pose proof (rx_stream _ _ _ _ _ Hr) as Hst.
  rewrite (rx_written _ _ _ _ _ Hr). split; [apply Hst|]. split; [done|]. split.
  - intros seg a Hin Hnear. rewrite Forall_forall in Hnet. destruct (Hnet _ Hin) as (Hp & _).
    destruct (rx_segment_inv _ _ _ Hrx Hsp Hisn _ hist seg a Hr Hp Hnear) as (r' & w & E & _). eauto.
  - intros seg out Eo. pose proof (ti_out _ _ Ht) as Hout. rewrite Eo in Hout.
    inversion Hout as [|? ? (a & Ha & _) _]; subst. exists a. destruct s as [t S net r got]. cbn in *.
    eexists. split; [eapply sy_transmit; [exact Eo|exact Ha]|done].
Qed.

(** The byte "a" goes from the writer to the reader. *)
Lemma transfer_safe_witness :
  exists s, sy_reachable 10 10 1000 (mkW32 5) s /\ sy_got s = [x61] /\
    let arrived := sy_got s ++ bs_buffer (rx_stream_out (sy_rx s)) in
    arrived = ztake (zlen arrived) (sy_S s).
Proof.
  set (t0 := new_TCPSender 10 1000 (mkW32 5)).
  assert (E : exists ta t1 t1' ta' t2 t2' s1 s2 r1 r2,
    (write (tx_stream t0) [x61]).1 = ta /\ fill_window (tx_with_stream t0 ta) = t1 /\
    tx_segments_out t1 = [s1] /\ tx_with_out t1 [] = t1' /\
    input_ended (tx_stream t1) = false /\ sent_seg [x61] (mkW32 5) false s1 0 /\
    rx_segment_received (new_TCPReceiver 10) s1 = Ok r1 /\ bytes_written (rx_stream_out r1) = 0 /\
    ack_received t1' (mkW32 6) 10 = ta' /\ fill_window ta' = t2 /\ tx_segments_out t2 = [s2] /\
    tx_with_out t2 [] = t2' /\ input_ended (tx_stream t2) = false /\
    sent_seg [x61] (mkW32 5) false s2 1 /\
    rx_segment_received r1 s2 = Ok r2 /\ (read (rx_stream_out r2) 1).2 = [x61]).
  { do 10 eexists. do 5 (split; [vm_compute; reflexivity|]). split.
    { split; [|split; [done|vm_compute; congruence]]. vm_compute. intuition congruence. }
    do 7 (split; [vm_compute; reflexivity|]). split.
    { split; [|split; [done|vm_compute; congruence]]. vm_compute. intuition congruence. }
    split; vm_compute; reflexivity. }
  destruct E as (ta & t1 & t1' & ta' & t2 & t2' & s1 & s2 & r1 & r2 & A1 & A2 & A3 & A4 & A5 & A6 & A7
    & A8 & A9 & B1 & B2 & B3 & B4 & B5 & B6 & B7).
  assert (R1 : sy_reachable 10 10 1000 (mkW32 5) (mkSystem t1' [x61] [(s1, 0)] r1 [])).
  { eapply sr_step; [|apply (sy_deliver _ _ _ _ _ (new_TCPReceiver 10) _ s1 0); [by left|done|exact A7]].
    eapply sr_step; [|rewrite <- A4; apply sy_transmit; [exact A3|by rewrite A5]].
    eapply sr_step; [|apply (sy_sender _ _ (tx_with_stream t0 ta) _ _ _ _ TxFill); [done|exact (f_equal Ok A2)]].
    eapply sr_step; [apply sr_start|]. rewrite <- A1.
    apply (sy_write _ _ t0 [] [] (new_TCPReceiver 10) [] [x61]); reflexivity. }
  assert (R2 : sy_reachable 10 10 1000 (mkW32 5) (mkSystem t2' [x61] [(s2, 1); (s1, 0)]
    (rx_with_stream_out r2 (read (rx_stream_out r2) 1).1) ([] ++ (read (rx_stream_out r2) 1).2))).
  { eapply sr_step; [|by apply sy_read].
    eapply sr_step; [|apply (sy_deliver _ _ _ _ _ r1 _ s2 1); [by left|by rewrite A8|exact B6]].
    eapply sr_step; [|rewrite <- B3; apply sy_transmit; [exact B2|by rewrite B4]].
    eapply sr_step; [|apply (sy_sender _ _ ta' _ _ _ _ TxFill); [done|exact (f_equal Ok B1)]].
    eapply sr_step; [exact R1|].
    apply (sy_sender _ _ t1' _ _ _ _ (TxAck (mkW32 6) 10)); [split; [done|lia]|exact (f_equal Ok A9)]. }
  eexists. split; [exact R2|]. split; [exact B7|].
  apply (transfer_safe 10 10 1000 (mkW32 5) _); [lia|lia|lia|done|exact R2].
Defined.
