(* ===== verification/Tracking.v ===== *)
(** * The tracked segments of the sender

    What the invariant of the sender says about each tracked segment: where it
    starts, what carries over when an acknowledgement, a tick or a fill of the
    window changes the list. *)
From S2P Require Import Prelude WrappingIntegers ByteStream StreamReassembler Buffer TCPSegment TCPReceiver TCPSender.

(** ** Where the tracked segments are *)

(** [s] is one of the tracked segments [l], which end at [hi], and starts at
    [a]. *)
Fixpoint tracked_at (hi : Z) (l : list TCPSegment) (s : TCPSegment) (a : Z) : Prop :=
  match l with
  | [] => False
  | x :: l => (s = x /\ a = hi - seg_len x) \/ tracked_at (hi - seg_len x) l s a
  end.

Section Chain.
Context (S : bytes) (isn : WrappingInt32) (e : bool).

Lemma tracked_spec l : forall lo hi s a,
  chain S isn e lo hi l -> tracked_at hi l s a ->
  sent_seg S isn e s a /\ 1 <= seg_len s /\ lo <= a /\ a + seg_len s <= hi /\
  th_ackno (header s) = wrap (a + seg_len s) isn.
Proof.
  induction l as [|x l IH]; intros lo hi s a; cbn [chain tracked_at]; [done|].
  intros (H1 & H2 & H3 & H4) [[-> ->]|Ht].
  - pose proof (chain_le _ _ _ _ _ _ H4). replace (hi - seg_len x + seg_len x) with hi by lia.
    split_and!; done || lia.
  - destruct (IH _ _ _ _ H4 Ht) as (T1 & T2 & T3 & T4 & T5). split_and!; done || lia.
Qed.

Lemma tracked_disjoint l : forall lo hi s a s' a',
  chain S isn e lo hi l -> tracked_at hi l s a -> tracked_at hi l s' a' ->
  (s = s' /\ a = a') \/ a + seg_len s <= a' \/ a' + seg_len s' <= a.
Proof.
  induction l as [|x l IH]; intros lo hi s a s' a'; cbn [chain tracked_at]; [done|].
  intros (H1 & H2 & H3 & H4) [[-> ->]|Ht] [[-> ->]|Ht'].
  - by left.
  - destruct (tracked_spec _ _ _ _ _ H4 Ht') as (_ & _ & _ & ? & _). lia.
  - destruct (tracked_spec _ _ _ _ _ H4 Ht) as (_ & _ & _ & ? & _). lia.
  - eauto.
Qed.

(** A number that is inside no tracked segment is where one of them ends. *)
Lemma tracked_boundary l : forall lo hi x,
  chain S isn e lo hi l -> lo <= x <= hi ->
  (forall s a, tracked_at hi l s a -> ~ a < x < a + seg_len s) ->
  x = lo \/ exists s a, tracked_at hi l s a /\ x = a + seg_len s.
Proof.
  induction l as [|y l IH]; intros lo hi x; cbn [chain tracked_at]; [lia|].
  intros (H1 & H2 & H3 & H4) Hx Hin.
  destruct (Z.eq_dec x hi) as [->|Hne].
  { right. exists y, (hi - seg_len y). split; [by left|lia]. }
  destruct (Z.le_gt_cases x (hi - seg_len y)) as [Hle|Hgt].
  - destruct (IH lo (hi - seg_len y) x H4 ltac:(lia)) as [|(s & a & Ht & Ha)]; [|by left|].
    + intros s a Ht. apply Hin. by right.
    + right. exists s, a. split; [by right|done].
  - exfalso. apply (Hin y (hi - seg_len y)); [by left|lia].
Qed.

(** The oldest tracked segment. *)
Lemma tracked_last l : forall lo hi s,
  chain S isn e lo hi l -> last l = Some s -> tracked_at hi l s lo.
Proof.
  induction l as [|y l IH]; intros lo hi s; [done|]. intros (H1 & H2 & H3 & H4) Hl. cbn [tracked_at].
  destruct l as [|z l].
  - injection Hl as <-. cbn [chain] in H4. left. by split.
  - right. by apply IH.
Qed.

(** What the scan of [ack_received] keeps: the segments that end after the
    number it found. *)
Lemma ack_scan_kept ackno l : forall lo hi acc remain kept,
  chain S isn e lo hi l -> ack_scan ackno l acc = (remain, Some kept) ->
  exists x, ackno = wrap x isn /\ lo < x <= hi /\ chain S isn e x hi kept /\
    forall s a, tracked_at hi l s a <-> tracked_at hi kept s a \/ (tracked_at hi l s a /\ a + seg_len s <= x).
Proof.
  induction l as [|y l IH]; intros lo hi acc remain kept; cbn [chain ack_scan]; [done|].
  intros (H1 & H2 & H3 & H4) Hs. pose proof (chain_le _ _ _ _ _ _ H4) as Hle.
  destruct (w32_eqb (th_ackno (header y)) ackno) eqn:E.
  - apply w32_eqb_eq in E. injection Hs as _ <-. exists hi. split; [congruence|]. split; [lia|].
    split; [done|]. intros s a. cbn [tracked_at]. split; [|tauto]. intros Ht. right. split; [done|].
    destruct Ht as [[-> ->]|Ht]; [lia|]. destruct (tracked_spec _ _ _ _ _ H4 Ht) as (_ & _ & _ & ? & _). lia.
  - destruct (ack_scan ackno l _) as [rem [k|]] eqn:Es; [|done]. injection Hs as _ <-.
    destruct (IH _ _ _ _ _ H4 Es) as (x & Hx & Hr & Hch & Hiff). exists x. split; [done|]. split; [lia|].
    split; [by split_and!|]. intros s a. cbn [tracked_at]. rewrite (Hiff s a). split; [|tauto].
    intros [|[|[]]]; tauto.
Qed.
End Chain.

Lemma tracked_in s a l : forall hi, tracked_at hi l s a -> s ∈ l.
Proof.
  induction l as [|y l IH]; intros hi; cbn [tracked_at]; [done|]. rewrite elem_of_cons.
  intros [[-> _]|Ht]; [by left|right; by eapply IH].
Qed.

Definition tracks (t : TCPSender) : TCPSegment -> Z -> Prop :=
  tracked_at (tx_next_seqno t) (tx_tracking_segments t).

(** The members of the clock hold 64-bit values. *)
Definition clock_ok (t : TCPSender) : Prop :=
  0 <= tx_timer t < W64 /\ 0 <= tx_retransmission_timeout t < W64 /\
  0 <= tx_initial_retransmission_timeout t < W64.

(** An acknowledgement of the absolute number [x], taken over with its window
    when a tracked segment ends at [x]. *)
Definition ack_taken (t t' : TCPSender) (x win : Z) : Prop :=
  tx_next_ackno t < x /\ tx_next_ackno t' = x /\ tx_window_size t' = win /\
  tx_remain_window_size t' = (if (win =? 0) && (x =? tx_next_seqno t) then 1 else win) /\
  forall s a, tracks t s a <-> tracks t' s a \/ (tracks t s a /\ a + seg_len s <= x).

(** Otherwise only the window may be taken over. *)
Definition ack_passed (t t' : TCPSender) (x win : Z) : Prop :=
  (forall s a, tracks t s a -> x <> a + seg_len s) /\
  tx_next_ackno t' = tx_next_ackno t /\ tx_tracking_segments t' = tx_tracking_segments t /\
  (tx_window_size t' = tx_window_size t \/ (tx_window_size t' = win /\ tx_next_ackno t <= x)) /\
  (tx_remain_window_size t' = tx_remain_window_size t \/
   tx_remain_window_size t' = (if (tx_window_size t' =? 0) && (tx_next_ackno t =? tx_next_seqno t)
                               then 1 else tx_window_size t')) /\
  (x = tx_next_ackno t -> x = tx_next_seqno t -> 1 <= tx_remain_window_size t').

Lemma ack_received_cases t S x win :
  tx_inv t S -> clock_ok t -> zlen S + 2 < W31 -> 0 <= x <= tx_next_seqno t -> 0 <= win < W16 ->
  let t' := ack_received t (wrap x (tx_isn t)) win in
  tx_inv t' S /\ clock_ok t' /\ tx_isn t' = tx_isn t /\ tx_next_seqno t' = tx_next_seqno t /\
  tx_stream t' = tx_stream t /\ tx_segments_out t' = tx_segments_out t /\
  (ack_taken t t' x win \/ ack_passed t t' x win).
Proof.
  intros Ht (Hk1 & Hk2 & Hk3) Hs Hx Hw. pose proof (tx_next_bound t S Ht) as Hb.
  pose proof Ht as [Hisn _ _ _ _ _ _ Hch _ Hcnt _ _].
  destruct (ack_received_spec t S (wrap x (tx_isn t)) win Ht (wrap_ok _ _) Hw) as (I1 & I2 & I3 & I4 & I5 & _).
  cbn zeta. split; [done|]. cut (clock_ok (ack_received t (wrap x (tx_isn t)) win) /\
    (ack_taken t (ack_received t (wrap x (tx_isn t)) win) x win \/
     ack_passed t (ack_received t (wrap x (tx_isn t)) win) x win)); [by intros []; split_and!|]. clear I1 I2 I3 I4 I5.
  pose proof (ack_scan_spec _ _ _ (wrap x (tx_isn t)) _ _ _ 0 Hch ltac:(lia) ltac:(lia)) as Hscan.
  pose proof (ack_scan_none _ _ _ (wrap x (tx_isn t)) _ _ _ 0 Hch) as Hnone.
  pose proof (fun r k => ack_scan_kept _ _ _ (wrap x (tx_isn t)) _ _ _ 0 r k Hch) as Hkept.
  assert (Hu : unwrap (wrap x (tx_isn t)) (tx_isn t) (tx_next_ackno t) = x)
    by (apply unwrap_near; done || lia).
  unfold ack_received, clock_ok, ack_taken, ack_passed, tracks. rewrite Hu.
  destruct (ack_scan (wrap x (tx_isn t)) (tx_tracking_segments t) 0) as [remain [kept|]].
  - destruct (Hkept _ _ eq_refl) as (y & Hy & Hr & _ & Hiff).
    apply wrap_inj_near in Hy; [subst y|lia]. destruct Hscan as (y & Hy & Hr' & Hrem & _).
    apply wrap_inj_near in Hy; [subst y|lia].
    destruct (Z.leb_spec (tx_next_ackno t) x); [|lia]. destruct (Z.leb_spec x (tx_next_seqno t)); [|lia].
    destruct (Z.ltb_spec (tx_next_ackno t) x); [|lia]. cbn [andb tx_tracked_count tx_tracking_segments].
    destruct (Z.eqb_spec (tx_tracked_count t) remain); [lia|].
    cbn [andb tx_tracking_segments tx_next_seqno tx_next_ackno tx_timer tx_window_size tx_initial_retransmission_timeout
      tx_retransmission_timeout tx_remain_window_size].
    replace (remain =? 0) with (x =? tx_next_seqno t)
      by (destruct (Z.eqb_spec remain 0), (Z.eqb_spec x (tx_next_seqno t)); done || lia).
    split; [lia|]. left. split_and!; done || lia.
  - specialize (Hnone eq_refl). rewrite Forall_forall in Hnone. cbn zeta.
    cbn [tx_tracking_segments tx_tracked_count]. set (w := if _ && _ then win else tx_window_size t).
    assert (Hsc : forall s a, tracked_at (tx_next_seqno t) (tx_tracking_segments t) s a -> x <> a + seg_len s).
    { intros s a Hsa ->. apply (Hnone s); [by eapply tracked_in|].
      by destruct (tracked_spec _ _ _ _ _ _ _ _ Hch Hsa) as (_ & _ & _ & _ & ?). }
    assert (Hwin : w = tx_window_size t \/ (w = win /\ tx_next_ackno t <= x)).
    { unfold w. destruct (_ && _) eqn:E; [|by left]. right. apply andb_true_iff in E as [E _]. zb. done. }
    assert (Hz : (remain =? 0) = (tx_next_ackno t =? tx_next_seqno t))
      by (destruct (Z.eqb_spec remain 0), (Z.eqb_spec (tx_next_ackno t) (tx_next_seqno t)); done || lia).
    clearbody w. destruct (_ && _) eqn:Eearly; cbn [tx_tracking_segments tx_next_seqno tx_next_ackno tx_timer tx_window_size
      tx_initial_retransmission_timeout tx_retransmission_timeout tx_remain_window_size].
    + split; [lia|]. right. split_and!; try done; [by left|]. intros -> En. exfalso.
      apply andb_true_iff in Eearly as [_ El].
      by rewrite (proj1 (chain_empty _ _ _ _ _ _ Hch) En) in El.
    + split; [lia|]. right. rewrite Hz. split_and!; try done; [by right|]. intros -> ->.
      rewrite Z.eqb_refl, andb_true_r. destruct (Z.eqb_spec w 0); [done|].
      assert (0 <= w); [|lia]. pose proof (ti_window _ _ Ht). destruct Hwin as [->|[-> _]]; lia.
Qed.

(** ** Spans *)

Definition paylen (s : TCPSegment) : Z := zlen (buf_str (payload s)).

Lemma seg_len_pay s :
  seg_len s = paylen s + (if th_syn (header s) then 1 else 0) + (if th_fin (header s) then 1 else 0).
Proof. done. Qed.

(** The index of the first byte of a segment that starts at [a]. *)
Definition first_index (s : TCPSegment) (a : Z) : Z := if th_syn (header s) then 0 else a - 1.

Lemma span S i s a e :
  sent_seg S i e s a ->
  a + seg_len s = first_index s a + paylen s + 1 + (if th_fin (header s) then 1 else 0) /\
  0 <= first_index s a /\ 0 <= paylen s <= seg_len s /\ 0 <= a /\
  (th_fin (header s) = true -> first_index s a + paylen s = zlen S) /\
  (0 < paylen s -> first_index s a + paylen s <= zlen S).
Proof.
  intros ((_ & Ha & Hi & _ & Hl & Hf) & _).
  assert (Hl' : 0 < zlen (buf_str (payload s)) -> (if th_syn (header s) then 0 else a - 1) + zlen (buf_str (payload s)) <= zlen S)
    by (intros Hp; apply Hl; left; intros E; rewrite E in Hp; done). unfold first_index, paylen in *. rewrite seg_len_pay. unfold paylen.
  pose proof (zlen_nonneg (buf_str (payload s))). destruct (th_syn _), (th_fin _); split_and!; auto; lia.
Qed.

(** A tracked SYN carries nothing else. *)
Lemma tracked_syn t S s a :
  tx_inv t S -> tracks t s a ->
  th_syn (header s) = true -> paylen s = 0 /\ th_fin (header s) = false.
Proof.
  intros Ht Hs Hy. destruct (tracked_spec _ _ _ _ _ _ _ _ (ti_chain _ _ Ht) Hs) as (Hsent & _ & Ha & He & _).
  pose proof Hsent as ((_ & Ha0 & _) & _). destruct (span _ _ _ _ _ Hsent) as (Hsp & _ & Hp & _).
  rewrite Hy in Ha0. subst a. pose proof (tx_next_bound _ _ Ht). pose proof (ti_syn _ _ Ht ltac:(lia)).
  unfold first_index in Hsp. rewrite Hy in Hsp. destruct (th_fin _); split; done || lia.
Qed.

Lemma tracked_index t S s a :
  tx_inv t S -> tracks t s a -> paylen s = 0 \/ first_index s a = a - 1.
Proof.
  intros Ht Hs. unfold first_index. destruct (th_syn (header s)) eqn:Hy; [left|by right].
  by apply (tracked_syn t S s a).
Qed.

(** ** The window, the clock and the last state *)

Lemma fill_loop_grows fuel : forall t S,
  tx_inv t S -> 1 <= tx_next_ackno t -> tx_next_seqno t <= tx_next_seqno (fill_loop fuel t).
Proof.
  induction fuel as [|fuel IH]; intros t S Ht Ha; cbn [fill_loop]; [lia|].
  destruct (fill_guard t) eqn:Hg; [|lia].
  destruct (fill_step_inv t S Ht Hg Ha) as (H1 & _ & _ & H2 & H3 & _). specialize (IH _ _ H1 ltac:(lia)). lia.
Qed.

(** Filling the window sends something unless all is sent or the window is
    used up with nothing in flight. *)
Lemma fill_window_progress t S :
  tx_inv t S -> input_ended (tx_stream t) = true ->
  tx_next_ackno (fill_window t) = tx_next_ackno t /\
  input_ended (tx_stream (fill_window t)) = true /\
  (tx_next_ackno t < tx_next_seqno (fill_window t) \/
   (fill_window t = t /\ 1 <= tx_next_ackno t /\ tx_next_ackno t = tx_next_seqno t /\
    (tx_next_seqno t = zlen S + 2 \/ tx_remain_window_size t = 0))).
Proof.
  intros Ht He. pose proof (tx_next_bound t S Ht) as Hb.
  destruct (fill_window_inv t S Ht) as (_ & _ & He' & _). rewrite He'.
  destruct (Z.eq_dec (tx_next_ackno t) 0) as [Ha|Ha].
  - destruct (Z.eq_dec (tx_next_seqno t) 0) as [Hn|Hn].
    + unfold fill_window. rewrite (proj2 (current_state_closed t S Ht) Hn).
      split; [done|]. split; [done|]. left. rewrite (proj2 (fill_syn_inv t S Ht Hn)). lia.
    + unfold fill_window. rewrite (proj2 (current_state_synsent t S Ht) (conj Hn Ha)).
      split; [done|]. split; [done|]. left. lia.
  - assert (E : fill_window t = fill_loop (fill_fuel t) t).
    { unfold fill_window. destruct (current_state t) eqn:Es; try done.
      - apply (current_state_closed t S Ht) in Es. lia.
      - apply (current_state_synsent t S Ht) in Es. lia. }
    destruct (fill_loop_spec (fill_fuel t) t S Ht ltac:(lia) (Nat.le_refl _)) as (_ & _ & _ & I3 & I4 & I5 & _).
    rewrite <- E in *. split; [done|]. split; [done|].
    destruct (Z.eq_dec (tx_next_ackno t) (tx_next_seqno t)) as [Hn|]; [|left; lia].
    destruct (Z.eq_dec (tx_next_seqno (fill_window t)) (tx_next_seqno t)) as [Hsame|]; [right|left; lia].
    assert (Hg : fill_guard t = false).
    { destruct (fill_guard t) eqn:Hg; [|done]. exfalso.
      destruct (fill_step_inv t S Ht Hg ltac:(lia)) as (J1 & _ & _ & J3 & J4 & _).
      destruct (fill_guard_spec t S Ht Hg ltac:(lia)) as (Hw & _).
      assert (Hf : exists f, fill_fuel t = Datatypes.S f) by (exists (pred (fill_fuel t)); unfold fill_fuel; lia).
      destruct Hf as [f Hf]. rewrite E, Hf in Hsame, I5. cbn [fill_loop] in Hsame, I5. rewrite Hg in Hsame, I5.
      pose proof (fill_loop_grows f (fill_step t) S J1 ltac:(lia)). lia. }
    assert (Et : fill_window t = t) by (rewrite E; destruct (fill_fuel t); cbn [fill_loop]; by rewrite ?Hg).
    split; [done|]. split; [lia|]. split; [done|].
    destruct (fill_guard_false t S Ht ltac:(lia) Hg) as [Hw|[_ Hall]]; [|left; auto].
    right. pose proof (ti_remain _ _ Ht). lia.
Qed.

(** An empty queue, however it got so. *)
Lemma tx_with_out_same t : tx_with_out t (tx_segments_out t) = t.
Proof. by destruct t. Qed.

(** A tick changes the clock, and may queue the oldest tracked segment. *)
Lemma tick_frame t ms t' :
  clock_ok t -> tx_tick t ms = Ok t' ->
  tx_tracking_segments t' = tx_tracking_segments t /\ tx_window_size t' = tx_window_size t /\
  tx_remain_window_size t' = tx_remain_window_size t /\ clock_ok t' /\
  exists l, tx_segments_out t' = tx_segments_out t ++ l /\ forall s, s ∈ l -> last (tx_tracking_segments t) = Some s.
Proof.
  intros Hck E. unfold tx_tick, clock_ok in *. pose proof (u64_range (tx_timer t + ms)).
  pose proof (u64_range (tx_retransmission_timeout t + tx_retransmission_timeout t)).
  set (timer := if negb (tx_bytes_in_flight t =? 0) then tx_timer t +! ms else tx_timer t) in E.
  assert (0 <= timer < W64) by (unfold timer; destruct (negb (tx_bytes_in_flight t =? 0)); lia). clearbody timer.
  destruct (_ && _) in E; [destruct (last (tx_tracking_segments t)) as [s|] eqn:El; [|done]|];
    injection E as <-; cbn [tx_tracking_segments tx_window_size tx_remain_window_size tx_timer
      tx_retransmission_timeout tx_initial_retransmission_timeout tx_segments_out];
    do 3 (split; [done|]).
  - split; [destruct (negb _); lia|]. exists [s]. split; [done|]. intros s' Hs'.
    by apply list_elem_of_singleton in Hs' as ->.
  - split; [lia|]. exists []. split; [by rewrite app_nil_r|]. intros s Hs. by apply elem_of_nil in Hs.
Qed.

(** The timer of a round expires. *)
Lemma round_tick t S :
  tx_inv t S -> clock_ok t -> tx_segments_out t = [] ->
  exists t', tx_tick t (tx_retransmission_timeout t -! tx_timer t) = Ok t' /\
    tx_next_ackno t' = tx_next_ackno t /\ tx_next_seqno t' = tx_next_seqno t /\
    tx_stream t' = tx_stream t /\ tx_remain_window_size t' = tx_remain_window_size t /\
    (if tx_next_ackno t =? tx_next_seqno t then tx_segments_out t' = []
     else exists s, tx_segments_out t' = [s] /\ tracks t' s (tx_next_ackno t)).
Proof.
  intros Ht Hck Eo. pose proof (u64_range (tx_retransmission_timeout t - tx_timer t)) as Hms.
  destruct (tx_tick_spec t S _ Ht ltac:(exact (proj1 Hms))) as (t' & E & _ & _ & H3 & H4 & H5 & H6).
  exists t'. split; [done|]. do 3 (split; [done|]).
  destruct (tick_frame t _ t' Hck E) as (F1 & _ & F3 & _). split; [done|]. cbn zeta in H6.
  destruct (tx_next_ackno t =? tx_next_seqno t); cbn [negb] in H6.
  - rewrite andb_false_r in H6. destruct H6 as [-> _]. done.
  - rewrite andb_true_r in H6.
    assert (Hexp : tx_timer t +! (tx_retransmission_timeout t -! tx_timer t) = tx_retransmission_timeout t).
    { destruct Hck as (K1 & K2 & _). unfold u64. rewrite Z.add_mod_idemp_r by lia.
      replace (tx_timer t + (tx_retransmission_timeout t - tx_timer t)) with (tx_retransmission_timeout t) by lia.
      apply Z.mod_small. lia. }
    rewrite Hexp, Z.leb_refl in H6. destruct H6 as ((s & Hs & _ & Ho) & _). exists s.
    rewrite Eo in Ho. split; [done|]. unfold tracks. rewrite H4, F1. by apply (tracked_last _ _ _ _ _ _ _ (ti_chain _ _ Ht)).
Qed.

Lemma acked_all_state t S :
  tx_inv t S -> zlen S + 2 < W31 -> tx_next_ackno t = zlen S + 2 ->
  current_state t = FinAcked /\ tx_bytes_in_flight t = 0.
Proof.
  intros Ht Hsh Ha. pose proof (tx_next_bound t S Ht) as Hb. pose proof (ti_count _ _ Ht) as Hcnt.
  pose proof (so_le _ _ (ti_stream _ _ Ht)). pose proof (buffer_size_nonneg (tx_stream t)). zpos.
  assert (Hn : tx_next_seqno t = zlen S + 2) by lia. unfold tx_bytes_in_flight. rewrite Hcnt.
  split; [|lia].
  assert (He : eof (tx_stream t) = true).
  { destruct (ti_progress _ _ Ht) as [[]|[|[]]]; unfold sent in *; done || lia. }
  unfold current_state, next_seqno_absolute, tx_bytes_in_flight. rewrite (stream_of_written t S Ht), Hcnt, He, Hn, Ha.
  rewrite u64_id by lia. cbn [andb negb]. rewrite !andb_false_r. repeat case_match; zb; done || lia.
Qed.
