(* ===== verification/Recovery.v ===== *)
(** * Recovery: no reachable state is a trap

    The sender of [tcp_sender.cc] and the receiver of [tcp_receiver.cc], joined
    in both directions: segments one way, the receiver's own acknowledgements
    the other, both over a network that loses, duplicates and reorders.  From
    every state they can reach, if everything in flight is lost, the
    retransmission timer and one segment at a time are enough to complete the
    transfer, in a number of rounds bounded by the length of the stream. *)
From S2P Require Import Prelude WrappingIntegers ByteStream StreamReassembler Buffer TCPSegment TCPReceiver TCPSender Transfer Tracking.

(** ** The two sides together *)

(** The absolute sequence number the receiver waits for. *)
Definition rx_position (r : TCPReceiver) : Z :=
  if rx_have_SYN r then
    bytes_written (rx_stream_out r) + 1 + (if input_ended (rx_stream_out r) then 1 else 0)
  else 0.

(** The last index the receiver has room for. *)
Definition rx_edge (r : TCPReceiver) : Z := window_last (rx_reassembler r).

(** All of [s], which starts at [a], has been received, or nothing of it. *)
Definition whole (r : TCPReceiver) (hist : bytes) (s : TCPSegment) (a : Z) : Prop :=
  (forall j, a - 1 <= j < a - 1 + paylen s -> known (rx_reassembler r) hist j) /\
  (th_fin (header s) = true -> rx_have_FIN r = true).
Definition untouched (r : TCPReceiver) (hist : bytes) (s : TCPSegment) (a : Z) : Prop :=
  (forall j, a - 1 <= j < a - 1 + paylen s -> ~ known (rx_reassembler r) hist j) /\
  (th_fin (header s) = true -> rx_have_FIN r = false).

(** [s] was sent within the window, or it is a probe of a closed one. *)
Definition in_window (r : TCPReceiver) (s : TCPSegment) (a : Z) : Prop :=
  a - 1 + paylen s <= rx_edge r + 1 \/
  (paylen s <= 1 /\ (th_fin (header s) = true -> paylen s = 0)).

Section Link.
(** The receiver's capacity and the sender's initial sequence number. *)
Context (c : Z) (isn : WrappingInt32).
Hypothesis Hc : 1 <= c.
Hypothesis Hroom : c + 5 * W32 < W64.
Hypothesis Hisn : w32_ok isn.

(** A segment between the two: it occupies no numbers, or was acknowledged, or
    is tracked. *)
Definition in_flight (t : TCPSender) (S : bytes) (s : TCPSegment) : Prop :=
  exists a, sent_seg S isn (input_ended (tx_stream t)) s a /\ a + seg_len s <= tx_next_seqno t /\
    (seg_len s = 0 \/ a + seg_len s <= tx_next_ackno t \/ tracks t s a).

(** An acknowledgement that the receiver gave at some time. *)
Definition honest (r : TCPReceiver) (p : WrappingInt32 * Z) : Prop :=
  exists x, p.1 = wrap x isn /\ 1 <= x <= rx_position r /\ 0 <= p.2 < W16 /\
    (input_ended (rx_stream_out r) = true \/ x + p.2 <= rx_edge r + 2).

Record live (t : TCPSender) (S : bytes) (net : list TCPSegment) (acks : list (WrappingInt32 * Z))
    (r : TCPReceiver) (hist : bytes) : Prop := {
  lv_tx : tx_inv t S;
  lv_clock : clock_ok t;
  lv_isn : tx_isn t = isn;
  lv_short : zlen S + 2 < W31;
  lv_rx : rx_inv S isn c r hist;
  lv_ended : rx_ended S r hist;
  lv_syn : rx_have_SYN r = true -> 1 <= tx_next_seqno t;
  lv_fin : rx_have_FIN r = true -> tx_next_seqno t = zlen S + 2;
  lv_known : forall j, 0 <= j -> known (rx_reassembler r) hist j -> j + 2 <= tx_next_seqno t;
  lv_acked : tx_next_ackno t <= rx_position r;
  lv_window : input_ended (rx_stream_out r) = true \/
    tx_next_ackno t + tx_window_size t <= rx_edge r + 2;
  lv_remain : input_ended (rx_stream_out r) = true \/
    tx_next_ackno t + tx_remain_window_size t <= rx_edge r + 2 \/ tx_remain_window_size t <= 1;
  lv_pool : Forall (in_flight t S) (tx_segments_out t ++ net);
  lv_atomic : forall s a, tracks t s a ->
    in_window r s a /\ (whole r hist s a \/ untouched r hist s a);
  lv_acks : Forall (honest r) acks }.

Section Facts.
Context (t : TCPSender) (S : bytes) (net : list TCPSegment) (acks : list (WrappingInt32 * Z))
  (r : TCPReceiver) (hist : bytes).
Hypothesis L : live t S net acks r hist.

Lemma lv_space : zlen S + c + 4 * W32 < W64.
Proof. pose proof (lv_short _ _ _ _ _ _ L). lia. Qed.

Lemma lv_bounds :
  0 <= tx_next_ackno t <= tx_next_seqno t /\ tx_next_seqno t <= zlen S + 2 /\
  0 <= zlen hist <= zlen S /\ rx_edge r = zlen hist - buffer_size (rx_stream_out r) + c - 1 /\
  0 <= buffer_size (rx_stream_out r) <= c /\ bytes_written (rx_stream_out r) = zlen hist.
Proof.
  pose proof (tx_next_bound t S (lv_tx _ _ _ _ _ _ L)). pose proof (lv_rx _ _ _ _ _ _ L) as Hr.
  pose proof (rx_stream _ _ _ _ _ Hr) as Hst. pose proof (hist_le _ _ _ _ Hst).
  pose proof (si_inv _ _ _ _ Hst) as Hra. pose proof (buffer_size_nonneg (rx_stream_out r)).
  unfold rx_edge, window_last. rewrite (ri_next _ _ Hra), (si_cap _ _ _ _ Hst).
  pose proof (ri_out _ _ Hra) as (? & Hb & ?). rewrite (ri_cap _ _ Hra), (si_cap _ _ _ _ Hst) in Hb. zpos.
  rewrite (rx_written _ _ _ _ _ Hr). unfold rx_stream_out, stream_out in *. split_and!; lia || done.
Qed.

Lemma lv_position : rx_position r <= tx_next_seqno t.
Proof.
  pose proof lv_bounds as (Hb & _ & Hh & _ & _ & Hw). unfold rx_position. rewrite Hw.
  destruct (rx_have_SYN r) eqn:ES; [|lia]. destruct (input_ended (rx_stream_out r)) eqn:Ee.
  - apply (re_ended _ _ _ (lv_ended _ _ _ _ _ _ L)) in Ee as [Hf Hl].
    rewrite (lv_fin _ _ _ _ _ _ L Hf). lia.
  - destruct (Z.eq_dec (zlen hist) 0); [pose proof (lv_syn _ _ _ _ _ _ L ES); lia|].
    pose proof (lv_known _ _ _ _ _ _ L (zlen hist - 1) ltac:(lia) ltac:(left; lia)). lia.
Qed.

(** The receiver waits for the first number of a segment: it has none in part. *)
Lemma lv_boundary s a : tracks t s a -> ~ a < rx_position r < a + seg_len s.
Proof.
  intros Ht Hin. pose proof lv_bounds as (Hb & Hn & Hh & _ & _ & Hw).
  pose proof (lv_tx _ _ _ _ _ _ L) as Htx.
  destruct (tracked_spec _ _ _ _ _ _ _ _ (ti_chain _ _ Htx) Ht) as (Hs & Hl & Ha & He & _).
  destruct (lv_atomic _ _ _ _ _ _ L s a Ht) as [_ Hat]. rewrite seg_len_pay in *.
  pose proof Hs as ((_ & Hsyn & Hcon) & _ & _).
  assert (Hns : th_syn (header s) = false).
  { destruct (th_syn (header s)); [|done]. subst a.
    pose proof (ti_syn _ _ Htx ltac:(lia)). destruct (th_fin _); pose proof (zlen_nonneg (buf_str (payload s))); unfold paylen in *; lia. }
  rewrite Hns in *. destruct Hcon as (_ & _ & _ & Hcf). fold (paylen s) in Hcf.
  unfold rx_position in Hin. rewrite Hw in Hin. destruct (rx_have_SYN r); [|lia].
  pose proof (lv_ended _ _ _ _ _ _ L) as [Hre _].
  destruct (input_ended (rx_stream_out r)) eqn:Ee.
  { destruct (proj1 Hre eq_refl) as [_ Hl']. lia. }
  assert (Hmiss : ~ known (rx_reassembler r) hist (zlen hist)).
  { intros [|Hk]; [lia|]. rewrite (inv_first_missing _ hist) in Hk; [by destruct Hk|].
    apply (rx_stream _ _ _ _ _ (lv_rx _ _ _ _ _ _ L)). }
  assert (Hp : a - 1 < a - 1 + paylen s) by (destruct (th_fin (header s)); lia).
  destruct Hat as [[Hk Hf]|[Hk Hf]]; [|apply (Hk (a - 1)); [lia|left; lia]].
  destruct (Z.lt_ge_cases (zlen hist) (a - 1 + paylen s)) as [Hlt|Hge]; [apply Hmiss, Hk; lia|].
  destruct (th_fin (header s)) eqn:Ef; [|lia]. specialize (Hcf eq_refl). specialize (Hf eq_refl).
  enough (false = true) by done. apply Hre. split; [done|lia].
Qed.

Lemma lv_at_boundary :
  rx_position r = tx_next_ackno t \/ exists s a, tracks t s a /\ rx_position r = a + seg_len s.
Proof.
  pose proof lv_bounds as (Hb & _). pose proof lv_position.
  apply (tracked_boundary _ _ _ _ _ _ _ (ti_chain _ _ (lv_tx _ _ _ _ _ _ L))).
  - pose proof (lv_acked _ _ _ _ _ _ L). lia.
  - apply lv_boundary.
Qed.

(** The acknowledgement the receiver would give now. *)
Lemma lv_ackno :
  rx_ackno r = (if rx_have_SYN r then Some (wrap (rx_position r) isn) else None).
Proof.
  pose proof lv_bounds as (_ & _ & Hh & _ & _ & Hw). pose proof lv_space.
  pose proof (rx_syn _ _ _ _ _ (lv_rx _ _ _ _ _ _ L)) as Hsyn. pose proof (lv_ended _ _ _ _ _ _ L) as [Hre _].
  unfold rx_ackno, rx_position. fold (rx_stream_out r). unfold rx_stream_out, stream_out in *.
  destruct (rx_have_SYN r); [|done]. rewrite Hw, Hsyn.
  destruct (input_ended (ra_output (rx_reassembler r))).
  - destruct (proj1 Hre eq_refl) as [-> _]. cbn [andb]. rewrite u64_id by lia. do 2 f_equal. lia.
  - rewrite andb_false_r, u64_id by lia. do 2 f_equal. lia.
Qed.

Lemma lv_honest ackno : rx_ackno r = Some ackno -> honest r (ackno, u16 (rx_window_size r)).
Proof.
  pose proof lv_bounds as (_ & _ & Hh & Hed & Hbf & Hw). pose proof lv_space.
  rewrite lv_ackno. destruct (rx_have_SYN r) eqn:ES; [|done]. intros [= <-].
  pose proof (lv_rx _ _ _ _ _ _ L) as [Hst Hcap _ _].
  rewrite (rx_window_size_eq r hist), Hcap; [|apply Hst|lia|by rewrite Hcap, (si_cap _ _ _ _ Hst)].
  pose proof (u16_range (c - buffer_size (rx_stream_out r))). exists (rx_position r). cbn [fst snd].
  split; [done|]. unfold rx_position. rewrite ES, Hw.
  assert (u16 (c - buffer_size (rx_stream_out r)) <= c - buffer_size (rx_stream_out r))
    by (apply Z.mod_le; lia).
  destruct (input_ended (rx_stream_out r)); split_and!; lia.
Qed.
End Facts.

(** *** The receiver's steps *)

Lemma rx_fin_kept r seg r' :
  rx_segment_received r seg = Ok r' -> rx_have_FIN r = true -> rx_have_FIN r' = true.
Proof.
  unfold rx_segment_received, rx_push. intros E Hf.
  destruct (negb (rx_have_SYN r)), (th_syn (header seg)); cbn [negb] in E; try (injection E as <-; done);
    destruct (push_substring _ _ _ _); try done; injection E as <-; cbn; rewrite Hf; by destruct (th_fin _).
Qed.

(** What is received whole stays whole, and a segment none of whose bytes
    arrived stays untouched. *)
Lemma atomic_frame r r' hist hist' s a :
  (forall j, a - 1 <= j < a - 1 + paylen s ->
     known (rx_reassembler r') hist' j <-> known (rx_reassembler r) hist j) ->
  (th_fin (header s) = true -> rx_have_FIN r' = rx_have_FIN r) ->
  whole r hist s a \/ untouched r hist s a -> whole r' hist' s a \/ untouched r' hist' s a.
Proof.
  intros Hk Hf [[H1 H2]|[H1 H2]].
  - left. split; [intros j Hj; apply Hk; auto|]. intros E. rewrite Hf by done. auto.
  - right. split; [intros j Hj Hkj; apply (H1 j Hj); by apply Hk|]. intros E. rewrite Hf by done. auto.
Qed.

Lemma honest_grows r r' p :
  rx_position r <= rx_position r' -> rx_edge r <= rx_edge r' ->
  (input_ended (rx_stream_out r) = true -> input_ended (rx_stream_out r') = true) ->
  honest r p -> honest r' p.
Proof.
  intros H1 H2 H3 (x & Hx & Hr & Hp & Ho). exists x. split; [done|]. split; [lia|]. split; [done|].
  destruct Ho; [left; auto|right; lia].
Qed.

(** A receiver that only moved forward. *)
Lemma live_rx t S net acks r hist r' hist' :
  live t S net acks r hist ->
  rx_inv S isn c r' hist' -> rx_ended S r' hist' ->
  (rx_have_SYN r' = true -> 1 <= tx_next_seqno t) ->
  (rx_have_FIN r' = true -> tx_next_seqno t = zlen S + 2) ->
  (forall j, 0 <= j -> known (rx_reassembler r') hist' j -> j + 2 <= tx_next_seqno t) ->
  rx_position r <= rx_position r' -> rx_edge r <= rx_edge r' ->
  (input_ended (rx_stream_out r) = true -> input_ended (rx_stream_out r') = true) ->
  (forall s a, tracks t s a -> in_window r s a -> whole r hist s a \/ untouched r hist s a ->
     whole r' hist' s a \/ untouched r' hist' s a) ->
  live t S net acks r' hist'.
Proof.
  intros [] Hr He Hs Hf Hk Hp Hw Hn Hat. constructor; try done.
  - lia.
  - destruct lv_window0; [left; auto|right; lia].
  - destruct lv_remain0 as [|[|]]; [left; auto|right; left; lia|right; right; lia].
  - intros s a Hsa. destruct (lv_atomic0 s a Hsa) as [Hin Ha]. split; [|by apply Hat].
    unfold in_window in *. destruct Hin; [left; lia|by right].
  - eapply Forall_impl; [exact lv_acks0|]. intros p. by apply honest_grows.
Qed.

Lemma live_read t S net acks r hist n :
  0 <= n -> live t S net acks r hist ->
  live t S net acks (rx_with_stream_out r (read (rx_stream_out r) n).1) hist.
Proof.
  intros Hn L. pose proof (lv_bounds _ _ _ _ _ _ L) as (_ & _ & _ & _ & Hbf & _).
  apply (live_rx _ _ _ _ r hist); try apply L; try done.
  - by apply rx_read_inv, L.
  - by apply rx_read_ended, L.
  - unfold rx_position. cbn [rx_have_SYN rx_with_stream_out rx_stream_out rx_reassembler].
    unfold rx_stream_out, stream_out. cbn [ra_output with_stream_out rx_reassembler rx_with_stream_out].
    rewrite read_ended. replace (bytes_written (read _ _).1) with (bytes_written (ra_output (rx_reassembler r)));
      [lia|]. unfold read, pop_output, set_error. by repeat case_match.
  - unfold rx_edge, window_last. cbn. fold (rx_stream_out r).
    enough (buffer_size (read (rx_stream_out r) n).1 <= buffer_size (rx_stream_out r))
      by (unfold rx_stream_out, stream_out in *; lia).
    unfold read, pop_output, set_error, peek_output. destruct (Z.ltb_spec (buffer_size (rx_stream_out r)) n).
    + cbn. unfold buffer_size in *. cbn. lia.
    + cbn. unfold buffer_size in *. cbn. rewrite zlen_zdrop by lia. lia.
  - unfold rx_stream_out, stream_out. cbn. by rewrite read_ended.
Qed.

Lemma known_dec ra hist j : known ra hist j \/ ~ known ra hist j.
Proof.
  unfold known. destruct (Z.lt_ge_cases j (zlen hist)); [left; by left|].
  destruct (staged_at (ra_staging_list ra) j); [left; right; eauto|right]. intros [|[? [=]]]. lia.
Qed.

Section Deliver.
(** The segment [s] that starts at [a] is delivered to [r]. *)
Context (t : TCPSender) (S : bytes) (net : list TCPSegment) (acks : list (WrappingInt32 * Z))
  (r : TCPReceiver) (hist : bytes) (s : TCPSegment) (a : Z) (r' : TCPReceiver) (hist' : bytes).
Hypothesis L : live t S net acks r hist.
Hypothesis Hs : sent_seg S isn (input_ended (tx_stream t)) s a.
Hypothesis Hn : a + seg_len s <= tx_next_seqno t.
Hypothesis E : rx_segment_received r s = Ok r'.
Hypothesis Hr' : rx_inv S isn c r' hist'.
Hypothesis Hmono : forall j,
  known (rx_reassembler r) hist j -> j < zlen S -> known (rx_reassembler r') hist' j.

Lemma deliver_near : Z.abs (a - zlen hist) < W31.
Proof.
  pose proof (lv_bounds _ _ _ _ _ _ L) as (Hb & HN & Hh & _). pose proof (lv_short _ _ _ _ _ _ L).
  destruct (span _ _ _ _ _ Hs) as (_ & _ & Hp & Ha & _). lia.
Qed.

(** A segment that shares nothing with [s]. *)
Lemma deliver_other s' a' :
  tracks t s' a' -> whole r hist s' a' \/ untouched r hist s' a' ->
  (forall j, a' - 1 <= j < a' - 1 + paylen s' -> ~ first_index s a <= j < first_index s a + paylen s) ->
  (th_fin (header s') = true -> th_fin (header s) = true -> False) ->
  whole r' hist' s' a' \/ untouched r' hist' s' a'.
Proof.
  intros Ht' Hat Hd Hff. pose proof (lv_tx _ _ _ _ _ _ L) as Htx. pose proof (lv_rx _ _ _ _ _ _ L) as Hr.
  pose proof (lv_space _ _ _ _ _ _ L) as Hsp0. pose proof deliver_near as Hnear. pose proof Hs as (Hpeer & _ & _).
  destruct (tracked_spec _ _ _ _ _ _ _ _ (ti_chain _ _ Htx) Ht') as (Hs' & _).
  destruct (span _ _ _ _ _ Hs') as (_ & _ & _ & _ & _ & Hin_S).
  pose proof (tracked_index t S s' a' Htx Ht') as Hi'. revert Hat. apply atomic_frame.
  - intros j Hj. split; [|intros Hk; apply Hmono; [done|lia]]. intros Hk.
    destruct (rx_segment_only S isn c Hc Hsp0 Hisn r hist s a r' hist' j Hr Hpeer Hnear E Hr' Hk) as [|Hj'];
      [done|]. exfalso. apply (Hd j Hj Hj').
  - intros Hf'. destruct (rx_have_FIN r) eqn:EF; [by eapply rx_fin_kept|].
    destruct (rx_have_FIN r') eqn:EF'; [|done].
    destruct (rx_segment_inv S isn c Hc Hsp0 Hisn r hist s a Hr Hpeer Hnear)
      as (r1 & w & E1 & _ & _ & _ & _ & Ifin & _).
    rewrite E in E1. injection E1 as <-. destruct (Ifin EF'); [congruence|]. exfalso; auto.
Qed.

(** [s] itself, when it is tracked: it fits the window, or is one byte. *)
Lemma deliver_self :
  tracks t s a -> in_window r s a -> whole r hist s a \/ untouched r hist s a ->
  whole r' hist' s a \/ untouched r' hist' s a.
Proof.
  intros Htr Hin Hat. pose proof (lv_tx _ _ _ _ _ _ L) as Htx. pose proof (lv_rx _ _ _ _ _ _ L) as Hr.
  pose proof (lv_space _ _ _ _ _ _ L) as Hsp0. pose proof Hs as (Hpeer & _ & _).
  destruct (th_syn (header s)) eqn:Hy.
  { destruct (tracked_syn t S s a Htx Htr Hy) as [Hp Hf]. left. split; [intros j; lia|congruence]. }
  destruct (rx_have_SYN r) eqn:ES.
  2:{ pose proof E as E0. unfold rx_segment_received in E0. rewrite ES, Hy in E0. injection E0 as E0.
      revert Hat. apply atomic_frame; rewrite <- E0; [|done]. intros j _. unfold known.
      rewrite <- (rx_written _ _ _ _ _ Hr'), <- (rx_written _ _ _ _ _ Hr). by rewrite E0. }
  destruct (rx_segment_inv S isn c Hc Hsp0 Hisn r hist s a Hr Hpeer deliver_near)
    as (r1 & w & E1 & I1 & _ & _ & _ & _ & Ifin & Iknown & _).
  rewrite E in E1. injection E1 as <-. specialize (Ifin ES Hy).
  assert (Hlen : zlen hist' = zlen (hist ++ w)).
  { by rewrite <- (rx_written _ _ _ _ _ Hr'), <- (rx_written _ _ _ _ _ I1). }
  destruct Hin as [Hin|[Hp1 Hpf]].
  - left. split; [|intros Hf; by rewrite Ifin, Hf]. intros j Hj. unfold known. rewrite Hlen.
    apply Iknown; try done. unfold rx_edge in Hin. lia.
  - destruct (Z.eq_dec (paylen s) 0) as [Hz|Hz]; [left; split; [lia|]; intros Ef; by rewrite Ifin, Ef|].
    assert (Ef : th_fin (header s) = false) by (destruct (th_fin (header s)); [by specialize (Hpf eq_refl)|done]).
    destruct (known_dec (rx_reassembler r') hist' (a - 1)) as [Hk|Hk];
      [left|right]; (split; [|by rewrite Ef]); intros j Hj; by replace j with (a - 1) by lia.
Qed.

(** The delivered segment [s] does not split a tracked segment [s']. *)
Lemma deliver_atomic s' a' :
  seg_len s = 0 \/ a + seg_len s <= tx_next_ackno t \/ tracks t s a ->
  tracks t s' a' -> in_window r s' a' -> whole r hist s' a' \/ untouched r hist s' a' ->
  whole r' hist' s' a' \/ untouched r' hist' s' a'.
Proof.
  intros Hcase Ht' Hin' Hat. pose proof (lv_tx _ _ _ _ _ _ L) as Htx.
  pose proof (lv_bounds _ _ _ _ _ _ L) as (Hb & HN & _).
  destruct (tracked_spec _ _ _ _ _ _ _ _ (ti_chain _ _ Htx) Ht') as (Hs' & Hl' & Ha' & He' & _).
  destruct (span _ _ _ _ _ Hs) as (Hsp & Hi0 & Hp0 & _ & Hfin & _).
  destruct (span _ _ _ _ _ Hs') as (Hsp' & _ & Hp0' & _ & Hfin' & _).
  pose proof (tracked_index t S s' a' Htx Ht') as Hi'.
  destruct Hcase as [Hz|[Hold|Htr]].
  - rewrite seg_len_pay in Hz. destruct (th_fin (header s)) eqn:Ef; [destruct (th_syn _); lia|].
    apply deliver_other; [done|done| |congruence]. intros j Hj. destruct (th_syn _); lia.
  - apply deliver_other; try done; [intros j Hj|intros _ Hf; specialize (Hfin Hf)];
      destruct (th_fin (header s)); try done; try lia.
  - destruct (tracked_disjoint _ _ _ _ _ _ _ _ _ _ (ti_chain _ _ Htx) Htr Ht') as [[<- <-]|Hdis];
      [by apply deliver_self|]. pose proof (tracked_index t S s a Htx Htr) as Hi. apply deliver_other; try done.
    + intros j Hj Hj'. destruct (th_fin (header s)), (th_fin (header s')); lia.
    + intros Hf' Hf. destruct (tracked_spec _ _ _ _ _ _ _ _ (ti_chain _ _ Htx) Htr) as (_ & Hl & _).
      specialize (Hfin Hf). specialize (Hfin' Hf'). rewrite Hf, Hf' in *. lia.
Qed.
End Deliver.

Lemma live_deliver t S net acks r hist s :
  live t S net acks r hist -> in_flight t S s -> fin_fits S r s ->
  exists r' w, rx_segment_received r s = Ok r' /\ live t S net acks r' (hist ++ w) /\
    bs_buffer (rx_stream_out r') = bs_buffer (rx_stream_out r) ++ w.
Proof.
  intros L Hs Hfits. pose proof Hs as (a & Hsent & Hn & Hcase). pose proof (lv_rx _ _ _ _ _ _ L) as Hr.
  pose proof (lv_bounds _ _ _ _ _ _ L) as (Hb & HN & Hh & Hed & _ & Hw).
  pose proof (lv_short _ _ _ _ _ _ L) as Hsh. pose proof (lv_space _ _ _ _ _ _ L) as Hsp0.
  destruct (span _ _ _ _ _ Hsent) as (Hsp & Hi0 & Hp0 & Ha0 & Hfin & _). pose proof Hsent as (Hpeer & _ & _).
  destruct (rx_segment_inv S isn c Hc Hsp0 Hisn r hist s a Hr Hpeer ltac:(lia))
    as (r' & w & E & I1 & Isyn & Ibuf & Iend & Ifin & _ & _ & Imono).
  specialize (Iend (lv_ended _ _ _ _ _ _ L) Hfits). exists r', w. split; [done|]. split; [|done].
  pose proof (rx_written _ _ _ _ _ I1) as Hw'. pose proof (rx_stream _ _ _ _ _ I1) as Hst'.
  pose proof (si_inv _ _ _ _ Hst') as Hra'. zpos.
  assert (Hended : input_ended (rx_stream_out r) = true -> input_ended (rx_stream_out r') = true).
  { intros He. apply (re_ended _ _ _ (lv_ended _ _ _ _ _ _ L)) in He as [Hf Hl].
    apply (re_ended _ _ _ Iend). split; [by eapply rx_fin_kept|].
    pose proof (hist_le _ _ _ _ Hst'). rewrite zlen_app in *. zpos. lia. }
  assert (Hlen1 : th_syn (header s) = true \/ th_fin (header s) = true -> 1 <= tx_next_seqno t).
  { rewrite seg_len_pay in Hn. destruct (th_syn _), (th_fin _); intros [|]; done || lia. }
  apply (live_rx _ _ _ _ r hist); try done.
  - rewrite Isyn. intros Hs'. apply orb_true_iff in Hs' as [Hs'|Hs']; [by apply L|auto].
  - intros Hf. destruct (Ifin Hf) as [Hf'|Hf']; [by apply L|]. specialize (Hfin Hf'). rewrite Hf' in Hsp. lia.
  - intros j Hj Hk. destruct (rx_segment_only S isn c Hc Hsp0 Hisn r hist s a r' _ j Hr Hpeer ltac:(lia) E I1 Hk) as [Hk'|Hk'].
    + by apply (lv_known _ _ _ _ _ _ L).
    + cbn zeta in Hk'. fold (first_index s a) (paylen s) in Hk'. destruct (th_fin _); lia.
  - unfold rx_position. rewrite Hw, Hw', Isyn, zlen_app. zpos. destruct (rx_have_SYN r); cbn [orb].
    + destruct (input_ended (rx_stream_out r)); [rewrite Hended by done; lia|].
      destruct (input_ended (rx_stream_out r')); lia.
    + destruct (th_syn (header s)); [|lia]. destruct (input_ended (rx_stream_out r')); lia.
  - unfold rx_edge in *. rewrite Hed. unfold window_last. rewrite (ri_next _ _ Hra'), (si_cap _ _ _ _ Hst').
    fold (stream_out (rx_reassembler r')). fold (rx_stream_out r'). unfold buffer_size. rewrite Ibuf, !zlen_app. lia.
  - intros s' a' Ht' Hin' Hat. by eapply (deliver_atomic t S net acks r hist s a).
Qed.

(** *** The sender's steps *)

Lemma in_flight_grows t t' S s :
  (input_ended (tx_stream t) = true -> input_ended (tx_stream t') = true) ->
  tx_next_seqno t <= tx_next_seqno t' -> tx_next_ackno t <= tx_next_ackno t' ->
  (forall s a, tracks t s a -> tracks t' s a \/ a + seg_len s <= tx_next_ackno t') ->
  in_flight t S s -> in_flight t' S s.
Proof.
  intros He Hn Ha Ht (a & (H1 & H2 & H3) & Hl & Hcase). exists a. split; [by split_and!; auto|].
  split; [lia|]. destruct Hcase as [|[|Hs]]; [by left|right; left; lia|]. destruct (Ht _ _ Hs); auto.
Qed.

(** A sender that only moved forward. *)
Lemma live_tx t S net acks r hist t' :
  live t S net acks r hist ->
  tx_inv t' S -> clock_ok t' -> tx_isn t' = tx_isn t ->
  tx_next_seqno t <= tx_next_seqno t' ->
  (rx_have_FIN r = true -> tx_next_seqno t' = tx_next_seqno t) ->
  tx_next_ackno t' <= rx_position r ->
  (input_ended (rx_stream_out r) = true \/ tx_next_ackno t' + tx_window_size t' <= rx_edge r + 2) ->
  (input_ended (rx_stream_out r) = true \/ tx_next_ackno t' + tx_remain_window_size t' <= rx_edge r + 2 \/
   tx_remain_window_size t' <= 1) ->
  Forall (in_flight t' S) (tx_segments_out t' ++ net) ->
  (forall s a, tracks t' s a -> tracks t s a \/ (in_window r s a /\ untouched r hist s a)) ->
  live t' S net acks r hist.
Proof.
  intros [] H1 H2 H3 H4 H5 H6 H7 H8 H9 H10. constructor; try done.
  - congruence.
  - intros Hs. specialize (lv_syn0 Hs). lia.
  - intros Hf. rewrite H5 by done. auto.
  - intros j Hj Hk. specialize (lv_known0 j Hj Hk). lia.
  - intros s a Hs. destruct (H10 s a Hs) as [Hs'|[Hin Hu]]; [auto|]. split; [done|by right].
Qed.

Lemma live_fill_step t S net acks r hist :
  live t S net acks r hist -> fill_guard t = true -> 1 <= tx_next_ackno t ->
  live (fill_step t) S net acks r hist.
Proof.
  intros L Hg Ha. pose proof (lv_tx _ _ _ _ _ _ L) as Htx.
  destruct (fill_step_inv t S Htx Hg Ha) as (F1 & F2 & F3 & F4 & F5 & F6 & _).
  destruct (fill_guard_spec t S Htx Hg Ha) as (Hw & Hn & _).
  destruct (fill_segment_spec t S Htx Hg Ha) as (s & b & E & Hso & He & Hs & Hl & _ & Hy & Hp & Hf & Hwin).
  pose proof (lv_bounds _ _ _ _ _ _ L) as (Hb & HN & _). pose proof (lv_short _ _ _ _ _ _ L) as Hsh.
  pose proof (so_le _ _ Hso) as Hle. pose proof (so_le _ _ (ti_stream _ _ Htx)).
  pose proof (buffer_size_nonneg (tx_stream t)). unfold sent in Hn.
  assert (HF : rx_have_FIN r = false).
  { destruct (rx_have_FIN r) eqn:HF; [|done]. pose proof (lv_fin _ _ _ _ _ _ L HF). lia. }
  assert (Hne : input_ended (rx_stream_out r) <> true).
  { intros He'. apply (re_ended _ _ _ (lv_ended _ _ _ _ _ _ L)) in He'. destruct He'; congruence. }
  destruct (span _ _ _ _ _ Hs) as (Hsp & _ & Hp0 & _). unfold first_index in Hsp. rewrite Hy in Hsp.
  assert (Hbound : 0 <= tx_next_seqno t + seg_len s < W64).
  { pose proof (buffer_size_nonneg b). unfold paylen in *. destruct (th_fin (header s)); lia. }
  assert (Hout : tx_segments_out (fill_step t) = tx_segments_out t ++ [s]) by (unfold fill_step; by rewrite E).
  assert (Htr : forall s' a, tracks (fill_step t) s' a <-> (s' = s /\ a = tx_next_seqno t) \/ tracks t s' a).
  { intros s' a. unfold tracks, fill_step. rewrite E, (sent_seg_len _ _ _ _ _ Hs).
    cbn [tx_next_seqno tx_tracking_segments tracked_at]. rewrite u64_id by lia.
    by replace (tx_next_seqno t + seg_len s - seg_len s) with (tx_next_seqno t) by lia. }
  assert (Hnew : in_window r s (tx_next_seqno t) /\ untouched r hist s (tx_next_seqno t)).
  { split.
    - destruct (lv_remain _ _ _ _ _ _ L) as [|[Hr|Hr]]; [done|left; unfold paylen in *; lia|right].
      unfold paylen in *. split; [lia|]. intros Hf'. destruct (Hf Hf'). lia.
    - split; [|done]. intros j Hj Hk. pose proof (lv_known _ _ _ _ _ _ L j ltac:(lia) Hk). lia. }
  apply (live_tx t); try done.
  - unfold fill_step. rewrite E. apply L.
  - lia.
  - congruence.
  - rewrite F4. apply L.
  - rewrite F4. unfold fill_step. rewrite E. apply L.
  - destruct (lv_remain _ _ _ _ _ _ L) as [|[Hr|Hr]]; [by left|right; left; lia|right; right; lia].
  - rewrite Hout, <- app_assoc. pose proof (lv_pool _ _ _ _ _ _ L) as Hpool. apply Forall_app in Hpool as [P1 P2].
    assert (Hgrow : forall x, in_flight t S x -> in_flight (fill_step t) S x).
    { intros x. apply in_flight_grows; [congruence|lia|lia|]. intros x' a' Hx. left. apply Htr. by right. }
    apply Forall_app. split; [by eapply Forall_impl|]. apply Forall_app. split; [|by eapply Forall_impl].
    constructor; [|done]. exists (tx_next_seqno t). rewrite F3, <- He, <- (lv_isn _ _ _ _ _ _ L).
    split; [done|]. assert (Ht : tracks (fill_step t) s (tx_next_seqno t)) by (apply Htr; by left).
    split; [|by right; right].
    destruct (tracked_spec _ _ _ _ _ _ _ _ (ti_chain _ _ F1) Ht) as (_ & _ & _ & ? & _). done.
  - intros s' a' Hs'. apply Htr in Hs' as [[-> ->]|Hs']; [by right|by left].
Qed.

Lemma live_fill_syn t S net acks r hist :
  live t S net acks r hist -> tx_next_seqno t = 0 -> live (fill_syn t) S net acks r hist.
Proof.
  intros L H0. pose proof (lv_tx _ _ _ _ _ _ L) as Htx. destruct (fill_syn_inv t S Htx H0) as [F1 F2].
  pose proof (lv_bounds _ _ _ _ _ _ L) as (Hb & HN & Hh & _). pose proof (lv_clock _ _ _ _ _ _ L) as Hck.
  assert (Hl : tx_tracking_segments t = []) by (apply (chain_empty _ _ _ _ _ _ (ti_chain _ _ Htx)); lia).
  assert (HF : rx_have_FIN r = false).
  { destruct (rx_have_FIN r) eqn:HF; [|done]. pose proof (lv_fin _ _ _ _ _ _ L HF). lia. }
  set (s := with_header (fun _ => set_ackno (wrap (tx_next_seqno t +! 1) (tx_isn t)) (set_syn true
    (set_seqno (tx_isn t) default_TCPHeader))) new_TCPSegment).
  assert (Hout : tx_segments_out (fill_syn t) = tx_segments_out t ++ [s]) by done.
  assert (Htr : forall s' a, tracks (fill_syn t) s' a <-> s' = s /\ a = 0).
  { intros s' a. unfold tracks, fill_syn. fold s. cbn [tx_next_seqno tx_tracking_segments]. rewrite Hl, H0.
    cbn [tracked_at]. change (0 +! 1 - seg_len s) with 0. tauto. }
  apply (live_tx t); try done; try apply L.
  - unfold clock_ok in *. cbn. lia.
  - lia.
  - congruence.
  - assert (Hgrow : forall x, in_flight t S x -> in_flight (fill_syn t) S x).
    { intros x. apply in_flight_grows; try done; [lia|]. intros x' a' Hx. unfold tracks in Hx.
      by rewrite Hl in Hx. }
    pose proof (lv_pool _ _ _ _ _ _ L) as Hpool. apply Forall_app in Hpool as [P1 P2].
    rewrite Hout, <- app_assoc. apply Forall_app. split; [by eapply Forall_impl|].
    apply Forall_app. split; [|by eapply Forall_impl]. constructor; [|done]. exists 0.
    assert (Hs : tracks (fill_syn t) s 0) by by apply Htr.
    destruct (tracked_spec _ _ _ _ _ _ _ _ (ti_chain _ _ F1) Hs) as (T1 & _ & _ & T2 & _).
    rewrite <- (lv_isn _ _ _ _ _ _ L). split; [exact T1|]. split; [done|by right; right].
  - intros s' a' Hs'. apply Htr in Hs' as [-> ->]. right. split.
    + right. done.
    + split; [|done]. intros j Hj. change (paylen s) with 0 in Hj. lia.
Qed.

Lemma live_fill_loop net acks r hist S fuel : forall t,
  live t S net acks r hist -> 1 <= tx_next_ackno t -> live (fill_loop fuel t) S net acks r hist.
Proof.
  induction fuel as [|fuel IH]; intros t L Ha; cbn [fill_loop]; [done|].
  destruct (fill_guard t) eqn:Hg; [|done]. apply IH; [by apply live_fill_step|].
  destruct (fill_step_inv t S (lv_tx _ _ _ _ _ _ L) Hg Ha) as (_ & _ & _ & -> & _). done.
Qed.

Lemma live_fill t S net acks r hist :
  live t S net acks r hist -> live (fill_window t) S net acks r hist.
Proof.
  intros L. pose proof (lv_tx _ _ _ _ _ _ L) as Htx. pose proof (tx_next_bound _ _ Htx) as Hb. unfold fill_window.
  destruct (current_state t) eqn:Es; [|done|..];
    [apply live_fill_syn; [done|by apply (current_state_closed t S Htx)]|..];
    apply live_fill_loop; try done;
    (destruct (Z.eq_dec (tx_next_ackno t) 0) as [E0|]; [|lia];
     destruct (Z.eq_dec (tx_next_seqno t) 0) as [E1|E1];
     [apply (current_state_closed t S Htx) in E1; congruence
     |assert (Hx : current_state t = SynSent) by (by apply (current_state_synsent t S Htx)); congruence]).
Qed.

(** The queue of the sender: segments leave it for the network or get lost, and
    a tracked segment or an empty one may be queued again. *)
Lemma live_out t S net acks r hist out net' :
  live t S net acks r hist -> Forall (in_flight t S) (out ++ net') ->
  live (tx_with_out t out) S net' acks r hist.
Proof.
  intros [] Hout. constructor; try done. destruct lv_tx0. constructor; try done. cbn.
  apply Forall_app in Hout as [H1 _]. eapply Forall_impl; [exact H1|].
  intros s (a & H2 & H3 & _). exists a. by rewrite lv_isn0.
Qed.

Lemma live_empty t S net acks r hist :
  live t S net acks r hist -> 1 <= tx_next_seqno t -> live (send_empty_segment t) S net acks r hist.
Proof.
  intros L Hn. pose proof (lv_bounds _ _ _ _ _ _ L) as (Hb & HN & _). pose proof (lv_short _ _ _ _ _ _ L).
  apply (live_out t S net); [done|]. pose proof (lv_pool _ _ _ _ _ _ L) as Hp. apply Forall_app in Hp as [H1 H2].
  rewrite <- app_assoc. apply Forall_app. split; [done|]. constructor; [|done].
  exists (tx_next_seqno t). split; [|by split; [unfold seg_len; cbn; zl|left]].
  split; [|done]. cbn. split; [unfold next_seqno; cbn; by rewrite (lv_isn _ _ _ _ _ _ L)|]. split; [done|].
  split; [cbn; lia|]. split; [done|]. split; [|done]. by intros [|].
Qed.

Lemma live_tick t S net acks r hist ms :
  live t S net acks r hist -> 0 <= ms ->
  exists t', tx_tick t ms = Ok t' /\ live t' S net acks r hist.
Proof.
  intros L Hms. pose proof (lv_tx _ _ _ _ _ _ L) as Htx. pose proof (lv_clock _ _ _ _ _ _ L) as Hck.
  destruct (tx_tick_spec t S ms Htx Hms) as (t' & E & T1 & T2 & T3 & T4 & T5 & _). exists t'. split; [done|].
  pose proof (tick_frame t ms t' Hck E) as Hf.
  destruct Hf as (F1 & F2 & F3 & F4 & l & F5 & F6).
  apply (live_tx t); try done; rewrite ?F2, ?F3, ?T4, ?T5; try apply L; try done.
  - pose proof (lv_pool _ _ _ _ _ _ L) as Hp. apply Forall_app in Hp as [P1 P2].
    assert (Hg : forall x, in_flight t S x -> in_flight t' S x).
    { intros x. apply in_flight_grows; rewrite ?T3, ?T4, ?T5; try done. intros y a Hy. left. unfold tracks.
      by rewrite T4, F1. }
    rewrite F5, <- app_assoc. apply Forall_app. split; [by eapply Forall_impl|]. apply Forall_app.
    split; [|by eapply Forall_impl]. apply Forall_forall. intros s Hs. apply F6 in Hs. apply Hg.
    pose proof (tracked_last _ _ _ _ _ _ _ (ti_chain _ _ Htx) Hs) as Ht. exists (tx_next_ackno t).
    destruct (tracked_spec _ _ _ _ _ _ _ _ (ti_chain _ _ Htx) Ht) as (H1 & _ & _ & H2 & _).
    rewrite <- (lv_isn _ _ _ _ _ _ L). split; [done|]. split; [done|by right; right].
  - intros s a. unfold tracks. rewrite T4, F1. by left.
Qed.

Lemma live_ack t S net acks r hist p :
  live t S net acks r hist -> honest r p ->
  live (ack_received t p.1 p.2) S net acks r hist.
Proof.
  intros L (x & Hx & Hr & Hp & Hor). pose proof (lv_tx _ _ _ _ _ _ L) as Htx.
  pose proof (lv_bounds _ _ _ _ _ _ L) as (Hb & HN & _). pose proof (lv_position _ _ _ _ _ _ L) as Hpos.
  pose proof (lv_isn _ _ _ _ _ _ L) as Hi. rewrite Hx, <- Hi.
  destruct (ack_received_cases t S x p.2 Htx (lv_clock _ _ _ _ _ _ L) (lv_short _ _ _ _ _ _ L) ltac:(lia) Hp)
    as (A1 & A2 & A3 & A4 & A5 & A6 & Hcase).
  set (t' := ack_received t (wrap x (tx_isn t)) p.2) in *.
  assert (Hgrow : tx_next_ackno t <= tx_next_ackno t' ->
    (forall s a, tracks t s a -> tracks t' s a \/ a + seg_len s <= tx_next_ackno t') ->
    Forall (in_flight t' S) (tx_segments_out t' ++ net)).
  { intros H1 H2. rewrite A6. eapply Forall_impl; [apply L|]. intros s.
    apply in_flight_grows; rewrite ?A5, ?A4; done || lia. }
  destruct Hcase as [(C1 & C2 & C3 & C4 & C5)|(_ & C2 & C3 & C4 & C5 & _)].
  - apply (live_tx t); try done; rewrite ?A4; try done.
    + lia.
    + rewrite C2, C3. destruct Hor; [by left|right; lia].
    + rewrite C2, C4. destruct (_ && _) eqn:E; [right; right; lia|]. destruct Hor; [by left|right; left; lia].
    + apply Hgrow; [lia|]. intros s a Hs. apply C5 in Hs as [|[]]; [by left|right; lia].
    + intros s a Hs. left. apply C5. by left.
  - assert (Hw : input_ended (rx_stream_out r) = true \/ tx_next_ackno t + tx_window_size t' <= rx_edge r + 2).
    { destruct C4 as [-> | [-> Hle]]; [apply L|]. destruct Hor; [by left|right; lia]. }
    apply (live_tx t); try done; rewrite ?A4, ?C2; try done; try apply L.
    + destruct C5 as [-> | ->]; [apply L|]. destruct (_ && _); [right; right; lia|]. tauto.
    + apply Hgrow; [lia|]. intros s a. unfold tracks. rewrite C3, A4. by left.
    + intros s a. unfold tracks. rewrite C3, A4. by left.
Qed.

(** *** The writer *)

Lemma in_flight_write t S d w s :
  input_ended (tx_stream t) = false -> in_flight t S s ->
  in_flight (tx_with_stream t (write (tx_stream t) d).1) (S ++ w) s.
Proof.
  intros He (a & H1 & H2 & H3). exists a. split; [|done].
  change (input_ended (tx_stream (tx_with_stream t (write (tx_stream t) d).1))) with (input_ended (tx_stream t)).
  rewrite He in *. by apply sent_seg_write.
Qed.

Lemma live_write t S net acks r hist d :
  live t S net acks r hist -> input_ended (tx_stream t) = false -> zlen S + zlen d + 2 < W31 ->
  live (tx_with_stream t (write (tx_stream t) d).1) (S ++ ztake (write (tx_stream t) d).2 d) net acks r hist.
Proof.
  intros L He Hd. destruct (tx_write_inv t S d (lv_tx _ _ _ _ _ _ L) He ltac:(lia)) as (w & H1 & H2 & H3).
  rewrite <- H3, <- H2 in *. assert (Hlw : zlen w <= zlen d)
    by (pose proof (f_equal zlen H2) as Hz; zpos; rewrite zlen_ztake in Hz; lia).
  destruct L as [L1 L2 L3 L4 L5 L6 L7 L8 L9 L10 L11 L12 L13 L14 L15].
  assert (HF : rx_have_FIN r = false).
  { destruct (rx_have_FIN r) eqn:HF; [|done]. pose proof (L8 eq_refl) as Hn. exfalso.
    pose proof (so_le _ _ (ti_stream _ _ L1)). pose proof (buffer_size_nonneg (tx_stream t)).
    destruct (ti_progress _ _ L1) as [[]|[|[_ Hx]]]; unfold sent in *; zpos; try lia.
    unfold eof in Hx. by rewrite He in Hx. }
  constructor; try done.
  - rewrite zlen_app. lia.
  - by apply rx_inv_write.
  - destruct L6 as [Hre Hrl]. constructor; [|congruence]. rewrite Hre, HF. by split; intros [].
  - by rewrite HF.
  - eapply Forall_impl; [exact L13|]. intros s. by apply in_flight_write.
Qed.

Lemma live_end t S net acks r hist :
  live t S net acks r hist -> live (tx_with_stream t (end_input (tx_stream t))) S net acks r hist.
Proof.
  intros L. apply (live_tx t); try done; try apply L.
  - apply tx_end_input_inv, L.
  - eapply Forall_impl; [apply L|]. intros s. by apply in_flight_grows; auto.
  - by left.
Qed.

(** ** Runs *)

(** Both directions of the network keep what was ever put on them: delivering a
    segment or an acknowledgement does not remove it. *)
Record link : Type := mkLink {
  lk_tx : TCPSender;
  lk_S : bytes;
  lk_net : list TCPSegment;
  lk_acks : list (WrappingInt32 * Z);
  lk_rx : TCPReceiver;
  lk_got : bytes }.

Inductive lk_step : link -> link -> Prop :=
  | lk_write t S net acks r got d :
      input_ended (tx_stream t) = false -> zlen S + zlen d + 2 < W31 ->
      lk_step (mkLink t S net acks r got)
        (mkLink (tx_with_stream t (write (tx_stream t) d).1) (S ++ ztake (write (tx_stream t) d).2 d)
           net acks r got)
  | lk_end t S net acks r got :
      lk_step (mkLink t S net acks r got)
        (mkLink (tx_with_stream t (end_input (tx_stream t))) S net acks r got)
  | lk_fill t S net acks r got :
      lk_step (mkLink t S net acks r got) (mkLink (fill_window t) S net acks r got)
  | lk_tick t S net acks r got ms t' :
      0 <= ms -> tx_tick t ms = Ok t' ->
      lk_step (mkLink t S net acks r got) (mkLink t' S net acks r got)
  | lk_empty t S net acks r got :
      1 <= next_seqno_absolute t ->
      lk_step (mkLink t S net acks r got) (mkLink (send_empty_segment t) S net acks r got)
  | lk_transmit t S net acks r got s out :
      tx_segments_out t = s :: out ->
      lk_step (mkLink t S net acks r got) (mkLink (tx_with_out t out) S (s :: net) acks r got)
  | lk_deliver t S net acks r got s r' :
      s ∈ net -> fin_fits S r s -> rx_segment_received r s = Ok r' ->
      lk_step (mkLink t S net acks r got) (mkLink t S net acks r' got)
  | lk_read t S net acks r got n :
      0 <= n ->
      lk_step (mkLink t S net acks r got)
        (mkLink t S net acks (rx_with_stream_out r (read (rx_stream_out r) n).1)
           (got ++ (read (rx_stream_out r) n).2))
  | lk_acknowledge t S net acks r got ackno :
      rx_ackno r = Some ackno ->
      lk_step (mkLink t S net acks r got)
        (mkLink t S net ((ackno, u16 (rx_window_size r)) :: acks) r got)
  | lk_ack t S net acks r got ackno win :
      (ackno, win) ∈ acks ->
      lk_step (mkLink t S net acks r got) (mkLink (ack_received t ackno win) S net acks r got).

Context (tx_cap rto : Z).
Hypothesis Htx_cap : 0 <= tx_cap < W64.
Hypothesis Hrto : 0 <= rto < W16.

Inductive lk_reachable : link -> Prop :=
  | lr_start : lk_reachable (mkLink (new_TCPSender tx_cap rto isn) [] [] [] (new_TCPReceiver c) [])
  | lr_step l l' : lk_reachable l -> lk_step l l' -> lk_reachable l'.

Definition lk_inv (l : link) : Prop :=
  exists hist, live (lk_tx l) (lk_S l) (lk_net l) (lk_acks l) (lk_rx l) hist /\
    lk_got l ++ bs_buffer (rx_stream_out (lk_rx l)) = hist.

Lemma live_start : live (new_TCPSender tx_cap rto isn) [] [] [] (new_TCPReceiver c) [].
Proof.
  constructor; try done.
  - by apply new_TCPSender_inv.
  - unfold clock_ok. cbn. lia.
  - apply rx_new; [done|rewrite zlen_nil; lia].
  - apply rx_new_ended.
  - intros j Hj [Hk|[b Hk]]; [rewrite zlen_nil in Hk; lia|done].
  - right. unfold rx_edge, window_last. cbn. change (buffer_size _) with 0. lia.
  - right. right. cbn. lia.
Qed.

Lemma lk_step_inv l l' : lk_inv l -> lk_step l l' -> lk_inv l'.
Proof.
  intros (hist & L & Hg) Hstep. unfold lk_inv. destruct Hstep as [t S net acks r got d He Hd|t S net acks r got
    |t S net acks r got|t S net acks r got ms t' Hms E|t S net acks r got Hn|t S net acks r got s out Eo
    |t S net acks r got s r' Hin Hf E|t S net acks r got n Hn|t S net acks r got ackno E
    |t S net acks r got ackno win Hin]; cbn in *.
  - exists hist. split; [by apply live_write|done].
  - exists hist. split; [by apply live_end|done].
  - exists hist. split; [by apply live_fill|done].
  - exists hist. destruct (live_tick t S net acks r hist ms L Hms) as (t1 & E1 & L1).
    rewrite E in E1. injection E1 as <-. done.
  - exists hist. split; [by apply live_empty|done].
  - exists hist. split; [|done]. eapply live_out; [exact L|].
    pose proof (lv_pool _ _ _ _ _ _ L) as Hp. rewrite Eo in Hp. cbn in Hp.
    inversion Hp as [|? ? H1 H2]; subst. apply Forall_app in H2 as [H2 H3]. apply Forall_app.
    split; [done|by constructor].
  - pose proof (lv_pool _ _ _ _ _ _ L) as Hp. apply Forall_app in Hp as [_ Hp]. rewrite Forall_forall in Hp.
    destruct (live_deliver t S net acks r hist s L (Hp s Hin) Hf) as (r1 & w & E1 & L1 & Hb).
    rewrite E in E1. injection E1 as <-. exists (hist ++ w). split; [done|]. by rewrite Hb, app_assoc, Hg.
  - exists hist. split; [by apply live_read|by apply read_moves].
  - exists hist. split; [|done]. pose proof (lv_honest _ _ _ _ _ _ L ackno E) as Hh. destruct L. constructor; try done.
    by constructor.
  - exists hist. split; [|done]. pose proof (lv_acks _ _ _ _ _ _ L) as Ha. rewrite Forall_forall in Ha.
    exact (live_ack t S net acks r hist _ L (Ha _ Hin)).
Qed.

Lemma lk_reachable_inv l : lk_reachable l -> lk_inv l.
Proof.
  induction 1 as [|l l' _ IH Hstep]; [exists []; split; [apply live_start|done]|]. by eapply lk_step_inv.
Qed.

(** ** Rounds *)

(** The acknowledgement of a round. *)
Definition acknowledged (t : TCPSender) (r : TCPReceiver) : TCPSender :=
  match rx_ackno r with
  | Some ackno => ack_received t ackno (u16 (rx_window_size r))
  | None => t
  end.

(** One round, in which everything that was in flight is lost but one segment:
    the sender fills the window, all it queued is lost, its timer expires, the
    reader empties the receiver's output, the retransmitted segment arrives,
    and so does the acknowledgement for it. *)
Definition recovery_round (t : TCPSender) (r : TCPReceiver) (got : bytes)
    : result (TCPSender * TCPReceiver * bytes) :=
  let t := tx_with_out (fill_window t) [] in
  let* t := tx_tick t (tx_retransmission_timeout t -! tx_timer t) in
  let '(b, d) := read (rx_stream_out r) (buffer_size (rx_stream_out r)) in
  let r := rx_with_stream_out r b in
  let* r := match tx_segments_out t with s :: _ => rx_segment_received r s | [] => Ok r end in
  let t := tx_with_out t [] in
  Ok (acknowledged t r, r, got ++ d).

Fixpoint recovery_rounds (n : nat) (t : TCPSender) (r : TCPReceiver) (got : bytes)
    : result (TCPSender * TCPReceiver * bytes) :=
  match n with
  | O => Ok (t, r, got)
  | Datatypes.S n => let* (tr, got) := recovery_round t r got in recovery_rounds n tr.1 tr.2 got
  end.

Section Oldest.
(** The oldest tracked segment, and a receiver whose output has been read. *)
Context (t : TCPSender) (S : bytes) (net : list TCPSegment) (acks : list (WrappingInt32 * Z))
  (r : TCPReceiver) (hist : bytes) (s : TCPSegment).
Hypothesis L : live t S net acks r hist.
Hypothesis Hold : tracks t s (tx_next_ackno t).
Hypothesis Hread : buffer_size (rx_stream_out r) = 0.

Lemma oldest_in_flight : in_flight t S s.
Proof.
  destruct (tracked_spec _ _ _ _ _ _ _ _ (ti_chain _ _ (lv_tx _ _ _ _ _ _ L)) Hold) as (H1 & _ & _ & H2 & _).
  exists (tx_next_ackno t). rewrite <- (lv_isn _ _ _ _ _ _ L). split; [done|]. split; [done|by right; right].
Qed.

(** Everything below the sender's [_next_ackno] has been assembled. *)
Lemma acked_assembled :
  tx_next_ackno t <= zlen hist + 1 \/ (input_ended (rx_stream_out r) = true /\ zlen hist = zlen S).
Proof.
  pose proof (lv_acked _ _ _ _ _ _ L) as Ha. pose proof (lv_bounds _ _ _ _ _ _ L) as (Hb & _ & Hh & _ & _ & Hw).
  unfold rx_position in Ha. rewrite Hw in Ha. destruct (rx_have_SYN r); [|left; lia].
  destruct (input_ended (rx_stream_out r)) eqn:Ee; [right|left; lia]. split; [done|].
  by apply (re_ended _ _ _ (lv_ended _ _ _ _ _ _ L)) in Ee as [_ ?].
Qed.

Lemma oldest_fits : fin_fits S r s.
Proof.
  intros Hf. pose proof (lv_tx _ _ _ _ _ _ L) as Htx.
  destruct (tracked_spec _ _ _ _ _ _ _ _ (ti_chain _ _ Htx) Hold) as (H1 & _).
  destruct (span _ _ _ _ _ H1) as (_ & _ & Hp & _ & Hfin & _). specialize (Hfin Hf).
  pose proof (lv_bounds _ _ _ _ _ _ L) as (Hb & _ & Hh & Hed & _ & Hw). rewrite Hw.
  destruct (lv_atomic _ _ _ _ _ _ L s _ Hold) as [Hin _].
  assert (Hy : th_syn (header s) = false).
  { destruct (th_syn (header s)) eqn:Hy; [|done]. destruct (tracked_syn t S s _ Htx Hold Hy). congruence. }
  unfold first_index in Hfin. rewrite Hy in Hfin. pose proof acked_assembled as Ha.
  destruct (Z.eq_dec (paylen s) 0) as [Hz|Hz]; [left; lia|right].
  split; [intros E; unfold paylen in Hz; by rewrite E in Hz|]. fold (rx_edge r).
  destruct Hin as [Hin|[_ Hpf]]; [lia|]. specialize (Hpf Hf). lia.
Qed.

(** Its delivery moves the receiver past it. *)
Lemma oldest_advances r' hist' :
  rx_segment_received r s = Ok r' -> live t S net acks r' hist' ->
  tx_next_ackno t + seg_len s <= rx_position r'.
Proof.
  intros E L'. pose proof (lv_tx _ _ _ _ _ _ L) as Htx. pose proof (lv_rx _ _ _ _ _ _ L) as Hr.
  destruct (tracked_spec _ _ _ _ _ _ _ _ (ti_chain _ _ Htx) Hold) as (H1 & H2 & _ & H3 & _).
  rewrite (lv_isn _ _ _ _ _ _ L) in H1. pose proof H1 as (Hpeer & _).
  destruct (span _ _ _ _ _ H1) as (Hsp & _ & Hp & _ & Hfin & HinS).
  pose proof (lv_bounds _ _ _ _ _ _ L) as (Hb & HN & Hh & Hed & _ & Hw).
  pose proof (lv_bounds _ _ _ _ _ _ L') as (_ & _ & Hh' & _ & _ & Hw').
  pose proof (lv_short _ _ _ _ _ _ L) as Hsh. pose proof (lv_space _ _ _ _ _ _ L) as Hsp0.
  destruct (rx_segment_inv S isn c Hc Hsp0 Hisn r hist s _ Hr Hpeer ltac:(lia))
    as (r1 & w & E1 & I1 & Isyn & _ & _ & _ & Ifin & Iknown & _).
  rewrite E in E1. injection E1 as <-.
  assert (Hlen : zlen hist' = zlen hist + zlen w).
  { rewrite <- Hw', (rx_written _ _ _ _ _ I1). apply zlen_app. }
  zpos. destruct (th_syn (header s)) eqn:Hy.
  { destruct (tracked_syn t S s _ Htx Hold Hy) as [Hp0 Hf0]. unfold first_index in Hsp. rewrite Hy, Hf0 in Hsp.
    unfold rx_position. rewrite Isyn, orb_true_r, Hw'. destruct (input_ended (rx_stream_out r')); lia. }
  pose proof Hpeer as (_ & Ha1 & _). rewrite Hy in Ha1. unfold first_index in Hsp, Hfin, HinS. rewrite Hy in Hsp, Hfin, HinS.
  assert (ES : rx_have_SYN r = true).
  { pose proof (lv_acked _ _ _ _ _ _ L) as Ha. unfold rx_position in Ha. destruct (rx_have_SYN r); [done|lia]. }
  specialize (Ifin ES eq_refl). pose proof acked_assembled as Ha.
  assert (Hall : tx_next_ackno t - 1 + paylen s <= zlen hist').
  { destruct (Z.le_gt_cases (tx_next_ackno t - 1 + paylen s) (zlen hist')) as [|Hgt]; [done|]. exfalso.
    assert (Hk : known (rx_reassembler r') (hist ++ w) (zlen hist')).
    { apply Iknown; try done; [unfold paylen in *; lia|]. fold (rx_edge r).
      destruct (lv_atomic _ _ _ _ _ _ L s _ Hold) as [[Hin|[Hin _]] _]; lia. }
    destruct Hk as [Hk|Hk]; [rewrite zlen_app in Hk; lia|].
    rewrite Hlen, <- zlen_app, (inv_first_missing _ (hist ++ w)) in Hk; [by destruct Hk|].
    apply (rx_stream _ _ _ _ _ I1). }
  unfold rx_position. rewrite Isyn, ES, Hw'. cbn [orb]. destruct (th_fin (header s)) eqn:Ef; [|destruct (input_ended (rx_stream_out r')); lia].
  specialize (Hfin eq_refl).
  rewrite (proj2 (re_ended _ _ _ (lv_ended _ _ _ _ _ _ L'))); [lia|]. split; [by rewrite Ifin|lia].
Qed.
End Oldest.

(** *** A round is a run *)

Lemma lk_run_inv l l' : rtc lk_step l l' -> lk_inv l -> lk_inv l'.
Proof. induction 1; [done|]. intros. by eauto using lk_step_inv. Qed.

Lemma drain S acks r got out : forall t net,
  tx_segments_out t = out ->
  exists net', rtc lk_step (mkLink t S net acks r got) (mkLink (tx_with_out t []) S net' acks r got).
Proof.
  induction out as [|s out IH]; intros t net Eo.
  - exists net. rewrite <- Eo, tx_with_out_same. done.
  - destruct (IH (tx_with_out t out) (s :: net) eq_refl) as (net' & Hr). exists net'.
    eapply rtc_l; [by apply lk_transmit|exact Hr].
Qed.

Lemma acknowledged_run t S net acks r got :
  exists acks', rtc lk_step (mkLink t S net acks r got) (mkLink (acknowledged t r) S net acks' r got).
Proof.
  unfold acknowledged. destruct (rx_ackno r) as [ackno|] eqn:E; [|eauto using rtc_refl].
  eexists. eapply rtc_l; [by apply lk_acknowledge|]. eapply rtc_l; [|apply rtc_refl]. apply lk_ack. by left.
Qed.

(** When the sender has something in flight that the receiver has passed, the
    acknowledgement moves the sender to the receiver's position. *)
Lemma acknowledged_advances t S net acks r hist :
  live t S net acks r hist -> tx_next_ackno t < rx_position r ->
  tx_next_ackno (acknowledged t r) = rx_position r /\ tx_stream (acknowledged t r) = tx_stream t.
Proof.
  intros L Hlt. pose proof (lv_bounds _ _ _ _ _ _ L) as (Hb & _). pose proof (lv_position _ _ _ _ _ _ L).
  unfold acknowledged. rewrite (lv_ackno _ _ _ _ _ _ L).
  destruct (rx_have_SYN r) eqn:ES; [|unfold rx_position in Hlt; rewrite ES in Hlt; lia].
  rewrite <- (lv_isn _ _ _ _ _ _ L).
  destruct (ack_received_cases t S (rx_position r) (u16 (rx_window_size r)) (lv_tx _ _ _ _ _ _ L)
    (lv_clock _ _ _ _ _ _ L) (lv_short _ _ _ _ _ _ L) ltac:(lia) (u16_range _))
    as (_ & _ & _ & _ & A5 & _ & [(_ & C2 & _)|(C1 & _)]); [done|].
  destruct (lv_at_boundary _ _ _ _ _ _ L) as [|(s & a & Hs & Hx)]; [lia|]. by destruct (C1 s a Hs).
Qed.

(** With nothing in flight, it reopens the window. *)
Lemma acknowledged_reopens t S net acks r hist :
  live t S net acks r hist -> tx_next_ackno t = tx_next_seqno t -> 1 <= tx_next_ackno t ->
  tx_next_ackno (acknowledged t r) = tx_next_ackno t /\ 1 <= tx_remain_window_size (acknowledged t r) /\
  tx_stream (acknowledged t r) = tx_stream t.
Proof.
  intros L Heq H1. pose proof (lv_position _ _ _ _ _ _ L). pose proof (lv_acked _ _ _ _ _ _ L) as Ha.
  unfold acknowledged. rewrite (lv_ackno _ _ _ _ _ _ L).
  destruct (rx_have_SYN r) eqn:ES; [|unfold rx_position in Ha; rewrite ES in Ha; lia].
  rewrite <- (lv_isn _ _ _ _ _ _ L).
  destruct (ack_received_cases t S (rx_position r) (u16 (rx_window_size r)) (lv_tx _ _ _ _ _ _ L)
    (lv_clock _ _ _ _ _ _ L) (lv_short _ _ _ _ _ _ L) ltac:(lia) (u16_range _))
    as (_ & _ & _ & _ & A5 & _ & [(C1 & _)|(_ & C2 & _ & _ & _ & C5)]); [lia|].
  split; [done|]. split; [apply C5; lia|done].
Qed.

(** How far the sender is from the end; the second part counts the round that
    reopens a closed window. *)
Definition behind (S : bytes) (t : TCPSender) : Z :=
  2 * (zlen S + 2 - tx_next_ackno t) + (if tx_remain_window_size t =? 0 then 1 else 0).

Lemma read_all b : (read b (buffer_size b)).2 = bs_buffer b /\ buffer_size (read b (buffer_size b)).1 = 0.
Proof.
  unfold read, pop_output, peek_output. destruct (Z.ltb_spec (buffer_size b) (buffer_size b)); [lia|].
  cbn. unfold buffer_size. cbn. split; [apply ztake_all; lia|]. zpos. rewrite zlen_zdrop; lia.
Qed.

(** The receiver after the reader has read everything. *)
Definition emptied (r : TCPReceiver) : TCPReceiver :=
  rx_with_stream_out r (read (rx_stream_out r) (buffer_size (rx_stream_out r))).1.

(** A round up to the retransmission. *)
Lemma round_begins t S net acks r got :
  lk_inv (mkLink t S net acks r got) -> input_ended (tx_stream t) = true ->
  exists t' net', let got' := got ++ bs_buffer (rx_stream_out r) in
    rtc lk_step (mkLink t S net acks r got) (mkLink t' S net' acks (emptied r) got') /\
    recovery_round t r got =
      (let* r' := match tx_segments_out t' with
                  | s :: _ => rx_segment_received (emptied r) s
                  | [] => Ok (emptied r)
                  end in Ok (acknowledged (tx_with_out t' []) r', r', got')) /\
    tx_next_ackno t' = tx_next_ackno t /\ input_ended (tx_stream t') = true /\
    ((exists s, tx_segments_out t' = [s] /\ tracks t' s (tx_next_ackno t')) \/
     (tx_segments_out t' = [] /\ 1 <= tx_next_ackno t' /\ tx_next_ackno t' = tx_next_seqno t' /\
      (tx_next_seqno t' = zlen S + 2 \/ tx_remain_window_size t = 0))).
Proof.
  intros Hinv He. pose proof Hinv as (hist & L & Hg). cbn in L, Hg.
  destruct (fill_window_progress t S (lv_tx _ _ _ _ _ _ L) He) as (F1 & F2 & F3).
  destruct (drain S acks r got _ (fill_window t) net eq_refl) as (net1 & Hdrain).
  assert (R1 : rtc lk_step (mkLink t S net acks r got)
    (mkLink (tx_with_out (fill_window t) []) S net1 acks r got)) by (eapply rtc_l; [apply lk_fill|done]).
  set (t1 := tx_with_out (fill_window t) []) in *.
  destruct (lk_run_inv _ _ R1 Hinv) as (h1 & L1 & _). cbn in L1.
  destruct (round_tick t1 S (lv_tx _ _ _ _ _ _ L1) (lv_clock _ _ _ _ _ _ L1) eq_refl)
    as (t2 & E2 & T1 & T2 & T3 & T4 & T5).
  change (tx_next_ackno t1) with (tx_next_ackno (fill_window t)) in *.
  change (tx_next_seqno t1) with (tx_next_seqno (fill_window t)) in *.
  change (tx_stream t1) with (tx_stream (fill_window t)) in *.
  destruct (read_all (rx_stream_out r)) as [Hd _]. exists t2, net1. cbn zeta. split.
  { etrans; [exact R1|]. eapply rtc_l; [eapply lk_tick; [|exact E2]; apply u64_range|].
    eapply rtc_l; [|apply rtc_refl]. rewrite <- Hd. apply lk_read, buffer_size_nonneg. }
  split.
  { unfold recovery_round. fold t1. rewrite E2. cbn [rbind]. unfold emptied. rewrite <- Hd.
    by destruct (read (rx_stream_out r) _). }
  rewrite T1, T2, T3, F1 in *. split; [done|]. split; [done|].
  destruct F3 as [Hlt|(Et & H1 & Heq & Hor)].
  - destruct (Z.eqb_spec (tx_next_ackno t) (tx_next_seqno (fill_window t))); [lia|]. by left.
  - rewrite Et in *. rewrite Heq, Z.eqb_refl in T5. right. split; [done|]. split; [done|]. by split.
Qed.

(** A round brings the sender forward, or reopens its window. *)
Lemma round_spec t S net acks r got :
  lk_inv (mkLink t S net acks r got) -> input_ended (tx_stream t) = true ->
  exists t' r' net' acks',
    recovery_round t r got = Ok (t', r', got ++ bs_buffer (rx_stream_out r)) /\
    rtc lk_step (mkLink t S net acks r got) (mkLink t' S net' acks' r' (got ++ bs_buffer (rx_stream_out r))) /\
    input_ended (tx_stream t') = true /\
    (tx_next_ackno t' = zlen S + 2 \/ behind S t' < behind S t).
Proof.
  intros Hinv He. destruct (round_begins t S net acks r got Hinv He) as (t2 & net1 & R2 & -> & Ha & He2 & Hcase).
  set (got1 := got ++ bs_buffer (rx_stream_out r)) in *.
  destruct (lk_run_inv _ _ R2 Hinv) as (h2 & L2 & _). cbn in L2.
  assert (Hb0 : buffer_size (rx_stream_out (emptied r)) = 0) by apply read_all.
  destruct Hcase as [(s & Eo & Hs)|(Eo & H1 & Heq & Hor)]; rewrite Eo; cbn [rbind].
  - pose proof (oldest_fits _ _ _ _ _ _ _ L2 Hs Hb0) as Hfit.
    destruct (live_deliver _ _ _ _ _ _ _ L2 (oldest_in_flight _ _ _ _ _ _ _ L2 Hs) Hfit) as (r' & w & E' & L3 & _).
    pose proof (oldest_advances _ _ _ _ _ _ _ L2 Hs Hb0 r' _ E' L3) as Hadv.
    destruct (tracked_spec _ _ _ _ _ _ _ _ (ti_chain _ _ (lv_tx _ _ _ _ _ _ L2)) Hs) as (_ & Hl & _).
    assert (R3 : rtc lk_step (mkLink t S net acks r got) (mkLink (tx_with_out t2 []) S (s :: net1) acks r' got1)).
    { etrans; [exact R2|]. eapply rtc_l; [by apply lk_transmit|].
      eapply rtc_l; [|apply rtc_refl]. apply (lk_deliver _ _ _ _ _ _ s); [by left|exact Hfit|exact E']. }
    destruct (lk_run_inv _ _ R3 Hinv) as (h3 & L4 & _). cbn in L4.
    destruct (acknowledged_advances _ _ _ _ _ _ L4) as [A1 A2]; [cbn; lia|].
    destruct (acknowledged_run (tx_with_out t2 []) S (s :: net1) acks r' got1) as (acks' & R4).
    rewrite E'. cbn [rbind]. eexists _, r', _, acks'. split; [done|].
    split; [etrans; [exact R3|exact R4]|]. rewrite A2. split; [done|].
    right. unfold behind. rewrite A1. destruct (_ =? 0), (_ =? 0); lia.
  - assert (E3 : tx_with_out t2 [] = t2) by (rewrite <- Eo; apply tx_with_out_same). rewrite E3.
    destruct (acknowledged_reopens _ _ _ _ _ _ L2 Heq H1) as (A1 & A2 & A3).
    destruct (acknowledged_run t2 S net1 acks (emptied r) got1) as (acks' & R4).
    eexists _, _, _, acks'. split; [done|]. split; [etrans; [exact R2|exact R4]|].
    rewrite A3. split; [done|]. destruct Hor as [Hall|Hz]; [left; lia|right].
    unfold behind. rewrite A1, Ha, Hz. cbn [Z.eqb].
    destruct (Z.eqb_spec (tx_remain_window_size (acknowledged t2 (emptied r))) 0); lia.
Qed.

Lemma recovery_rounds_last n : forall t r got,
  recovery_rounds (Datatypes.S n) t r got =
  let* (tr, got) := recovery_rounds n t r got in recovery_round tr.1 tr.2 got.
Proof.
  induction n as [|n IH]; intros t r got.
  - cbn. destruct (recovery_round t r got) as [[[t' r'] g]|]; done.
  - cbn [recovery_rounds]. destruct (recovery_round t r got) as [[[t' r'] g]|]; cbn [rbind]; [|done]. apply IH.
Qed.

Lemma rounds_spec S n : forall t net acks r got,
  lk_inv (mkLink t S net acks r got) -> input_ended (tx_stream t) = true ->
  exists t' r' got' net' acks', recovery_rounds n t r got = Ok (t', r', got') /\
    rtc lk_step (mkLink t S net acks r got) (mkLink t' S net' acks' r' got') /\
    input_ended (tx_stream t') = true /\
    (tx_next_ackno t' = zlen S + 2 \/ behind S t' + Z.of_nat n <= behind S t).
Proof.
  induction n as [|n IH]; intros t net acks r got Hinv He.
  - exists t, r, got, net, acks. split; [done|]. split; [done|]. split; [done|]. right. lia.
  - destruct (IH t net acks r got Hinv He) as (t1 & r1 & g1 & net1 & acks1 & E1 & R1 & He1 & H1).
    pose proof (lk_run_inv _ _ R1 Hinv) as Hinv1.
    destruct (round_spec t1 S net1 acks1 r1 g1 Hinv1 He1) as (t2 & r2 & net2 & acks2 & E2 & R2 & He2 & H2).
    rewrite recovery_rounds_last, E1. cbn [rbind fst snd]. rewrite E2. do 5 eexists. split; [done|].
    assert (R : rtc lk_step (mkLink t S net acks r got)
      (mkLink t2 S net2 acks2 r2 (g1 ++ bs_buffer (rx_stream_out r1)))) by (etrans; [exact R1|exact R2]).
    split; [exact R|]. split; [done|]. destruct (lk_run_inv _ _ R Hinv) as (h & L & _). cbn in L.
    pose proof (lv_bounds _ _ _ _ _ _ L) as (Hb & HN & _). destruct H2 as [H2|H2]; [by left|].
    destruct H1 as [H1|H1]; [|right; lia]. left. unfold behind in H2. rewrite H1 in H2.
    destruct (_ =? 0), (_ =? 0); lia.
Qed.

(** Everything was sent, received, read and acknowledged. *)
Definition transfer_complete (l : link) : Prop :=
  lk_got l = lk_S l /\ eof (rx_stream_out (lk_rx l)) = true /\
  current_state (lk_tx l) = FinAcked /\ tx_bytes_in_flight (lk_tx l) = 0.

(** The sender's last acknowledgement: the receiver has the whole stream. *)
Lemma acked_all t S net acks r hist :
  live t S net acks r hist -> tx_next_ackno t = zlen S + 2 ->
  hist = S /\ input_ended (rx_stream_out r) = true.
Proof.
  intros L Ha. pose proof (lv_bounds _ _ _ _ _ _ L) as (Hb & HN & Hh & _ & _ & Hw).
  pose proof (lv_acked _ _ _ _ _ _ L) as Hp. unfold rx_position in Hp. rewrite Hw in Hp.
  destruct (rx_have_SYN r); [|zpos; lia]. destruct (input_ended (rx_stream_out r)) eqn:Ee; [|lia].
  split; [|done]. pose proof (si_hist _ _ _ _ (rx_stream _ _ _ _ _ (lv_rx _ _ _ _ _ _ L))) as ->.
  apply ztake_all. lia.
Qed.

Lemma recovery_completes l n :
  lk_inv l -> input_ended (tx_stream (lk_tx l)) = true -> 2 * zlen (lk_S l) + 6 <= Z.of_nat n ->
  exists t' r' got' net' acks', recovery_rounds n (lk_tx l) (lk_rx l) (lk_got l) = Ok (t', r', got') /\
    rtc lk_step l (mkLink t' (lk_S l) net' acks' r' got') /\
    transfer_complete (mkLink t' (lk_S l) net' acks' r' got').
Proof.
  destruct l as [t S net acks r got]. cbn [lk_tx lk_S lk_rx lk_got]. intros Hinv He Hn.
  destruct n as [|n]; [zpos; lia|].
  destruct (rounds_spec S n t net acks r got Hinv He) as (t1 & r1 & g1 & net1 & acks1 & E1 & R1 & He1 & H1).
  pose proof (lk_run_inv _ _ R1 Hinv) as Hinv1. pose proof Hinv1 as (h1 & L1 & Hg1). cbn in L1, Hg1.
  pose proof (lv_bounds _ _ _ _ _ _ L1) as (Hb1 & HN1 & _).
  assert (Ha1 : tx_next_ackno t1 = zlen S + 2).
  { destruct H1 as [|H1]; [done|]. pose proof Hinv as (h & L & _). cbn in L.
    pose proof (lv_bounds _ _ _ _ _ _ L) as (Hb & _). unfold behind in H1. zpos.
    destruct (_ =? 0), (_ =? 0); lia. }
  destruct (round_spec t1 S net1 acks1 r1 g1 Hinv1 He1) as (t2 & r2 & net2 & acks2 & E2 & R2 & He2 & H2).
  assert (R : rtc lk_step (mkLink t S net acks r got)
    (mkLink t2 S net2 acks2 r2 (g1 ++ bs_buffer (rx_stream_out r1)))) by (etrans; [exact R1|exact R2]).
  rewrite recovery_rounds_last, E1. cbn [rbind fst snd]. rewrite E2. do 5 eexists. split; [done|].
  split; [exact R|]. destruct (lk_run_inv _ _ R Hinv) as (h2 & L2 & Hg2). cbn in L2, Hg2.
  pose proof (lv_bounds _ _ _ _ _ _ L2) as (Hb2 & HN2 & _).
  destruct (acked_all _ _ _ _ _ _ L1 Ha1) as [Eh1 _].
  assert (Ha2 : tx_next_ackno t2 = zlen S + 2).
  { destruct H2 as [|H2]; [done|]. unfold behind in H2. rewrite Ha1 in H2. destruct (_ =? 0), (_ =? 0); lia. }
  destruct (acked_all _ _ _ _ _ _ L2 Ha2) as [Eh2 Hend]. rewrite Hg1, Eh1 in *. subst h2.
  split; [done|]. split; [|apply (acked_all_state t2 S); [apply L2|apply L2|done]]. cbn.
  apply (f_equal zlen) in Eh2. rewrite zlen_app in Eh2. unfold eof. rewrite Hend. cbn [andb].
  apply buffer_empty_true. unfold buffer_size. lia.
Qed.
End Link.

(** C6: Recovery (deadlock freedom, with a bound).  The sender and the receiver
    talk over a network that loses, duplicates, delays and reorders segments
    and acknowledgements; acknowledgements are ones the receiver gave.  From
    every state they can reach once the writer has ended its stream [S], even
    if everything in flight is lost: [2 * |S| + 6] rounds, in each of which only the
    retransmitted segment and its acknowledgement get through, complete the
    transfer.  The reader then has read exactly [S] and is at its end, and the
    sender is in its final state with nothing in flight; the rounds are steps
    of the two sides, and none of them throws.  A FIN is never delivered
    before the bytes it ends, the stream is shorter than half the sequence
    space. *)
Theorem recovery tx_cap rto isn c l n :
  1 <= c -> c + 5 * W32 < W64 -> w32_ok isn -> 0 <= tx_cap < W64 -> 0 <= rto < W16 ->
  lk_reachable c isn tx_cap rto l -> input_ended (tx_stream (lk_tx l)) = true ->
  2 * zlen (lk_S l) + 6 <= Z.of_nat n ->
  exists t' r' net' acks', recovery_rounds n (lk_tx l) (lk_rx l) (lk_got l) = Ok (t', r', lk_S l) /\
    rtc lk_step l (mkLink t' (lk_S l) net' acks' r' (lk_S l)) /\
    eof (rx_stream_out r') = true /\ current_state t' = FinAcked /\ tx_bytes_in_flight t' = 0.
Proof.
  intros Hc Hroom Hi Hcap Hrto Hr He Hn.
  pose proof (lk_reachable_inv c isn Hc Hroom Hi tx_cap rto Hcap Hrto l Hr) as Hinv.
  destruct (recovery_completes c isn Hc Hroom Hi l n Hinv He Hn)
    as (t' & r' & g & net' & acks' & E & R & (C1 & C2 & C3 & C4)).
  cbn in C1. subst g. by exists t', r', net', acks'.
Qed.

(** The writer wrote "ab" and ended, the receiver has room for one byte, and
    nothing was transmitted yet. *)
Lemma recovery_witness :
  exists l t' r', lk_reachable 1 (mkW32 4294967295) 10 1000 l /\ lk_S l = [x61; x62] /\
    recovery_rounds 10 (lk_tx l) (lk_rx l) (lk_got l) = Ok (t', r', [x61; x62]) /\
    eof (rx_stream_out r') = true /\ current_state t' = FinAcked.
Proof.
  set (t0 := new_TCPSender 10 1000 (mkW32 4294967295)).
  set (t1 := tx_with_stream t0 (write (tx_stream t0) [x61; x62]).1).
  set (t2 := tx_with_stream t1 (end_input (tx_stream t1))).
  set (l := mkLink t2 [x61; x62] [] [] (new_TCPReceiver 1) []).
  assert (R : lk_reachable 1 (mkW32 4294967295) 10 1000 l).
  { eapply lr_step; [|apply lk_end]. eapply lr_step; [apply lr_start|].
    apply (lk_write t0 [] [] [] (new_TCPReceiver 1) [] [x61; x62]); reflexivity. }
  destruct (recovery 10 1000 (mkW32 4294967295) 1 l 10) as (t' & r' & net' & acks' & E & _ & H1 & H2 & _);
    [lia|lia|done|lia|lia|exact R|reflexivity|vm_compute; congruence|].
  exists l, t', r'. split; [exact R|]. split; [reflexivity|]. split; [exact E|]. split; [exact H1|exact H2].
Defined.
