(* ===== verification/TCPConnection.v ===== *)
(** * A TCP endpoint

    [libsponge/tcp_connection.hh] and [.cc]: one sender and one receiver, the
    queue of outgoing segments, and the rules for closing and resetting.
    [libsponge/tcp_helpers/tcp_state.hh] and [.cc] summarise its state. *)
From S2P Require Import Prelude WrappingIntegers ByteStream StreamReassembler Buffer Parser TCPSegment TCPReceiver TCPSender.

(** [TCPConfig]; the initial sequence number is [fixed_isn] or a random one. *)
Record TCPConfig : Type := mkTCPConfig {
  cfg_rt_timeout : Z;
  cfg_recv_capacity : Z;
  cfg_send_capacity : Z;
  cfg_isn : WrappingInt32 }.

Definition MAX_RETX_ATTEMPTS : Z := 8.

Record TCPConnection : Type := mkTCPConnection {
  tc_cfg : TCPConfig;
  tc_receiver : TCPReceiver;
  tc_sender : TCPSender;
  tc_segments_out : list TCPSegment;
  tc_linger_after_streams_finish : bool;
  tc_is_active : bool;
  tc_time_since_last_segment_received : Z }.

Definition new_TCPConnection (cfg : TCPConfig) : TCPConnection :=
  mkTCPConnection cfg (new_TCPReceiver (cfg_recv_capacity cfg))
    (new_TCPSender (cfg_send_capacity cfg) (cfg_rt_timeout cfg) (cfg_isn cfg)) [] true true 0.

(** The changes the operations make to the members. *)
Definition tc_with_receiver (c : TCPConnection) (r : TCPReceiver) : TCPConnection :=
  mkTCPConnection (tc_cfg c) r (tc_sender c) (tc_segments_out c) (tc_linger_after_streams_finish c)
    (tc_is_active c) (tc_time_since_last_segment_received c).
Definition tc_with_sender (c : TCPConnection) (t : TCPSender) : TCPConnection :=
  mkTCPConnection (tc_cfg c) (tc_receiver c) t (tc_segments_out c) (tc_linger_after_streams_finish c)
    (tc_is_active c) (tc_time_since_last_segment_received c).
Definition tc_with_out (c : TCPConnection) (out : list TCPSegment) : TCPConnection :=
  mkTCPConnection (tc_cfg c) (tc_receiver c) (tc_sender c) out (tc_linger_after_streams_finish c)
    (tc_is_active c) (tc_time_since_last_segment_received c).
Definition tc_with_linger (c : TCPConnection) (b : bool) : TCPConnection :=
  mkTCPConnection (tc_cfg c) (tc_receiver c) (tc_sender c) (tc_segments_out c) b
    (tc_is_active c) (tc_time_since_last_segment_received c).
Definition tc_with_active (c : TCPConnection) (b : bool) : TCPConnection :=
  mkTCPConnection (tc_cfg c) (tc_receiver c) (tc_sender c) (tc_segments_out c)
    (tc_linger_after_streams_finish c) b (tc_time_since_last_segment_received c).
Definition tc_with_time (c : TCPConnection) (ms : Z) : TCPConnection :=
  mkTCPConnection (tc_cfg c) (tc_receiver c) (tc_sender c) (tc_segments_out c)
    (tc_linger_after_streams_finish c) (tc_is_active c) ms.

Definition tc_remaining_outbound_capacity (c : TCPConnection) : Z :=
  remaining_capacity (tx_stream (tc_sender c)).
Definition tc_bytes_in_flight (c : TCPConnection) : Z := tx_bytes_in_flight (tc_sender c).
Definition tc_unassembled_bytes (c : TCPConnection) : Z := rx_unassembled_bytes (tc_receiver c).
Definition tc_active (c : TCPConnection) : bool := tc_is_active c.
Definition inbound_stream (c : TCPConnection) : ByteStream := rx_stream_out (tc_receiver c).

(** The condition for a clean shutdown. *)
Definition is_satisfied_prereq (c : TCPConnection) : bool :=
  (rx_unassembled_bytes (tc_receiver c) =? 0) && eof (rx_stream_out (tc_receiver c))
  && (eof (tx_stream (tc_sender c)) && (tx_bytes_in_flight (tc_sender c) =? 0)).

(** The body of the loop of [_move_to_segments_out]: the acknowledgement number
    and the window of the receiver, if it has one; [win] is a [uint16_t]. *)
Definition stamp (r : TCPReceiver) (segment : TCPSegment) : TCPSegment :=
  match rx_ackno r with
  | Some ackno =>
      with_header (set_win (u16 (rx_window_size r)))
        (with_header (set_ackno ackno) (with_header (set_ack true) segment))
  | None => segment
  end.

Definition move_to_segments_out (c : TCPConnection) : TCPConnection :=
  tc_with_sender
    (tc_with_out c (tc_segments_out c ++ map (stamp (tc_receiver c)) (tx_segments_out (tc_sender c))))
    (tx_with_out (tc_sender c) []).

(** [_sender.fill_window()] and [_move_to_segments_out()]. *)
Definition tc_connect (c : TCPConnection) : TCPConnection :=
  move_to_segments_out (tc_with_sender c (fill_window (tc_sender c))).

(** [set_error] on both streams. *)
Definition set_errors (c : TCPConnection) : TCPConnection :=
  let c := tc_with_sender c (tx_with_stream (tc_sender c) (set_error (tx_stream (tc_sender c)))) in
  tc_with_receiver c (rx_with_stream_out (tc_receiver c) (set_error (rx_stream_out (tc_receiver c)))).

(** The end of [segment_received]. *)
Definition tc_close_check (c : TCPConnection) : TCPConnection :=
  let c :=
    if eof (rx_stream_out (tc_receiver c))
       && negb (eof (tx_stream (tc_sender c))
                && (next_seqno_absolute (tc_sender c) =? bytes_written (tx_stream (tc_sender c)) +! 2))
    then tc_with_linger c false else c in
  if negb (tc_linger_after_streams_finish c) && is_satisfied_prereq c
  then tc_with_active c false else c.

(** [segment_received] after the receiver has seen the segment. *)
Definition tc_after_receiver (c : TCPConnection) (seg : TCPSegment) : TCPConnection :=
  let c := if th_rst (header seg) then set_errors (tc_with_active c false) else c in
  let c :=
    if negb (next_seqno_absolute (tc_sender c) =? 0) && th_ack (header seg) then
      let c := tc_with_sender c
        (ack_received (tc_sender c) (th_ackno (header seg)) (th_win (header seg))) in
      tc_connect c
    else c in
  if 0 <? length_in_sequence_space seg then
    if next_seqno_absolute (tc_sender c) =? 0 then tc_connect c
    else
      let c := match tc_segments_out c with
               | [] => tc_with_sender c (send_empty_segment (tc_sender c))
               | _ => c
               end in
      tc_close_check (move_to_segments_out c)
  else tc_close_check c.

Definition tc_segment_received (c : TCPConnection) (seg : TCPSegment) : result TCPConnection :=
  let c := tc_with_time c 0 in
  let* r := rx_segment_received (tc_receiver c) seg in
  Ok (tc_after_receiver (tc_with_receiver c r) seg).

Definition tc_write (c : TCPConnection) (data : bytes) : TCPConnection * Z :=
  let '(s, written_length) := write (tx_stream (tc_sender c)) data in
  let c := tc_with_sender c (tx_with_stream (tc_sender c) s) in
  (tc_connect c, written_length).

Definition rst_segment : TCPSegment := with_header (set_rst true) new_TCPSegment.

(** What [tick] and the destructor do to reset the connection. *)
Definition tc_reset (c : TCPConnection) : TCPConnection :=
  let c := tc_with_out c (tc_segments_out c ++ [rst_segment]) in
  let c := set_errors (tc_with_active c false) in
  tc_with_linger c false.

Definition tc_tick (c : TCPConnection) (ms_since_last_tick : Z) : result TCPConnection :=
  let* t := tx_tick (tc_sender c) ms_since_last_tick in
  let c := tc_with_sender c t in
  let c := tc_with_time c (tc_time_since_last_segment_received c +! ms_since_last_tick) in
  let c := if (10 * cfg_rt_timeout (tc_cfg c) <=? tc_time_since_last_segment_received c)
              && is_satisfied_prereq c
           then tc_with_active c false else c in
  if MAX_RETX_ATTEMPTS <? tx_consecutive_retransmissions (tc_sender c) then Ok (tc_reset c)
  else Ok (move_to_segments_out c).

Definition tc_end_input_stream (c : TCPConnection) : TCPConnection :=
  tc_connect (tc_with_sender c (tx_with_stream (tc_sender c) (end_input (tx_stream (tc_sender c))))).

(** The destructor. *)
Definition tc_destroy (c : TCPConnection) : TCPConnection :=
  if tc_active c then tc_reset c else c.

(** ** The summary of the state *)

Module ReceiverSummary.
Definition ERROR : string := "error (connection was reset)".
Definition LISTEN : string := "waiting for SYN: ackno is empty".
Definition SYN_RECV : string := "SYN received (ackno exists), and input to stream hasn't ended".
Definition FIN_RECV : string := "input to stream has ended".
End ReceiverSummary.

Module SenderSummary.
Definition ERROR : string := "error (connection was reset)".
Definition CLOSED : string := "waiting for stream to begin (no SYN sent)".
Definition SYN_SENT : string := "stream started but nothing acknowledged".
Definition SYN_ACKED : string := "stream ongoing".
Definition FIN_SENT : string := "stream finished (FIN sent) but not fully acknowledged".
Definition FIN_ACKED : string := "stream finished and fully acknowledged".
End SenderSummary.

Record TCPState : Type := mkTCPState {
  ts_sender : string;
  ts_receiver : string;
  ts_active : bool;
  ts_linger_after_streams_finish : bool }.
#[global] Instance TCPState_eq_dec : EqDecision TCPState.
Proof. solve_decision. Defined.

Inductive State : Type :=
  | LISTEN | SYN_RCVD | SYN_SENT | ESTABLISHED | CLOSE_WAIT | LAST_ACK | FIN_WAIT_1 | FIN_WAIT_2
  | CLOSING | TIME_WAIT | CLOSED | RESET.

(** [TCPState(const TCPState::State)]. *)
Definition TCPState_of (s : State) : TCPState :=
  match s with
  | LISTEN => mkTCPState SenderSummary.CLOSED ReceiverSummary.LISTEN true true
  | SYN_RCVD => mkTCPState SenderSummary.SYN_SENT ReceiverSummary.SYN_RECV true true
  | SYN_SENT => mkTCPState SenderSummary.SYN_SENT ReceiverSummary.LISTEN true true
  | ESTABLISHED => mkTCPState SenderSummary.SYN_ACKED ReceiverSummary.SYN_RECV true true
  | CLOSE_WAIT => mkTCPState SenderSummary.SYN_ACKED ReceiverSummary.FIN_RECV true false
  | LAST_ACK => mkTCPState SenderSummary.FIN_SENT ReceiverSummary.FIN_RECV true false
  | CLOSING => mkTCPState SenderSummary.FIN_SENT ReceiverSummary.FIN_RECV true true
  | FIN_WAIT_1 => mkTCPState SenderSummary.FIN_SENT ReceiverSummary.SYN_RECV true true
  | FIN_WAIT_2 => mkTCPState SenderSummary.FIN_ACKED ReceiverSummary.SYN_RECV true true
  | TIME_WAIT => mkTCPState SenderSummary.FIN_ACKED ReceiverSummary.FIN_RECV true true
  | RESET => mkTCPState SenderSummary.ERROR ReceiverSummary.ERROR false false
  | CLOSED => mkTCPState SenderSummary.FIN_ACKED ReceiverSummary.FIN_RECV false false
  end.

Definition receiver_summary (r : TCPReceiver) : string :=
  if stream_error (rx_stream_out r) then ReceiverSummary.ERROR
  else match rx_ackno r with
       | None => ReceiverSummary.LISTEN
       | Some _ => if input_ended (rx_stream_out r) then ReceiverSummary.FIN_RECV
                   else ReceiverSummary.SYN_RECV
       end.

Definition sender_summary (t : TCPSender) : string :=
  if stream_error (tx_stream t) then SenderSummary.ERROR
  else if next_seqno_absolute t =? 0 then SenderSummary.CLOSED
  else if next_seqno_absolute t =? tx_bytes_in_flight t then SenderSummary.SYN_SENT
  else if negb (eof (tx_stream t)) then SenderSummary.SYN_ACKED
  else if next_seqno_absolute t <? bytes_written (tx_stream t) +! 2 then SenderSummary.SYN_ACKED
  else if negb (tx_bytes_in_flight t =? 0) then SenderSummary.FIN_SENT
  else SenderSummary.FIN_ACKED.

(** [TCPConnection::state()]. *)
Definition tc_state (c : TCPConnection) : TCPState :=
  mkTCPState (sender_summary (tc_sender c)) (receiver_summary (tc_receiver c)) (tc_active c)
    (if tc_active c then tc_linger_after_streams_finish c else false).

(** ** Any input *)

(** The fields of a segment from the network have values of their types. *)
Definition seg_in_ok (seg : TCPSegment) : Prop :=
  w32_ok (th_seqno (header seg)) /\ w32_ok (th_ackno (header seg)) /\
  0 <= th_win (header seg) < W16 /\ zlen (buf_str (payload seg)) < W32 - 2.

(** [S] is everything written to the outbound stream, [hist] everything
    assembled of the inbound stream. *)
Record tc_inv (c : TCPConnection) (S hist : bytes) : Prop := {
  tci_tx : tx_inv (tc_sender c) S;
  tci_rx : rx_wf (tc_receiver c) hist }.

Lemma new_TCPConnection_inv cfg :
  0 <= cfg_send_capacity cfg < W64 -> 1 <= cfg_recv_capacity cfg < W64 -> w32_ok (cfg_isn cfg) ->
  tc_inv (new_TCPConnection cfg) [] [].
Proof. intros. constructor; [by apply new_TCPSender_inv|by apply new_TCPReceiver_wf]. Qed.

Lemma tx_set_error_inv t S : tx_inv t S -> tx_inv (tx_with_stream t (set_error (tx_stream t))) S.
Proof. intros [? [] ? ? ? ? ? ? ? ? ? ?]. by constructor. Qed.
Lemma rx_set_error_wf r hist : rx_wf r hist -> rx_wf (rx_with_stream_out r (set_error (rx_stream_out r))) hist.
Proof. intros [H1 H2 H3]. constructor; try done. by apply set_error_inv. Qed.

Lemma move_inv c S hist : tc_inv c S hist -> tc_inv (move_to_segments_out c) S hist.
Proof. intros [H1 H2]. constructor; [apply tx_queue_inv; [done|by intros x Hx%elem_of_nil]|done]. Qed.
Lemma connect_inv c S hist : tc_inv c S hist -> tc_inv (tc_connect c) S hist.
Proof. intros [H1 H2]. apply move_inv. constructor; [by apply fill_window_inv|done]. Qed.
Lemma set_errors_inv c S hist : tc_inv c S hist -> tc_inv (set_errors c) S hist.
Proof. intros [H1 H2]. constructor; [by apply tx_set_error_inv|by apply rx_set_error_wf]. Qed.
Lemma close_check_inv c S hist : tc_inv c S hist -> tc_inv (tc_close_check c) S hist.
Proof. intros [H1 H2]. unfold tc_close_check. repeat case_match; by constructor. Qed.
Lemma reset_inv c S hist : tc_inv c S hist -> tc_inv (tc_reset c) S hist.
Proof.
  intros [H1 H2]. unfold tc_reset. 
  assert (H : tc_inv (set_errors (tc_with_active (tc_with_out c (tc_segments_out c ++ [rst_segment])) false)) S hist)
    by (apply set_errors_inv; by constructor).
  by destruct H.
Qed.
#[export] Hint Resolve move_inv connect_inv set_errors_inv close_check_inv reset_inv : sponge.

Lemma ack_received_inv t S ackno win :
  tx_inv t S -> w32_ok ackno -> 0 <= win < W16 -> tx_inv (ack_received t ackno win) S.
Proof. intros H1 H2 H3. by destruct (ack_received_spec t S ackno win H1 H2 H3) as (H & _). Qed.

Lemma ack_received_next t S ackno win :
  tx_inv t S -> w32_ok ackno -> 0 <= win < W16 -> tx_next_seqno (ack_received t ackno win) = tx_next_seqno t.
Proof. intros H1 H2 H3. by destruct (ack_received_spec t S ackno win H1 H2 H3) as (_ & _ & H & _). Qed.

Lemma tc_after_receiver_inv c S hist seg :
  tc_inv c S hist -> seg_in_ok seg -> tc_inv (tc_after_receiver c seg) S hist.
Proof.
  intros Hc (_ & Ha & Hw & _). unfold tc_after_receiver.
  set (c1 := if th_rst (header seg) then _ else c).
  assert (H1 : tc_inv c1 S hist).
  { unfold c1. case_match; [|done]. apply set_errors_inv. by destruct Hc. }
  clearbody c1. set (c2 := if negb _ && _ then _ else c1).
  assert (H2 : tc_inv c2 S hist).
  { unfold c2. case_match; [|done]. apply connect_inv. destruct H1. constructor; [by apply ack_received_inv|done]. }
  clearbody c2. case_match; [|by apply close_check_inv].
  destruct (Z.eqb_spec (next_seqno_absolute (tc_sender c2)) 0) as [|Hn]; [by apply connect_inv|].
  apply close_check_inv, move_inv. case_match; [|done]. destruct H2 as [H2 H3].
  constructor; [|done]. apply send_empty_segment_inv; [done|].
  pose proof (tx_next_bound _ _ H2). unfold next_seqno_absolute in Hn. lia.
Qed.

(** ** Every operation *)

Inductive tc_op : Type :=
  | CSegment (seg : TCPSegment)
  | CWrite (data : bytes)
  | CTick (ms : Z)
  | CEnd
  | CConnect
  | CRead (n : Z)
  | CDequeue.

Definition tc_step (c : TCPConnection) (o : tc_op) : result TCPConnection :=
  match o with
  | CSegment seg => tc_segment_received c seg
  | CWrite d => Ok (tc_write c d).1
  | CTick ms => tc_tick c ms
  | CEnd => Ok (tc_end_input_stream c)
  | CConnect => Ok (tc_connect c)
  | CRead n => Ok (tc_with_receiver c
      (rx_with_stream_out (tc_receiver c) (read (inbound_stream c) n).1))
  | CDequeue => Ok (tc_with_out c (drop 1 (tc_segments_out c)))
  end.

(** What the operations rely on: the writer does not write after the end, and
    64-bit counters do not overflow. *)
Definition tc_op_ok (c : TCPConnection) (o : tc_op) : Prop :=
  match o with
  | CSegment seg => seg_in_ok seg /\
      bytes_written (inbound_stream c) + rx_capacity (tc_receiver c) + 4 * W32 < W64
  | CWrite d => input_ended (tx_stream (tc_sender c)) = false /\
      bytes_written (tx_stream (tc_sender c)) + zlen d + 4 * W32 < W64
  | CTick ms => 0 <= ms
  | CRead n => 0 <= n
  | _ => True
  end.

Lemma tc_written c S hist : tc_inv c S hist ->
  bytes_written (tx_stream (tc_sender c)) = zlen S /\ bytes_written (inbound_stream c) = zlen hist.
Proof. intros [Ht [Hr _ _]]. split; [by apply stream_of_written|apply Hr]. Qed.

Lemma tc_step_inv c S hist o :
  tc_inv c S hist -> tc_op_ok c o ->
  exists c' w h, tc_step c o = Ok c' /\ tc_inv c' (S ++ w) (hist ++ h).
Proof.
  intros Hc Ho. pose proof Hc as [Ht Hr]. destruct (tc_written c S hist Hc) as [HwS Hwh].
  destruct o; cbn [tc_step tc_op_ok] in *; rewrite ?HwS, ?Hwh in Ho.
  - destruct Ho as [Hs Hroom]. pose proof Hs as (Hq & _ & _ & Hp).
    destruct (rx_segment_wf (tc_receiver c) hist seg Hr Hroom Hq ltac:(lia)) as (r & h & E & Hr' & _).
    unfold tc_segment_received. cbn [tc_receiver tc_with_time]. rewrite E. cbn [rbind].
    eexists _, [], h. rewrite app_nil_r. split; [done|]. by apply tc_after_receiver_inv.
  - destruct Ho as [He Hd]. destruct (tx_write_inv (tc_sender c) S data Ht He Hd) as (w & H & _).
    eexists _, w, []. rewrite app_nil_r. split; [done|]. unfold tc_write.
    destruct (write (tx_stream (tc_sender c)) data) as [s n]. cbn [fst] in *.
    apply connect_inv. by constructor.
  - destruct (tx_tick_spec (tc_sender c) S ms Ht Ho) as (t & E & Ht' & _). unfold tc_tick. rewrite E.
    cbn [rbind]. set (c1 := if _ && _ then _ else _). assert (H1 : tc_inv c1 S hist)
      by (unfold c1; case_match; by constructor).
    case_match; (eexists _, [], []; rewrite !app_nil_r; split; [done|]); eauto with sponge.
  - eexists _, [], []. rewrite !app_nil_r. split; [done|]. apply connect_inv.
    constructor; [by apply tx_end_input_inv|done].
  - eexists _, [], []. rewrite !app_nil_r. split; [done|]. by apply connect_inv.
  - eexists _, [], []. rewrite !app_nil_r. split; [done|]. constructor; [done|].
    destruct Hr as [H1 H2 H3]. constructor; try done. by apply read_inv.
  - eexists _, [], []. rewrite !app_nil_r. split; [done|]. by constructor.
Qed.

Inductive tc_reachable (cfg : TCPConfig) : TCPConnection -> Prop :=
  | tcr_new : tc_reachable cfg (new_TCPConnection cfg)
  | tcr_step c o c' :
      tc_reachable cfg c -> tc_op_ok c o -> tc_step c o = Ok c' -> tc_reachable cfg c'.

Definition cfg_ok (cfg : TCPConfig) : Prop :=
  0 <= cfg_send_capacity cfg < W64 /\ 1 <= cfg_recv_capacity cfg < W64 /\ w32_ok (cfg_isn cfg).

Lemma tc_reachable_inv cfg c : cfg_ok cfg -> tc_reachable cfg c -> exists S hist, tc_inv c S hist.
Proof.
  intros (H1 & H2 & H3). induction 1 as [|c o c' _ (S & hist & IH) Ho E].
  - exists [], []. by apply new_TCPConnection_inv.
  - destruct (tc_step_inv c S hist o IH Ho) as (c1 & w & h & E1 & H). rewrite E in E1.
    injection E1 as <-. eauto.
Qed.

(** C20: The endpoint survives anything.  Whatever segments arrive, well formed or
    forged, whatever is written and read and however time passes, every
    operation returns without throwing; at most 65536 sequence numbers are in
    flight, and the bytes held for the reader, assembled or not, never exceed
    the capacity. *)
Theorem connection_total cfg c o :
  cfg_ok cfg -> tc_reachable cfg c -> tc_op_ok c o ->
  (exists c', tc_step c o = Ok c') /\
  0 <= tc_bytes_in_flight c <= W16 /\
  buffer_size (inbound_stream c) + tc_unassembled_bytes c <= rx_capacity (tc_receiver c).
Proof.
  intros Hcfg Hr Ho. destruct (tc_reachable_inv cfg c Hcfg Hr) as (S & hist & Hc). split; [|split].
  - destruct (tc_step_inv c S hist o Hc Ho) as (c' & w & h & E & _). eauto.
  - destruct Hc as [Ht _]. pose proof (tx_next_bound _ _ Ht). pose proof (ti_flight _ _ Ht).
    unfold tc_bytes_in_flight, tx_bytes_in_flight. rewrite (ti_count _ _ Ht). lia.
  - destruct Hc as [_ [Hra Hcap _]]. unfold inbound_stream, rx_stream_out, stream_out,
      tc_unassembled_bytes, rx_unassembled_bytes. rewrite Hcap. by eapply held_bytes.
Qed.

(** The configuration and the segment of the examples. *)
Definition small_cfg (isn : Z) : TCPConfig := mkTCPConfig 1000 64 64 (mkW32 isn).
Lemma small_cfg_ok isn : 0 <= isn < W32 -> cfg_ok (small_cfg isn).
Proof. intros. split; [simpl; lia|]. split; [simpl; lia|done]. Qed.

Lemma seg_at_in_ok q syn fin d : 0 <= q < W32 -> zlen d < W16 -> seg_in_ok (seg_at q syn fin d).
Proof. intros. split; [done|]. split; [done|]. split; [done|]. simpl. rewrite buf_str_of. lia. Qed.

Lemma connection_total_witness :
  exists c', tc_step (new_TCPConnection (small_cfg 3)) (CSegment (seg_at 99 true true [x61])) = Ok c'.
Proof.
  destruct (connection_total (small_cfg 3) (new_TCPConnection (small_cfg 3))
    (CSegment (seg_at 99 true true [x61]))) as (H & _).
  - apply small_cfg_ok. lia.
  - apply tcr_new.
  - split; [apply seg_at_in_ok; [lia|reflexivity]|reflexivity].
  - exact H.
Defined.

(** ** Acknowledging *)

Lemma stamp_ack r a s : rx_ackno r = Some a ->
  th_ack (header (stamp r s)) = true /\ th_ackno (header (stamp r s)) = a /\
  th_win (header (stamp r s)) = u16 (rx_window_size r).
Proof. intros H. unfold stamp. by rewrite H. Qed.

(** The segments queued between [c] and [c'] all carry what [r] acknowledges. *)
Definition queued (r : TCPReceiver) (c c' : TCPConnection) : Prop :=
  exists new, tc_segments_out c' = tc_segments_out c ++ map (stamp r) new.

Lemma queued_refl r c c' : tc_segments_out c' = tc_segments_out c -> queued r c c'.
Proof. intros H. exists []. by rewrite H, app_nil_r. Qed.
Lemma queued_trans r c1 c2 c3 : queued r c1 c2 -> queued r c2 c3 -> queued r c1 c3.
Proof. intros [l1 H1] [l2 H2]. exists (l1 ++ l2). by rewrite H2, H1, map_app, app_assoc. Qed.
Lemma queued_move c : queued (tc_receiver c) c (move_to_segments_out c).
Proof. by eexists. Qed.
Lemma queued_connect c : queued (tc_receiver c) c (tc_connect c).
Proof. by eexists. Qed.

Lemma close_check_out c :
  tc_segments_out (tc_close_check c) = tc_segments_out c /\ tc_receiver (tc_close_check c) = tc_receiver c.
Proof. unfold tc_close_check. split; repeat case_match; done. Qed.

(** Marking the streams as failed does not change what is acknowledged. *)
Lemma set_errors_stamp c : stamp (tc_receiver (set_errors c)) = stamp (tc_receiver c).
Proof. done. Qed.

Lemma fill_window_syn t S : tx_inv t S -> tx_next_seqno t = 0 -> tx_segments_out (fill_window t) <> [].
Proof.
  intros Ht H0. unfold fill_window. rewrite (proj2 (current_state_closed t S Ht) H0). cbn.
  by destruct (tx_segments_out t).
Qed.

Lemma tc_after_receiver_out c S seg :
  tx_inv (tc_sender c) S -> w32_ok (th_ackno (header seg)) -> 0 <= th_win (header seg) < W16 ->
  queued (tc_receiver c) c (tc_after_receiver c seg) /\
  stamp (tc_receiver (tc_after_receiver c seg)) = stamp (tc_receiver c) /\
  (0 < length_in_sequence_space seg -> tc_segments_out (tc_after_receiver c seg) <> []).
Proof.
  intros Hc Ha Hw. unfold tc_after_receiver.
  set (c1 := if th_rst (header seg) then _ else c).
  assert (H1 : tx_inv (tc_sender c1) S /\ tc_segments_out c1 = tc_segments_out c /\ stamp (tc_receiver c1) = stamp (tc_receiver c)).
  { unfold c1. case_match; [|done]. split; [|done]. by apply tx_set_error_inv. }
  clearbody c1. destruct H1 as (I1 & O1 & S1). set (c2 := if negb _ && _ then _ else c1).
  assert (H2 : tx_inv (tc_sender c2) S /\ queued (tc_receiver c) c1 c2 /\ stamp (tc_receiver c2) = stamp (tc_receiver c)).
  { unfold c2. case_match; [|by split; [|split; [apply queued_refl|]]]. split; [|split; [|done]].
    - apply tx_queue_inv; [by apply fill_window_inv, ack_received_inv|by intros x Hx%elem_of_nil].
    - set (c0 := tc_with_sender c1 _). destruct (queued_connect c0) as [new Hn]. exists new.
      rewrite Hn. cbn [c0 tc_receiver tc_with_sender]. by rewrite S1. }
  clearbody c2. destruct H2 as (I2 & O2 & S2).
  assert (O3 : queued (tc_receiver c) c c2)
    by (destruct O2 as [new Hn]; exists new; by rewrite Hn, O1).
  destruct (Z.ltb_spec 0 (length_in_sequence_space seg)) as [Hl|Hl].
  2:{ destruct (close_check_out c2) as [E1 E2]. rewrite E2. split; [|split; [done|lia]].
      destruct O3 as [new Hn]. exists new. by rewrite E1. }
  destruct (Z.eqb_spec (next_seqno_absolute (tc_sender c2)) 0) as [Hz|Hz].
  - split; [|split; [done|]].
    + eapply queued_trans; [exact O3|]. destruct (queued_connect c2) as [new Hn]. exists new. by rewrite Hn, S2.
    + intros _ En. cbn in En. apply app_eq_nil in En as [_ En]. apply map_eq_nil in En.
      by apply (fill_window_syn _ S I2 Hz).
  - set (c3 := match tc_segments_out c2 with [] => _ | _ => c2 end).
    destruct (close_check_out (move_to_segments_out c3)) as [E1 E2]. rewrite E1, E2.
    assert (H3 : tc_segments_out c3 = tc_segments_out c2 /\ tc_receiver c3 = tc_receiver c2)
      by (unfold c3; by case_match).
    destruct H3 as [O4 R4]. split; [|split].
    + eapply queued_trans; [exact O3|]. destruct (queued_move c3) as [new Hn]. exists new.
      rewrite E1, Hn, O4, R4, S2. done.
    + cbn. by rewrite R4.
    + intros _. cbn. unfold c3. destruct (tc_segments_out c2) eqn:Eo; cbn; [|by rewrite Eo].
      rewrite Eo, map_app. cbn. by destruct (map _ _).
Qed.

(** A received segment reaches [tc_after_receiver] with a sound sender. *)
Lemma tc_received_after cfg c seg :
  cfg_ok cfg -> tc_reachable cfg c -> tc_op_ok c (CSegment seg) ->
  exists S r, tx_inv (tc_sender c) S /\
    tc_segment_received c seg = Ok (tc_after_receiver (tc_with_receiver (tc_with_time c 0) r) seg).
Proof.
  intros Hcfg Hr [Hs Hroom]. destruct (tc_reachable_inv cfg c Hcfg Hr) as (S & hist & Hc).
  destruct (tc_written c S hist Hc) as [_ Hwh]. rewrite Hwh in Hroom. pose proof Hs as (Hq & _ & _ & Hp).
  destruct (rx_segment_wf (tc_receiver c) hist seg (tci_rx _ _ _ Hc) Hroom Hq ltac:(lia))
    as (r & h & E & Hr' & _).
  exists S, r. split; [apply Hc|]. unfold tc_segment_received. cbn [tc_receiver tc_with_time].
  by rewrite E.
Qed.

(** C21: Segments are acknowledged.  Once the peer's SYN has been seen, everything
    the connection queues while it handles a segment carries the ACK flag and
    the receiver's current acknowledgement number and window; and a segment
    that occupies sequence space is answered at once if no earlier segment is
    still waiting in the queue.  (If one is, nothing may be queued and the
    reply is lost: [queued_segment_hides_ack] in Agreement.) *)
Theorem connection_replies cfg c seg :
  cfg_ok cfg -> tc_reachable cfg c -> tc_op_ok c (CSegment seg) ->
  exists c' new, tc_segment_received c seg = Ok c' /\
    tc_segments_out c' = tc_segments_out c ++ new /\
    (forall a, rx_ackno (tc_receiver c') = Some a ->
       (tc_segments_out c = [] -> 0 < length_in_sequence_space seg -> new <> []) /\
       Forall (fun s => th_ack (header s) = true /\ th_ackno (header s) = a /\
                        th_win (header s) = u16 (rx_window_size (tc_receiver c'))) new).
Proof.
  intros Hcfg Hr Ho. destruct (tc_received_after cfg c seg Hcfg Hr Ho) as (S & r & Hi & E).
  rewrite E. destruct Ho as [Hs _].
  destruct (tc_after_receiver_out (tc_with_receiver (tc_with_time c 0) r) S seg)
    as ((new & Hn) & Hst & Hne); [exact Hi|apply Hs|apply Hs|].
  eexists _, _. split; [done|]. split; [exact Hn|]. intros a Ha. split.
  - intros E0 Hl. specialize (Hne Hl). rewrite Hn in Hne. cbn in Hne. by rewrite E0 in Hne.
  - apply Forall_forall. intros x Hx. apply list_elem_of_fmap in Hx as (s & -> & _).
    rewrite <- Hst. by apply stamp_ack.
Qed.

Lemma connection_replies_witness :
  exists c' new a, tc_segment_received (new_TCPConnection (small_cfg 3)) (seg_at 99 true false []) = Ok c' /\
    tc_segments_out c' = [] ++ new /\ rx_ackno (tc_receiver c') = Some a /\ new <> [] /\
    Forall (fun s => th_ackno (header s) = a) new.
Proof.
  destruct (connection_replies (small_cfg 3) (new_TCPConnection (small_cfg 3)) (seg_at 99 true false []))
    as (c' & new & H1 & H2 & H3).
  - apply small_cfg_ok. lia.
  - apply tcr_new.
  - split; [apply seg_at_in_ok; [lia|reflexivity]|reflexivity].
  - exists c', new, (mkW32 100). split; [exact H1|]. split; [exact H2|].
    vm_compute in H1. injection H1 as <-. split; [reflexivity|].
    destruct (H3 (mkW32 100) eq_refl) as [H4 H5]. split; [by apply H4|].
    eapply Forall_impl; [exact H5|]. by intros s (_ & Hs & _).
Defined.

(** ** Closing *)

(** The clean end of a connection: nothing waits for reassembly, the inbound
    stream has ended and was read to its end, the outbound stream has ended
    and everything of it was sent, and nothing sent is unacknowledged. *)
Definition cleanly_finished (c : TCPConnection) : Prop :=
  tc_unassembled_bytes c = 0 /\
  input_ended (inbound_stream c) = true /\ buffer_size (inbound_stream c) = 0 /\
  input_ended (tx_stream (tc_sender c)) = true /\ buffer_size (tx_stream (tc_sender c)) = 0 /\
  tc_bytes_in_flight c = 0.

Lemma is_satisfied_prereq_true c : is_satisfied_prereq c = true -> cleanly_finished c.
Proof.
  unfold is_satisfied_prereq, cleanly_finished, eof, buffer_empty, buffer_size, inbound_stream.
  rewrite !andb_true_iff, !Z.eqb_eq. intros ((H1 & H2 & H3) & (H4 & H5) & H6).
  split_and!; try done; by repeat case_match.
Qed.

Lemma connect_prereq c : tc_is_active (tc_connect c) = tc_is_active c.
Proof. done. Qed.

Lemma close_check_active c :
  (tc_is_active c = false -> tc_is_active (tc_close_check c) = false) /\
  (tc_is_active c = true -> tc_is_active (tc_close_check c) = false ->
   cleanly_finished (tc_close_check c) /\ tc_linger_after_streams_finish (tc_close_check c) = false).
Proof.
  unfold tc_close_check. set (c1 := if _ && _ then _ else c).
  assert (H : tc_is_active c1 = tc_is_active c) by (unfold c1; by case_match). rewrite <- H.
  destruct (tc_linger_after_streams_finish c1) eqn:El; cbn [negb andb]; [by split; [|congruence]|].
  destruct (is_satisfied_prereq c1) eqn:Ep; [|by split; [|congruence]]. split; [done|].
  intros _ _. split; [by apply is_satisfied_prereq_true in Ep|done].
Qed.

(** C22: A connection closes for good, and only for a reason: it becomes inactive
    when a RST arrives; when a segment arrives after which nothing waits for
    reassembly, both streams have ended, the inbound one was read to its end,
    the outbound one was sent and acknowledged to its end, and no lingering
    is needed; when time passes, the same holds of both streams, and nothing
    was received for ten times the initial timeout; or after more than eight
    retransmissions in a row. *)
Theorem connection_close c o c' :
  tc_step c o = Ok c' ->
  (tc_active c = false -> tc_active c' = false) /\
  (tc_active c = true -> tc_active c' = false ->
   match o with
   | CSegment seg => th_rst (header seg) = true \/
       (cleanly_finished c' /\ tc_linger_after_streams_finish c' = false)
   | CTick ms =>
       (cleanly_finished c' /\
        10 * cfg_rt_timeout (tc_cfg c) <= tc_time_since_last_segment_received c +! ms) \/
       8 < tx_consecutive_retransmissions (tc_sender c')
   | _ => False
   end).
Proof.
  unfold tc_active. intros E. destruct o; cbn [tc_step] in E; try (injection E as <-; cbn; by split; [|congruence]).
  - unfold tc_segment_received in E. apply rbind_ok in E as (r & _ & [= <-]).
    unfold tc_after_receiver. set (c1 := if th_rst (header seg) then _ else _).
    assert (H1 : tc_is_active c1 = if th_rst (header seg) then false else tc_is_active c)
      by (unfold c1; by case_match).
    clearbody c1. set (c2 := if negb _ && _ then _ else c1).
    assert (H2 : tc_is_active c2 = tc_is_active c1) by (unfold c2; by destruct (negb _ && _)).
    clearbody c2. rewrite H1 in H2. clear H1 c1. destruct (th_rst (header seg)).
    { split; [intros _|auto]. case_match; [|by apply close_check_active]. case_match; [done|].
      apply close_check_active. cbn. by case_match. }
    rewrite <- H2. case_match; [|destruct (close_check_active c2); split; auto].
    case_match; [split; [done|]; intros A B; change (tc_is_active c2 = false) in B; congruence|].
    set (c3 := move_to_segments_out _). assert (H3 : tc_is_active c3 = tc_is_active c2)
      by (unfold c3; cbn; by case_match).
    destruct (close_check_active c3) as [A B]. rewrite H3 in A, B. split; auto.
  - unfold tc_tick in E. apply rbind_ok in E as (t & _ & E).
    set (c1 := tc_with_time _ _) in E.
    assert (H1 : tc_is_active c1 = tc_is_active c /\ tc_cfg c1 = tc_cfg c /\
      tc_time_since_last_segment_received c1 = tc_time_since_last_segment_received c +! ms) by done.
    clearbody c1. destruct H1 as (A1 & G1 & T1). rewrite <- A1, <- G1, <- T1.
    set (c2 := if _ && _ then _ else c1) in E.
    assert (H2 : tc_sender c2 = tc_sender c1 /\ tc_is_active c2 =
      (if (10 * cfg_rt_timeout (tc_cfg c1) <=? tc_time_since_last_segment_received c1) && is_satisfied_prereq c1
       then false else tc_is_active c1) /\ is_satisfied_prereq c2 = is_satisfied_prereq c1)
      by (unfold c2; by destruct (_ && _)).
    clearbody c2. destruct H2 as (S2 & A2 & P2).
    destruct (Z.ltb_spec MAX_RETX_ATTEMPTS (tx_consecutive_retransmissions (tc_sender c2))) as [Hm|Hm];
      injection E as <-.
    + split; [done|]. intros _ _. right. exact Hm.
    + split.
      * intros Ha. cbn. rewrite A2, Ha. by case_match.
      * intros Ha Hi. left. cbn in Hi. rewrite A2, Ha in Hi.
        destruct (_ && _) eqn:Eb; [|done]. zb. split; [|done].
        apply is_satisfied_prereq_true. change (is_satisfied_prereq c2 = true). by rewrite P2.
Qed.

(** ** Resetting *)

Lemma fill_loop_error fuel : forall t,
  stream_error (tx_stream t) = true -> stream_error (tx_stream (fill_loop fuel t)) = true.
Proof.
  induction fuel as [|fuel IH]; intros t He; cbn [fill_loop]; [done|].
  destruct (fill_guard t); [|done]. apply IH. unfold fill_step, fill_segment.
  destruct (negb (fill_read_size t =? 0)); [|done].
  pose proof (bs_step_error (tx_stream t) (ORead (fill_read_size t)) He) as H. cbn in H.
  destruct (read (tx_stream t) (fill_read_size t)) as [s d]. exact H.
Qed.

Lemma fill_window_error t :
  stream_error (tx_stream t) = true -> stream_error (tx_stream (fill_window t)) = true.
Proof. intros He. unfold fill_window. destruct (current_state t); try done; by apply fill_loop_error. Qed.

Lemma ack_received_stream t ackno win : tx_stream (ack_received t ackno win) = tx_stream t.
Proof. unfold ack_received. destruct (ack_scan _ _ _) as [remain [kept|]]; by destruct (_ && _). Qed.

(** Both streams have failed and the connection is inactive. *)
Definition is_reset (c : TCPConnection) : Prop :=
  tc_is_active c = false /\ stream_error (tx_stream (tc_sender c)) = true /\
  stream_error (rx_stream_out (tc_receiver c)) = true.

Lemma is_reset_state c : is_reset c -> tc_state c = TCPState_of RESET.
Proof.
  intros (H1 & H2 & H3). unfold tc_state, tc_active, sender_summary, receiver_summary.
  by rewrite H1, H2, H3.
Qed.

Lemma connect_reset c : is_reset c -> is_reset (tc_connect c).
Proof. intros (H1 & H2 & H3). split; [done|]. split; [by apply fill_window_error|done]. Qed.
Lemma close_check_reset c : is_reset c -> is_reset (tc_close_check c).
Proof.
  intros (H1 & H2 & H3). unfold tc_close_check. set (c1 := if _ && _ then _ else c).
  assert (H : is_reset c1) by (unfold c1; destruct (_ && _); by split_and!).
  clearbody c1. destruct H as (? & ? & ?). destruct (_ && _); by split_and!.
Qed.

Lemma tc_after_receiver_reset c seg : th_rst (header seg) = true -> is_reset (tc_after_receiver c seg).
Proof.
  intros Hrst. unfold tc_after_receiver. rewrite Hrst. set (c1 := set_errors _).
  assert (H1 : is_reset c1) by done. clearbody c1. set (c2 := if negb _ && _ then _ else c1).
  assert (H2 : is_reset c2).
  { unfold c2. destruct (negb _ && _); [|done]. apply connect_reset. destruct H1 as (? & ? & ?).
    split; [done|]. split; [cbn; by rewrite ack_received_stream|done]. }
  clearbody c2. destruct (0 <? _); [|by apply close_check_reset].
  destruct (next_seqno_absolute (tc_sender c2) =? 0); [by apply connect_reset|].
  apply close_check_reset. destruct H2 as (? & ? & ?). destruct (tc_segments_out c2); by split_and!.
Qed.

(** What [tick] and the destructor queue: a RST without ACK and without
    contents. *)
Definition queues_rst (c c' : TCPConnection) : Prop :=
  exists s, tc_segments_out c' = tc_segments_out c ++ [s] /\ th_rst (header s) = true /\
    th_ack (header s) = false /\ length_in_sequence_space s = 0.

Lemma tc_reset_resets c :
  tc_state (tc_reset c) = TCPState_of RESET /\ queues_rst c (tc_reset c).
Proof. split; [by apply is_reset_state|]. by exists rst_segment. Qed.

(** A bare RST is not answered. *)
Lemma tc_after_receiver_silent c seg :
  th_ack (header seg) = false -> length_in_sequence_space seg = 0 ->
  tc_segments_out (tc_after_receiver c seg) = tc_segments_out c.
Proof.
  intros Ha Hl. unfold tc_after_receiver. rewrite Ha, Hl, andb_false_r. cbn [Z.ltb Z.compare].
  rewrite (proj1 (close_check_out _)). by case_match.
Qed.

(** C23: Resetting.  On a connection whose SYN was acknowledged and that has seen
    the peer's SYN, a RST inside the window puts the connection in the state
    RESET, inactive with both streams failed, and a RST that carries nothing
    else is not answered.  A tick resets the connection exactly when it
    brings the retransmissions in a row above eight, and then queues one RST
    for the peer, without ACK; so does destroying a connection that is still
    active, and destroying one that is not changes nothing.  (Where the tests
    want a RST ignored, the code obeys it too: [rst_in_listen],
    [rst_in_syn_sent]; and see [rst_seqno_zero].) *)
Theorem connection_reset cfg c :
  cfg_ok cfg -> tc_reachable cfg c ->
  (forall seg a, tc_op_ok c (CSegment seg) -> th_rst (header seg) = true ->
     1 <= tx_next_ackno (tc_sender c) -> rx_ackno (tc_receiver c) = Some a ->
     u32 (raw_value (th_seqno (header seg)) - raw_value a) < Z.max 1 (rx_window_size (tc_receiver c)) ->
     exists c', tc_segment_received c seg = Ok c' /\ tc_state c' = TCPState_of RESET /\
       (th_ack (header seg) = false -> length_in_sequence_space seg = 0 ->
        tc_segments_out c' = tc_segments_out c)) /\
  (forall ms c', tc_tick c ms = Ok c' ->
     if 8 <? tx_consecutive_retransmissions (tc_sender c')
     then tc_state c' = TCPState_of RESET /\ queues_rst c c'
     else stream_error (inbound_stream c') = stream_error (inbound_stream c)) /\
  (if tc_active c then tc_state (tc_destroy c) = TCPState_of RESET /\ queues_rst c (tc_destroy c)
   else tc_destroy c = c).
Proof.
  intros Hcfg Hr. split; [|split].
  - intros seg a Ho Hrst _ _ _. destruct (tc_received_after cfg c seg Hcfg Hr Ho) as (S & r & _ & E).
    eexists. split; [exact E|]. split; [by apply is_reset_state, tc_after_receiver_reset|].
    apply (tc_after_receiver_silent (tc_with_receiver (tc_with_time c 0) r)).
  - intros ms c' E. unfold tc_tick in E. apply rbind_ok in E as (t & _ & E).
    set (c1 := tc_with_time _ _) in E. set (c2 := if _ && _ then _ else c1) in E.
    assert (H2 : tc_segments_out c2 = tc_segments_out c /\ inbound_stream c2 = inbound_stream c)
      by (unfold c2; by destruct (_ && _)).
    clearbody c2. destruct H2 as [O2 I2]. unfold MAX_RETX_ATTEMPTS in E.
    destruct (8 <? tx_consecutive_retransmissions (tc_sender c2)) eqn:Em; injection E as <-.
    + change (tx_consecutive_retransmissions (tc_sender (tc_reset c2)))
        with (tx_consecutive_retransmissions (tc_sender c2)). rewrite Em.
      unfold queues_rst. rewrite <- O2. apply tc_reset_resets.
    + change (tx_consecutive_retransmissions (tc_sender (move_to_segments_out c2)))
        with (tx_consecutive_retransmissions (tc_sender c2)). rewrite Em. by rewrite <- I2.
  - unfold tc_destroy. destruct (tc_active c); [apply tc_reset_resets|done].
Qed.

(** A connection after the handshake, and the RST its peer sends. *)
Definition peers_syn : TCPSegment := seg_at 99 true false [].
Definition peers_ack : TCPSegment :=
  with_header (set_ackno (mkW32 4)) (with_header (set_ack true) (seg_at 100 false false [])).
Definition peers_rst : TCPSegment := with_header (set_rst true) (seg_at 100 false false []).
Definition got (c : TCPConnection) (seg : TCPSegment) : TCPConnection :=
  match tc_segment_received c seg with Ok c => c | Err _ => c end.
Definition greeted : TCPConnection := got (new_TCPConnection (small_cfg 3)) peers_syn.
Definition shaken_hands : TCPConnection := got greeted peers_ack.

Lemma shaken_hands_reachable : tc_reachable (small_cfg 3) shaken_hands.
Proof.
  apply (tcr_step _ greeted (CSegment peers_ack)).
  - apply (tcr_step _ (new_TCPConnection (small_cfg 3)) (CSegment peers_syn));
      [apply tcr_new| |vm_compute; reflexivity].
    split; [apply seg_at_in_ok; [lia|reflexivity]|reflexivity].
  - split; [|vm_compute; reflexivity]. by repeat split.
  - vm_compute. reflexivity.
Qed.

Lemma shaken_hands_facts :
  1 <= tx_next_ackno (tc_sender shaken_hands) /\ rx_ackno (tc_receiver shaken_hands) = Some (mkW32 100) /\
  rx_window_size (tc_receiver shaken_hands) = 64 /\ tc_op_ok shaken_hands (CSegment peers_rst).
Proof. split; [by vm_compute|]. split; [by vm_compute|]. split; [by vm_compute|]. split; [by repeat split|by vm_compute]. Qed.

Lemma connection_reset_witness :
  exists c', tc_segment_received shaken_hands peers_rst = Ok c' /\ tc_state c' = TCPState_of RESET /\
    tc_segments_out c' = tc_segments_out shaken_hands.
Proof.
  destruct shaken_hands_facts as (H1 & H2 & H3 & H4).
  destruct (connection_reset (small_cfg 3) shaken_hands) as (H & _).
  - apply small_cfg_ok. lia.
  - apply shaken_hands_reachable.
  - destruct (H peers_rst (mkW32 100) H4 eq_refl H1 H2) as (c' & E & Hs & Ho).
    + rewrite H3. reflexivity.
    + exists c'. split; [exact E|]. split; [exact Hs|]. apply Ho; reflexivity.
Defined.

(** ** Three findings on resetting *)

(** A listening connection obeys a RST: its streams fail and it is closed,
    where the tests say that all RSTs should be ignored in LISTEN. *)
Theorem rst_in_listen :
  exists c', tc_segment_received (new_TCPConnection (small_cfg 3)) peers_rst = Ok c' /\
    tc_state (new_TCPConnection (small_cfg 3)) = TCPState_of LISTEN /\
    tc_state c' = TCPState_of RESET.
Proof. eexists. split; [vm_compute; reflexivity|]. split; reflexivity. Qed.

(** A connection that has sent its SYN obeys every RST: one without ACK, and
    one that acknowledges a number that was never sent, where the tests say
    that both should be ignored in SYN_SENT. *)
Theorem rst_in_syn_sent :
  let c := tc_connect (new_TCPConnection (small_cfg 3)) in
  tc_state c = TCPState_of SYN_SENT /\
  (exists c', tc_segment_received c peers_rst = Ok c' /\ tc_state c' = TCPState_of RESET) /\
  (exists c', tc_segment_received c
     (with_header (set_ackno (mkW32 5)) (with_header (set_ack true) peers_rst)) = Ok c' /\
     tc_state c' = TCPState_of RESET).
Proof.
  split; [vm_compute; reflexivity|].
  split; (eexists; split; [vm_compute; reflexivity|vm_compute; reflexivity]).
Qed.

(** The RST queued after too many retransmissions always has the sequence
    number 0, where the tests expect the number that the peer acknowledged. *)
Theorem rst_seqno_zero c ms c' :
  tc_tick c ms = Ok c' -> MAX_RETX_ATTEMPTS < tx_consecutive_retransmissions (tc_sender c') ->
  exists s, last (tc_segments_out c') = Some s /\ th_rst (header s) = true /\
    raw_value (th_seqno (header s)) = 0.
Proof.
  intros E Hm. unfold tc_tick in E. apply rbind_ok in E as (t & _ & E).
  set (c1 := if _ && _ then _ else _) in E. clearbody c1.
  destruct (Z.ltb_spec MAX_RETX_ATTEMPTS (tx_consecutive_retransmissions (tc_sender c1))) as [_|Hn];
    injection E as <-.
  - exists rst_segment. split; [apply last_snoc|done].
  - change (tx_consecutive_retransmissions (tc_sender (move_to_segments_out c1)))
      with (tx_consecutive_retransmissions (tc_sender c1)) in Hm. lia.
Qed.

(** ** The state names *)

(** The twelve official states are told apart by the summaries: no two of
    them have the same [TCPState], so comparing summaries compares states. *)
Theorem TCPState_of_injective s1 s2 : TCPState_of s1 = TCPState_of s2 -> s1 = s2.
Proof. intros H. destruct s1, s2; (reflexivity || discriminate H). Qed.

Lemma TCPState_of_injective_witness : TCPState_of CLOSING <> TCPState_of LAST_ACK /\ LISTEN = LISTEN.
Proof. split; [discriminate|]. exact (TCPState_of_injective LISTEN LISTEN eq_refl). Defined.

(** The sender's summary agrees with the state the sender computes for itself. *)
Definition summary_of_state (s : TCPSenderState) : string :=
  match s with
  | Closed => SenderSummary.CLOSED
  | SynSent => SenderSummary.SYN_SENT
  | SynAcked | SynAckedEof => SenderSummary.SYN_ACKED
  | FinSent => SenderSummary.FIN_SENT
  | FinAcked => SenderSummary.FIN_ACKED
  end.

(** The two classifications of a sender agree: [TCPState::state_summary] and
    [TCPSender::_current_state], written independently, put every reachable
    sender whose stream has not failed in the same state. *)
Theorem sender_summary_agrees c rto isn t S :
  0 <= c < W64 -> w32_ok isn -> tx_reachable c rto isn t S -> stream_error (tx_stream t) = false ->
  sender_summary t = summary_of_state (current_state t).
Proof.
  intros Hc Hi Hr He. destruct (tx_reachable_inv c rto isn t S Hc Hi Hr) as [Ht _].
  pose proof (tx_next_bound t S Ht) as Hb. pose proof (stream_of_written t S Ht) as Hw.
  pose proof Ht as [Hisn Hso Hroom Hwd Hrem Hp Hack0 Hch Hsynq Hcnt Hfl Hout].
  unfold sender_summary, current_state, next_seqno_absolute, tx_bytes_in_flight. rewrite He, Hw, Hcnt.
  rewrite u64_id by (zpos; lia). destruct (eof (tx_stream t)) eqn:Ee; cbn [negb andb].
  - repeat case_match; zb; try done; lia.
  - rewrite !andb_true_r. repeat case_match; zb; try done; lia.
Qed.

Lemma sender_summary_agrees_witness :
  sender_summary (fill_window (new_TCPSender 10 1000 (mkW32 5))) = SenderSummary.SYN_SENT.
Proof.
  rewrite (sender_summary_agrees 10 1000 (mkW32 5) _ []); [reflexivity|lia|done| |reflexivity].
  apply (tr_step _ _ _ (new_TCPSender 10 1000 (mkW32 5)) _ TxFill); [apply tr_new|done|reflexivity].
Defined.

(** ** Two findings *)

(** The advertised window is the receiver's window modulo 65536: with a
    capacity of 65536, an empty buffer is advertised as a window of zero. *)
Theorem window_truncated :
  let cfg := mkTCPConfig 1000 65536 64 (mkW32 3) in
  exists c', tc_segment_received (new_TCPConnection cfg) (seg_at 99 true false []) = Ok c' /\
    rx_window_size (tc_receiver c') = 65536 /\
    map (fun s => th_win (header s)) (tc_segments_out c') = [0].
Proof. eexists. split; [vm_compute; reflexivity|]. split; reflexivity. Qed.

(** A listening connection answers any segment that occupies sequence space,
    not only a SYN, by starting a connection of its own: a stray data segment
    makes it send a SYN without ACK and leaves it in SYN_SENT. *)
Theorem listen_answers_stray_data :
  exists c', tc_segment_received (new_TCPConnection (small_cfg 3)) (seg_at 99 false false [x61]) = Ok c' /\
    tc_state c' = TCPState_of SYN_SENT /\ rx_ackno (tc_receiver c') = None /\
    map (fun s => (th_syn (header s), th_ack (header s))) (tc_segments_out c') = [(true, false)].
Proof. eexists. split; [vm_compute; reflexivity|]. split_and!; reflexivity. Qed.

(** ** Two endpoints *)

(** Segments are delivered one at a time, the client's before the server's,
    until [n] were delivered or none is queued. *)
Fixpoint exchange (n : nat) (client server : TCPConnection) : result (TCPConnection * TCPConnection) :=
  match n with
  | O => Ok (client, server)
  | S n =>
      match tc_segments_out client, tc_segments_out server with
      | s :: out, _ =>
          let* server := tc_segment_received server s in exchange n (tc_with_out client out) server
      | [], s :: out =>
          let* client := tc_segment_received client s in exchange n client (tc_with_out server out)
      | [], [] => Ok (client, server)
      end
  end.

(** A whole connection.  The client connects, writes two bytes and closes; the
    server, whose sequence numbers wrap around, reads them, answers with one
    byte and closes.  The bytes arrive on both sides; the endpoints go through
    the official states, both ESTABLISHED, then FIN_WAIT_2 against CLOSE_WAIT,
    then TIME_WAIT against CLOSED; and the client is closed after lingering. *)
Theorem connection_lifecycle :
  (let* (c0, s0) := exchange 20 (tc_connect (new_TCPConnection (small_cfg 100)))
                      (new_TCPConnection (small_cfg 4294967295)) in
   let* (c1, s1) := exchange 20 (tc_write c0 [x68; x69]).1 s0 in
   let* s1' := tc_step s1 (CRead 2) in
   let* (c2, s2) := exchange 20 (tc_end_input_stream c1) s1' in
   let* (c3, s3) := exchange 20 c2 (tc_end_input_stream (tc_write s2 [x21]).1) in
   let* c3' := tc_step c3 (CRead 1) in
   let* c4 := tc_step c3' (CTick 10000) in
   Ok ((tc_state c0, tc_state s0), bs_buffer (inbound_stream s1), tc_bytes_in_flight c1,
       (tc_state c2, tc_state s2), bs_buffer (inbound_stream c3), (tc_state c3, tc_state s3),
       tc_state c4))
  = Ok ((TCPState_of ESTABLISHED, TCPState_of ESTABLISHED), [x68; x69], 0,
        (TCPState_of FIN_WAIT_2, TCPState_of CLOSE_WAIT), [x21],
        (TCPState_of TIME_WAIT, TCPState_of CLOSED), TCPState_of CLOSED).
Proof. vm_compute. reflexivity. Qed.

(** The client of that exchange in TIME_WAIT, when it has read everything. *)
Definition time_waiting : result TCPConnection :=
  let* (c0, s0) := exchange 20 (tc_connect (new_TCPConnection (small_cfg 100)))
                     (new_TCPConnection (small_cfg 4294967295)) in
  let* (c1, s1) := exchange 20 (tc_end_input_stream (tc_write c0 [x68; x69]).1) s0 in
  let* s1' := tc_step s1 (CRead 2) in
  let* (c2, s2) := exchange 20 c1 (tc_end_input_stream (tc_write s1' [x21]).1) in
  tc_step c2 (CRead 1).

Lemma time_waiting_ends :
  match time_waiting with
  | Ok c => match tc_step c (CTick 10000) with
            | Ok c' => tc_active c && negb (tc_active c')
                       && negb (8 <? tx_consecutive_retransmissions (tc_sender c'))
            | Err _ => false end
  | Err _ => false end = true.
Proof. vm_compute. reflexivity. Qed.

Lemma connection_close_witness :
  exists c c', time_waiting = Ok c /\ tc_step c (CTick 10000) = Ok c' /\
    tc_active c = true /\ tc_active c' = false /\ cleanly_finished c'.
Proof.
  pose proof time_waiting_ends as H. destruct time_waiting as [c|] eqn:E; [|discriminate H].
  destruct (tc_step c (CTick 10000)) as [c'|] eqn:E'; [|discriminate H]. exists c, c'.
  apply andb_true_iff in H as [H1 H3]. apply andb_true_iff in H1 as [H1 H2].
  apply negb_true_iff in H2, H3. split; [reflexivity|]. split; [exact E'|].
  split; [exact H1|]. split; [exact H2|].
  destruct (connection_close c (CTick 10000) c' E') as [_ H].
  destruct (H H1 H2) as [[Hf _]|Hm]; [exact Hf|]. apply Z.ltb_ge in H3. lia.
Defined.

(** The passive closer may linger.  Whether it needs to is decided by [eof]
    of its inbound stream, which is false while the reader has not read
    everything: a server that reads the last bytes only after the peer's FIN
    has been handled, and closes afterwards, ends in TIME_WAIT although it
    closed second. *)
Theorem passive_close_lingers :
  (let* (c0, s0) := exchange 20 (tc_connect (new_TCPConnection (small_cfg 100)))
                      (new_TCPConnection (small_cfg 200)) in
   let* (c1, s1) := exchange 20 (tc_write c0 [x68]).1 s0 in
   let* (c2, s2) := exchange 20 (tc_end_input_stream c1) s1 in
   let* s2' := tc_step s2 (CRead 1) in
   let* (c3, s3) := exchange 20 c2 (tc_end_input_stream s2') in
   Ok (tc_state c2, tc_state s3))
  = Ok (TCPState_of FIN_WAIT_2, TCPState_of TIME_WAIT).
Proof. vm_compute. reflexivity. Qed.
