(* ===== verification/Agreement.v ===== *)
(** * Two connections are two links

    Two whole endpoints of [tcp_connection.cc] that nobody resets, over a network
    that loses, repeats, reorders and delays, but does not let a FIN without data
    overtake the data before it nor anything overtake the first SYN.  Each
    direction, with the acknowledgements that the other direction carries, is a
    link of [Recovery.v].  So what a sender takes for acknowledged has been
    received, and a connection that ends by itself has delivered both streams. *)
From S2P Require Import Prelude WrappingIntegers ByteStream StreamReassembler Buffer Parser TCPSegment TCPReceiver TCPSender Transfer Tracking Recovery TCPConnection.

(** ** Segments and what they carry *)

(** [q] is [s] but for what it acknowledges. *)
Definition same_data (s q : TCPSegment) : Prop :=
  th_seqno (header q) = th_seqno (header s) /\ th_syn (header q) = th_syn (header s) /\
  th_fin (header q) = th_fin (header s) /\ buf_str (payload q) = buf_str (payload s).

Lemma received_data r s q : same_data s q -> rx_segment_received r q = rx_segment_received r s.
Proof.
  intros (H1 & H2 & H3 & H4). unfold rx_segment_received, rx_push, buf_copy. by rewrite H1, H2, H3, H4.
Qed.

Lemma stamp_data r s : same_data s (stamp r s).
Proof. unfold stamp. by destruct (rx_ackno r). Qed.
Lemma stamp_rst r s : th_rst (header (stamp r s)) = th_rst (header s).
Proof. unfold stamp. by destruct (rx_ackno r). Qed.

(** A segment on its way: one of [net], stamped with one of [acks] or with
    nothing. *)
Definition on_way (net : list TCPSegment) (acks : list (WrappingInt32 * Z)) (q : TCPSegment) : Prop :=
  th_rst (header q) = false /\ (exists s, s ∈ net /\ same_data s q) /\
  (th_ack (header q) = true -> (th_ackno (header q), th_win (header q)) ∈ acks).

Lemma on_way_grows net net' acks acks' q :
  net ⊆ net' -> acks ⊆ acks' -> on_way net acks q -> on_way net' acks' q.
Proof. intros Hn Ha (H1 & (s & Hs & Hd) & H3). split; [done|]. split; [exists s; auto|auto]. Qed.

(** ** What a sender queues

    Before the SYN is acknowledged no segment of the sender claims to be an
    acknowledgement. *)
Definition calm_segment (t : TCPSender) (s : TCPSegment) : Prop :=
  th_rst (header s) = false /\ (th_ack (header s) = true -> 1 <= tx_next_ackno t).
Definition tx_calm (t : TCPSender) : Prop :=
  Forall (calm_segment t) (tx_segments_out t ++ tx_tracking_segments t).

Lemma calm_later t t' :
  tx_next_ackno t <= tx_next_ackno t' ->
  (forall s, s ∈ tx_segments_out t' ++ tx_tracking_segments t' ->
     s ∈ tx_segments_out t ++ tx_tracking_segments t \/ calm_segment t' s) ->
  tx_calm t -> tx_calm t'.
Proof.
  unfold tx_calm. rewrite !Forall_forall. intros Hn Hs Hc s Hin. destruct (Hs s Hin) as [H|H]; [|done].
  destruct (Hc s H) as [? ?]. split; [done|]. intros Ha. specialize (H1 Ha). lia.
Qed.

(** One more segment in the queue, and perhaps among the tracked ones. *)
Lemma queued_one (out track : list TCPSegment) x s :
  s ∈ (out ++ [x]) ++ track \/ s ∈ (out ++ [x]) ++ x :: track -> s ∈ out ++ track \/ s = x.
Proof. set_solver. Qed.

Lemma fill_step_calm t : 1 <= tx_next_ackno t -> tx_calm t -> tx_calm (fill_step t).
Proof.
  intros Ha. apply calm_later; unfold fill_step; destruct (fill_segment t) as [seg st] eqn:E; [done|].
  cbn. intros s Hs. assert (Hr : th_rst (header seg) = false).
  { unfold fill_segment in E. destruct (negb _) in E; [destruct (read (tx_stream t) (fill_read_size t))|];
      injection E as <- _; by destruct (_ && _). }
  destruct (queued_one _ _ _ _ (or_intror Hs)) as [ | -> ]; [by left|right; by split].
Qed.

Lemma fill_loop_calm fuel : forall t, 1 <= tx_next_ackno t -> tx_calm t -> tx_calm (fill_loop fuel t).
Proof.
  induction fuel as [|fuel IH]; intros t Ha Hc; cbn [fill_loop]; [done|]. destruct (fill_guard t); [|done].
  apply IH; [|by apply fill_step_calm]. unfold fill_step. by destruct (fill_segment t).
Qed.

Lemma fill_loop_ackno fuel : forall t, tx_next_ackno (fill_loop fuel t) = tx_next_ackno t.
Proof.
  induction fuel as [|fuel IH]; intros t; cbn [fill_loop]; [done|]. destruct (fill_guard t); [|done].
  rewrite IH. unfold fill_step. by destruct (fill_segment t).
Qed.
Lemma fill_window_ackno t : tx_next_ackno (fill_window t) = tx_next_ackno t.
Proof. unfold fill_window. destruct (current_state t); try done; apply fill_loop_ackno. Qed.

Lemma fill_window_calm t S : tx_inv t S -> tx_calm t -> tx_calm (fill_window t).
Proof.
  intros Ht Hc. pose proof (tx_next_bound t S Ht) as Hb. destruct (Z.lt_ge_cases 0 (tx_next_ackno t)) as [Ha|Ha].
  - unfold fill_window. destruct (current_state t) eqn:Es; try (apply fill_loop_calm; [lia|done]); [|done].
    apply (current_state_closed t S Ht) in Es. lia.
  - assert (E0 : tx_next_ackno t = 0) by lia. destruct (Z.eq_dec (tx_next_seqno t) 0) as [E1|E1]; unfold fill_window.
    + rewrite (proj2 (current_state_closed t S Ht) E1). revert Hc. apply calm_later; [done|]. cbn. intros s Hs.
      destruct (queued_one _ _ _ _ (or_intror Hs)) as [ | -> ]; [by left|right; by split].
    + by rewrite (proj2 (current_state_synsent t S Ht) (conj E1 E0)).
Qed.

Lemma ack_scan_subset ackno l : forall n remain kept, ack_scan ackno l n = (remain, Some kept) -> kept ⊆ l.
Proof.
  induction l as [|s l IH]; intros n remain kept; cbn [ack_scan]; [done|].
  destruct (w32_eqb _ _); [intros [= _ <-]; set_solver|].
  destruct (ack_scan ackno l _) as [r [k|]] eqn:E; [|done]. intros [= _ <-]. specialize (IH _ _ _ E). set_solver.
Qed.

Lemma ack_received_calm t ackno w : tx_calm t -> tx_calm (ack_received t ackno w).
Proof.
  apply calm_later.
  - unfold ack_received. destruct (ack_scan _ _ _) as [remain [kept|]]; cbn;
      [destruct (Z.ltb_spec (tx_next_ackno t) (unwrap ackno (tx_isn t) (tx_next_ackno t)))|];
      destruct (_ && _); cbn; lia.
  - intros s Hs. left. unfold ack_received in Hs. destruct (ack_scan _ _ _) as [remain [kept|]] eqn:E; cbn in Hs;
      destruct (_ && _) in Hs; cbn in Hs; try done; apply elem_of_app in Hs as [Hs|Hs]; apply elem_of_app;
      [by left|right|by left|right]; by apply (ack_scan_subset _ _ _ _ _ E).
Qed.

Lemma tx_tick_calm t ms t' : clock_ok t -> tx_tick t ms = Ok t' -> tx_calm t -> tx_calm t'.
Proof.
  intros Hk E. destruct (tick_frame t ms t' Hk E) as (F1 & _ & _ & _ & l & F2 & F3). apply calm_later.
  - unfold tx_tick in E. repeat case_match; simplify_eq; done.
  - rewrite F1, F2. intros s Hs. left. rewrite <- app_assoc in Hs.
    apply elem_of_app in Hs as [Hs|Hs]; [apply elem_of_app; by left|].
    apply elem_of_app in Hs as [Hs|Hs]; apply elem_of_app; right; [|done].
    apply F3 in Hs. by apply last_Some_elem_of.
Qed.

Lemma empty_calm t : tx_calm t -> tx_calm (send_empty_segment t).
Proof.
  apply calm_later; [done|]. cbn. intros s Hs.
  destruct (queued_one _ _ _ _ (or_introl Hs)) as [ | -> ]; [by left|right; by split].
Qed.

Lemma queue_calm t : tx_calm t -> tx_calm (tx_with_out t []).
Proof. apply calm_later; [done|]. cbn. intros s Hs. left. apply elem_of_app. by right. Qed.

(** ** A connection on its two links *)

Section links.
(** The side that acts and its peer, and what the peer has at the moment: its
    sender, what was written to it, what it has sent and acknowledged, its
    receiver, and what was read from it. *)
Context (ce cp : TCPConfig).
Context (tp : TCPSender) (Sp : bytes) (np : list TCPSegment) (ap : list (WrappingInt32 * Z)) (rp : TCPReceiver) (gp : bytes).

(** The links of the configurations: from one side to the other, and back. *)
Definition link_of (c c' : TCPConfig) : link -> Prop :=
  lk_reachable (cfg_recv_capacity c') (cfg_isn c) (cfg_send_capacity c) (cfg_rt_timeout c).

Record on_links (c : TCPConnection) (S got : bytes) (wire : list TCPSegment)
    (ne : list TCPSegment) (ae : list (WrappingInt32 * Z)) : Prop := {
  ol_out : link_of ce cp (mkLink (tc_sender c) S ne ap rp gp);
  ol_in : link_of cp ce (mkLink tp Sp np ae (tc_receiver c) got);
  ol_calm : tx_calm (tc_sender c);
  ol_syn : 1 <= tx_next_ackno (tc_sender c) -> rx_have_SYN (tc_receiver c) = true;
  ol_way : Forall (on_way ne ae) (tc_segments_out c ++ wire) }.

Definition paired (c : TCPConnection) (S got : bytes) (wire : list TCPSegment) : Prop :=
  exists ne ae, on_links c S got wire ne ae.

Hypothesis Hce : cfg_ok ce.
Hypothesis Hcp : cfg_ok cp.
Hypothesis Hroome : cfg_recv_capacity ce + 5 * W32 < W64.
Hypothesis Hroomp : cfg_recv_capacity cp + 5 * W32 < W64.
Hypothesis Hrtoe : 0 <= cfg_rt_timeout ce < W16.
Hypothesis Hrtop : 0 <= cfg_rt_timeout cp < W16.

Lemma out_live t S ne ae' rp' gp' :
  link_of ce cp (mkLink t S ne ae' rp' gp') ->
  exists hist, live (cfg_recv_capacity cp) (cfg_isn ce) t S ne ae' rp' hist /\ gp' ++ bs_buffer (rx_stream_out rp') = hist.
Proof.
  intros H. destruct Hce as (A1 & A2 & A3). destruct Hcp as (B1 & B2 & B3).
  exact (lk_reachable_inv (cfg_recv_capacity cp) (cfg_isn ce) ltac:(lia) ltac:(lia) A3 _ _ A1 Hrtoe _ H).
Qed.

Lemma out_tx t S ne ae' rp' gp' : link_of ce cp (mkLink t S ne ae' rp' gp') -> tx_inv t S /\ clock_ok t.
Proof. intros H. destruct (out_live _ _ _ _ _ _ H) as (hist & L & _). split; apply L. Qed.

(** A step of the sender's link. *)
Lemma out_step t S ne t' S' ne' :
  link_of ce cp (mkLink t S ne ap rp gp) ->
  lk_step (mkLink t S ne ap rp gp) (mkLink t' S' ne' ap rp gp) -> link_of ce cp (mkLink t' S' ne' ap rp gp).
Proof. intros H Hs. by eapply lr_step. Qed.

(** Everything the sender has queued is put on the link. *)
Lemma out_transmit t S ne :
  link_of ce cp (mkLink t S ne ap rp gp) ->
  exists ne', link_of ce cp (mkLink (tx_with_out t []) S ne' ap rp gp) /\ ne ⊆ ne' /\ tx_segments_out t ⊆ ne'.
Proof.
  remember (tx_segments_out t) as q eqn:Hq. revert t ne Hq. induction q as [|s q IH]; intros t ne Hq H.
  - exists ne. split; [|set_solver]. replace (tx_with_out t []) with t; [done|]. destruct t. cbn in *. by subst.
  - destruct (IH (tx_with_out t q) (s :: ne) eq_refl) as (ne' & H1 & H2 & H3).
    + eapply out_step; [exact H|]. by apply lk_transmit.
    + exists ne'. split; [done|]. set_solver.
Qed.

(** [_move_to_segments_out]. *)
Lemma move_paired c S got wire : paired c S got wire -> paired (move_to_segments_out c) S got wire.
Proof.
  intros (ne & ae & [H1 H2 H3 H4 H5]). destruct (out_transmit _ _ _ H1) as (ne' & T1 & T2 & T3).
  set (r := tc_receiver c) in *.
  assert (Hacks : exists ae', link_of cp ce (mkLink tp Sp np ae' r got) /\ ae ⊆ ae' /\
    forall ackno, rx_ackno r = Some ackno -> (ackno, u16 (rx_window_size r)) ∈ ae').
  { destruct (rx_ackno r) as [ackno|] eqn:Er; [|by exists ae].
    exists ((ackno, u16 (rx_window_size r)) :: ae). split; [|set_solver]. eapply lr_step; [exact H2|].
    by apply lk_acknowledge. }
  destruct Hacks as (ae' & A1 & A2 & A3). exists ne', ae'. constructor; try done; [by apply queue_calm|].
  cbn. rewrite <- app_assoc, !Forall_app. rewrite !Forall_app in H5. destruct H5 as [Hq Hw].
  assert (Hgrow : forall l, Forall (on_way ne ae) l -> Forall (on_way ne' ae') l).
  { intros l Hl. eapply Forall_impl; [exact Hl|]. intros q. by apply on_way_grows. }
  split; [by apply Hgrow|]. split; [|by apply Hgrow]. apply Forall_fmap, Forall_forall. intros s Hs. cbn.
  assert (Hcalm : calm_segment (tc_sender c) s).
  { unfold tx_calm in H3. rewrite Forall_forall in H3. apply H3, elem_of_app. by left. }
  destruct Hcalm as [C1 C2]. split; [by rewrite stamp_rst|]. split; [exists s; split; [by apply T3|apply stamp_data]|].
  unfold stamp. fold r. destruct (rx_ackno r) as [ackno|] eqn:Er; [intros _; by apply A3|].
  intros Ha. specialize (H4 (C2 Ha)). unfold rx_ackno in Er. rewrite H4 in Er. by destruct (_ && _) in Er.
Qed.

(** The sender takes a step and the receiver does not. *)
Lemma sender_paired c S got wire t' S' :
  paired c S got wire ->
  (forall ne, lk_step (mkLink (tc_sender c) S ne ap rp gp) (mkLink t' S' ne ap rp gp)) ->
  tx_calm t' -> (1 <= tx_next_ackno t' -> rx_have_SYN (tc_receiver c) = true) ->
  paired (tc_with_sender c t') S' got wire.
Proof.
  intros (ne & ae & [H1 H2 H3 H4 H5]) Hs Hc Hsyn. exists ne, ae. constructor; try done. eapply out_step; [exact H1|done].
Qed.

Lemma connect_paired c S got wire : paired c S got wire -> paired (tc_connect c) S got wire.
Proof.
  intros H. apply move_paired. pose proof H as (ne & ae & [H1 _ H3 H4 _]). destruct (out_tx _ _ _ _ _ _ H1) as [Ht _].
  apply (sender_paired c S); [done|intros; apply lk_fill|by eapply fill_window_calm|].
  by rewrite fill_window_ackno.
Qed.

Lemma write_paired c S got wire d :
  paired c S got wire -> input_ended (tx_stream (tc_sender c)) = false -> zlen S + zlen d + 2 < W31 ->
  paired (tc_write c d).1 (S ++ ztake (tc_write c d).2 d) got wire.
Proof.
  intros H He Hd. unfold tc_write. pose proof (fun ne => lk_write (tc_sender c) S ne ap rp gp d He Hd) as Hs.
  destruct (write (tx_stream (tc_sender c)) d) as [b n]. cbn [fst snd] in *. apply connect_paired.
  pose proof H as (ne & ae & [_ _ H3 H4 _]). by apply (sender_paired c S).
Qed.

Lemma end_paired c S got wire : paired c S got wire -> paired (tc_end_input_stream c) S got wire.
Proof.
  intros H. apply connect_paired. pose proof H as (ne & ae & [_ _ H3 H4 _]).
  apply (sender_paired c S); [done|intros; apply lk_end|done|done].
Qed.

Lemma ack_paired c S got wire ackno win :
  paired c S got wire -> (ackno, win) ∈ ap -> rx_have_SYN (tc_receiver c) = true ->
  paired (tc_with_sender c (ack_received (tc_sender c) ackno win)) S got wire.
Proof.
  intros H Hin Hsyn. pose proof H as (ne & ae & [_ _ H3 _ _]).
  apply (sender_paired c S); [done|intros; by apply lk_ack|by apply ack_received_calm|done].
Qed.

Lemma empty_paired c S got wire :
  paired c S got wire -> 1 <= next_seqno_absolute (tc_sender c) ->
  paired (tc_with_sender c (send_empty_segment (tc_sender c))) S got wire.
Proof.
  intros H Hn. pose proof H as (ne & ae & [_ _ H3 H4 _]).
  apply (sender_paired c S); [done|intros; by apply lk_empty|by apply empty_calm|done].
Qed.

Lemma read_paired c S got wire n :
  0 <= n -> paired c S got wire ->
  paired (tc_with_receiver c (rx_with_stream_out (tc_receiver c) (read (inbound_stream c) n).1)) S
    (got ++ (read (inbound_stream c) n).2) wire.
Proof.
  intros Hn (ne & ae & [H1 H2 H3 H4 H5]). exists ne, ae. constructor; try done. eapply lr_step; [exact H2|]. by apply lk_read.
Qed.

(** The other members do not matter. *)
Lemma paired_ext c c' S got wire :
  tc_sender c' = tc_sender c -> tc_receiver c' = tc_receiver c -> tc_segments_out c' = tc_segments_out c ->
  paired c S got wire -> paired c' S got wire.
Proof. intros E1 E2 E3 (ne & ae & [H1 H2 H3 H4 H5]). exists ne, ae. constructor; by rewrite ?E1, ?E2, ?E3. Qed.

Lemma close_check_paired c S got wire : paired c S got wire -> paired (tc_close_check c) S got wire.
Proof. apply paired_ext; unfold tc_close_check; by repeat case_match. Qed.

Lemma tick_paired c S got wire ms c' :
  paired c S got wire -> 0 <= ms -> tc_tick c ms = Ok c' ->
  tx_consecutive_retransmissions (tc_sender c') <= MAX_RETX_ATTEMPTS -> paired c' S got wire.
Proof.
  intros H Hms E Hn. pose proof H as (ne & ae & [H1 _ H3 H4 _]). destruct (out_tx _ _ _ _ _ _ H1) as [Ht Hk].
  unfold tc_tick in E. apply rbind_ok in E as (t & Et & E).
  assert (Ht' : paired (tc_with_sender c t) S got wire).
  { apply (sender_paired c S); [done|intros; by eapply lk_tick|by eapply tx_tick_calm|].
    destruct (tx_tick_spec _ _ ms Ht Hms) as (t1 & E1 & _ & _ & _ & _ & T5 & _). rewrite Et in E1. injection E1 as <-.
    by rewrite T5. }
  set (c1 := if _ && _ then _ else _) in E.
  assert (H1' : paired c1 S got wire) by (unfold c1; destruct (_ && _); by revert Ht'; apply paired_ext). clearbody c1.
  destruct (Z.ltb_spec MAX_RETX_ATTEMPTS (tx_consecutive_retransmissions (tc_sender c1))); injection E as <-.
  - cbn in Hn. unfold tx_consecutive_retransmissions in *. cbn in Hn. lia.
  - by apply move_paired.
Qed.

Lemma receives_syn r s r' : rx_segment_received r s = Ok r' -> rx_have_SYN r' = rx_have_SYN r || th_syn (header s).
Proof.
  unfold rx_segment_received, rx_push. intros E.
  destruct (rx_have_SYN r) eqn:Er, (th_syn (header s)) eqn:Es; cbn [negb orb] in *; try (by injection E as <-);
    apply rbind_ok in E as (ra & _ & [= <-]); done.
Qed.

Lemma after_receiver_paired c S got wire q :
  paired c S got wire -> on_way np ap q -> rx_have_SYN (tc_receiver c) = true ->
  paired (tc_after_receiver c q) S got wire.
Proof.
  intros H (Hr & _ & Ha) Hsyn. unfold tc_after_receiver. rewrite Hr. set (c1 := if _ && _ then _ else c).
  assert (H1 : paired c1 S got wire).
  { unfold c1. destruct (negb _ && th_ack (header q)) eqn:E; [|done]. apply andb_true_iff in E as [_ E].
    apply connect_paired, ack_paired; auto. }
  clearbody c1. case_match; [|by apply close_check_paired].
  destruct (Z.eqb_spec (next_seqno_absolute (tc_sender c1)) 0) as [|Hn]; [by apply connect_paired|].
  apply close_check_paired, move_paired. case_match; [|done]. apply empty_paired; [done|].
  destruct H1 as (ne & ae & [O1 _ _ _ _]). destruct (out_tx _ _ _ _ _ _ O1) as [Ht _].
  pose proof (tx_next_bound _ _ Ht). unfold next_seqno_absolute in *. lia.
Qed.

Lemma receive_paired c S got wire q c' :
  paired c S got wire -> on_way np ap q -> fin_fits Sp (tc_receiver c) q ->
  rx_have_SYN (tc_receiver c) = true \/ th_syn (header q) = true ->
  tc_segment_received c q = Ok c' -> paired c' S got wire.
Proof.
  intros (ne & ae & [H1 H2 H3 H4 H5]) Hq Hf Hsyn E. unfold tc_segment_received in E. cbn [tc_receiver tc_with_time] in E.
  apply rbind_ok in E as (r & Er & [= <-]). pose proof Hq as (_ & (s & Hs & Hd) & _).
  pose proof (receives_syn _ _ _ Er) as Hr. assert (Hrs : rx_have_SYN r = true).
  { rewrite Hr. destruct Hsyn as [-> | ->]; [done|apply orb_true_r]. }
  apply after_receiver_paired; [|done|done]. exists ne, ae. constructor; try done. eapply lr_step; [exact H2|].
  apply (lk_deliver _ _ _ _ _ _ s); [done| |by rewrite <- (received_data _ _ _ Hd)].
  destruct Hd as (_ & _ & D3 & D4). unfold fin_fits in *. by rewrite <- D3, <- D4.
Qed.
End links.

(** ** The two sides *)

(** A connection, what was written to it and read from it so far, and every
    segment it has put on the wire. *)
Record party : Type := mkParty {
  pt_conn : TCPConnection;
  pt_written : bytes;
  pt_read : bytes;
  pt_wire : list TCPSegment }.

Definition new_party (cfg : TCPConfig) : party := mkParty (new_TCPConnection cfg) [] [] [].

(** A step of [e], whose peer is [p].  Neither side gives up; the network delivers
    anything that [p] has sent, however often, but the first SYN first, and a FIN
    that carries no data only after the data. *)
Inductive orderly (p e : party) : party -> Prop :=
  | or_write d :
      input_ended (tx_stream (tc_sender (pt_conn e))) = false -> zlen (pt_written e) + zlen d + 2 < W31 ->
      orderly p e (mkParty (tc_write (pt_conn e) d).1 (pt_written e ++ ztake (tc_write (pt_conn e) d).2 d) (pt_read e) (pt_wire e))
  | or_end : orderly p e (mkParty (tc_end_input_stream (pt_conn e)) (pt_written e) (pt_read e) (pt_wire e))
  | or_connect : orderly p e (mkParty (tc_connect (pt_conn e)) (pt_written e) (pt_read e) (pt_wire e))
  | or_tick ms c' :
      0 <= ms -> tc_tick (pt_conn e) ms = Ok c' -> tx_consecutive_retransmissions (tc_sender c') <= MAX_RETX_ATTEMPTS ->
      orderly p e (mkParty c' (pt_written e) (pt_read e) (pt_wire e))
  | or_read n :
      0 <= n ->
      orderly p e (mkParty (tc_with_receiver (pt_conn e)
          (rx_with_stream_out (tc_receiver (pt_conn e)) (read (inbound_stream (pt_conn e)) n).1))
        (pt_written e) (pt_read e ++ (read (inbound_stream (pt_conn e)) n).2) (pt_wire e))
  | or_transmit q out :
      tc_segments_out (pt_conn e) = q :: out ->
      orderly p e (mkParty (tc_with_out (pt_conn e) out) (pt_written e) (pt_read e) (q :: pt_wire e))
  | or_deliver q c' :
      q ∈ pt_wire p -> fin_fits (pt_written p) (tc_receiver (pt_conn e)) q ->
      rx_have_SYN (tc_receiver (pt_conn e)) = true \/ th_syn (header q) = true ->
      tc_segment_received (pt_conn e) q = Ok c' ->
      orderly p e (mkParty c' (pt_written e) (pt_read e) (pt_wire e)).

Inductive meeting (cl cr : TCPConfig) : party -> party -> Prop :=
  | mt_start : meeting cl cr (new_party cl) (new_party cr)
  | mt_left l r l' : meeting cl cr l r -> orderly r l l' -> meeting cl cr l' r
  | mt_right l r r' : meeting cl cr l r -> orderly l r r' -> meeting cl cr l r'.

Lemma meeting_swap cl cr l r : meeting cl cr l r -> meeting cr cl r l.
Proof. induction 1; [constructor|by eapply mt_right|by eapply mt_left]. Qed.

(** The link from [e] to [p], with [net] and [acks] on it. *)
Definition link_from (e p : party) (net : list TCPSegment) (acks : list (WrappingInt32 * Z)) : link :=
  mkLink (tc_sender (pt_conn e)) (pt_written e) net acks (tc_receiver (pt_conn p)) (pt_read p).

Record met (cl cr : TCPConfig) (l r : party) (nl nr : list TCPSegment) (al ar : list (WrappingInt32 * Z)) : Prop := {
  me_left : on_links cl cr (tc_sender (pt_conn r)) (pt_written r) nr ar (tc_receiver (pt_conn r)) (pt_read r)
    (pt_conn l) (pt_written l) (pt_read l) (pt_wire l) nl al;
  me_calm : tx_calm (tc_sender (pt_conn r));
  me_syn : 1 <= tx_next_ackno (tc_sender (pt_conn r)) -> rx_have_SYN (tc_receiver (pt_conn r)) = true;
  me_way : Forall (on_way nr ar) (tc_segments_out (pt_conn r) ++ pt_wire r) }.

Lemma met_swap cl cr l r nl nr al ar : met cl cr l r nl nr al ar -> met cr cl r l nr nl ar al.
Proof. intros [[H1 H2 H3 H4 H5] H6 H7 H8]. by repeat constructor. Qed.

(** *** Nothing left to send

    With nothing in flight the window admits one byte or FIN, so that when the
    stream has ended something is in flight or everything has been sent. *)
Definition window_open (t : TCPSender) : Prop := tx_next_ackno t = tx_next_seqno t -> 1 <= tx_remain_window_size t.
Definition all_sent (t : TCPSender) (S : bytes) : Prop :=
  input_ended (tx_stream t) = true -> tx_next_ackno t < tx_next_seqno t \/ tx_next_seqno t = zlen S + 2.

Lemma fill_loop_open S fuel : forall t, tx_inv t S -> 1 <= tx_next_ackno t -> window_open t -> window_open (fill_loop fuel t).
Proof.
  induction fuel as [|fuel IH]; intros t Ht Ha Hw; cbn [fill_loop]; [done|]. destruct (fill_guard t) eqn:Hg; [|done].
  destruct (fill_step_inv t S Ht Hg Ha) as (F1 & _ & _ & F4 & F5 & _). pose proof (tx_next_bound t S Ht).
  apply IH; [done|lia|]. intros E. lia.
Qed.

Lemma fill_window_settles t S :
  tx_inv t S -> window_open t -> window_open (fill_window t) /\ all_sent (fill_window t) S.
Proof.
  intros Ht Hw. pose proof (tx_next_bound t S Ht) as Hb. split.
  - destruct (Z.lt_ge_cases 0 (tx_next_ackno t)) as [Ha|Ha]; unfold fill_window.
    + destruct (current_state t) eqn:Es; try (by apply (fill_loop_open S); [|lia|]); [|done].
      apply (current_state_closed t S Ht) in Es. lia.
    + destruct (Z.eq_dec (tx_next_seqno t) 0) as [E1|E1].
      * rewrite (proj2 (current_state_closed t S Ht) E1). intros E. rewrite (proj2 (fill_syn_inv t S Ht E1)) in E. cbn in E. lia.
      * assert (E0 : tx_next_ackno t = 0) by lia. by rewrite (proj2 (current_state_synsent t S Ht) (conj E1 E0)).
  - intros He. destruct (fill_window_inv t S Ht) as (_ & _ & He' & _). rewrite He' in He.
    destruct (fill_window_progress t S Ht He) as (E & _ & [Hlt|(Ef & _ & Hn & [Hs|Hr])]); rewrite ?E.
    + by left.
    + right. by rewrite Ef.
    + specialize (Hw Hn). lia.
Qed.

Lemma ack_received_open t S ackno win :
  tx_inv t S -> w32_ok ackno -> 0 <= win < W16 -> window_open (ack_received t ackno win).
Proof.
  intros Ht Hk Hw. destruct (ack_received_spec t S ackno win Ht Hk Hw) as (I1 & _).
  pose proof (ti_chain _ _ I1) as Hch. pose proof (ti_count _ _ I1) as Hcnt. pose proof (ti_window _ _ I1) as Hwin.
  intros E. apply (chain_empty _ _ _ _ _ _ Hch) in E as El. revert El Hcnt Hwin E. unfold ack_received.
  destruct (ack_scan ackno (tx_tracking_segments t) 0) as [remain [kept|]]; cbn;
    (destruct (_ && _) eqn:Eb; cbn; [intros El; rewrite El in Eb; by rewrite andb_false_r in Eb|]); intros _ Hcnt Hwin E;
    (replace remain with 0 by lia); rewrite Z.eqb_refl, andb_true_r;
    (match goal with |- 1 <= (if ?w =? 0 then _ else _) => revert Hwin; generalize w as x; intros x Hwin; destruct (Z.eqb_spec x 0); lia end).
Qed.

Lemma ack_received_forward t S ackno win :
  tx_inv t S -> w32_ok ackno -> 0 <= win < W16 -> tx_next_ackno t <= tx_next_ackno (ack_received t ackno win).
Proof.
  intros Ht Hk Hw. destruct (ack_received_spec t S ackno win Ht Hk Hw) as (_ & _ & _ & _ & _ & [(x & _ & Hx & -> & _)|(_ & -> & _)]); lia.
Qed.

(** Before the end of the stream the FIN is not sent. *)
Lemma not_ended_bound t S : tx_inv t S -> input_ended (tx_stream t) = false -> tx_next_seqno t <= zlen S + 1.
Proof.
  intros Ht He. pose proof (buffer_size_nonneg (tx_stream t)). zpos.
  destruct (ti_progress _ _ Ht) as [[? _]|[?|[? E]]]; unfold sent in *; [lia|lia|].
  unfold eof in E. by rewrite He in E.
Qed.

Lemma read_eof b n : eof b = true -> eof (read b n).1 = true.
Proof.
  unfold eof. rewrite !andb_true_iff, read_ended. intros [E1 E2]. split; [done|]. unfold buffer_empty in *.
  unfold read, pop_output. destruct (buffer_size b <? n); [done|]. cbn. destruct (bs_buffer b); [|done]. unfold zdrop. by rewrite drop_nil.
Qed.

(** *** A connection between two operations *)

Definition closed_ok (c : TCPConnection) (S : bytes) : Prop :=
  tc_active c = false -> tx_next_ackno (tc_sender c) = zlen S + 2 /\ eof (inbound_stream c) = true.

Record settled (c : TCPConnection) (S : bytes) : Prop := {
  se_window : window_open (tc_sender c);
  se_sent : all_sent (tc_sender c) S;
  se_closed : closed_ok c S }.

Lemma connect_settled c S :
  tx_inv (tc_sender c) S -> window_open (tc_sender c) -> closed_ok c S -> settled (tc_connect c) S.
Proof.
  intros Ht Hw Hc. destruct (fill_window_settles _ _ Ht Hw) as [H1 H2]. constructor; [done|done|].
  intros Ha. destruct (Hc Ha) as [H3 H4]. split; [|done]. cbn. by rewrite fill_window_ackno.
Qed.

Lemma move_settled c S : settled c S -> settled (move_to_segments_out c) S.
Proof. by intros []. Qed.

(** The connection may be over: then the FIN was acknowledged. *)
Lemma prereq_closed c S :
  tx_inv (tc_sender c) S -> all_sent (tc_sender c) S -> is_satisfied_prereq c = true ->
  tx_next_ackno (tc_sender c) = zlen S + 2 /\ eof (inbound_stream c) = true.
Proof.
  intros Ht Hs. unfold is_satisfied_prereq. intros E. apply andb_true_iff in E as [E1 E2].
  apply andb_true_iff in E1 as [_ E1]. apply andb_true_iff in E2 as [E2 E3]. apply Z.eqb_eq in E3.
  unfold tx_bytes_in_flight in E3. rewrite (ti_count _ _ Ht) in E3. split; [|done].
  unfold eof in E2. apply andb_true_iff in E2 as [E2 _]. destruct (Hs E2); lia.
Qed.

Lemma close_check_settled c S : tx_inv (tc_sender c) S -> settled c S -> settled (tc_close_check c) S.
Proof.
  intros Ht [H1 H2 H3]. unfold tc_close_check. set (c1 := if eof _ && _ then _ else c).
  assert (Hc1 : tc_sender c1 = tc_sender c /\ settled c1 S) by (unfold c1; destruct (eof _ && _); (split; [done|]); by constructor).
  destruct Hc1 as [E1 [A1 A2 A3]]. clearbody c1. destruct (_ && _) eqn:E; [|by constructor].
  apply andb_true_iff in E as [_ E]. constructor; [done|done|]. intros _. apply (prereq_closed c1); [by rewrite E1|done|done].
Qed.

Lemma after_receiver_settled c S q :
  tx_inv (tc_sender c) S -> settled c S -> th_rst (header q) = false ->
  (th_ack (header q) = true -> w32_ok (th_ackno (header q)) /\ 0 <= th_win (header q) < W16) ->
  settled (tc_after_receiver c q) S.
Proof.
  intros Ht Hs Hr Hq. unfold tc_after_receiver. rewrite Hr. set (c1 := if _ && _ then _ else c).
  assert (H1 : tx_inv (tc_sender c1) S /\ settled c1 S).
  { unfold c1. destruct (negb _ && th_ack (header q)) eqn:E; [|done]. apply andb_true_iff in E as [_ E].
    destruct (Hq E) as [Ha Hw]. destruct (ack_received_spec _ _ _ _ Ht Ha Hw) as (I1 & _). split.
    - apply tx_queue_inv; [by apply fill_window_inv|]. by intros x Hx%elem_of_nil.
    - apply connect_settled; [done|by eapply ack_received_open|]. intros Hc. destruct Hs as [_ _ Hs]. destruct (Hs Hc) as [E1 E2].
      split; [|done]. cbn. pose proof (ack_received_forward _ _ _ _ Ht Ha Hw). pose proof (tx_next_bound _ _ I1). cbn in *. lia. }
  clearbody c1. clear Ht Hs. destruct H1 as [Ht Hs]. case_match; [|by apply close_check_settled].
  destruct (Z.eqb_spec (next_seqno_absolute (tc_sender c1)) 0) as [|Hn]; [destruct Hs; by apply connect_settled|].
  set (c2 := match tc_segments_out c1 with [] => _ | _ => _ end).
  assert (H2 : tx_inv (tc_sender c2) S /\ settled c2 S).
  { unfold c2. destruct (tc_segments_out c1); [|done]. split; [|by destruct Hs].
    apply send_empty_segment_inv; [done|]. pose proof (tx_next_bound _ _ Ht). unfold next_seqno_absolute in Hn. lia. }
  destruct H2 as [I2 S2]. clearbody c2. apply close_check_settled; [|by apply move_settled].
  apply tx_queue_inv; [done|]. by intros x Hx%elem_of_nil.
Qed.

Lemma tick_settled c S ms c' :
  tx_inv (tc_sender c) S -> settled c S -> 0 <= ms -> tc_tick c ms = Ok c' ->
  tx_consecutive_retransmissions (tc_sender c') <= MAX_RETX_ATTEMPTS -> settled c' S.
Proof.
  intros Ht [H1 H2 H3] Hms E Hn. destruct (tx_tick_spec _ _ ms Ht Hms) as (t & Et & I1 & _ & T3 & T4 & T5 & _).
  unfold tc_tick in E. rewrite Et in E. cbn [rbind] in E.
  assert (Hr : tx_remain_window_size t = tx_remain_window_size (tc_sender c)).
  { unfold tx_tick in Et. repeat case_match; by simplify_eq. }
  set (c0 := tc_with_time _ _) in E.
  assert (S0 : settled c0 S).
  { constructor; unfold window_open, all_sent, closed_ok; cbn; rewrite ?T3, ?T4, ?T5, ?Hr; done. }
  set (c1 := if _ && _ then _ else c0) in E. assert (S1 : settled c1 S).
  { unfold c1. destruct (_ && is_satisfied_prereq c0) eqn:Ep; [|done]. apply andb_true_iff in Ep as [_ Ep].
    destruct S0 as [A1 A2 A3]. constructor; [done|done|]. intros _. by apply (prereq_closed c0). }
  clearbody c1. destruct (Z.ltb_spec MAX_RETX_ATTEMPTS (tx_consecutive_retransmissions (tc_sender c1))); injection E as <-.
  - cbn in Hn. unfold tx_consecutive_retransmissions in *. cbn in Hn. lia.
  - by apply move_settled.
Qed.

Section step.
Context (cl cr : TCPConfig).
Hypothesis Hcl : cfg_ok cl.
Hypothesis Hcr : cfg_ok cr.
Hypothesis Hrooml : cfg_recv_capacity cl + 5 * W32 < W64.
Hypothesis Hroomr : cfg_recv_capacity cr + 5 * W32 < W64.
Hypothesis Hrtol : 0 <= cfg_rt_timeout cl < W16.
Hypothesis Hrtor : 0 <= cfg_rt_timeout cr < W16.

Lemma orderly_met l r l' nl nr al ar :
  met cl cr l r nl nr al ar -> orderly r l l' -> exists nl' al', met cl cr l' r nl' nr al' ar.
Proof.
  intros [H1 H2 H3 H4] Hs.
  assert (Hp : paired cl cr (tc_sender (pt_conn r)) (pt_written r) nr ar (tc_receiver (pt_conn r)) (pt_read r)
    (pt_conn l) (pt_written l) (pt_read l) (pt_wire l)) by (by exists nl, al).
  assert (Hgoal : paired cl cr (tc_sender (pt_conn r)) (pt_written r) nr ar (tc_receiver (pt_conn r)) (pt_read r)
    (pt_conn l') (pt_written l') (pt_read l') (pt_wire l')).
  { destruct Hs as [d He Hd| | |ms c' Hms E Hn|n Hn|q out Eo|q c' Hq Hf Hsyn E]; cbn [pt_conn pt_written pt_read pt_wire].
    - by apply write_paired.
    - by apply end_paired.
    - by apply connect_paired.
    - by eapply tick_paired.
    - by apply read_paired.
    - destruct H1 as [A1 A2 A3 A4 A5]. exists nl, al. constructor; try done. cbn. rewrite Eo in A5. cbn in A5.
      inversion A5 as [|? ? B1 B2]; subst. apply Forall_app in B2 as [B2 B3]. apply Forall_app. split; [done|by constructor].
    - eapply receive_paired; try done. apply Forall_app in H4 as [_ H4]. rewrite Forall_forall in H4. by apply H4. }
  destruct Hgoal as (nl' & al' & Hg). exists nl', al'. by constructor.
Qed.

(** What has ended and was read stays so. *)
Lemma receive_eof tr S n a r got q r' :
  link_of cr cl (mkLink tr S n a r got) -> (exists s, s ∈ n /\ same_data s q) -> fin_fits S r q ->
  rx_segment_received r q = Ok r' -> eof (rx_stream_out r) = true -> eof (rx_stream_out r') = true.
Proof.
  intros Hl (s & Hs & Hd) Hf E He. rewrite (received_data _ _ _ Hd) in E.
  destruct (out_live cr cl Hcr Hcl Hrooml Hrtor _ _ _ _ _ _ Hl) as (hist & L & _).
  destruct Hcl as (_ & Hc & _). destruct Hcr as (_ & _ & Hi).
  pose proof (lv_pool _ _ _ _ _ _ _ _ L) as Hp. apply Forall_app in Hp as [_ Hp]. rewrite Forall_forall in Hp.
  assert (Hfs : fin_fits S r s) by (destruct Hd as (_ & _ & D3 & D4); unfold fin_fits in *; by rewrite <- D3, <- D4).
  destruct (live_deliver (cfg_recv_capacity cl) (cfg_isn cr) ltac:(lia) ltac:(lia) Hi _ _ _ _ _ _ s L (Hp s Hs) Hfs) as (r1 & w & E1 & L1 & Hb).
  rewrite E in E1. injection E1 as <-. unfold eof in *. apply andb_true_iff in He as [He1 He2].
  destruct (proj1 (re_ended _ _ _ (lv_ended _ _ _ _ _ _ _ _ L)) He1) as [Hfin Hlen].
  pose proof (hist_le _ _ _ _ (rx_stream _ _ _ _ _ (lv_rx _ _ _ _ _ _ _ _ L1))) as Hle. rewrite zlen_app in Hle. zpos.
  assert (Hw : w = []) by (apply zlen_0; lia). subst w. rewrite app_nil_r in *.
  apply andb_true_iff. split.
  - apply (re_ended _ _ _ (lv_ended _ _ _ _ _ _ _ _ L1)). split; [by eapply rx_fin_kept|done].
  - unfold buffer_empty in *. by rewrite Hb.
Qed.

Lemma orderly_settled l r l' nl nr al ar :
  met cl cr l r nl nr al ar -> orderly r l l' -> settled (pt_conn l) (pt_written l) -> settled (pt_conn l') (pt_written l').
Proof.
  intros [[H1 H2 H3 H4 H5] _ _ Hway] Hs Hse. destruct (out_tx cl cr Hcl Hcr Hroomr Hrtol _ _ _ _ _ _ H1) as [Ht _].
  destruct Hs as [d He Hd| | |ms c' Hms E Hn|n Hn|q out Eo|q c' Hq Hf Hsyn E]; cbn [pt_conn pt_written].
  - destruct (tx_write_inv _ _ d Ht He ltac:(lia)) as (w & A & B & C). unfold tc_write.
    destruct (write (tx_stream (tc_sender (pt_conn l))) d) as [b m] eqn:Ew. cbn [fst snd] in *. destruct Hse as [S1 S2 S3].
    apply connect_settled; [by rewrite <- C, <- B|done|]. intros Ha. destruct (S3 Ha) as [S4 S5].
    pose proof (tx_next_bound _ _ Ht). pose proof (not_ended_bound _ _ Ht He). lia.
  - destruct Hse as [S1 S2 S3]. apply connect_settled; [by apply tx_end_input_inv|done|done].
  - destruct Hse as [S1 S2 S3]. by apply connect_settled.
  - by eapply tick_settled.
  - destruct Hse as [S1 S2 S3]. constructor; [done|done|]. intros Ha. destruct (S3 Ha) as [S4 S5]. split; [done|].
    by apply (read_eof (inbound_stream (pt_conn l)) n).
  - by destruct Hse.
  - apply Forall_app in Hway as [_ Hway]. rewrite Forall_forall in Hway. destruct (Hway q Hq) as (Q1 & Q2 & Q3).
    unfold tc_segment_received in E. cbn [tc_receiver tc_with_time] in E. apply rbind_ok in E as (rx & Er & [= <-]).
    destruct Hse as [S1 S2 S3]. apply after_receiver_settled; [done| |done|].
    + constructor; [done|done|]. intros Ha. destruct (S3 Ha) as [S4 S5]. split; [done|].
      by eapply (receive_eof _ _ _ _ _ _ q).
    + intros Ha. destruct (out_live cl cr Hcl Hcr Hroomr Hrtol _ _ _ _ _ _ H1) as (hist & L & _).
      pose proof (lv_acks _ _ _ _ _ _ _ _ L) as Hacks. rewrite Forall_forall in Hacks.
      destruct (Hacks _ (Q3 Ha)) as (x & Hx & _ & Hwin & _). cbn in Hx, Hwin. rewrite Hx. split; [apply wrap_ok|done].
Qed.
End step.

Section meeting.
Context (cl cr : TCPConfig).
Hypothesis Hcl : cfg_ok cl.
Hypothesis Hcr : cfg_ok cr.
Hypothesis Hrooml : cfg_recv_capacity cl + 5 * W32 < W64.
Hypothesis Hroomr : cfg_recv_capacity cr + 5 * W32 < W64.
Hypothesis Hrtol : 0 <= cfg_rt_timeout cl < W16.
Hypothesis Hrtor : 0 <= cfg_rt_timeout cr < W16.

Lemma new_settled cfg : settled (new_TCPConnection cfg) [].
Proof. by constructor. Qed.

Lemma meeting_met l r : meeting cl cr l r ->
  (exists nl nr al ar, met cl cr l r nl nr al ar) /\ settled (pt_conn l) (pt_written l) /\ settled (pt_conn r) (pt_written r).
Proof.
  induction 1 as [|l r l' _ ((nl & nr & al & ar & IH) & Sl & Sr) Hs|l r r' _ ((nl & nr & al & ar & IH) & Sl & Sr) Hs].
  - split; [|split; apply new_settled]. exists [], [], [], []. constructor; [constructor|..]; try done; constructor.
  - destruct (orderly_met cl cr Hcl Hcr Hrooml Hroomr Hrtol Hrtor _ _ _ _ _ _ _ IH Hs) as (nl' & al' & H).
    split; [by exists nl', nr, al', ar|]. split; [|done]. eapply (orderly_settled cl cr); [done..|exact IH|exact Hs|exact Sl].
  - apply met_swap in IH. destruct (orderly_met cr cl Hcr Hcl Hroomr Hrooml Hrtor Hrtol _ _ _ _ _ _ _ IH Hs) as (nr' & ar' & H).
    apply met_swap in H. split; [by exists nl, nr', al, ar'|]. split; [done|]. eapply (orderly_settled cr cl); [done..|exact IH|exact Hs|exact Sr].
Qed.
End meeting.

(** ** What the two sides know *)

(** C3: Acknowledged means received.  Two whole connections that nobody resets, over
    a network that loses, repeats, reorders and delays, but lets nothing overtake
    the first SYN and no bare FIN overtake the data before it.  Each direction,
    with the acknowledgements that ride on the segments of the other, is a run of
    a sender and a receiver as in [Recovery.v].  So what either side takes for
    acknowledged the other side has assembled, and when a stream has ended it can
    be completed from here, whatever is lost, one retransmission at a time. *)
Theorem connections_refine_links cl cr l r n :
  cfg_ok cl -> cfg_ok cr -> cfg_recv_capacity cl + 5 * W32 < W64 -> cfg_recv_capacity cr + 5 * W32 < W64 ->
  0 <= cfg_rt_timeout cl < W16 -> 0 <= cfg_rt_timeout cr < W16 -> meeting cl cr l r ->
  2 * zlen (pt_written l) + 6 <= Z.of_nat n ->
  exists nl nr al ar,
    link_of cl cr (link_from l r nl ar) /\ link_of cr cl (link_from r l nr al) /\
    Forall (on_way nl al) (pt_wire l) /\ Forall (on_way nr ar) (pt_wire r) /\
    tx_next_ackno (tc_sender (pt_conn l)) <= rx_position (tc_receiver (pt_conn r)) /\
    rx_position (tc_receiver (pt_conn r)) <= tx_next_seqno (tc_sender (pt_conn l)) /\
    (input_ended (tx_stream (tc_sender (pt_conn l))) = true ->
     exists t' r', recovery_rounds n (tc_sender (pt_conn l)) (tc_receiver (pt_conn r)) (pt_read r)
         = Ok (t', r', pt_written l) /\
       eof (rx_stream_out r') = true /\ current_state t' = FinAcked).
Proof.
  intros Hl Hr Hcl Hcr Htl Htr Hm Hn. destruct (meeting_met cl cr Hl Hr Hcl Hcr Htl Htr l r Hm) as ((nl & nr & al & ar & M) & _).
  destruct M as [[H1 H2 _ _ H5] _ _ H8]. exists nl, nr, al, ar. apply Forall_app in H5 as [_ H5]. apply Forall_app in H8 as [_ H8].
  split; [done|]. split; [done|]. split; [done|]. split; [done|].
  destruct (out_live cl cr Hl Hr Hcr Htl _ _ _ _ _ _ H1) as (hist & L & Hg).
  pose proof Hl as (A1 & A2 & A3). pose proof Hr as (B1 & B2 & B3).
  split; [apply L|]. split; [by eapply lv_position|]. intros He.
  destruct (recovery_completes (cfg_recv_capacity cr) (cfg_isn cl) ltac:(lia) Hcr A3 (link_from l r nl ar) n) as
    (t' & r' & got' & net' & acks' & E & _ & (C1 & C2 & C3 & _)); [by exists hist|done|done|].
  cbn in C1. subst got'. by exists t', r'.
Qed.

(** C4: A clean end is a complete one, over the network of
    [connections_refine_links]: it loses, repeats, reorders and delays, but lets
    nothing overtake the first SYN, and delivers a FIN only after the data
    before it or, with data, while the end of the stream is inside the
    receiver's window; the streams are shorter than [2^31 - 2]. When a
    connection that nobody reset is no longer active, its application has read
    all that the other side wrote, and all that it wrote itself, with the end of
    it, has been assembled there. (A FIN that overtakes data can make the code
    close early: [reordering_truncates], [receiver_premature_end].) *)
Theorem clean_close_complete cl cr l r :
  cfg_ok cl -> cfg_ok cr -> cfg_recv_capacity cl + 5 * W32 < W64 -> cfg_recv_capacity cr + 5 * W32 < W64 ->
  0 <= cfg_rt_timeout cl < W16 -> 0 <= cfg_rt_timeout cr < W16 -> meeting cl cr l r ->
  tc_active (pt_conn l) = false ->
  pt_read l = pt_written r /\
  pt_read r ++ bs_buffer (inbound_stream (pt_conn r)) = pt_written l /\
  input_ended (inbound_stream (pt_conn r)) = true.
Proof.
  intros Hl Hr Hcl Hcr Htl Htr Hm Ha.
  destruct (meeting_met cl cr Hl Hr Hcl Hcr Htl Htr l r Hm) as ((nl & nr & al & ar & [[H1 H2 _ _ _] _ _ _]) & [_ _ Hc] & _).
  destruct (Hc Ha) as [Hack Heof]. 
  destruct (out_live cl cr Hl Hr Hcr Htl _ _ _ _ _ _ H1) as (hr & Lr & Hgr).
  destruct (out_live cr cl Hr Hl Hcl Htr _ _ _ _ _ _ H2) as (hl & Ll & Hgl).
  destruct (acked_all _ _ _ _ _ _ _ _ Lr Hack) as [E1 E2]. split; [|split; [|done]].
  - unfold eof in Heof. apply andb_true_iff in Heof as [He Hb].
    destruct (proj1 (re_ended _ _ _ (lv_ended _ _ _ _ _ _ _ _ Ll)) He) as [_ Hlen].
    pose proof (si_hist _ _ _ _ (rx_stream _ _ _ _ _ (lv_rx _ _ _ _ _ _ _ _ Ll))) as Hh.
    unfold inbound_stream, buffer_empty in Hb. destruct (bs_buffer (rx_stream_out (tc_receiver (pt_conn l)))); [|done].
    rewrite app_nil_r in Hgl. rewrite Hgl, Hh, Hlen. by apply ztake_all.
  - by rewrite <- E1.
Qed.

(** ** Runs *)

Inductive party_move : Type :=
  | mv_write (d : bytes)
  | mv_end
  | mv_connect
  | mv_tick (ms : Z)
  | mv_read
  | mv_transmit
  | mv_deliver (k : nat).

Definition fin_fitsb (S : bytes) (r : TCPReceiver) (q : TCPSegment) : bool :=
  negb (th_fin (header q)) || (zlen S <=? bytes_written (rx_stream_out r)) ||
  (negb (zlen (buf_str (payload q)) =? 0) && (zlen S - 1 <=? window_last (rx_reassembler r))).

Lemma fin_fitsb_spec S r q : fin_fitsb S r q = true -> fin_fits S r q.
Proof.
  unfold fin_fitsb, fin_fits. intros E Hf. rewrite Hf in E. cbn in E. apply orb_true_iff in E as [E|E].
  - left. by apply Z.leb_le.
  - right. apply andb_true_iff in E as [E1 E2]. apply Z.leb_le in E2. split; [|done]. intros En. by rewrite En in E1.
Qed.

(** The move [m] of [e], whose peer is [p]; delivered is the k-th segment that [p]
    has put on the wire. *)
Definition moves (p e : party) (m : party_move) : option party :=
  let c := pt_conn e in
  let next c' := Some (mkParty c' (pt_written e) (pt_read e) (pt_wire e)) in
  match m with
  | mv_write d =>
      if negb (input_ended (tx_stream (tc_sender c))) && (zlen (pt_written e) + zlen d + 2 <? W31)
      then Some (mkParty (tc_write c d).1 (pt_written e ++ ztake (tc_write c d).2 d) (pt_read e) (pt_wire e)) else None
  | mv_end => next (tc_end_input_stream c)
  | mv_connect => next (tc_connect c)
  | mv_tick ms =>
      match tc_tick c ms with
      | Ok c' => if (0 <=? ms) && (tx_consecutive_retransmissions (tc_sender c') <=? MAX_RETX_ATTEMPTS) then next c' else None
      | Err _ => None
      end
  | mv_read =>
      let n := buffer_size (inbound_stream c) in
      Some (mkParty (tc_with_receiver c (rx_with_stream_out (tc_receiver c) (read (inbound_stream c) n).1))
        (pt_written e) (pt_read e ++ (read (inbound_stream c) n).2) (pt_wire e))
  | mv_transmit =>
      match tc_segments_out c with
      | q :: out => Some (mkParty (tc_with_out c out) (pt_written e) (pt_read e) (q :: pt_wire e))
      | [] => None
      end
  | mv_deliver k =>
      q ← rev (pt_wire p) !! k;
      match tc_segment_received c q with
      | Ok c' =>
          if fin_fitsb (pt_written p) (tc_receiver c) q && (rx_have_SYN (tc_receiver c) || th_syn (header q))
          then next c' else None
      | Err _ => None
      end
  end.

Lemma moves_orderly p e m e' : moves p e m = Some e' -> orderly p e e'.
Proof.
  destruct m as [d| | |ms| | |k]; cbn; intros E.
  - destruct (_ && _) eqn:Eb; [|done]. apply andb_true_iff in Eb as [E1%negb_true_iff E2%Z.ltb_lt]. injection E as <-.
    by apply or_write.
  - injection E as <-. apply or_end.
  - injection E as <-. apply or_connect.
  - destruct (tc_tick _ ms) as [c'|] eqn:Et; [|done]. destruct (_ && _) eqn:Eb; [|done].
    apply andb_true_iff in Eb as [E1%Z.leb_le E2%Z.leb_le]. injection E as <-. by eapply or_tick.
  - injection E as <-. apply or_read, buffer_size_nonneg.
  - destruct (tc_segments_out _) as [|q out] eqn:Eq; [done|]. injection E as <-. by apply or_transmit.
  - apply bind_Some in E as (q & Eq & E). destruct (tc_segment_received _ q) as [c'|] eqn:Er; [|done].
    destruct (_ && _) eqn:Eb; [|done]. apply andb_true_iff in Eb as [E1%fin_fitsb_spec E2%orb_true_iff]. injection E as <-.
    apply list_elem_of_lookup_2, list_elem_of_In, in_rev, list_elem_of_In in Eq. by eapply or_deliver.
Qed.

(** Moves of the left side, marked [true], and of the right side. *)
Fixpoint plays (ms : list (bool * party_move)) (l r : party) : option (party * party) :=
  match ms with
  | [] => Some (l, r)
  | (true, m) :: ms => l' ← moves r l m; plays ms l' r
  | (false, m) :: ms => r' ← moves l r m; plays ms l r'
  end.

Lemma plays_meeting cl cr ms : forall l r l' r',
  meeting cl cr l r -> plays ms l r = Some (l', r') -> meeting cl cr l' r'.
Proof.
  induction ms as [|[[] m] ms IH]; intros l r l' r' Hm E; cbn [plays] in E; [by injection E as <- <-|..];
    apply bind_Some in E as (x & Ex & E); apply moves_orderly in Ex; (eapply IH; [|exact E]);
    [by eapply mt_left|by eapply mt_right].
Qed.

(** A whole connection: the second byte arrives before the first, the first is lost
    and sent again, both sides close, and the left side waits. *)
Definition whole_play : list (bool * party_move) :=
  [(true, mv_connect); (true, mv_transmit); (false, mv_deliver 0); (false, mv_transmit); (true, mv_deliver 0);
   (true, mv_transmit); (false, mv_deliver 1); (true, mv_write [x61]); (true, mv_transmit); (true, mv_write [x62]);
   (true, mv_transmit); (false, mv_deliver 3); (true, mv_tick 1000); (true, mv_transmit); (false, mv_deliver 4);
   (false, mv_write [x63]); (true, mv_end); (true, mv_transmit); (false, mv_deliver 5); (false, mv_read);
   (false, mv_transmit); (false, mv_transmit); (true, mv_deliver 2); (true, mv_transmit); (false, mv_deliver 6);
   (true, mv_read); (false, mv_end); (false, mv_transmit); (true, mv_deliver 3); (true, mv_transmit); (false, mv_deliver 7);
   (true, mv_tick 10000)].
Definition played : party * party :=
  default (new_party (small_cfg 0), new_party (small_cfg 1000))
    (plays whole_play (new_party (small_cfg 0)) (new_party (small_cfg 1000))).

Lemma whole_play_meets : meeting (small_cfg 0) (small_cfg 1000) played.1 played.2.
Proof. eapply (plays_meeting _ _ whole_play); [apply mt_start|]. vm_compute. reflexivity. Qed.

(** Both sides end, and both have read what the other wrote. *)
Theorem whole_play_ends :
  tc_active (pt_conn played.1) = false /\ tc_active (pt_conn played.2) = false /\
  pt_read played.1 = [x63] /\ pt_read played.2 = [x61; x62].
Proof. split_and!; vm_compute; reflexivity. Qed.

Lemma connections_refine_links_witness :
  tx_next_ackno (tc_sender (pt_conn played.1)) = 4 /\
  tx_next_ackno (tc_sender (pt_conn played.1)) <= rx_position (tc_receiver (pt_conn played.2)).
Proof.
  destruct (connections_refine_links (small_cfg 0) (small_cfg 1000) played.1 played.2 10) as (nl & nr & al & ar & _ & _ & _ & _ & H & _).
  - apply small_cfg_ok. lia.
  - apply small_cfg_ok. lia.
  - reflexivity.
  - reflexivity.
  - simpl. lia.
  - simpl. lia.
  - exact whole_play_meets.
  - vm_compute. discriminate.
  - split; [vm_compute; reflexivity|exact H].
Defined.

Lemma clean_close_complete_witness :
  pt_read played.1 = pt_written played.2 /\ pt_written played.2 = [x63] /\
  pt_read played.2 ++ bs_buffer (inbound_stream (pt_conn played.2)) = pt_written played.1 /\ pt_written played.1 = [x61; x62].
Proof.
  destruct (clean_close_complete (small_cfg 0) (small_cfg 1000) played.1 played.2) as (H1 & H2 & _).
  - apply small_cfg_ok. lia.
  - apply small_cfg_ok. lia.
  - reflexivity.
  - reflexivity.
  - simpl. lia.
  - simpl. lia.
  - exact whole_play_meets.
  - exact (proj1 whole_play_ends).
  - split; [exact H1|]. split; [vm_compute; reflexivity|]. split; [exact H2|vm_compute; reflexivity].
Defined.

(** ** Where it goes wrong *)

Definition first_out (c : TCPConnection) : TCPSegment := hd new_TCPSegment (tc_segments_out c).
Definition emptied_out (c : TCPConnection) : TCPConnection := tc_with_out c [].
Definition received (c : TCPConnection) (q : TCPSegment) : TCPConnection :=
  match tc_segment_received c q with Ok c' => c' | Err _ => c end.

(** Both sides connect at once, with consecutive initial numbers.  The SYN of [b] is
    lost and its acknowledgement arrives, so that [a] may send before it can
    acknowledge anything.  Its FIN then claims to acknowledge the number after
    itself. *)
Definition opener (isn : Z) : TCPConnection := tc_connect (new_TCPConnection (small_cfg isn)).
Definition answering_opener : TCPConnection := received (emptied_out (opener 6)) (first_out (opener 5)).
Definition early_closer : TCPConnection := tc_end_input_stream (received (emptied_out (opener 5)) (first_out answering_opener)).

(** The other side takes this for an acknowledgement of its SYN, of which nothing
    has arrived, and will not send it again. *)
Theorem unstamped_fin_acknowledges :
  let b := received (emptied_out answering_opener) (first_out early_closer) in
  th_fin (header (first_out early_closer)) = true /\ th_ack (header (first_out early_closer)) = true /\
  rx_have_SYN (tc_receiver early_closer) = false /\
  tx_next_ackno (tc_sender b) = 1 /\ tx_bytes_in_flight (tc_sender b) = 0.
Proof. cbn zeta. split_and!; vm_compute; reflexivity. Qed.

(** A segment that arrives while an acknowledgement of an earlier one is still
    queued is not acknowledged. *)
Theorem queued_segment_hides_ack :
  let c := received (new_TCPConnection (small_cfg 0)) (seg_at 1000 true false []) in
  let c' := received c (seg_at 1001 false false [x61]) in
  tc_segments_out c' = tc_segments_out c /\ rx_ackno (tc_receiver c') = Some (mkW32 1002) /\
  Forall (fun q => th_ackno (header q) = mkW32 1001) (tc_segments_out c').
Proof. cbn zeta. split_and!; [vm_compute; reflexivity..|]. vm_compute. repeat constructor. Qed.
