(* ===== verification/Outgoing.v ===== *)
(** * What a connection puts on the wire

    Every segment that a connection queues, whatever happened to it before, is
    well formed: each field has a value of its width, the header has no
    options, and the payload is at most [MAX_PAYLOAD_SIZE] bytes.  So every
    adapter can serialise it in a datagram. *)
From S2P Require Import Prelude WrappingIntegers ByteStream StreamReassembler Buffer Parser Checksum TCPSegment TCPReceiver TCPSender TCPConnection.

Record sendable (s : TCPSegment) : Prop := {
  se_header : TCPHeader_ok (header s);
  se_doff : th_doff (header s) = 5;
  se_buffer : buf_ok (payload s);
  se_payload : zlen (buf_str (payload s)) <= MAX_PAYLOAD_SIZE }.

Lemma sendable_ok s : sendable s -> TCPSegment_ok s.
Proof. intros [H1 H2 H3 H4]. unfold MAX_PAYLOAD_SIZE in H4. split; [done|]. split; [done|lia]. Qed.

(** ** The assignments to a header *)

Lemma new_sendable : sendable new_TCPSegment.
Proof. constructor; [constructor; vm_compute; split; congruence|done|done|]. by vm_compute. Qed.

Lemma with_header_sendable f s :
  (TCPHeader_ok (header s) -> th_doff (header s) = 5 ->
     TCPHeader_ok (f (header s)) /\ th_doff (f (header s)) = 5) ->
  sendable s -> sendable (with_header f s).
Proof. intros Hf [H1 H2 H3 H4]. destruct (Hf H1 H2). by constructor. Qed.

Ltac header_field := intros; apply with_header_sendable; [intros [] ?; split; [by constructor|done]|done].

Lemma set_seqno_sendable q s : w32_ok q -> sendable s -> sendable (with_header (set_seqno q) s).
Proof. header_field. Qed.
Lemma set_ackno_sendable q s : w32_ok q -> sendable s -> sendable (with_header (set_ackno q) s).
Proof. header_field. Qed.
Lemma set_win_sendable w s : 0 <= w < W16 -> sendable s -> sendable (with_header (set_win w) s).
Proof. header_field. Qed.
Lemma set_ack_sendable b s : sendable s -> sendable (with_header (set_ack b) s).
Proof. header_field. Qed.
Lemma set_fin_sendable b s : sendable s -> sendable (with_header (set_fin b) s).
Proof. header_field. Qed.
Lemma set_syn_sendable b s : sendable s -> sendable (with_header (set_syn b) s).
Proof. header_field. Qed.
Lemma set_rst_sendable b s : sendable s -> sendable (with_header (set_rst b) s).
Proof. header_field. Qed.

Create HintDb sendable.
#[export] Hint Resolve new_sendable set_seqno_sendable set_ackno_sendable set_win_sendable
  set_ack_sendable set_fin_sendable set_syn_sendable set_rst_sendable wrap_ok u16_range : sendable.

Lemma payload_sendable data s :
  zlen data <= MAX_PAYLOAD_SIZE -> sendable s -> sendable (mkTCPSegment (header s) (Buffer_of data)).
Proof.
  intros Hd [H1 H2 H3 H4]. unfold MAX_PAYLOAD_SIZE in *. constructor; try done.
  apply Buffer_of_ok. zpos. lia.
Qed.

(** ** The sender *)

Record tx_sendable (t : TCPSender) : Prop := {
  ts_isn : w32_ok (tx_isn t);
  ts_out : Forall sendable (tx_segments_out t);
  ts_tracked : Forall sendable (tx_tracking_segments t) }.

Lemma fill_read_size_le t : 0 <= fill_read_size t <= MAX_PAYLOAD_SIZE.
Proof.
  unfold fill_read_size, MAX_PAYLOAD_SIZE. set (space := _ -! _).
  pose proof (u64_range (tx_next_ackno t +! tx_remain_window_size t - next_seqno_absolute t)) as Hs.
  fold space in Hs. pose proof (buffer_size_nonneg (tx_stream t)).
  rewrite u16_id; zcase; lia.
Qed.

Lemma read_length b n : 0 <= n -> zlen (read b n).2 <= n.
Proof.
  intros Hn. unfold read, peek_output, pop_output. cbn [snd]. zcase; [exact Hn|].
  cbn [snd]. rewrite zlen_ztake by done. lia.
Qed.

Lemma w32_add_ok q n : w32_ok (w32_add q n).
Proof. unfold w32_ok, w32_add. cbn. apply u32_range. Qed.
#[export] Hint Resolve w32_add_ok : sendable.

Lemma fill_segment_sendable t : sendable (fill_segment t).1.
Proof.
  unfold fill_segment. pose proof (fill_read_size_le t) as Hn. set (n := fill_read_size t) in *.
  destruct (negb (n =? 0)).
  - pose proof (read_length (tx_stream t) n ltac:(lia)) as Hr.
    destruct (read (tx_stream t) n) as [b d]. cbn [snd fst] in *.
    pose proof (payload_sendable d new_TCPSegment ltac:(lia) new_sendable) as Hp.
    destruct ((n <? _) && eof b); unfold next_seqno; auto 8 with sendable.
  - cbn [fst]. destruct ((n <? _) && _); unfold next_seqno; auto 8 with sendable.
Qed.

Lemma fill_step_sendable t : tx_sendable t -> tx_sendable (fill_step t).
Proof.
  intros [H1 H2 H3]. pose proof (fill_segment_sendable t) as Hs. unfold fill_step.
  destruct (fill_segment t) as [s b]. cbn [fst] in Hs. constructor; cbn; [done| |by constructor].
  apply Forall_app. split; [done|by constructor].
Qed.

Lemma fill_loop_sendable fuel : forall t, tx_sendable t -> tx_sendable (fill_loop fuel t).
Proof.
  induction fuel as [|fuel IH]; intros t Ht; cbn [fill_loop]; [done|].
  destruct (fill_guard t); [|done]. by apply IH, fill_step_sendable.
Qed.

Lemma fill_window_sendable t : tx_sendable t -> tx_sendable (fill_window t).
Proof.
  intros Ht. unfold fill_window. destruct (current_state t); try done; try by apply fill_loop_sendable.
  destruct Ht as [H1 H2 H3].
  assert (Hs : sendable (with_header (set_ackno (wrap (tx_next_seqno t +! 1) (tx_isn t)))
    (with_header (set_syn true) (with_header (set_seqno (tx_isn t)) new_TCPSegment)))) by auto with sendable.
  constructor; cbn; [done| |by constructor]. apply Forall_app. split; [done|by constructor].
Qed.

Lemma ack_scan_sendable ackno l : forall acc, Forall sendable l ->
  match (ack_scan ackno l acc).2 with Some kept => Forall sendable kept | None => True end.
Proof.
  induction l as [|s l IH]; intros acc Hl; cbn [ack_scan]; [done|]. inversion Hl; subst.
  destruct (w32_eqb _ _); [constructor|]. specialize (IH (acc +! length_in_sequence_space s) ltac:(done)).
  destruct (ack_scan ackno l _) as [remain [kept|]]; cbn in *; [by constructor|done].
Qed.

Lemma ack_received_sendable t ackno win : tx_sendable t -> tx_sendable (ack_received t ackno win).
Proof.
  intros [H1 H2 H3]. unfold ack_received. pose proof (ack_scan_sendable ackno _ 0 H3) as Hk.
  destruct (ack_scan ackno (tx_tracking_segments t) 0) as [remain [kept|]]; cbn [snd] in Hk;
    case_match; by constructor.
Qed.

Lemma tick_sendable t ms t' : tx_sendable t -> tx_tick t ms = Ok t' -> tx_sendable t'.
Proof.
  intros [H1 H2 H3]. unfold tx_tick.
  destruct (_ && _); [|intros [= <-]; by constructor].
  destruct (last (tx_tracking_segments t)) as [o|] eqn:El; [|done]. intros [= <-].
  constructor; cbn; try done. apply Forall_app. split; [done|]. constructor; [|done].
  rewrite Forall_forall in H3. apply H3. apply last_Some in El as (l & ->). set_solver.
Qed.

Lemma empty_sendable t : tx_sendable t -> tx_sendable (send_empty_segment t).
Proof.
  intros [H1 H2 H3]. constructor; cbn; try done. apply Forall_app. split; [done|]. constructor; [|done].
  change (sendable (with_header (set_ackno (next_seqno t)) (with_header (set_seqno (next_seqno t)) new_TCPSegment))).
  unfold next_seqno. auto with sendable.
Qed.

(** ** The connection *)

Record tc_sendable (c : TCPConnection) : Prop := {
  cs_sender : tx_sendable (tc_sender c);
  cs_out : Forall sendable (tc_segments_out c) }.

Lemma stamp_sendable r s : sendable s -> sendable (stamp r s).
Proof.
  intros Hs. unfold stamp. destruct (rx_ackno r) as [a|] eqn:Ea; [|done].
  assert (Ha : w32_ok a) by (unfold rx_ackno in Ea; repeat case_match; simplify_eq; apply wrap_ok).
  auto with sendable.
Qed.

Lemma move_sendable c : tc_sendable c -> tc_sendable (move_to_segments_out c).
Proof.
  intros [[H1 H2 H3] H4]. constructor; [by constructor|]. cbn. apply Forall_app. split; [done|].
  apply Forall_fmap. eapply Forall_impl; [exact H2|]. intros s. apply stamp_sendable.
Qed.

Lemma connect_sendable c : tc_sendable c -> tc_sendable (tc_connect c).
Proof. intros [H1 H2]. apply move_sendable. constructor; [by apply fill_window_sendable|done]. Qed.

Lemma set_errors_sendable c : tc_sendable c -> tc_sendable (set_errors c).
Proof. by intros [[] ?]. Qed.

Lemma close_check_sendable c : tc_sendable c -> tc_sendable (tc_close_check c).
Proof. intros [H1 H2]. unfold tc_close_check. repeat case_match; by constructor. Qed.

Lemma reset_sendable c : tc_sendable c -> tc_sendable (tc_reset c).
Proof.
  intros [[] H2]. constructor; [by constructor|]. cbn. apply Forall_app. split; [done|].
  constructor; [|done]. apply set_rst_sendable, new_sendable.
Qed.

Lemma after_receiver_sendable c seg : tc_sendable c -> tc_sendable (tc_after_receiver c seg).
Proof.
  intros Hc. unfold tc_after_receiver. set (c1 := if th_rst (header seg) then _ else c).
  assert (H1 : tc_sendable c1) by (unfold c1; case_match; [by destruct Hc as [[] ?]|done]).
  clearbody c1. set (c2 := if negb _ && _ then _ else c1).
  assert (H2 : tc_sendable c2).
  { unfold c2. case_match; [|done]. apply connect_sendable. destruct H1.
    constructor; [by apply ack_received_sendable|done]. }
  clearbody c2. case_match; [|by apply close_check_sendable]. case_match; [by apply connect_sendable|].
  apply close_check_sendable, move_sendable. case_match; [|done]. destruct H2.
  constructor; [by apply empty_sendable|done].
Qed.

Lemma tc_step_sendable c o c' : tc_sendable c -> tc_step c o = Ok c' -> tc_sendable c'.
Proof.
  intros Hc. destruct o; cbn [tc_step].
  - unfold tc_segment_received. intros E. apply rbind_ok in E as (r & _ & [= <-]).
    apply after_receiver_sendable. by destruct Hc.
  - intros [= <-]. unfold tc_write. destruct (write (tx_stream (tc_sender c)) data) as [b n]. cbn [fst].
    apply connect_sendable. by destruct Hc as [[] ?].
  - unfold tc_tick. intros E. apply rbind_ok in E as (t & E & E').
    destruct Hc as [H1 H2]. pose proof (tick_sendable _ _ _ H1 E) as Ht.
    set (c1 := tc_with_time _ _) in E'. set (c2 := if _ && _ then _ else c1) in E'.
    assert (Hc2 : tc_sendable c2) by (unfold c2; destruct (_ && _); by constructor). clearbody c2.
    case_match; injection E' as <-; [by apply reset_sendable|by apply move_sendable].
  - intros [= <-]. apply connect_sendable. by destruct Hc as [[] ?].
  - intros [= <-]. by apply connect_sendable.
  - intros [= <-]. by destruct Hc.
  - intros [= <-]. destruct Hc as [H1 H2]. constructor; [done|]. cbn. by apply Forall_drop.
Qed.

Lemma new_TCPConnection_sendable cfg : w32_ok (cfg_isn cfg) -> tc_sendable (new_TCPConnection cfg).
Proof. intros H. constructor; [by constructor|constructor]. Qed.

(** Any sequence of operations that return. *)
Fixpoint tc_run (c : TCPConnection) (os : list tc_op) : result TCPConnection :=
  match os with
  | [] => Ok c
  | o :: os => let* c := tc_step c o in tc_run c os
  end.

Lemma tc_run_sendable os : forall c c', tc_sendable c -> tc_run c os = Ok c' -> tc_sendable c'.
Proof.
  induction os as [|o os IH]; intros c c' Hc E; cbn [tc_run] in E; [by injection E as <-|].
  apply rbind_ok in E as (c1 & E1 & E). eapply IH; [|exact E]. by eapply tc_step_sendable.
Qed.

(** C24: Typing of the output.  After any operations, with any segments from the
    network, also malformed ones, and with no assumption on the state: every
    segment the connection has queued has fields within their widths, a
    header of twenty bytes and at most [MAX_PAYLOAD_SIZE] bytes of payload,
    and its serialisation for any pseudo-header succeeds and is parsed back
    to the same header and payload. *)
Theorem connection_sends_wellformed cfg os c s ps :
  w32_ok (cfg_isn cfg) -> tc_run (new_TCPConnection cfg) os = Ok c -> s ∈ tc_segments_out c ->
  0 <= ps < 8388608 ->
  th_doff (header s) = 5 /\ zlen (buf_str (payload s)) <= MAX_PAYLOAD_SIZE /\
  exists l s', TCPSegment_serialize s ps = Ok l /\ zlen (bl_concatenate l) <= 20 + MAX_PAYLOAD_SIZE /\
    TCPSegment_parse new_TCPSegment (Buffer_of (bl_concatenate l)) ps = Ok (NoError, s') /\
    header s' = set_cksum (th_cksum (header s')) (header s) /\ buf_str (payload s') = buf_str (payload s).
Proof.
  intros Hi E Hs Hps. pose proof (tc_run_sendable _ _ _ (new_TCPConnection_sendable _ Hi) E) as [_ Hout].
  rewrite Forall_forall in Hout. pose proof (Hout s Hs) as Hse. pose proof (sendable_ok s Hse) as Hok.
  destruct Hse as [H1 H2 H3 H4]. split; [done|]. split; [done|].
  destruct (segment_wire s ps Hok Hps) as (l & El & Hl & _ & Hw). exists l.
  destruct (Hw (Buffer_of (bl_concatenate l)) new_TCPSegment) as (s' & Ep & Hh & Hpay & _).
  { apply Buffer_of_ok. unfold MAX_PAYLOAD_SIZE in *. lia. } { done. }
  exists s'. split; [done|]. split; [lia|]. by split_and!.
Qed.

Lemma connection_sends_wellformed_witness :
  exists c s, tc_run (new_TCPConnection (small_cfg 3)) [CConnect] = Ok c /\ s ∈ tc_segments_out c /\
    th_doff (header s) = 5.
Proof.
  assert (E : exists c s, tc_run (new_TCPConnection (small_cfg 3)) [CConnect] = Ok c /\ tc_segments_out c = [s])
    by (do 2 eexists; split; vm_compute; reflexivity).
  destruct E as (c & s & E & Es). exists c, s. assert (Hs : s ∈ tc_segments_out c) by (rewrite Es; by left).
  split; [exact E|]. split; [exact Hs|].
  apply (connection_sends_wellformed (small_cfg 3) [CConnect] c s 0); [done|exact E|exact Hs|lia].
Defined.
