(* ===== verification/Duplex.v ===== *)
(** * Two connections and an unreliable network

    Two whole endpoints of [tcp_connection.cc], each writing, reading, closing,
    ticking and retransmitting as it likes, and a network that loses,
    duplicates, reorders and delays what they send, resets included.  Each
    reader gets a prefix of what the other side wrote. *)
From S2P Require Import Prelude WrappingIntegers ByteStream StreamReassembler Buffer Parser TCPSegment TCPReceiver TCPSender Transfer TCPConnection Outgoing.

(** A connection, what was written to it and read from it so far, and every
    segment it has put on the wire, with its absolute sequence number. *)
Record endpoint : Type := mkEndpoint {
  ep_conn : TCPConnection;
  ep_written : bytes;
  ep_read : bytes;
  ep_wire : list (TCPSegment * Z) }.

Definition ep_ended (e : endpoint) : bool := input_ended (tx_stream (tc_sender (ep_conn e))).
Definition ep_isn (e : endpoint) : WrappingInt32 := tx_isn (tc_sender (ep_conn e)).

(** A segment without SYN, FIN and payload: an acknowledgement or a RST. *)
Definition bare (s : TCPSegment) : Prop :=
  th_syn (header s) = false /\ th_fin (header s) = false /\ buf_str (payload s) = [].

(** [s] carries the stream [S] from the absolute number [a] on, or nothing. *)
Definition on_wire (S : bytes) (isn : WrappingInt32) (ended : bool) (s : TCPSegment) (a : Z) : Prop :=
  sent_seg S isn ended s a \/ bare s.

(** A segment is delivered within half a turn of the sequence space of what the
    receiver has assembled; one that carries nothing at any time. *)
Definition in_time (c : TCPConnection) (s : TCPSegment) (a : Z) : Prop :=
  bare s \/ Z.abs (a - bytes_written (inbound_stream c)) < W31.

Section Step.
(** The capacity of the receiver of the other side. *)
Context (peer_cap : Z).

(** A step of the endpoint [e] whose peer is [p]. *)
Inductive ep_step (p e : endpoint) : endpoint -> Prop :=
  | es_write d :
      ep_ended e = false -> zlen (ep_written e) + zlen d + peer_cap + 4 * W32 < W64 ->
      ep_step p e (mkEndpoint (tc_write (ep_conn e) d).1
        (ep_written e ++ ztake (tc_write (ep_conn e) d).2 d) (ep_read e) (ep_wire e))
  | es_end : ep_step p e (mkEndpoint (tc_end_input_stream (ep_conn e)) (ep_written e) (ep_read e) (ep_wire e))
  | es_connect : ep_step p e (mkEndpoint (tc_connect (ep_conn e)) (ep_written e) (ep_read e) (ep_wire e))
  | es_tick ms c' :
      0 <= ms -> tc_tick (ep_conn e) ms = Ok c' ->
      ep_step p e (mkEndpoint c' (ep_written e) (ep_read e) (ep_wire e))
  | es_read n :
      0 <= n ->
      ep_step p e (mkEndpoint (tc_with_receiver (ep_conn e)
          (rx_with_stream_out (tc_receiver (ep_conn e)) (read (inbound_stream (ep_conn e)) n).1))
        (ep_written e) (ep_read e ++ (read (inbound_stream (ep_conn e)) n).2) (ep_wire e))
  | es_destroy : ep_step p e (mkEndpoint (tc_destroy (ep_conn e)) (ep_written e) (ep_read e) (ep_wire e))
  | es_transmit s out a :
      tc_segments_out (ep_conn e) = s :: out -> on_wire (ep_written e) (ep_isn e) (ep_ended e) s a ->
      ep_step p e (mkEndpoint (tc_with_out (ep_conn e) out) (ep_written e) (ep_read e) ((s, a) :: ep_wire e))
  | es_deliver s a c' :
      (s, a) ∈ ep_wire p -> in_time (ep_conn e) s a -> tc_segment_received (ep_conn e) s = Ok c' ->
      ep_step p e (mkEndpoint c' (ep_written e) (ep_read e) (ep_wire e)).
End Step.

Definition ep_new (cfg : TCPConfig) : endpoint := mkEndpoint (new_TCPConnection cfg) [] [] [].

(** The two sides take steps in any order. *)
Inductive dx_reachable (cl cr : TCPConfig) : endpoint -> endpoint -> Prop :=
  | dx_start : dx_reachable cl cr (ep_new cl) (ep_new cr)
  | dx_left l r l' :
      dx_reachable cl cr l r -> ep_step (cfg_recv_capacity cr) r l l' -> dx_reachable cl cr l' r
  | dx_right l r r' :
      dx_reachable cl cr l r -> ep_step (cfg_recv_capacity cl) l r r' -> dx_reachable cl cr l r'.

(** ** Segments on the wire *)

Lemma on_wire_write S d isn s a : on_wire S isn false s a -> on_wire (S ++ d) isn false s a.
Proof. intros [H|H]; [left; by apply sent_seg_write|by right]. Qed.
Lemma on_wire_ended S isn e s a : on_wire S isn e s a -> on_wire S isn true s a.
Proof. intros [H|H]; [left; by eapply sent_seg_ended|by right]. Qed.
Lemma on_wire_stamp S isn e s a r : on_wire S isn e s a -> on_wire S isn e (stamp r s) a.
Proof. intros H. unfold stamp. destruct (rx_ackno r); [|done]. exact H. Qed.

Lemma sendable_in_ok s : sendable s -> seg_in_ok s.
Proof. intros [[] H2 H3 H4]. unfold MAX_PAYLOAD_SIZE in H4. split; [done|]. split; [done|]. split; [done|lia]. Qed.

(** ** The sending half of a connection *)

Record outbound (c : TCPConnection) (S : bytes) (isn : WrappingInt32) : Prop := {
  ob_tx : tx_inv (tc_sender c) S;
  ob_isn : tx_isn (tc_sender c) = isn;
  ob_out : Forall (fun s => exists a, on_wire S isn (input_ended (tx_stream (tc_sender c))) s a)
             (tc_segments_out c) }.

Lemma move_outbound c S isn : outbound c S isn -> outbound (move_to_segments_out c) S isn.
Proof.
  intros [H1 H2 H3]. pose proof (ti_out _ _ H1) as Ho. constructor.
  - apply tx_queue_inv; [done|]. by intros x Hx%elem_of_nil.
  - done.
  - cbn. apply Forall_app. split; [done|]. apply Forall_fmap. eapply Forall_impl; [exact Ho|].
    intros s (a & Ha & _). exists a. apply on_wire_stamp. left. by rewrite <- H2.
Qed.

Lemma fill_outbound c S isn :
  outbound c S isn -> outbound (tc_with_sender c (fill_window (tc_sender c))) S isn.
Proof.
  intros [H1 H2 H3]. destruct (fill_window_inv _ _ H1) as (A & B & C & _).
  constructor; [done|cbn; congruence|]. cbn. by rewrite C.
Qed.

Lemma connect_outbound c S isn : outbound c S isn -> outbound (tc_connect c) S isn.
Proof. intros H. by apply move_outbound, fill_outbound. Qed.

Lemma set_errors_outbound c S isn : outbound c S isn -> outbound (set_errors c) S isn.
Proof. intros [H1 H2 H3]. constructor; [by apply tx_set_error_inv|done|done]. Qed.

Lemma close_check_outbound c S isn : outbound c S isn -> outbound (tc_close_check c) S isn.
Proof. intros [H1 H2 H3]. unfold tc_close_check. repeat case_match; by constructor. Qed.

Lemma rst_bare : bare rst_segment.
Proof. by split_and!. Qed.

Lemma reset_outbound c S isn : outbound c S isn -> outbound (tc_reset c) S isn.
Proof.
  intros [H1 H2 H3]. constructor; [by apply (tx_set_error_inv (tc_sender c))|done|]. cbn.
  apply Forall_app. split; [done|]. constructor; [|done]. exists 0. right. apply rst_bare.
Qed.
#[export] Hint Resolve move_outbound connect_outbound set_errors_outbound close_check_outbound reset_outbound : sponge.

Lemma ack_outbound c S isn s :
  outbound c S isn -> seg_in_ok s ->
  outbound (tc_with_sender c (ack_received (tc_sender c) (th_ackno (header s)) (th_win (header s)))) S isn.
Proof.
  intros [H1 H2 H3] (_ & Ha & Hw & _).
  destruct (ack_received_spec _ _ _ _ H1 Ha Hw) as (A & B & _ & C & _).
  constructor; cbn; [done|congruence|by rewrite C].
Qed.

Lemma empty_outbound c S isn :
  outbound c S isn -> next_seqno_absolute (tc_sender c) <> 0 ->
  outbound (tc_with_sender c (send_empty_segment (tc_sender c))) S isn.
Proof.
  intros [H1 H2 H3] Hn. constructor; [|done|done]. apply send_empty_segment_inv; [done|].
  pose proof (tx_next_bound _ _ H1). unfold next_seqno_absolute in Hn. lia.
Qed.

Lemma after_receiver_outbound c S isn s :
  outbound c S isn -> seg_in_ok s -> outbound (tc_after_receiver c s) S isn.
Proof.
  intros Hc Hs. unfold tc_after_receiver. set (c1 := if th_rst (header s) then _ else c).
  assert (H1 : outbound c1 S isn).
  { unfold c1. case_match; [|done]. apply set_errors_outbound. by destruct Hc. }
  clearbody c1. set (c2 := if negb _ && _ then _ else c1).
  assert (H2 : outbound c2 S isn).
  { unfold c2. case_match; [|done]. by apply connect_outbound, ack_outbound. }
  clearbody c2. case_match; [|by apply close_check_outbound].
  destruct (Z.eqb_spec (next_seqno_absolute (tc_sender c2)) 0) as [|Hn]; [by apply connect_outbound|].
  apply close_check_outbound, move_outbound. case_match; [|done]. by apply empty_outbound.
Qed.

Lemma tick_outbound c S isn ms :
  outbound c S isn -> 0 <= ms -> exists c', tc_tick c ms = Ok c' /\ outbound c' S isn.
Proof.
  intros [H1 H2 H3] Hms. destruct (tx_tick_spec _ _ ms H1 Hms) as (t & E & A & B & C & _).
  unfold tc_tick. rewrite E. cbn [rbind]. set (c1 := if _ && _ then _ else _).
  assert (Hc1 : outbound c1 S isn).
  { unfold c1. destruct (_ && _); (constructor; cbn; [done|congruence|by rewrite C]). }
  clearbody c1. case_match; eexists; (split; [done|]); auto with sponge.
Qed.

Lemma write_outbound c S isn d :
  outbound c S isn -> input_ended (tx_stream (tc_sender c)) = false -> zlen S + zlen d + 4 * W32 < W64 ->
  outbound (tc_write c d).1 (S ++ ztake (tc_write c d).2 d) isn /\
  input_ended (tx_stream (tc_sender (tc_write c d).1)) = false.
Proof.
  intros [H1 H2 H3] He Hd. destruct (tx_write_inv _ _ d H1 He Hd) as (w & A & B & C).
  unfold tc_write. destruct (write (tx_stream (tc_sender c)) d) as [b n] eqn:Ew. cbn [fst snd] in *.
  assert (Hb : input_ended b = false).
  { rewrite <- He. change b with (b, n).1. rewrite <- Ew. done. }
  assert (Ho : outbound (tc_with_sender c (tx_with_stream (tc_sender c) b)) (S ++ ztake n d) isn).
  { rewrite <- C, <- B. constructor; cbn; [done|done|]. rewrite Hb. rewrite He in H3.
    eapply Forall_impl; [exact H3|]. intros s (a & Ha). exists a. by apply on_wire_write. }
  split; [by apply connect_outbound|]. cbn.
  destruct (fill_window_inv _ _ (ob_tx _ _ _ Ho)) as (_ & _ & He' & _). cbn in He'. by rewrite He'.
Qed.

Lemma end_outbound c S isn :
  outbound c S isn -> outbound (tc_end_input_stream c) S isn /\
  input_ended (tx_stream (tc_sender (tc_end_input_stream c))) = true.
Proof.
  intros [H1 H2 H3].
  assert (Ho : outbound (tc_with_sender c (tx_with_stream (tc_sender c) (end_input (tx_stream (tc_sender c))))) S isn).
  { constructor; cbn; [by apply tx_end_input_inv|done|]. eapply Forall_impl; [exact H3|].
    intros s (a & Ha). exists a. by eapply on_wire_ended. }
  split; [by apply connect_outbound|].
  destruct (fill_window_inv _ _ (ob_tx _ _ _ Ho)) as (_ & _ & He' & _). cbn in *. by rewrite He'.
Qed.

(** ** The receiving half *)

Definition rx_failed (r : TCPReceiver) : TCPReceiver := rx_with_stream_out r (set_error (rx_stream_out r)).

Lemma close_check_receiver c : tc_receiver (tc_close_check c) = tc_receiver c.
Proof. by destruct (close_check_out c). Qed.

(** After the receiver has seen a segment, only a RST touches it. *)
Lemma after_receiver_receiver c s :
  tc_receiver (tc_after_receiver c s) = if th_rst (header s) then rx_failed (tc_receiver c) else tc_receiver c.
Proof.
  unfold tc_after_receiver. set (c1 := if th_rst (header s) then _ else c).
  assert (H1 : tc_receiver c1 = if th_rst (header s) then rx_failed (tc_receiver c) else tc_receiver c)
    by (unfold c1; by destruct (th_rst (header s))).
  rewrite <- H1. clearbody c1. clear H1. set (c2 := if negb _ && _ then _ else c1).
  assert (H2 : tc_receiver c2 = tc_receiver c1) by (unfold c2; by destruct (negb _ && _)).
  rewrite <- H2. clearbody c2. clear H2. case_match; [|apply close_check_receiver]. case_match; [done|].
  rewrite close_check_receiver. cbn. by case_match.
Qed.

Lemma tick_receiver c ms c' : tc_tick c ms = Ok c' ->
  tc_receiver c' = tc_receiver c \/ tc_receiver c' = rx_failed (tc_receiver c).
Proof.
  unfold tc_tick. intros E. apply rbind_ok in E as (t & _ & E). set (c1 := if _ && _ then _ else _) in E.
  assert (H1 : tc_receiver c1 = tc_receiver c) by (unfold c1; by destruct (_ && _)). clearbody c1.
  case_match; injection E as <-; [right; cbn; by rewrite H1|by left].
Qed.

Section Inbound.
(** The peer's stream, its initial sequence number and our capacity. *)
Context (S : bytes) (isn : WrappingInt32) (cap : Z).
Hypothesis Hcap : 1 <= cap.
Hypothesis Hroom : zlen S + cap + 4 * W32 < W64.
Hypothesis Hisn : w32_ok isn.

(** What was read and what waits to be read is [hist], and [hist] is what was
    assembled of the peer's stream. *)
Record inbound (ended : bool) (got : bytes) (r : TCPReceiver) (hist : bytes) : Prop := {
  ib_rx : rx_inv S isn cap r hist;
  ib_fin : rx_have_FIN r = true -> ended = true;
  ib_got : got ++ bs_buffer (rx_stream_out r) = hist }.

Lemma rx_failed_inbound e got r hist : inbound e got r hist -> inbound e got (rx_failed r) hist.
Proof.
  intros [[Hst H2 H3 H4] Hf Hg]. constructor; [|done|done]. constructor; try done.
  destruct Hst as [A B C D E]. constructor; try done. by apply set_error_inv.
Qed.

(** A segment that carries nothing changes nothing but, when a FIN was seen
    before, the end of the output. *)
Lemma rx_bare_inv r hist s :
  rx_inv S isn cap r hist -> bare s ->
  exists r', rx_segment_received r s = Ok r' /\ rx_inv S isn cap r' hist /\
    bs_buffer (rx_stream_out r') = bs_buffer (rx_stream_out r) /\ rx_have_FIN r' = rx_have_FIN r.
Proof.
  intros Hr (Hsyn & Hfin & Hpay). pose proof Hr as [Hst Hc Hs Hf]. unfold rx_segment_received. rewrite Hsyn.
  cbn [negb]. destruct (rx_have_SYN r) eqn:ES; cbn [negb]; [|by exists r].
  unfold rx_push, buf_copy. rewrite Hpay, Hfin. set (i := _ -! 1).
  assert (Hi : consistent S (EPush [] i false)).
  { split; [apply u64_range|]. split; [done|]. split; [by intros [|]|done]. }
  destruct (stream_push S cap Hcap ltac:(lia) (rx_reassembler r) hist [] i false Hst Hi)
    as (ra & w & E & Hst' & He & Hbuf & _).
  rewrite E. cbn [rbind].
  assert (Hw : w = []).
  { pose proof (f_equal zlen Hbuf) as Hl. rewrite zlen_app in Hl.
    unfold push_substring in E. cbn in E. injection E as E. apply zlen_0.
    assert (Hsame : bs_buffer (ra_output ra) = bs_buffer (ra_output (rx_reassembler r))).
    { rewrite <- E. unfold eof_process. by destruct (_ && _). }
    rewrite Hsame in Hl. lia. }
  subst w. rewrite app_nil_r in *. eexists. split; [done|]. cbn [orb] in He. split; [|split; [|done]].
  - constructor; cbn [rx_reassembler rx_capacity rx_have_SYN rx_have_FIN rx_icn]; try done.
    + by apply rx_finish_stream.
    + by rewrite ES.
    + by rewrite rx_finish_eof, He.
  - unfold rx_stream_out, stream_out, rx_finish. cbn [rx_reassembler]. rewrite <- Hbuf. by destruct (_ && _).
Qed.

Lemma rx_deliver_inbound e got r hist s a :
  inbound e got r hist -> on_wire S isn e s a -> (bare s \/ Z.abs (a - zlen hist) < W31) ->
  exists r' w, rx_segment_received r s = Ok r' /\ inbound e got r' (hist ++ w).
Proof.
  intros [Hr Hf Hg] Hs Ht.
  assert (Hcase : bare s \/ (sent_seg S isn e s a /\ Z.abs (a - zlen hist) < W31)).
  { destruct Ht; [by left|]. destruct Hs; [by right|by left]. }
  destruct Hcase as [Hb|[(Hp & Hpf & _) Hn]].
  - destruct (rx_bare_inv r hist s Hr Hb) as (r' & E & A & B & C). exists r', []. rewrite app_nil_r.
    split; [done|]. constructor; [done|by rewrite C|by rewrite B].
  - destruct (rx_segment_inv S isn cap Hcap Hroom Hisn r hist s a Hr Hp Hn)
      as (r' & w & E & A & B & C & _ & D & _).
    exists r', w. split; [done|]. constructor; [done| |by rewrite C, app_assoc, Hg].
    intros HF. destruct (D HF); auto.
Qed.

Lemma read_inbound e got r hist n :
  0 <= n -> inbound e got r hist ->
  inbound e (got ++ (read (rx_stream_out r) n).2) (rx_with_stream_out r (read (rx_stream_out r) n).1) hist.
Proof.
  intros Hn [H1 H2 H3]. constructor; [by apply rx_read_inv|done|]. by apply read_moves.
Qed.
End Inbound.

(** The peer writes more, or ends its stream. *)
Lemma inbound_write S d isn cap got r hist :
  inbound S isn cap false got r hist -> inbound (S ++ d) isn cap false got r hist.
Proof.
  intros [H1 H2 H3]. constructor; [|done|done]. apply rx_inv_write; [|done].
  destruct (rx_have_FIN r); [by discriminate H2|done].
Qed.
Lemma inbound_ended S isn cap e got r hist :
  inbound S isn cap e got r hist -> inbound S isn cap true got r hist.
Proof. by intros []. Qed.

(** ** Both directions *)

(** One direction: from [e] to [p]. *)
Record half (isn : WrappingInt32) (cap : Z) (e p : endpoint) (hist : bytes) : Prop := {
  hf_outbound : outbound (ep_conn e) (ep_written e) isn;
  hf_sendable : tc_sendable (ep_conn e);
  hf_room : zlen (ep_written e) + cap + 4 * W32 < W64;
  hf_wire : Forall (fun q => sendable q.1 /\ on_wire (ep_written e) isn (ep_ended e) q.1 q.2) (ep_wire e);
  hf_inbound : inbound (ep_written e) isn cap (ep_ended e) (ep_read p) (tc_receiver (ep_conn p)) hist }.

Lemma half_new cl cr :
  cfg_ok cl -> cfg_ok cr -> cfg_recv_capacity cr + 4 * W32 < W64 ->
  half (cfg_isn cl) (cfg_recv_capacity cr) (ep_new cl) (ep_new cr) [].
Proof.
  intros (A1 & A2 & A3) (B1 & B2 & B3) Hc. constructor.
  - constructor; [by apply new_TCPSender_inv|done|constructor].
  - by apply new_TCPConnection_sendable.
  - change (zlen (ep_written (ep_new cl))) with 0. lia.
  - constructor.
  - constructor; [|done|done]. apply rx_new; [lia|change (zlen (ep_written (ep_new cl))) with 0; lia].
Qed.

Lemma wire_segment isn cap e p hist s a :
  half isn cap e p hist -> (s, a) ∈ ep_wire e -> sendable s /\ on_wire (ep_written e) isn (ep_ended e) s a.
Proof. intros H Hin. pose proof (hf_wire _ _ _ _ _ H) as Hw. rewrite Forall_forall in Hw. by apply (Hw (s, a)). Qed.

(** ** The end of the stream

    Only [end_input_stream] ends the outbound stream. *)

Definition tc_ended (c : TCPConnection) : bool := input_ended (tx_stream (tc_sender c)).

Lemma fill_loop_ended fuel : forall t,
  input_ended (tx_stream (fill_loop fuel t)) = input_ended (tx_stream t).
Proof.
  induction fuel as [|fuel IH]; intros t; cbn [fill_loop]; [done|]. destruct (fill_guard t); [|done].
  rewrite IH. unfold fill_step, fill_segment. pose proof (read_ended (tx_stream t) (fill_read_size t)) as Hr.
  destruct (negb (fill_read_size t =? 0)); [|done]. by destruct (read (tx_stream t) (fill_read_size t)).
Qed.

Lemma fill_window_ended t : input_ended (tx_stream (fill_window t)) = input_ended (tx_stream t).
Proof. unfold fill_window. destruct (current_state t); try done; apply fill_loop_ended. Qed.

Lemma connect_ended c : tc_ended (tc_connect c) = tc_ended c.
Proof. apply fill_window_ended. Qed.

Lemma close_check_ended c : tc_ended (tc_close_check c) = tc_ended c.
Proof. unfold tc_close_check. repeat case_match; done. Qed.

Lemma after_receiver_ended c s : tc_ended (tc_after_receiver c s) = tc_ended c.
Proof.
  unfold tc_after_receiver. set (c1 := if th_rst (header s) then _ else c).
  assert (H1 : tc_ended c1 = tc_ended c) by (unfold c1; by destruct (th_rst (header s))).
  rewrite <- H1. clearbody c1. clear H1. set (c2 := if negb _ && _ then _ else c1).
  assert (H2 : tc_ended c2 = tc_ended c1).
  { unfold c2. destruct (negb _ && _); [|done]. rewrite connect_ended. unfold tc_ended. cbn.
    by rewrite ack_received_stream. }
  rewrite <- H2. clearbody c2. clear H2. case_match; [|apply close_check_ended].
  case_match; [apply connect_ended|]. rewrite close_check_ended. by case_match.
Qed.

Lemma tick_ended c ms c' : tc_tick c ms = Ok c' -> tc_ended c' = tc_ended c.
Proof.
  unfold tc_tick. intros E. apply rbind_ok in E as (t & Et & E). set (c1 := if _ && _ then _ else _) in E.
  assert (H1 : tc_ended c1 = tc_ended c).
  { unfold c1, tc_ended. transitivity (input_ended (tx_stream t)); [by destruct (_ && _)|].
    unfold tx_tick in Et. repeat case_match; by simplify_eq. }
  clearbody c1. rewrite <- H1. case_match; by injection E as <-.
Qed.

(** ** A step of one side *)

(** A change of the connection that leaves the ghost state alone. *)
Lemma half_sender isn cap e p hist c' :
  half isn cap e p hist -> outbound c' (ep_written e) isn -> tc_sendable c' -> tc_ended c' = ep_ended e ->
  forall got, half isn cap (mkEndpoint c' (ep_written e) got (ep_wire e)) p hist.
Proof.
  intros [H1 H2 H3 H4 H5] A B C got. constructor; unfold ep_ended in *; cbn [ep_conn ep_written ep_wire]; try done.
  - change (input_ended _) with (tc_ended c'). by rewrite C.
  - change (input_ended _) with (tc_ended c'). by rewrite C.
Qed.

Lemma half_end isn cap e p hist :
  half isn cap e p hist ->
  half isn cap (mkEndpoint (tc_end_input_stream (ep_conn e)) (ep_written e) (ep_read e) (ep_wire e)) p hist.
Proof.
  intros [H1 H2 H3 H4 H5]. destruct (end_outbound _ _ _ H1) as [A B].
  pose proof (tc_step_sendable _ CEnd _ H2 eq_refl) as C.
  constructor; unfold ep_ended; cbn [ep_conn ep_written ep_wire ep_read]; try done; rewrite B.
  - eapply Forall_impl; [exact H4|]. intros q [? ?]. split; [done|]. by eapply on_wire_ended.
  - by eapply inbound_ended.
Qed.

Lemma half_write isn cap e p hist d :
  half isn cap e p hist -> 0 <= cap -> ep_ended e = false -> zlen (ep_written e) + zlen d + cap + 4 * W32 < W64 ->
  half isn cap (mkEndpoint (tc_write (ep_conn e) d).1 (ep_written e ++ ztake (tc_write (ep_conn e) d).2 d)
    (ep_read e) (ep_wire e)) p hist.
Proof.
  intros [H1 H2 H3 H4 H5] Hcap He Hd. unfold ep_ended in *.
  destruct (write_outbound _ _ _ d H1 He ltac:(lia)) as [A B].
  pose proof (tc_step_sendable _ (CWrite d) _ H2 eq_refl) as C.
  assert (Hle : zlen (ztake (tc_write (ep_conn e) d).2 d) <= zlen d).
  { unfold zlen, ztake. rewrite length_take. lia. }
  constructor; unfold ep_ended; cbn [ep_conn ep_written ep_wire ep_read]; try done.
  - rewrite zlen_app. lia.
  - rewrite B. rewrite He in H4. eapply Forall_impl; [exact H4|]. intros q [? ?]. split; [done|].
    by apply on_wire_write.
  - rewrite B. rewrite He in H5. by apply inbound_write.
Qed.

(** The sending half of the side that takes a step. *)
Lemma step_outbound isn cap isn' cap' e p hist hist' e' :
  0 <= cap -> half isn cap e p hist -> half isn' cap' p e hist' -> ep_step cap p e e' -> half isn cap e' p hist.
Proof.
  intros Hcap He Hp Hstep. pose proof (hf_outbound _ _ _ _ _ He) as H1. pose proof (hf_sendable _ _ _ _ _ He) as H2.
  destruct Hstep as [d Hn Hd| | |ms c' Hms E|n Hn| |s out a Eo Ha|s a c' Hin Ht E].
  - by apply half_write.
  - by apply half_end.
  - apply half_sender; [done|by apply connect_outbound|by apply connect_sendable|apply connect_ended].
  - destruct (tick_outbound _ _ _ ms H1 Hms) as (c1 & E1 & A). rewrite E in E1. injection E1 as <-.
    apply half_sender; [done|done|by apply (tc_step_sendable _ (CTick ms) _ H2 E)|by eapply tick_ended].
  - apply half_sender; [done|by destruct H1|by destruct H2|done].
  - unfold tc_destroy. destruct (tc_active (ep_conn e)).
    + apply half_sender; [done|by apply reset_outbound|by apply reset_sendable|done].
    + by apply half_sender.
  - destruct He as [_ _ H3 H4 H5]. destruct H1 as [A B C]. destruct H2 as [D F].
    rewrite Eo in *. inversion C as [|? ? _ C']. inversion F as [|? ? F1 F2]. subst.
    constructor; unfold ep_ended in *; cbn [ep_conn ep_written ep_wire ep_read]; try done.
    constructor; [|done]. by split.
  - destruct (wire_segment _ _ _ _ _ _ _ Hp Hin) as [Hs _].
    pose proof (tc_step_sendable _ (CSegment s) _ H2 E) as C.
    unfold tc_segment_received in E. apply rbind_ok in E as (r & _ & [= <-]).
    apply half_sender; [done| |done|by rewrite after_receiver_ended].
    apply after_receiver_outbound; [by destruct H1|by apply sendable_in_ok].
Qed.

(** The receiving half of the side that takes a step. *)
Lemma half_receiver isn cap p e hist hist' c' got S wire :
  half isn cap p e hist -> inbound (ep_written p) isn cap (ep_ended p) got (tc_receiver c') hist' ->
  half isn cap p (mkEndpoint c' S got wire) hist'.
Proof. intros [H1 H2 H3 H4 H5] H. by constructor. Qed.

Lemma step_inbound isn cap cap' p e hist e' :
  1 <= cap -> w32_ok isn -> half isn cap p e hist -> ep_step cap' p e e' ->
  exists w, half isn cap p e' (hist ++ w).
Proof.
  intros Hcap Hisn Hp Hstep. pose proof (hf_inbound _ _ _ _ _ Hp) as Hi. pose proof (hf_room _ _ _ _ _ Hp) as Hroom.
  destruct Hstep as [d Hn Hd| | |ms c' Hms E|n Hn| |s out a Eo Ha|s a c' Hin Ht E].
  1-7: (exists []; rewrite app_nil_r; eapply half_receiver; [done|]).
  - unfold tc_write. by destruct (write (tx_stream (tc_sender (ep_conn e))) d).
  - done.
  - done.
  - destruct (tick_receiver _ _ _ E) as [-> | ->]; [done|by apply rx_failed_inbound].
  - by apply read_inbound.
  - unfold tc_destroy. destruct (tc_active (ep_conn e)); [by apply rx_failed_inbound|done].
  - done.
  - destruct (wire_segment _ _ _ _ _ _ _ Hp Hin) as [_ Hs]. unfold in_time, inbound_stream in Ht.
    rewrite (rx_written _ _ _ _ _ (ib_rx _ _ _ _ _ _ _ Hi)) in Ht.
    destruct (rx_deliver_inbound _ _ _ Hcap Hroom Hisn _ _ _ _ _ _ Hi Hs Ht) as (r & w & Er & Hr).
    exists w. eapply half_receiver; [done|]. unfold tc_segment_received in E. cbn [tc_with_time tc_receiver] in E.
    rewrite Er in E. cbn [rbind] in E. injection E as <-. rewrite after_receiver_receiver. cbn [tc_receiver tc_with_receiver].
    destruct (th_rst (header s)); [by apply rx_failed_inbound|done].
Qed.

Section Both.
Context (cl cr : TCPConfig).
Hypothesis Hl : cfg_ok cl.
Hypothesis Hr : cfg_ok cr.
Hypothesis Hcl : cfg_recv_capacity cl + 4 * W32 < W64.
Hypothesis Hcr : cfg_recv_capacity cr + 4 * W32 < W64.

Record dx_inv (l r : endpoint) (hl hr : bytes) : Prop := {
  di_right : half (cfg_isn cl) (cfg_recv_capacity cr) l r hr;
  di_left : half (cfg_isn cr) (cfg_recv_capacity cl) r l hl }.

Lemma dx_reachable_inv l r : dx_reachable cl cr l r -> exists hl hr, dx_inv l r hl hr.
Proof.
  destruct Hl as (A1 & A2 & A3). destruct Hr as (B1 & B2 & B3).
  induction 1 as [|l r l' _ (hl & hr & [I1 I2]) Hs|l r r' _ (hl & hr & [I1 I2]) Hs].
  - exists [], []. constructor; by apply half_new.
  - destruct (step_inbound _ (cfg_recv_capacity cl) _ _ _ _ _ ltac:(lia) B3 I2 Hs) as (w & J2).
    exists (hl ++ w), hr. constructor; [|done]. eapply step_outbound; [|done|exact I2|exact Hs]. lia.
  - destruct (step_inbound _ (cfg_recv_capacity cr) _ _ _ _ _ ltac:(lia) A3 I1 Hs) as (w & J1).
    exists hl, (hr ++ w). constructor; [done|]. eapply step_outbound; [|done|exact I1|exact Hs]. lia.
Qed.

(** Every segment on the wire starts within the stream. *)
Lemma on_wire_bound S isn e s a : on_wire S isn e s a -> bare s \/ 0 <= a <= zlen S + 1.
Proof.
  intros [((Hq & Ha & Hi & Hd & Hle & Hf) & _)|Hb]; [|by left]. zpos.
  destruct (th_syn (header s)) eqn:Es; [right; lia|].
  destruct (th_fin (header s)) eqn:Ef; [right; specialize (Hf eq_refl); lia|].
  destruct (buf_str (payload s)) eqn:Ep; [by left|right].
  specialize (Hle ltac:(by left)). rewrite zlen_cons in Hle. zpos. lia.
Qed.

(** A segment of the wire can be delivered, and while the stream is shorter than
    half a turn of the sequence space it is always in time. *)
Lemma dx_deliver l r s a :
  dx_reachable cl cr l r -> (s, a) ∈ ep_wire l ->
  (zlen (ep_written l) + 2 < W31 -> in_time (ep_conn r) s a) /\
  (in_time (ep_conn r) s a -> exists c', tc_segment_received (ep_conn r) s = Ok c').
Proof.
  intros Hreach Hs. destruct (dx_reachable_inv l r Hreach) as (hl & hr & [I1 I2]).
  pose proof (hf_inbound _ _ _ _ _ I1) as Hin. pose proof (ib_rx _ _ _ _ _ _ _ Hin) as Hrx.
  pose proof (rx_written _ _ _ _ _ Hrx) as Hwr. destruct (wire_segment _ _ _ _ _ _ _ I1 Hs) as [_ Hw]. split.
  - intros Hshort. destruct (on_wire_bound _ _ _ _ _ Hw) as [|Ha]; [by left|right]. unfold inbound_stream. rewrite Hwr.
    destruct (rx_stream _ _ _ _ _ Hrx) as [_ _ C _ _]. pose proof (f_equal zlen C) as Hz. zpos.
    rewrite zlen_ztake in Hz by done. lia.
  - intros Ht. unfold in_time, inbound_stream in Ht. rewrite Hwr in Ht.
    destruct Hl as (_ & _ & Hisn). destruct Hr as (_ & Hc & _).
    destruct (rx_deliver_inbound _ _ (cfg_recv_capacity cr) ltac:(lia) (hf_room _ _ _ _ _ I1) Hisn _ _ _ _ _ _ Hin Hw Ht)
      as (r' & w & Er & _).
    unfold tc_segment_received. cbn [tc_with_time tc_receiver]. rewrite Er. by eexists.
Qed.

Lemma dx_arrived l r :
  dx_reachable cl cr l r -> ep_read r ++ bs_buffer (inbound_stream (ep_conn r)) `prefix_of` ep_written l.
Proof.
  intros Hreach. destruct (dx_reachable_inv l r Hreach) as (hl & hr & [I1 _]).
  destruct (hf_inbound _ _ _ _ _ I1) as [A _ B]. unfold inbound_stream. rewrite B.
  destruct (rx_stream _ _ _ _ _ A) as [_ _ C _ _].
  rewrite C. exists (zdrop (zlen hr) (ep_written l)). symmetry. apply ztake_zdrop.
Qed.

End Both.

(** What has arrived at [e]: what was read, and what waits to be read. *)
Definition arrived (e : endpoint) : bytes := ep_read e ++ bs_buffer (inbound_stream (ep_conn e)).

Lemma dx_swap cl cr l r : dx_reachable cl cr l r -> dx_reachable cr cl r l.
Proof. induction 1; [constructor|by eapply dx_right|by eapply dx_left]. Qed.

(** C5: Two endpoints.  Whatever both sides write, read, close, abort and resend, and
    whatever the network loses, repeats, reorders and delays: what has arrived
    at each side is a prefix of what the other side wrote, no segment from the
    wire makes an endpoint throw, and no operation does.  While the streams
    are shorter than two gigabytes no assumption on delays is needed. *)
Theorem duplex_safe cl cr l r :
  cfg_ok cl -> cfg_ok cr -> cfg_recv_capacity cl + 4 * W32 < W64 -> cfg_recv_capacity cr + 4 * W32 < W64 ->
  dx_reachable cl cr l r ->
  arrived r `prefix_of` ep_written l /\ arrived l `prefix_of` ep_written r /\
  (forall s a, (s, a) ∈ ep_wire l -> in_time (ep_conn r) s a ->
     exists c', tc_segment_received (ep_conn r) s = Ok c') /\
  (forall s out, tc_segments_out (ep_conn l) = s :: out ->
     exists a, on_wire (ep_written l) (ep_isn l) (ep_ended l) s a) /\
  (forall ms, 0 <= ms -> exists c', tc_tick (ep_conn l) ms = Ok c') /\
  (zlen (ep_written l) + 2 < W31 -> forall s a, (s, a) ∈ ep_wire l -> in_time (ep_conn r) s a).
Proof.
  intros Hl Hr Hcl Hcr Hreach. pose proof (dx_swap _ _ _ _ Hreach) as Hswap.
  destruct (dx_reachable_inv cl cr Hl Hr Hcl Hcr l r Hreach) as (hl & hr & [I1 _]).
  pose proof (hf_outbound _ _ _ _ _ I1) as [O1 O2 O3].
  split; [by eapply (dx_arrived cl cr)|]. split; [by eapply (dx_arrived cr cl)|]. split; [|split; [|split]].
  - intros s a Hs. by apply (dx_deliver cl cr Hl Hr Hcl Hcr l r s a).
  - intros s out Eo. rewrite Eo in O3. inversion O3 as [|? ? (a & Ha) _]; subst. exists a.
    unfold ep_isn, ep_ended. rewrite O2. exact Ha.
  - intros ms Hms. destruct (tick_outbound _ _ _ ms (hf_outbound _ _ _ _ _ I1) Hms) as (c' & E & _). by exists c'.
  - intros Hshort s a Hs. by apply (dx_deliver cl cr Hl Hr Hcl Hcr l r s a).
Qed.
