(* ===== verification/Completion.v ===== *)
(** * Two connections complete

    Two whole endpoints of [tcp_connection.cc], from any state that they reach as in
    [Agreement.v] after the handshake, when one side has ended its stream and the
    other side has not, or is already heard out.  Rounds in which only the segment
    that a [tick] retransmits and one answer to it get through bring the rest of
    the stream over; then the other side ends and rounds in the other direction
    bring its stream over; and both connections end when they have lingered. *)
From S2P Require Import Prelude WrappingIntegers ByteStream StreamReassembler Buffer Parser TCPSegment TCPReceiver TCPSender Transfer Tracking Recovery TCPConnection Outgoing Duplex Agreement.

(** ** Rounds *)

Definition party_with (e : party) (c : TCPConnection) : party := mkParty c (pt_written e) (pt_read e) (pt_wire e).

(** Everything that is queued is on the wire; nothing says that it arrives. *)
Definition flushed (e : party) : party :=
  mkParty (tc_with_out (pt_conn e) []) (pt_written e) (pt_read e) (rev (tc_segments_out (pt_conn e)) ++ pt_wire e).

(** The application has read all there is. *)
Definition caught_up (e : party) : party :=
  let '(b, d) := read (inbound_stream (pt_conn e)) (buffer_size (inbound_stream (pt_conn e))) in
  mkParty (tc_with_receiver (pt_conn e) (rx_with_stream_out (tc_receiver (pt_conn e)) b)) (pt_written e) (pt_read e ++ d) (pt_wire e).

(** What is queued at the beginning is lost.  The clock of [e] advances until its
    timer expires, the segment that it sends again is given to [p], and the first
    answer of [p] to it is given to [e]; all other answers are lost.  With nothing
    in flight the application of [p] reads and that is all. *)
Definition round_trip (e p : party) : result (party * party) :=
  let t := tc_sender (pt_conn e) in
  if tx_bytes_in_flight t =? 0 then Ok (e, caught_up p)
  else
    let e := flushed e in
    let p := caught_up (flushed p) in
    let* c := tc_tick (pt_conn e) (tx_retransmission_timeout t -! tx_timer t) in
    match tc_segments_out c with
    | [] => Ok (party_with e c, p)
    | q :: _ =>
        let e := flushed (party_with e c) in
        let* c := tc_segment_received (pt_conn p) q in
        match tc_segments_out c with
        | [] => Ok (e, party_with p c)
        | a :: _ =>
            let p := flushed (party_with p c) in
            let* c := tc_segment_received (pt_conn e) a in
            Ok (party_with e c, p)
        end
    end.

Fixpoint round_trips (n : nat) (e p : party) : result (party * party) :=
  match n with
  | O => Ok (e, p)
  | Datatypes.S n => let* (e, p) := round_trip e p in round_trips n e p
  end.

Definition closing (e : party) : party := party_with e (tc_end_input_stream (pt_conn e)).

(** ** Steps *)

Lemma flush_run p w r out : forall c wire, tc_segments_out c = out ->
  rtc (orderly p) (mkParty c w r wire) (mkParty (tc_with_out c []) w r (rev out ++ wire)).
Proof.
  induction out as [|q out IH]; intros c wire Eo.
  - replace (tc_with_out c []) with c; [done|]. destruct c. cbn in *. by subst.
  - eapply rtc_l; [by apply (or_transmit p (mkParty c w r wire) q out)|]. cbn [pt_conn pt_written pt_read pt_wire].
    cbn [rev]. rewrite <- app_assoc. exact (IH (tc_with_out c out) (q :: wire) eq_refl).
Qed.

Lemma flushed_run p e : rtc (orderly p) e (flushed e).
Proof. destruct e. by apply flush_run. Qed.

Lemma caught_up_step p e : orderly p e (caught_up e).
Proof.
  unfold caught_up. pose proof (or_read p e (buffer_size (inbound_stream (pt_conn e))) (buffer_size_nonneg _)) as H.
  by destruct (read (inbound_stream (pt_conn e)) _).
Qed.

Lemma caught_up_frame e :
  tc_sender (pt_conn (caught_up e)) = tc_sender (pt_conn e) /\ tc_segments_out (pt_conn (caught_up e)) = tc_segments_out (pt_conn e) /\
  pt_written (caught_up e) = pt_written e /\ pt_wire (caught_up e) = pt_wire e /\
  buffer_size (inbound_stream (pt_conn (caught_up e))) = 0.
Proof.
  unfold caught_up. destruct (read_all (inbound_stream (pt_conn e))) as [_ H].
  by destruct (read (inbound_stream (pt_conn e)) _).
Qed.

Lemma meeting_lefts cl cr l r l' : meeting cl cr l r -> rtc (orderly r) l l' -> meeting cl cr l' r.
Proof. intros Hm Hs. induction Hs; [done|]. apply IHHs. by eapply mt_left. Qed.
Lemma meeting_rights cl cr l r r' : meeting cl cr l r -> rtc (orderly l) r r' -> meeting cl cr l r'.
Proof. intros Hm Hs. induction Hs; [done|]. apply IHHs. by eapply mt_right. Qed.

(** *** Nothing is left inside the sender *)

Definition quiet (c : TCPConnection) : Prop := tx_segments_out (tc_sender c) = [].

Lemma close_check_sender c : tc_sender (tc_close_check c) = tc_sender c.
Proof. unfold tc_close_check. by repeat case_match. Qed.

Lemma close_check_quiet c : quiet c -> quiet (tc_close_check c).
Proof. unfold quiet. by rewrite close_check_sender. Qed.

Lemma after_receiver_quiet c q : quiet c -> quiet (tc_after_receiver c q).
Proof.
  intros Hc. unfold tc_after_receiver. set (c1 := if th_rst (header q) then _ else c).
  assert (H1 : quiet c1) by (unfold c1; by destruct (th_rst (header q))). clearbody c1.
  set (c2 := if negb _ && _ then _ else c1). assert (H2 : quiet c2) by (unfold c2; by destruct (negb _ && _)). clearbody c2.
  case_match; [|by apply close_check_quiet]. case_match; [done|]. by apply close_check_quiet.
Qed.

Lemma orderly_quiet p e e' : orderly p e e' -> quiet (pt_conn e) -> quiet (pt_conn e').
Proof.
  intros Hs Hq. destruct Hs as [d He Hd| | |ms c' Hms E Hn|n Hn|q out Eo|q c' Hq' Hf Hsyn E]; cbn [pt_conn]; try done.
  - unfold tc_tick in E. apply rbind_ok in E as (t & _ & E). set (c1 := if _ && _ then _ else _) in E.
    destruct (Z.ltb_spec MAX_RETX_ATTEMPTS (tx_consecutive_retransmissions (tc_sender c1))); injection E as <-; [|done].
    unfold tx_consecutive_retransmissions in *. cbn in Hn. lia.
  - unfold tc_segment_received in E. apply rbind_ok in E as (r & _ & [= <-]). by apply after_receiver_quiet.
Qed.

Lemma meeting_quiet cl cr l r : meeting cl cr l r -> quiet (pt_conn l) /\ quiet (pt_conn r).
Proof. induction 1 as [|l r l' _ [] Hs|l r r' _ [] Hs]; split; try done; by eapply orderly_quiet. Qed.

(** *** The sender only goes forward *)

Definition onward (t t' : TCPSender) : Prop :=
  tx_next_ackno t <= tx_next_ackno t' /\
  (tx_consecutive_time_out_count t' = tx_consecutive_time_out_count t \/ tx_consecutive_time_out_count t' = 0).

#[global] Instance onward_preorder : PreOrder onward.
Proof.
  split; [intros t; split; [done|by left]|]. intros t1 t2 t3 [H1 H2] [H3 H4]. split; [lia|].
  destruct H4 as [->|H4]; [done|by right].
Qed.

Lemma fill_loop_count fuel : forall t,
  tx_consecutive_time_out_count (fill_loop fuel t) = tx_consecutive_time_out_count t.
Proof.
  induction fuel as [|fuel IH]; intros t; cbn [fill_loop]; [done|]. destruct (fill_guard t); [|done].
  rewrite IH. unfold fill_step. by destruct (fill_segment t).
Qed.
Lemma fill_window_count t : tx_consecutive_time_out_count (fill_window t) = tx_consecutive_time_out_count t.
Proof. unfold fill_window. destruct (current_state t); try done; apply fill_loop_count. Qed.

Lemma fill_window_onward t : onward t (tx_with_out (fill_window t) []).
Proof. split; cbn; [by rewrite fill_window_ackno|left; apply fill_window_count]. Qed.

(** An acknowledgement of something new stops the count of the timeouts. *)
Lemma ack_received_count t ackno win :
  let t' := ack_received t ackno win in
  onward t t' /\ (tx_next_ackno t < tx_next_ackno t' -> tx_consecutive_time_out_count t' = 0).
Proof.
  unfold onward, ack_received. destruct (ack_scan _ _ _) as [remain [kept|]]; cbn;
    [destruct (Z.ltb_spec (tx_next_ackno t) (unwrap ackno (tx_isn t) (tx_next_ackno t)))|];
    destruct (_ && _); cbn; intuition lia.
Qed.

Lemma after_receiver_onward c q : th_rst (header q) = false -> onward (tc_sender c) (tc_sender (tc_after_receiver c q)).
Proof.
  intros Hr. unfold tc_after_receiver. rewrite Hr. set (c1 := if _ && _ then _ else c).
  assert (H1 : onward (tc_sender c) (tc_sender c1)).
  { unfold c1. destruct (_ && _); [|done]. etrans; [apply ack_received_count|apply fill_window_onward]. }
  clearbody c1. etrans; [exact H1|]. clear H1. case_match; [|by rewrite close_check_sender].
  case_match; [apply fill_window_onward|]. set (c2 := match tc_segments_out c1 with [] => _ | _ => _ end).
  assert (H2 : onward (tc_sender c1) (tc_sender c2)) by (unfold c2; destruct (tc_segments_out c1); (split; [done|by left])).
  clearbody c2. etrans; [exact H2|]. rewrite close_check_sender. split; [done|by left].
Qed.

(** What an acknowledgement does to the sender of a connection. *)
Lemma after_receiver_sender c S q :
  tx_inv (tc_sender c) S -> th_rst (header q) = false -> th_ack (header q) = true -> 1 <= tx_next_seqno (tc_sender c) ->
  w32_ok (th_ackno (header q)) -> 0 <= th_win (header q) < W16 ->
  1 <= tx_next_ackno (ack_received (tc_sender c) (th_ackno (header q)) (th_win (header q))) ->
  tc_sender (tc_after_receiver c q) =
    tx_with_out (fill_window (ack_received (tc_sender c) (th_ackno (header q)) (th_win (header q)))) [].
Proof.
  intros Ht Hr Ha Hn Hk Hw H1. unfold tc_after_receiver, next_seqno_absolute. rewrite Hr, Ha.
  destruct (Z.eqb_spec (tx_next_seqno (tc_sender c)) 0) as [|_]; [lia|]. cbn [negb andb].
  set (t := ack_received _ _ _) in *. set (c1 := tc_connect _).
  assert (E1 : tc_sender c1 = tx_with_out (fill_window t) []) by done.
  assert (Hb : 1 <= tx_next_seqno (fill_window t)).
  { assert (I1 : tx_inv (fill_window t) S) by (by apply fill_window_inv, ack_received_inv).
    pose proof (tx_next_bound _ _ I1). rewrite fill_window_ackno in H. lia. }
  clearbody c1. case_match; [|by rewrite close_check_sender]. rewrite E1. cbn [tx_next_seqno tx_with_out].
  destruct (Z.eqb_spec (tx_next_seqno (fill_window t)) 0) as [|_]; [lia|]. rewrite close_check_sender.
  destruct (tc_segments_out c1); cbn; [done|]. by rewrite E1.
Qed.

(** *** A side that is heard out has nothing in disorder *)

Lemma nothing_staged S cap r hist : stream_inv S cap r hist -> zlen hist = zlen S -> unassembled_bytes r = 0.
Proof.
  intros Hst Hlen. unfold unassembled_bytes. rewrite (ri_size _ _ (si_inv _ _ _ _ Hst)).
  pose proof (ri_sorted _ _ (si_inv _ _ _ _ Hst)) as Hs. pose proof (si_staged _ _ _ _ Hst) as Hin.
  destruct (ra_staging_list r) as [|x l]; [done|]. cbn in Hs. destruct Hs as (H1 & _ & H3 & _). exfalso.
  destruct (proj2 (znth_range (st_data x) 0)) as [b Hb]; [lia|].
  specialize (Hin (st_start x) b). cbn in Hin. rewrite Z.leb_refl, Z.sub_diag in Hin. cbn [andb] in Hin.
  destruct (Z.leb_spec (st_start x) (st_end x)); [|lia]. specialize (Hin Hb). apply znth_Some in Hin. lia.
Qed.

Section completion.
Context (cl cr : TCPConfig).
Hypothesis Hcl : cfg_ok cl.
Hypothesis Hcr : cfg_ok cr.
Hypothesis Hrooml : cfg_recv_capacity cl + 5 * W32 < W64.
Hypothesis Hroomr : cfg_recv_capacity cr + 5 * W32 < W64.
Hypothesis Hrtol : 0 <= cfg_rt_timeout cl < W16.
Hypothesis Hrtor : 0 <= cfg_rt_timeout cr < W16.

Lemma cap_l : 1 <= cfg_recv_capacity cl.
Proof. apply Hcl. Qed.
Lemma cap_r : 1 <= cfg_recv_capacity cr.
Proof. apply Hcr. Qed.
Lemma isn_l : w32_ok (cfg_isn cl).
Proof. apply Hcl. Qed.
Lemma isn_r : w32_ok (cfg_isn cr).
Proof. apply Hcr. Qed.

(** What is known of two sides that meet. *)
Record known_of (l r : party) (nl nr : list TCPSegment) (al ar : list (WrappingInt32 * Z)) (hl hr : bytes) : Prop := {
  kn_out : live (cfg_recv_capacity cr) (cfg_isn cl) (tc_sender (pt_conn l)) (pt_written l) nl ar (tc_receiver (pt_conn r)) hr;
  kn_in : live (cfg_recv_capacity cl) (cfg_isn cr) (tc_sender (pt_conn r)) (pt_written r) nr al (tc_receiver (pt_conn l)) hl;
  kn_read_r : pt_read r ++ bs_buffer (inbound_stream (pt_conn r)) = hr;
  kn_read_l : pt_read l ++ bs_buffer (inbound_stream (pt_conn l)) = hl;
  kn_way_l : Forall (on_way nl al) (pt_wire l);
  kn_way_r : Forall (on_way nr ar) (pt_wire r);
  kn_settled : settled (pt_conn l) (pt_written l);
  kn_quiet : quiet (pt_conn l) }.

Lemma meeting_known l r : meeting cl cr l r -> exists nl nr al ar hl hr, known_of l r nl nr al ar hl hr.
Proof.
  intros Hm. destruct (meeting_met cl cr Hcl Hcr Hrooml Hroomr Hrtol Hrtor l r Hm) as ((nl & nr & al & ar & M) & Hs & _).
  destruct M as [[H1 H2 _ _ H5] _ _ H8]. apply Forall_app in H5 as [_ H5]. apply Forall_app in H8 as [_ H8].
  destruct (out_live cl cr Hcl Hcr Hroomr Hrtol _ _ _ _ _ _ H1) as (hr & Lr & Hgr).
  destruct (out_live cr cl Hcr Hcl Hrooml Hrtor _ _ _ _ _ _ H2) as (hl & Ll & Hgl).
  exists nl, nr, al, ar, hl, hr. constructor; try done. by destruct (meeting_quiet _ _ _ _ Hm).
Qed.

(** The acknowledgement on a segment of the wire is in range. *)
Lemma ack_in_range cap isn t S net acks r hist nl q :
  live cap isn t S net acks r hist -> on_way nl acks q -> th_ack (header q) = true ->
  w32_ok (th_ackno (header q)) /\ 0 <= th_win (header q) < W16.
Proof.
  intros L (_ & _ & Ha) Hq. pose proof (lv_acks _ _ _ _ _ _ _ _ L) as Hacks. rewrite Forall_forall in Hacks.
  destruct (Hacks _ (Ha Hq)) as (x & Hx & _ & Hwin & _). cbn in Hx, Hwin. rewrite Hx. split; [apply wrap_ok|done].
Qed.

(** *** The three parts of a round *)

Lemma tick_count t ms t' : tx_tick t ms = Ok t' -> 0 <= tx_consecutive_time_out_count t < MAX_RETX_ATTEMPTS ->
  0 <= tx_consecutive_time_out_count t' <= MAX_RETX_ATTEMPTS.
Proof.
  unfold tx_tick, MAX_RETX_ATTEMPTS. intros E Hc. destruct (_ && _) in E; [destruct (last _); [|done]|]; injection E as <-; cbn;
    [rewrite u16_id; lia|lia].
Qed.

(** The timer expires, and the oldest segment in flight goes out again. *)
Lemma probe_sent l r : meeting cl cr l r ->
  let t := tc_sender (pt_conn l) in
  0 <= tx_consecutive_time_out_count t < MAX_RETX_ATTEMPTS -> tx_bytes_in_flight t <> 0 ->
  exists c s, tc_tick (pt_conn (flushed l)) (tx_retransmission_timeout t -! tx_timer t) = Ok c /\
    tc_segments_out c = [stamp (tc_receiver (pt_conn l)) s] /\ tracks (tc_sender c) s (tx_next_ackno (tc_sender c)) /\
    tc_receiver c = tc_receiver (pt_conn l) /\ tx_next_ackno (tc_sender c) = tx_next_ackno t /\
    tx_stream (tc_sender c) = tx_stream t /\ meeting cl cr (flushed (party_with (flushed l) c)) r.
Proof.
  intros Hm t Hc Hf. destruct (meeting_known l r Hm) as (nl & nr & al & ar & hl & hr & [L _ _ _ _ _ _ Hq]).
  pose proof (lv_tx _ _ _ _ _ _ _ _ L) as Ht. fold t in Ht, L. pose proof (ti_count _ _ Ht) as Hcnt.
  destruct (round_tick t _ Ht (lv_clock _ _ _ _ _ _ _ _ L) Hq) as (t' & E & T1 & _ & T3 & _ & T5).
  destruct (Z.eqb_spec (tx_next_ackno t) (tx_next_seqno t)) as [|_]; [unfold tx_bytes_in_flight in Hf; lia|].
  destruct T5 as (s & Eo & Hs). pose proof (tick_count _ _ _ E Hc) as Hc'.
  assert (E1 : exists c1, tc_tick (pt_conn (flushed l)) (tx_retransmission_timeout t -! tx_timer t) = Ok (move_to_segments_out c1) /\
    tc_sender c1 = t' /\ tc_receiver c1 = tc_receiver (pt_conn l) /\ tc_segments_out c1 = []).
  { unfold tc_tick. cbn [pt_conn flushed tc_sender tc_with_out]. fold t. rewrite E. cbn [rbind]. set (c1 := if _ && _ then _ else _).
    assert (H1 : tc_sender c1 = t' /\ tc_receiver c1 = tc_receiver (pt_conn l) /\ tc_segments_out c1 = [])
      by (unfold c1; by destruct (_ && _)).
    exists c1. split; [|done]. destruct H1 as [-> _]. unfold tx_consecutive_retransmissions.
    by destruct (Z.ltb_spec MAX_RETX_ATTEMPTS (tx_consecutive_time_out_count t')); [lia|]. }
  destruct E1 as (c1 & E1 & A1 & A2 & A3).
  exists (move_to_segments_out c1), s. split; [done|]. cbn. rewrite A1, A2, A3, Eo. split; [done|].
  rewrite T1. do 4 (split; [done|]). eapply meeting_lefts; [exact Hm|]. etrans; [apply flushed_run|].
  eapply rtc_l; [|apply flushed_run]. apply (or_tick r (flushed l) (tx_retransmission_timeout t -! tx_timer t)); [apply u64_range|done|].
  cbn. rewrite A1. apply Hc'.
Qed.

(** It arrives at a side that has read everything and is answered. *)
Lemma probe_arrives l r s :
  meeting cl cr l r -> rx_have_SYN (tc_receiver (pt_conn l)) = true ->
  let q := stamp (tc_receiver (pt_conn l)) s in
  q ∈ pt_wire l -> tracks (tc_sender (pt_conn l)) s (tx_next_ackno (tc_sender (pt_conn l))) ->
  buffer_size (inbound_stream (pt_conn r)) = 0 -> tc_segments_out (pt_conn r) = [] ->
  exists c s' out, tc_segment_received (pt_conn r) q = Ok c /\ tc_segments_out c = stamp (tc_receiver c) s' :: out /\
    tx_next_ackno (tc_sender (pt_conn l)) < rx_position (tc_receiver c) /\ tc_ended c = tc_ended (pt_conn r) /\
    onward (tc_sender (pt_conn r)) (tc_sender c) /\ meeting cl cr l (flushed (party_with r c)).
Proof.
  intros Hm Hsyn q Hq Hs Hb Ho. destruct (meeting_known l r Hm) as (nl & nr & al & ar & hl & hr & [L L' _ _ Wl _ _ _]).
  rewrite Forall_forall in Wl. pose proof (Wl q Hq) as Hw. pose proof Hw as (Hr & _).
  pose proof (stamp_data (tc_receiver (pt_conn l)) s) as Hd. fold q in Hd.
  pose proof (oldest_fits _ _ cap_r _ _ _ _ _ _ _ L Hs Hb) as Hfit.
  destruct (live_deliver _ _ cap_r Hroomr isn_l _ _ _ _ _ _ s L (oldest_in_flight _ _ _ _ _ _ _ _ _ L Hs) Hfit) as (rx & w & E & L1 & _).
  pose proof (oldest_advances _ _ cap_r Hroomr isn_l _ _ _ _ _ _ _ L Hs Hb rx _ E L1) as Hadv.
  pose proof (lv_tx _ _ _ _ _ _ _ _ L) as Ht.
  destruct (tracked_spec _ _ _ _ _ _ _ _ (ti_chain _ _ Ht) Hs) as (Hsent & Hlen & _).
  rewrite <- (received_data _ _ _ Hd) in E.
  set (c := tc_after_receiver (tc_with_receiver (tc_with_time (pt_conn r) 0) rx) q).
  assert (E1 : tc_segment_received (pt_conn r) q = Ok c)
    by (unfold tc_segment_received; cbn [tc_receiver tc_with_time]; rewrite E; done).
  assert (Hrx : tc_receiver c = rx) by (unfold c; by rewrite after_receiver_receiver, Hr).
  assert (Hack : th_ack (header q) = true).
  { unfold q, stamp. rewrite (lv_ackno _ _ cap_l Hrooml _ _ _ _ _ _ L'), Hsyn. done. }
  destruct (ack_in_range _ _ _ _ _ _ _ _ _ _ L' Hw Hack) as [Hk Hwin].
  destruct (tc_after_receiver_out (tc_with_receiver (tc_with_time (pt_conn r) 0) rx) (pt_written r) q) as ((new & Hn) & _ & Hne);
    [apply L'|done|done|]. fold c in Hn, Hne. cbn [tc_segments_out tc_receiver tc_with_receiver tc_with_time] in Hn. rewrite Ho in Hn.
  assert (Hl : 0 < length_in_sequence_space q).
  { destruct Hd as (_ & D2 & D3 & D4). unfold length_in_sequence_space. rewrite D2, D3, D4. fold (length_in_sequence_space s).
    rewrite (sent_seg_len _ _ _ _ _ Hsent). lia. }
  specialize (Hne Hl). destruct new as [|s' new]; [by rewrite Hn in Hne|]. cbn in Hn.
  exists c, s', (map (stamp rx) new). rewrite Hrx. split; [done|]. split; [done|]. split; [lia|].
  split; [unfold c; by rewrite after_receiver_ended|]. split; [by apply (after_receiver_onward (tc_with_receiver (tc_with_time (pt_conn r) 0) rx))|].
  eapply meeting_rights; [exact Hm|]. eapply rtc_l; [|apply flushed_run].
  eapply (or_deliver l r q); [done| | |done].
  - destruct Hd as (_ & _ & D3 & D4). unfold fin_fits in *. by rewrite D3, D4.
  - destruct (rx_have_SYN (tc_receiver (pt_conn r))) eqn:Es; [by left|right]. destruct Hd as (_ & -> & _).
    pose proof (lv_acked _ _ _ _ _ _ _ _ L) as Ha. unfold rx_position in Ha. rewrite Es in Ha.
    destruct Hsent as ((_ & Hy & _) & _). destruct (th_syn (header s)); [done|lia].
Qed.

(** A segment on the wire of a side that has not ended, or that is heard out, can
    be received. *)
Lemma answer_received l r nl nr al ar hl hr q :
  known_of l r nl nr al ar hl hr -> q ∈ pt_wire r ->
  tc_ended (pt_conn r) = false \/ input_ended (inbound_stream (pt_conn l)) = true ->
  fin_fits (pt_written r) (tc_receiver (pt_conn l)) q /\
  exists rx, rx_segment_received (tc_receiver (pt_conn l)) q = Ok rx /\
    (input_ended (inbound_stream (pt_conn l)) = true -> input_ended (rx_stream_out rx) = true).
Proof.
  intros [_ L _ _ _ W _ _] Hq Hor. rewrite Forall_forall in W. destruct (W q Hq) as (_ & (s & Hs & Hd) & _).
  pose proof (lv_pool _ _ _ _ _ _ _ _ L) as Hp. apply Forall_app in Hp as [_ Hp]. rewrite Forall_forall in Hp. specialize (Hp s Hs).
  pose proof (lv_bounds _ _ _ _ _ _ _ _ L) as (_ & _ & Hh & _ & _ & Hw).
  assert (Hfit : fin_fits (pt_written r) (tc_receiver (pt_conn l)) s).
  { intros Hf. destruct Hor as [Hn|He].
    - destruct Hp as (a & (_ & Hfe & _) & _). specialize (Hfe Hf). unfold tc_ended in Hn. congruence.
    - left. apply (re_ended _ _ _ (lv_ended _ _ _ _ _ _ _ _ L)) in He as [_ He]. lia. }
  destruct (live_deliver _ _ cap_l Hrooml isn_r _ _ _ _ _ _ s L Hp Hfit) as (rx & w & E & L1 & _).
  rewrite <- (received_data _ _ _ Hd) in E. destruct Hd as (_ & _ & D3 & D4).
  split; [unfold fin_fits in *; by rewrite D3, D4|]. exists rx. split; [done|]. intros He.
  apply (re_ended _ _ _ (lv_ended _ _ _ _ _ _ _ _ L)) in He as [Hf He].
  pose proof (lv_bounds _ _ _ _ _ _ _ _ L1) as (_ & _ & Hh' & _). rewrite zlen_app in Hh'. zpos.
  apply (re_ended _ _ _ (lv_ended _ _ _ _ _ _ _ _ L1)). split; [by eapply rx_fin_kept|rewrite zlen_app; lia].
Qed.

(** The answer arrives: the sender is where the other receiver is. *)
Lemma answer_arrives l r s :
  meeting cl cr l r -> rx_have_SYN (tc_receiver (pt_conn l)) = true ->
  let q := stamp (tc_receiver (pt_conn r)) s in
  q ∈ pt_wire r -> tx_next_ackno (tc_sender (pt_conn l)) < rx_position (tc_receiver (pt_conn r)) ->
  tc_ended (pt_conn r) = false \/ input_ended (inbound_stream (pt_conn l)) = true ->
  exists c, tc_segment_received (pt_conn l) q = Ok c /\ meeting cl cr (party_with l c) r /\
    rx_have_SYN (tc_receiver c) = true /\ (input_ended (inbound_stream (pt_conn l)) = true -> input_ended (inbound_stream c) = true) /\
    tx_next_ackno (tc_sender c) = rx_position (tc_receiver (pt_conn r)) /\ tx_consecutive_time_out_count (tc_sender c) = 0 /\
    tc_ended c = tc_ended (pt_conn l).
Proof.
  intros Hm Hsyn q Hq Hlt Hor. destruct (meeting_known l r Hm) as (nl & nr & al & ar & hl & hr & K).
  destruct (answer_received l r nl nr al ar hl hr q K Hq Hor) as (Hfit & rx & E & Hend).
  destruct K as [L L' _ _ _ W _ _]. rewrite Forall_forall in W. pose proof (W q Hq) as Hw. pose proof Hw as (Hr & _).
  pose proof (lv_bounds _ _ _ _ _ _ _ _ L) as (Hb & _). pose proof (lv_tx _ _ _ _ _ _ _ _ L) as Ht.
  destruct (acknowledged_advances _ _ cap_r Hroomr _ _ _ _ _ _ L Hlt) as [A1 _].
  assert (Hs : exists ackno, rx_ackno (tc_receiver (pt_conn r)) = Some ackno).
  { rewrite (lv_ackno _ _ cap_r Hroomr _ _ _ _ _ _ L). unfold rx_position in Hlt.
    destruct (rx_have_SYN (tc_receiver (pt_conn r))); [by eexists|lia]. }
  destruct Hs as (ackno & Hs). destruct (stamp_ack _ _ s Hs) as (Q1 & Q2 & Q3). fold q in Q1, Q2, Q3.
  unfold acknowledged in A1. rewrite Hs, <- Q2, <- Q3 in A1. destruct (ack_in_range _ _ _ _ _ _ _ _ _ _ L Hw Q1) as [Hk Hwin].
  pose proof (lv_position _ _ _ _ _ _ _ _ L) as Hpos.
  destruct (ack_received_count (tc_sender (pt_conn l)) (th_ackno (header q)) (th_win (header q))) as [_ Hc].
  set (c0 := tc_with_receiver (tc_with_time (pt_conn l) 0) rx). set (c := tc_after_receiver c0 q).
  assert (E1 : tc_segment_received (pt_conn l) q = Ok c)
    by (unfold tc_segment_received; cbn [tc_receiver tc_with_time]; rewrite E; done).
  assert (Hrx : tc_receiver c = rx) by (unfold c; by rewrite after_receiver_receiver, Hr).
  assert (Hsd : tc_sender c = tx_with_out (fill_window (ack_received (tc_sender (pt_conn l)) (th_ackno (header q)) (th_win (header q)))) []).
  { apply (after_receiver_sender c0 (pt_written l)); try done; change (tc_sender c0) with (tc_sender (pt_conn l)); lia. }
  exists c. split; [done|]. split; [|split; [|split; [|split; [|split]]]].
  - eapply mt_left; [exact Hm|]. eapply (or_deliver r l q); [done|done|by left|done].
  - rewrite Hrx. rewrite (receives_syn _ _ _ E). by rewrite Hsyn.
  - unfold inbound_stream. rewrite Hrx. exact Hend.
  - rewrite Hsd. cbn. by rewrite fill_window_ackno.
  - rewrite Hsd. cbn. rewrite fill_window_count. apply Hc. lia.
  - unfold c. by rewrite after_receiver_ended.
Qed.

(** *** Rounds one after the other *)

(** The left side has ended its stream and knows the other side, which has not
    ended or is heard out; neither is about to give up. *)
Record ready (l r : party) : Prop := {
  rd_meet : meeting cl cr l r;
  rd_syn : rx_have_SYN (tc_receiver (pt_conn l)) = true;
  rd_ended : tc_ended (pt_conn l) = true;
  rd_other : tc_ended (pt_conn r) = false \/ input_ended (inbound_stream (pt_conn l)) = true;
  rd_tries : 0 <= tx_consecutive_time_out_count (tc_sender (pt_conn l)) < MAX_RETX_ATTEMPTS;
  rd_tries' : 0 <= tx_consecutive_time_out_count (tc_sender (pt_conn r)) < MAX_RETX_ATTEMPTS }.

(** What both sides have written and the left side has read stays, and the right
    side retains what it knows to be acknowledged. *)
Definition retains (l r l' r' : party) : Prop :=
  pt_written l' = pt_written l /\ pt_written r' = pt_written r /\ pt_read l' = pt_read l /\
  tx_next_ackno (tc_sender (pt_conn r)) <= tx_next_ackno (tc_sender (pt_conn r')).

Definition acked (e : party) : Z := tx_next_ackno (tc_sender (pt_conn e)).

Lemma round_trip_last l r :
  ready l r -> tx_bytes_in_flight (tc_sender (pt_conn l)) = 0 ->
  ready l (caught_up r) /\ retains l r l (caught_up r) /\ acked l = zlen (pt_written l) + 2.
Proof.
  intros [R1 R2 R3 R4 R5 R6] Hf. destruct (caught_up_frame r) as (C1 & _ & C3 & _).
  destruct (meeting_known l r R1) as (nl & nr & al & ar & hl & hr & [L _ _ _ _ _ [_ Hs _] _]).
  pose proof (lv_tx _ _ _ _ _ _ _ _ L) as Ht. split; [|split].
  - constructor; unfold tc_ended; rewrite ?C1; try done. eapply mt_right; [exact R1|apply caught_up_step].
  - unfold retains. by rewrite C1, C3.
  - unfold acked, tx_bytes_in_flight in *. rewrite (ti_count _ _ Ht) in Hf. destruct (Hs R3); lia.
Qed.

Lemma round_trip_moves l r :
  ready l r -> tx_bytes_in_flight (tc_sender (pt_conn l)) <> 0 ->
  exists l' r', round_trip l r = Ok (l', r') /\ ready l' r' /\ retains l r l' r' /\ acked l < acked l'.
Proof.
  intros [R1 R2 R3 R4 R5 R6] Hf. unfold round_trip. destruct (Z.eqb_spec (tx_bytes_in_flight (tc_sender (pt_conn l))) 0) as [|_]; [done|].
  set (r0 := caught_up (flushed r)). destruct (caught_up_frame (flushed r)) as (C1 & C2 & C3 & _ & C5). fold r0 in C1, C2, C3, C5. cbn in C1, C2, C3.
  assert (M0 : meeting cl cr l r0).
  { eapply mt_right; [eapply meeting_rights; [exact R1|apply flushed_run]|apply caught_up_step]. }
  destruct (probe_sent l r0 M0 R5 Hf) as (c & s & E1 & P1 & P2 & P3 & P4 & P5 & M1). rewrite E1. cbn [rbind]. rewrite P1.
  set (l1 := flushed (party_with (flushed l) c)) in *.
  destruct (probe_arrives l1 r0 s M1) as (c' & s' & out & E2 & Q1 & Q2 & Q3 & Q4 & M2); try done; try (by cbn; rewrite ?P3).
  { cbn. rewrite P1, P3. by left. }
  cbn [tc_receiver pt_conn l1 flushed party_with tc_with_out] in E2. rewrite P3 in E2. rewrite E2. cbn [rbind]. rewrite Q1.
  set (r1 := flushed (party_with r0 c')) in *. unfold tc_ended in Q3. rewrite C1 in Q3, Q4.
  destruct (answer_arrives l1 r1 s' M2) as (c'' & E3 & M3 & A1 & A2 & A3 & A4 & A5); try done; try (by cbn; rewrite ?P3).
  { cbn. rewrite Q1. cbn. rewrite <- app_assoc. apply elem_of_app. right. by left. }
  { cbn. unfold tc_ended, inbound_stream in *. cbn. rewrite Q3, P3. done. }
  cbn [tc_receiver pt_conn r1 flushed party_with tc_with_out] in E3. rewrite E3. cbn [rbind].
  exists (party_with l1 c''), r1. split; [done|].
  assert (T1 : tc_ended (pt_conn l1) = true) by (unfold tc_ended; cbn; by rewrite P5).
  destruct Q4 as [Q4 Q5]. cbn in A3, Q2, Q4, Q5. rewrite P4 in Q2. split; [|split].
  - constructor; try done.
    + by rewrite <- T1.
    + unfold tc_ended in *. cbn. rewrite Q3. destruct R4 as [R4|R4]; [by left|right]. apply A2. unfold inbound_stream. cbn. by rewrite P3.
    + cbn. rewrite A4. done.
    + cbn. destruct Q5 as [-> | ->]; [done|]. done.
  - by split_and!.
  - unfold acked. cbn. rewrite A3. done.
Qed.

Lemma retains_trans l r l1 r1 l2 r2 : retains l r l1 r1 -> retains l1 r1 l2 r2 -> retains l r l2 r2.
Proof. intros (A1 & A2 & A3 & A4) (B1 & B2 & B3 & B4). split_and!; [congruence..|lia]. Qed.

Lemma acked_bound l r : meeting cl cr l r -> 0 <= acked l <= zlen (pt_written l) + 2.
Proof.
  intros Hm. destruct (meeting_known l r Hm) as (nl & nr & al & ar & hl & hr & [L _ _ _ _ _ _ _]).
  pose proof (lv_bounds _ _ _ _ _ _ _ _ L). unfold acked. lia.
Qed.

Lemma round_trips_spec n : forall l r, ready l r -> zlen (pt_written l) + 2 - acked l < Z.of_nat n ->
  exists l' r', round_trips n l r = Ok (l', r') /\ ready l' r' /\ retains l r l' r' /\
    acked l' = zlen (pt_written l) + 2 /\ buffer_size (inbound_stream (pt_conn r')) = 0.
Proof.
  induction n as [|n IH]; intros l r Hr Hn; [pose proof (acked_bound l r (rd_meet _ _ Hr)); lia|]. cbn [round_trips].
  destruct (Z.eq_dec (tx_bytes_in_flight (tc_sender (pt_conn l))) 0) as [Hf|Hf].
  - destruct (round_trip_last l r Hr Hf) as (R1 & K1 & A1). unfold round_trip. rewrite Hf. cbn [Z.eqb rbind].
    destruct n as [|n]; [|destruct (IH l (caught_up r) R1) as (l' & r' & E & R2 & K2 & H); [lia|]].
    2:{ exists l', r'. do 2 (split; [done|]). split; [by eapply retains_trans|done]. }
    exists l, (caught_up r). do 4 (split; [done|]). apply caught_up_frame.
  - destruct (round_trip_moves l r Hr Hf) as (l1 & r1 & E1 & R1 & K1 & A1). rewrite E1. cbn [rbind].
    pose proof K1 as (W1 & _). destruct (IH l1 r1 R1) as (l' & r' & E & R2 & K2 & A2 & B2); [rewrite W1; lia|].
    exists l', r'. rewrite W1 in A2. do 2 (split; [done|]). split; [by eapply retains_trans|done].
Qed.

(** When everything is acknowledged the other side has it, in order and complete. *)
Lemma acked_served l r : meeting cl cr l r -> acked l = zlen (pt_written l) + 2 ->
  pt_read r ++ bs_buffer (inbound_stream (pt_conn r)) = pt_written l /\ input_ended (inbound_stream (pt_conn r)) = true /\
  rx_have_SYN (tc_receiver (pt_conn r)) = true /\ rx_unassembled_bytes (tc_receiver (pt_conn r)) = 0 /\
  current_state (tc_sender (pt_conn l)) = FinAcked /\ tx_bytes_in_flight (tc_sender (pt_conn l)) = 0 /\
  eof (tx_stream (tc_sender (pt_conn l))) = true.
Proof.
  intros Hm Ha. destruct (meeting_known l r Hm) as (nl & nr & al & ar & hl & hr & [L _ Hg _ _ _ _ _]).
  destruct (acked_all _ _ _ _ _ _ _ _ L Ha) as [Eh Ee]. pose proof (lv_tx _ _ _ _ _ _ _ _ L) as Ht.
  split; [by rewrite Hg|]. split; [done|]. split.
  { pose proof (lv_acked _ _ _ _ _ _ _ _ L) as Hp. unfold rx_position, acked in *. destruct (rx_have_SYN _); [done|]. zpos. lia. }
  split; [apply (nothing_staged _ _ _ _ (rx_stream _ _ _ _ _ (lv_rx _ _ _ _ _ _ _ _ L))); by rewrite Eh|].
  destruct (acked_all_state _ _ Ht (lv_short _ _ _ _ _ _ _ _ L) Ha) as [S1 S2]. do 2 (split; [done|]).
  unfold current_state in S1. by destruct (eof (tx_stream (tc_sender (pt_conn l)))); [|repeat case_match].
Qed.
End completion.

(** *** The end of a connection *)

Lemma lingered_out c ms :
  is_satisfied_prereq c = true -> tx_consecutive_time_out_count (tc_sender c) <= MAX_RETX_ATTEMPTS ->
  10 * cfg_rt_timeout (tc_cfg c) <= tc_time_since_last_segment_received c +! ms ->
  exists c', tc_tick c ms = Ok c' /\ tc_active c' = false.
Proof.
  intros Hp Hc Ht. pose proof Hp as Hf. unfold is_satisfied_prereq in Hf. apply andb_true_iff in Hf as [_ Hf].
  apply andb_true_iff in Hf as [_ Hf]. unfold tc_tick, tx_tick. rewrite Hf. cbn [negb]. rewrite andb_false_r. cbn [rbind].
  set (c1 := tc_with_time _ _). assert (Hp1 : is_satisfied_prereq c1 = true) by exact Hp. rewrite Hp1, andb_true_r.
  assert (H1 : (10 * cfg_rt_timeout (tc_cfg c1) <=? tc_time_since_last_segment_received c1) = true) by (by apply Z.leb_le).
  rewrite H1. destruct (Z.ltb_spec MAX_RETX_ATTEMPTS (tx_consecutive_retransmissions (tc_sender (tc_with_active c1 false)))) as [H2|_].
  - unfold tx_consecutive_retransmissions in H2. cbn in H2. lia.
  - by eexists.
Qed.

(** The next tick that reaches ten times the timeout after the last segment ends
    the connection. *)
Definition ends_by_itself (c : TCPConnection) : Prop :=
  forall ms, 10 * cfg_rt_timeout (tc_cfg c) <= tc_time_since_last_segment_received c +! ms ->
  exists c', tc_tick c ms = Ok c' /\ tc_active c' = false.

(** The application has read all that the other side wrote and sees the end, all
    that it wrote itself is acknowledged, and the connection is about to end. *)
Definition finished (e p : party) : Prop :=
  pt_read e = pt_written p /\ eof (inbound_stream (pt_conn e)) = true /\
  current_state (tc_sender (pt_conn e)) = FinAcked /\ ends_by_itself (pt_conn e).

Section finish.
Context (cl cr : TCPConfig).
Hypothesis Hcl : cfg_ok cl.
Hypothesis Hcr : cfg_ok cr.
Hypothesis Hrooml : cfg_recv_capacity cl + 5 * W32 < W64.
Hypothesis Hroomr : cfg_recv_capacity cr + 5 * W32 < W64.
Hypothesis Hrtol : 0 <= cfg_rt_timeout cl < W16.
Hypothesis Hrtor : 0 <= cfg_rt_timeout cr < W16.

Lemma heard_out l r : meeting cl cr l r -> acked l = zlen (pt_written l) + 2 ->
  buffer_size (inbound_stream (pt_conn r)) = 0 -> pt_read r = pt_written l.
Proof.
  intros Hm Ha Hb. destruct (acked_served cl cr Hcl Hcr Hrooml Hroomr Hrtol Hrtor l r Hm Ha) as (H1 & _).
  unfold buffer_size in Hb. apply zlen_0 in Hb. by rewrite Hb, app_nil_r in H1.
Qed.

Lemma both_acked_finished l r :
  meeting cl cr l r -> acked l = zlen (pt_written l) + 2 -> acked r = zlen (pt_written r) + 2 ->
  pt_read l = pt_written r -> tx_consecutive_time_out_count (tc_sender (pt_conn l)) <= MAX_RETX_ATTEMPTS -> finished l r.
Proof.
  intros Hm Hl Hr Hrd Hc.
  destruct (acked_served cl cr Hcl Hcr Hrooml Hroomr Hrtol Hrtor l r Hm Hl) as (_ & _ & _ & _ & L5 & L6 & L7).
  destruct (acked_served cr cl Hcr Hcl Hroomr Hrooml Hrtor Hrtol r l (meeting_swap _ _ _ _ Hm) Hr) as (R1 & R2 & _ & R4 & _).
  assert (He : eof (inbound_stream (pt_conn l)) = true).
  { unfold eof. rewrite R2. cbn [andb]. rewrite Hrd in R1. apply (f_equal zlen) in R1. rewrite zlen_app in R1.
    apply buffer_empty_true. unfold buffer_size. lia. }
  split; [done|]. split; [done|]. split; [done|]. intros ms Hms. apply lingered_out; [|done|done].
  unfold is_satisfied_prereq. unfold inbound_stream in He. by rewrite R4, He, L7, L6.
Qed.

Lemma closing_ready l r : ready cl cr l r -> acked l = zlen (pt_written l) + 2 -> ready cr cl (closing r) l.
Proof.
  intros [R1 R2 R3 R4 R5 R6] Ha.
  destruct (acked_served cl cr Hcl Hcr Hrooml Hroomr Hrtol Hrtor l r R1 Ha) as (_ & S2 & S3 & _).
  constructor; try done.
  - apply meeting_swap. eapply mt_right; [exact R1|apply or_end].
  - unfold tc_ended, closing, party_with, tc_end_input_stream, tc_connect. cbn. by rewrite fill_window_ended.
  - by right.
  - unfold closing, party_with, tc_end_input_stream, tc_connect. cbn. by rewrite fill_window_count.
Qed.
End finish.

(** ** Both streams get through *)

(** C2: Two whole connections complete, with a bound. From every state that they
    reach after the handshake, over the network of [connections_refine_links]:
    it loses, repeats, reorders and delays, but lets nothing overtake the first
    SYN, and delivers a FIN only after the data before it or, with data, while
    the end of the stream is inside the receiver's window; nobody resets, each
    stream is shorter than [2^31 - 2], and neither side has counted eight
    retransmissions in a row. Once the left side has ended its stream, and while
    the right side has not, or its stream has arrived to its end: [|S| + 3]
    rounds, in which only the segment that the timer sends again and the first
    answer to it get through, bring all that the left side wrote to the other
    application. Then the right side ends, and rounds in the other direction
    bring its stream over. No operation throws, all of them are steps of the two
    sides, neither gives up, and both connections are over when they have
    lingered. *)
Theorem connections_complete cl cr l r n m :
  cfg_ok cl -> cfg_ok cr -> cfg_recv_capacity cl + 5 * W32 < W64 -> cfg_recv_capacity cr + 5 * W32 < W64 ->
  0 <= cfg_rt_timeout cl < W16 -> 0 <= cfg_rt_timeout cr < W16 -> meeting cl cr l r ->
  rx_have_SYN (tc_receiver (pt_conn l)) = true -> tc_ended (pt_conn l) = true ->
  tc_ended (pt_conn r) = false \/ input_ended (inbound_stream (pt_conn l)) = true ->
  0 <= tx_consecutive_retransmissions (tc_sender (pt_conn l)) < MAX_RETX_ATTEMPTS ->
  0 <= tx_consecutive_retransmissions (tc_sender (pt_conn r)) < MAX_RETX_ATTEMPTS ->
  zlen (pt_written l) + 3 <= Z.of_nat n -> zlen (pt_written r) + 3 <= Z.of_nat m ->
  exists l1 r1 l2 r2,
    round_trips n l r = Ok (l1, r1) /\ pt_read r1 = pt_written l /\
    round_trips m (closing r1) l1 = Ok (r2, l2) /\ meeting cl cr l2 r2 /\
    pt_written l2 = pt_written l /\ pt_written r2 = pt_written r /\ finished l2 r2 /\ finished r2 l2.
Proof.
  intros Hl Hr Hcl Hcr Htl Htr Hm Hsyn He Hor Kl Kr Hn Hk. assert (R0 : ready cl cr l r) by (by constructor).
  pose proof (acked_bound cl cr Hl Hr Hcl Hcr Htl Htr l r Hm).
  destruct (round_trips_spec cl cr Hl Hr Hcl Hcr Htl Htr n l r R0) as (l1 & r1 & E1 & R1 & (W1 & W2 & _ & _) & A1 & B1); [lia|].
  rewrite <- W1 in A1. pose proof (rd_meet _ _ _ _ R1) as M1. pose proof (heard_out cl cr Hl Hr Hcl Hcr Htl Htr l1 r1 M1 A1 B1) as G1.
  pose proof (closing_ready cl cr Hl Hr Hcl Hcr Htl Htr l1 r1 R1 A1) as R2. pose proof (rd_meet _ _ _ _ R2) as M2.
  pose proof (acked_bound cr cl Hr Hl Hcr Hcl Htr Htl (closing r1) l1 M2).
  destruct (round_trips_spec cr cl Hr Hl Hcr Hcl Htr Htl m (closing r1) l1 R2) as (r2 & l2 & E2 & R3 & (V1 & V2 & V3 & V4) & A2 & B2);
    [change (pt_written (closing r1)) with (pt_written r1); rewrite W2; lia|].
  change (pt_written (closing r1)) with (pt_written r1) in *. change (pt_read (closing r1)) with (pt_read r1) in *.
  pose proof (rd_meet _ _ _ _ R3) as M3. pose proof (meeting_swap _ _ _ _ M3) as M4.
  pose proof (acked_bound cl cr Hl Hr Hcl Hcr Htl Htr l2 r2 M4) as Hb. unfold acked in Hb. rewrite <- V1 in A2.
  assert (A3 : acked l2 = zlen (pt_written l2) + 2) by (unfold acked in *; rewrite V2 in *; lia).
  pose proof (heard_out cr cl Hr Hl Hcr Hcl Htr Htl r2 l2 M3 A2 B2) as G2. destruct R3 as [_ _ _ _ T1 T2].
  exists l1, r1, l2, r2. rewrite W1 in G1. split; [done|]. split; [done|]. split; [done|]. split; [done|].
  split; [congruence|]. split; [congruence|]. split.
  - apply (both_acked_finished cl cr); try done. lia.
  - apply (both_acked_finished cr cl); try done; [congruence|lia].
Qed.

(** *** A run *)

(** After the handshake both sides write and all of it is lost; the left side
    ends. *)
Definition lossy_play : list (bool * party_move) :=
  [(true, mv_connect); (true, mv_transmit); (false, mv_deliver 0); (false, mv_transmit); (true, mv_deliver 0);
   (true, mv_transmit); (false, mv_deliver 1); (true, mv_write [x61; x62]); (true, mv_transmit); (true, mv_write [x64]);
   (false, mv_write [x63]); (false, mv_transmit); (true, mv_end); (true, mv_tick 1000); (true, mv_transmit)].
Definition lost : party * party :=
  default (new_party (small_cfg 0), new_party (small_cfg 1000))
    (plays lossy_play (new_party (small_cfg 0)) (new_party (small_cfg 1000))).

Lemma lossy_play_meets : meeting (small_cfg 0) (small_cfg 1000) lost.1 lost.2.
Proof. eapply (plays_meeting _ _ lossy_play); [apply mt_start|]. vm_compute. reflexivity. Qed.

Lemma connections_complete_witness :
  pt_written lost.1 = [x61; x62; x64] /\ pt_written lost.2 = [x63] /\
  tx_bytes_in_flight (tc_sender (pt_conn lost.1)) = 4 /\ tx_bytes_in_flight (tc_sender (pt_conn lost.2)) = 1 /\
  exists l1 r1 l2 r2,
    round_trips 6 lost.1 lost.2 = Ok (l1, r1) /\ round_trips 4 (closing r1) l1 = Ok (r2, l2) /\ finished l2 r2 /\ finished r2 l2.
Proof.
  do 4 (split; [vm_compute; reflexivity|]).
  destruct (connections_complete (small_cfg 0) (small_cfg 1000) lost.1 lost.2 6 4) as (l1 & r1 & l2 & r2 & H1 & _ & H2 & _ & _ & _ & H3 & H4).
  - apply small_cfg_ok. lia.
  - apply small_cfg_ok. lia.
  - reflexivity.
  - reflexivity.
  - simpl. lia.
  - simpl. lia.
  - exact lossy_play_meets.
  - vm_compute. reflexivity.
  - vm_compute. reflexivity.
  - left. vm_compute. reflexivity.
  - vm_compute. split; [discriminate|reflexivity].
  - vm_compute. split; [discriminate|reflexivity].
  - vm_compute. discriminate.
  - vm_compute. discriminate.
  - exists l1, r1, l2, r2. split; [exact H1|]. split; [exact H2|]. split; [exact H3|exact H4].
Defined.
