(* ===== verification/Handshake.v ===== *)
(** * Opening and closing a connection

    Two endpoints exchange the segments of the three-way handshake, of a
    simultaneous open and of an orderly close, for all configurations: initial
    sequence numbers, capacities and timeouts.  The states are those of
    [tcp_state.hh]; each exchange is a sequence of operations of
    [TCPConnection], in which a segment that one side has queued is delivered to
    the other. *)
From S2P Require Import Prelude WrappingIntegers ByteStream StreamReassembler Buffer Parser TCPSegment TCPReceiver TCPSender TCPConnection.

(** ** Two endpoints *)

(** The connections, and the segments under way from each. *)
Record pair : Type := mkPair {
  left : TCPConnection;
  right : TCPConnection;
  from_left : list TCPSegment;
  from_right : list TCPSegment }.

Inductive side : Type := Left | Right.

(** An operation of one side; a side puts its queue on the wire; the oldest segment
    under way from a side reaches the other. *)
Inductive exchange : Type :=
  | Does (s : side) (o : tc_op)
  | Sends (s : side)
  | Arrives (s : side).

Definition exchange_step (p : pair) (e : exchange) : result pair :=
  let '(mkPair a b wa wb) := p in
  match e with
  | Does Left o => let* a := tc_step a o in Ok (mkPair a b wa wb)
  | Does Right o => let* b := tc_step b o in Ok (mkPair a b wa wb)
  | Sends Left => Ok (mkPair (tc_with_out a []) b (wa ++ tc_segments_out a) wb)
  | Sends Right => Ok (mkPair a (tc_with_out b []) wa (wb ++ tc_segments_out b))
  | Arrives Left =>
      match wa with
      | [] => Err runtime_error
      | seg :: wa => let* b := tc_segment_received b seg in Ok (mkPair a b wa wb)
      end
  | Arrives Right =>
      match wb with
      | [] => Err runtime_error
      | seg :: wb => let* a := tc_segment_received a seg in Ok (mkPair a b wa wb)
      end
  end.

Definition new_pair (a b : TCPConfig) : pair := mkPair (new_TCPConnection a) (new_TCPConnection b) [] [].

(** A script: exchanges, each with the states in which it leaves the two sides.
    [passes p script q]: the exchanges are possible from [p], lead through these
    states, and end in [q]. *)
Fixpoint passes (p : pair) (script : list (exchange * State * State)) (q : pair) : Prop :=
  match script with
  | [] => p = q
  | (e, sa, sb) :: script => exists p', exchange_step p e = Ok p' /\
      tc_state (left p') = TCPState_of sa /\ tc_state (right p') = TCPState_of sb /\ passes p' script q
  end.

(** ** The states on the way *)

(** A receiver that has heard the SYN of a peer and nothing else. *)
Definition heard (cfg : TCPConfig) (peer : WrappingInt32) : TCPReceiver :=
  mkTCPReceiver (new_StreamReassembler (cfg_recv_capacity cfg)) (cfg_recv_capacity cfg) true false peer.

(** A sender of an empty stream. *)
Definition quiet (cfg : TCPConfig) (ended : bool) (next acked : Z) (tracked : list TCPSegment) (count window remain : Z) : TCPSender :=
  mkTCPSender (cfg_isn cfg) [] (cfg_rt_timeout cfg) (mkByteStream [] (cfg_send_capacity cfg) ended 0 false) next acked
    tracked count 0 (cfg_rt_timeout cfg) window remain 0.

Definition syn_of (cfg : TCPConfig) : TCPSegment :=
  mkTCPSegment (set_ackno (wrap 1 (cfg_isn cfg)) (set_syn true (set_seqno (cfg_isn cfg) default_TCPHeader))) (payload new_TCPSegment).

Definition syn_sent (cfg : TCPConfig) : TCPSender := quiet cfg false 1 0 [syn_of cfg] 1 1 1.
Definition syn_acked (cfg : TCPConfig) (window : Z) : TCPSender :=
  quiet cfg false 1 1 [] 0 window (if window =? 0 then 1 else window).

Definition bare (cfg : TCPConfig) (next : Z) : TCPSegment :=
  mkTCPSegment (set_ackno (wrap next (cfg_isn cfg)) (set_seqno (wrap next (cfg_isn cfg)) default_TCPHeader)) (payload new_TCPSegment).

Lemma accepts_syn cfg peer :
  tc_segment_received (new_TCPConnection cfg) (syn_of peer) =
    Ok (mkTCPConnection cfg (heard cfg (cfg_isn peer)) (syn_sent cfg)
          [stamp (heard cfg (cfg_isn peer)) (syn_of cfg)] true true 0).
Proof. reflexivity. Qed.

Lemma fill_loop_stop fuel t : fill_guard t = false -> fill_loop fuel t = t.
Proof. intros H. destruct fuel; cbn; [done|by rewrite H]. Qed.

Lemma w32_eqb_refl a : w32_eqb a a = true.
Proof. apply Z.eqb_refl. Qed.

Section endpoint.
Context (cfg : TCPConfig) (Hisn : w32_ok (cfg_isn cfg)).

Lemma unwrap_small n cp : 0 <= n < 3 -> 0 <= cp < 3 -> unwrap (wrap n (cfg_isn cfg)) (cfg_isn cfg) cp = n.
Proof. intros Hn Hcp. apply unwrap_near; [done|lia..]. Qed.

(** The acknowledgement of the SYN. *)
Lemma ack_of_syn w : ack_received (syn_sent cfg) (wrap 1 (cfg_isn cfg)) w = syn_acked cfg w.
Proof.
  assert (Es : ack_scan (wrap 1 (cfg_isn cfg)) [syn_of cfg] 0 = (0, Some [])).
  { cbn [ack_scan]. change (th_ackno (header (syn_of cfg))) with (wrap 1 (cfg_isn cfg)). by rewrite w32_eqb_refl. }
  unfold ack_received. change (tx_tracking_segments (syn_sent cfg)) with [syn_of cfg]. rewrite Es.
  change (tx_isn (syn_sent cfg)) with (cfg_isn cfg). change (tx_next_ackno (syn_sent cfg)) with 0.
  rewrite unwrap_small by lia. cbn. by rewrite andb_true_r.
Qed.

(** An acknowledgement that only repeats what is known changes the window. *)
Lemma ack_again ended next w w' r : 1 <= next < 3 ->
  ack_received (quiet cfg ended next next [] 0 w r) (wrap next (cfg_isn cfg)) w' =
    quiet cfg ended next next [] 0 w' (if w' =? 0 then 1 else w').
Proof.
  intros Hn. unfold ack_received. cbn [tx_isn tx_next_ackno quiet]. rewrite unwrap_small by lia.
  cbn [tx_next_ackno tx_next_seqno]. rewrite !Z.leb_refl. cbn [andb]. cbn. by rewrite andb_true_r.
Qed.

(** Nothing is left to send. *)
Lemma fill_quiet next w r : next = 1 -> fill_window (quiet cfg false next next [] 0 w r) = quiet cfg false next next [] 0 w r.
Proof.
  intros ->. unfold fill_window. change (current_state _) with SynAcked. cbn iota. apply fill_loop_stop.
  unfold fill_guard. change (bool_decide _) with false. apply andb_false_r.
Qed.

(** What a segment with an acknowledgement does when the sender has nothing to send
    afterwards: it is answered if it occupies sequence space. *)
Lemma after_ack r t l time seg ended next acked tracked count w rem :
  th_rst (header seg) = false -> th_ack (header seg) = true -> (next_seqno_absolute t =? 0) = false -> (next =? 0) = false ->
  ack_received t (th_ackno (header seg)) (th_win (header seg)) = quiet cfg ended next acked tracked count w rem ->
  fill_window (quiet cfg ended next acked tracked count w rem) = quiet cfg ended next acked tracked count w rem ->
  tc_after_receiver (mkTCPConnection cfg r t [] l true time) seg =
    tc_close_check (mkTCPConnection cfg r (quiet cfg ended next acked tracked count w rem)
      (if 0 <? length_in_sequence_space seg then [stamp r (bare cfg next)] else []) l true time).
Proof.
  intros Hr Ha Hn Hnext Eack Efill. unfold tc_after_receiver. rewrite Hr, Ha. cbn [tc_sender]. 
  rewrite Hn. cbn [negb andb]. rewrite Eack. unfold tc_connect.
  cbn [tc_sender tc_with_sender]. rewrite Efill. change (next_seqno_absolute (tc_sender (move_to_segments_out _))) with next.
  rewrite Hnext. by destruct (0 <? length_in_sequence_space seg).
Qed.

Lemma receives_ack r r' t l time seg ended next acked tracked count w rem :
  rx_segment_received r seg = Ok r' ->
  th_rst (header seg) = false -> th_ack (header seg) = true -> (next_seqno_absolute t =? 0) = false -> (next =? 0) = false ->
  ack_received t (th_ackno (header seg)) (th_win (header seg)) = quiet cfg ended next acked tracked count w rem ->
  fill_window (quiet cfg ended next acked tracked count w rem) = quiet cfg ended next acked tracked count w rem ->
  tc_segment_received (mkTCPConnection cfg r t [] l true time) seg =
    Ok (tc_close_check (mkTCPConnection cfg r' (quiet cfg ended next acked tracked count w rem)
      (if 0 <? length_in_sequence_space seg then [stamp r' (bare cfg next)] else []) l true 0)).
Proof.
  intros Er H1 H2 H3 H4 H5 H6. unfold tc_segment_received. cbn [tc_with_time tc_receiver]. rewrite Er. cbn [rbind].
  f_equal. by apply after_ack.
Qed.

Context (peer : TCPConfig).
Abbreviation window := (u16 (rx_window_size (heard peer (cfg_isn cfg)))).

(** The second segment of the handshake reaches the side that has sent the first. *)
Lemma hears_synack :
  tc_segment_received (mkTCPConnection cfg (new_TCPReceiver (cfg_recv_capacity cfg)) (syn_sent cfg) [] true true 0)
    (stamp (heard peer (cfg_isn cfg)) (syn_of peer)) =
  Ok (mkTCPConnection cfg (heard cfg (cfg_isn peer)) (syn_acked cfg window)
        [stamp (heard cfg (cfg_isn peer)) (bare cfg 1)] true true 0).
Proof.
  erewrite (receives_ack _ (heard cfg (cfg_isn peer)) _ _ _ _ _ 1);
    [|reflexivity|reflexivity|reflexivity|reflexivity|reflexivity|apply ack_of_syn|by apply fill_quiet].
  reflexivity.
Qed.

(** An acknowledgement of the SYN reaches the side that waits for it. *)
Lemma hears_ack :
  tc_segment_received (mkTCPConnection cfg (heard cfg (cfg_isn peer)) (syn_sent cfg) [] true true 0)
    (stamp (heard peer (cfg_isn cfg)) (bare peer 1)) =
  Ok (mkTCPConnection cfg (heard cfg (cfg_isn peer)) (syn_acked cfg window) [] true true 0).
Proof.
  erewrite (receives_ack _ (heard cfg (cfg_isn peer)) _ _ _ _ _ 1);
    [|reflexivity|reflexivity|reflexivity|reflexivity|reflexivity|apply ack_of_syn|by apply fill_quiet].
  reflexivity.
Qed.

(** A SYN reaches a side that has sent its own. *)
Lemma hears_syn :
  tc_segment_received (mkTCPConnection cfg (new_TCPReceiver (cfg_recv_capacity cfg)) (syn_sent cfg) [] true true 0) (syn_of peer) =
  Ok (mkTCPConnection cfg (heard cfg (cfg_isn peer)) (syn_sent cfg)
        [stamp (heard cfg (cfg_isn peer)) (bare cfg 1)] true true 0).
Proof. reflexivity. Qed.

End endpoint.

(** ** Opening *)

Lemma passes_cons p e sa sb p' script q : exchange_step p e = Ok p' ->
  tc_state (left p') = TCPState_of sa -> tc_state (right p') = TCPState_of sb -> passes p' script q ->
  passes p ((e, sa, sb) :: script) q.
Proof. intros. by exists p'. Qed.

Lemma does_left a b wa wb o a' : tc_step a o = Ok a' -> exchange_step (mkPair a b wa wb) (Does Left o) = Ok (mkPair a' b wa wb).
Proof. intros E. cbn [exchange_step]. by rewrite E. Qed.
Lemma does_right a b wa wb o b' : tc_step b o = Ok b' -> exchange_step (mkPair a b wa wb) (Does Right o) = Ok (mkPair a b' wa wb).
Proof. intros E. cbn [exchange_step]. by rewrite E. Qed.
Lemma arrives_left a b seg wa wb b' : tc_segment_received b seg = Ok b' ->
  exchange_step (mkPair a b (seg :: wa) wb) (Arrives Left) = Ok (mkPair a b' wa wb).
Proof. intros E. cbn [exchange_step]. by rewrite E. Qed.
Lemma arrives_right a b seg wa wb a' : tc_segment_received a seg = Ok a' ->
  exchange_step (mkPair a b wa (seg :: wb)) (Arrives Right) = Ok (mkPair a' b wa wb).
Proof. intros E. cbn [exchange_step]. by rewrite E. Qed.

(** One exchange by an equation of the side it concerns, and the sending of a
    queue. *)
Tactic Notation "exchanged" tactic3(tac) :=
  eapply passes_cons;
  [first [eapply does_left | eapply does_right | eapply arrives_left | eapply arrives_right]; tac|reflexivity|reflexivity|].
Ltac sent := eapply passes_cons;
  [cbn [exchange_step tc_with_out tc_segments_out tc_cfg tc_receiver tc_sender tc_linger_after_streams_finish
        tc_is_active tc_time_since_last_segment_received app]; reflexivity|reflexivity|reflexivity|].

(** A side of an open connection on which nothing was sent yet. *)
Definition open_end (cfg peer : TCPConfig) : TCPConnection :=
  mkTCPConnection cfg (heard cfg (cfg_isn peer)) (syn_acked cfg (u16 (rx_window_size (heard peer (cfg_isn cfg))))) [] true true 0.
Definition open_pair (a b : TCPConfig) : pair := mkPair (open_end a b) (open_end b a) [] [].

Definition three_way : list (exchange * State * State) :=
  [(Does Left CConnect, SYN_SENT, LISTEN); (Sends Left, SYN_SENT, LISTEN); (Arrives Left, SYN_SENT, SYN_RCVD);
   (Sends Right, SYN_SENT, SYN_RCVD); (Arrives Right, ESTABLISHED, SYN_RCVD); (Sends Left, ESTABLISHED, SYN_RCVD);
   (Arrives Left, ESTABLISHED, ESTABLISHED)].
Definition crossing : list (exchange * State * State) :=
  [(Does Left CConnect, SYN_SENT, LISTEN); (Does Right CConnect, SYN_SENT, SYN_SENT);
   (Sends Left, SYN_SENT, SYN_SENT); (Sends Right, SYN_SENT, SYN_SENT);
   (Arrives Left, SYN_SENT, SYN_RCVD); (Arrives Right, SYN_RCVD, SYN_RCVD);
   (Sends Left, SYN_RCVD, SYN_RCVD); (Sends Right, SYN_RCVD, SYN_RCVD);
   (Arrives Left, SYN_RCVD, ESTABLISHED); (Arrives Right, ESTABLISHED, ESTABLISHED)].

Section opening.
Context (a b : TCPConfig) (Ha : w32_ok (cfg_isn a)) (Hb : w32_ok (cfg_isn b)).

Lemma connects_step cfg : tc_step (new_TCPConnection cfg) CConnect =
  Ok (mkTCPConnection cfg (new_TCPReceiver (cfg_recv_capacity cfg)) (syn_sent cfg) [syn_of cfg] true true 0).
Proof. reflexivity. Qed.

Lemma three_way_opens : passes (new_pair a b) three_way (open_pair a b).
Proof.
  exchanged (apply connects_step). sent. exchanged (apply accepts_syn). sent. exchanged (by apply hears_synack). sent.
  exchanged (by apply hears_ack). reflexivity.
Qed.

Lemma crossing_opens : passes (new_pair a b) crossing (open_pair a b).
Proof.
  exchanged (apply connects_step). exchanged (apply connects_step). sent. sent.
  exchanged (apply hears_syn). exchanged (apply hears_syn). sent. sent.
  exchanged (by apply hears_ack). exchanged (by apply hears_ack). reflexivity.
Qed.
End opening.

(** ** Closing *)

Definition fin_of (cfg : TCPConfig) : TCPSegment :=
  mkTCPSegment (set_ackno (wrap 2 (cfg_isn cfg)) (set_ack true (set_fin true (set_seqno (wrap 1 (cfg_isn cfg)) default_TCPHeader))))
    (payload new_TCPSegment).

(** A receiver that has heard the SYN and the FIN of an empty stream. *)
Definition finished (cfg : TCPConfig) (peer : WrappingInt32) : TCPReceiver :=
  mkTCPReceiver (mkReassembler [] 0 0 true 0 (mkByteStream [] (cfg_recv_capacity cfg) true 0 false) (cfg_recv_capacity cfg))
    (cfg_recv_capacity cfg) true true peer.

(** What the window leaves once the FIN was sent. *)
Definition room (window : Z) : Z := if window =? 0 then 1 else window.
Definition room_left (window : Z) : Z := if negb (room window =? window) then 0 else room window.

Section closing.
Context (cfg : TCPConfig) (Hisn : w32_ok (cfg_isn cfg)).

(** The sender of an ended stream sends its FIN. *)
Lemma fill_fin w : 0 <= w < W16 ->
  fill_window (quiet cfg true 1 1 [] 0 w (room w)) =
    tx_with_out (quiet cfg true 2 1 [fin_of cfg] 1 w (room_left w)) [fin_of cfg].
Proof.
  intros Hw. set (t := quiet cfg true 1 1 [] 0 w (room w)). assert (Hr : 1 <= room w < W16) by (unfold room; case_match; zb; lia).
  assert (Espace : (tx_next_ackno t +! tx_remain_window_size t) -! next_seqno_absolute t = room w)
    by (cbn [t quiet tx_next_ackno tx_remain_window_size next_seqno_absolute tx_next_seqno]; nowrap; lia).
  assert (Eg : fill_guard t = true).
  { unfold fill_guard. change (bool_decide (current_state t = SynAckedEof)) with true. rewrite orb_true_r, andb_true_r.
    cbn [t quiet tx_next_ackno tx_remain_window_size next_seqno_absolute tx_next_seqno]. apply Z.ltb_lt. nowrap. lia. }
  assert (Er : fill_read_size t = 0).
  { unfold fill_read_size. rewrite Espace. change (buffer_size (tx_stream t)) with 0.
    by destruct (Z.ltb_spec 0 (room w)); [|lia]. }
  assert (Es : fill_segment t = (fin_of cfg, tx_stream t)).
  { unfold fill_segment. rewrite Er. cbn [Z.eqb negb].
    change (tx_remain_window_size t) with (room w). destruct (Z.ltb_spec 0 (room w)); [|lia].
    change (true && eof (tx_stream t)) with true. cbn iota. f_equal. unfold fin_of.
    change (next_seqno t) with (wrap 1 (cfg_isn cfg)). unfold with_header at 1. cbn [header payload].
    change (length_in_sequence_space _) with 1. change (th_seqno _) with (wrap 1 (cfg_isn cfg)).
    by rewrite w32_add_wrap. }
  unfold fill_window. change (current_state t) with SynAckedEof. cbn iota.
  assert (Ef : exists n, fill_fuel t = S n).
  { unfold fill_fuel. cbn [t quiet tx_next_ackno tx_remain_window_size tx_next_seqno].
    exists (Z.to_nat (room w - 1)). lia. }
  destruct Ef as (n & ->). cbn [fill_loop]. rewrite Eg. unfold fill_step. rewrite Es. apply fill_loop_stop.
  apply andb_false_r.
Qed.

(** The FIN is acknowledged. *)
Lemma ack_of_fin w r w' :
  ack_received (quiet cfg true 2 1 [fin_of cfg] 1 w r) (wrap 2 (cfg_isn cfg)) w' = quiet cfg true 2 2 [] 0 w' (room w').
Proof.
  assert (Es : ack_scan (wrap 2 (cfg_isn cfg)) [fin_of cfg] 0 = (0, Some [])).
  { cbn [ack_scan]. change (th_ackno (header (fin_of cfg))) with (wrap 2 (cfg_isn cfg)). by rewrite w32_eqb_refl. }
  unfold ack_received. change (tx_tracking_segments _) with [fin_of cfg] at 1. rewrite Es.
  change (tx_isn (quiet _ _ _ _ _ _ _ _)) with (cfg_isn cfg). change (tx_next_ackno (quiet _ _ _ _ _ _ _ _)) with 1.
  rewrite unwrap_small by done || lia. cbn. unfold room. by rewrite andb_true_r.
Qed.

Lemma fill_done w r : fill_window (quiet cfg true 2 2 [] 0 w r) = quiet cfg true 2 2 [] 0 w r.
Proof.
  unfold fill_window. change (current_state _) with FinAcked. cbn iota. apply fill_loop_stop. apply andb_false_r.
Qed.

Context (peer : TCPConfig) (Hpeer : w32_ok (cfg_isn peer)).

(** The FIN of the peer ends the stream; it is not ended again. *)
Lemma rx_fin r : rx_segment_received (heard cfg (cfg_isn peer)) (stamp r (fin_of peer)) = Ok (finished cfg (cfg_isn peer)).
Proof.
  unfold rx_segment_received. assert (Eh : th_syn (header (stamp r (fin_of peer))) = false) by (unfold stamp; by destruct (rx_ackno r)).
  assert (Ef : th_fin (header (stamp r (fin_of peer))) = true) by (unfold stamp; by destruct (rx_ackno r)).
  assert (Ep : buf_copy (payload (stamp r (fin_of peer))) = []) by (unfold stamp; by destruct (rx_ackno r)).
  assert (Eq : th_seqno (header (stamp r (fin_of peer))) = wrap 1 (cfg_isn peer)) by (unfold stamp; by destruct (rx_ackno r)).
  cbn [rx_have_SYN heard negb]. rewrite Eh. unfold rx_push. rewrite Ef, Ep, Eq. cbn [rx_icn heard].
  change (bytes_written _) with 0. rewrite (unwrap_small peer) by done || lia. reflexivity.
Qed.

(** The window that the peer's receiver leaves, before and after the FIN. *)
Definition window_of (r : TCPReceiver) : Z := u16 (rx_window_size r).

Lemma window_range r : 0 <= window_of r < W16.
Proof. apply u16_range. Qed.
Abbreviation W := (window_of (heard peer (cfg_isn cfg))).
Abbreviation hearing := (heard cfg (cfg_isn peer)).
Abbreviation deaf := (finished cfg (cfg_isn peer)).
Abbreviation streaming := (quiet cfg false 1 1 [] 0 W (room W)).
Abbreviation ending := (quiet cfg true 2 1 [fin_of cfg] 1 W (room_left W)).
Abbreviation over := (quiet cfg true 2 2 [] 0 W (room W)).

Lemma ends r l : tc_step (mkTCPConnection cfg r streaming [] l true 0) CEnd =
  Ok (mkTCPConnection cfg r ending [stamp r (fin_of cfg)] l true 0).
Proof.
  cbn [tc_step]. unfold tc_end_input_stream, tc_connect. cbn [tc_sender tc_with_sender].
  change (tx_with_stream _ _) with (quiet cfg true 1 1 [] 0 W (room W)). rewrite fill_fin by apply window_range. reflexivity.
Qed.

Lemma streaming_hears_fin :
  tc_segment_received (mkTCPConnection cfg hearing streaming [] true true 0) (stamp (heard peer (cfg_isn cfg)) (fin_of peer)) =
  Ok (mkTCPConnection cfg deaf streaming [stamp deaf (bare cfg 1)] false true 0).
Proof.
  erewrite (receives_ack _ _ deaf _ _ _ _ _ 1);
    [|apply rx_fin|reflexivity|reflexivity|reflexivity|reflexivity|apply ack_again; [done|lia]|by apply fill_quiet].
  reflexivity.
Qed.

Lemma ending_hears_ack r l n : rx_segment_received r (stamp (finished peer (cfg_isn cfg)) (bare peer n)) = Ok r ->
  tc_segment_received (mkTCPConnection cfg r ending [] l true 0) (stamp (finished peer (cfg_isn cfg)) (bare peer n)) =
  Ok (tc_close_check (mkTCPConnection cfg r over [] l true 0)).
Proof.
  intros Er. erewrite (receives_ack _ _ r _ _ _ _ _ 2);
    [|exact Er|reflexivity|reflexivity|reflexivity|reflexivity|apply ack_of_fin|apply fill_done].
  reflexivity.
Qed.

Lemma over_hears_fin :
  tc_segment_received (mkTCPConnection cfg hearing over [] true true 0) (stamp (finished peer (cfg_isn cfg)) (fin_of peer)) =
  Ok (mkTCPConnection cfg deaf over [stamp deaf (bare cfg 2)] true true 0).
Proof.
  erewrite (receives_ack _ _ deaf _ _ _ _ _ 2);
    [|apply rx_fin|reflexivity|reflexivity|reflexivity|reflexivity|apply ack_again; [done|lia]|apply fill_done].
  reflexivity.
Qed.

Lemma over_ticks ms : 10 * cfg_rt_timeout cfg <= ms -> 0 <= ms < W64 ->
  tc_step (mkTCPConnection cfg deaf over [] true true 0) (CTick ms) = Ok (mkTCPConnection cfg deaf over [] true false ms).
Proof.
  intros Hms Hr. cbn [tc_step]. unfold tc_tick, tx_tick. change (tx_bytes_in_flight _) with 0. cbn [Z.eqb negb tc_sender].
  rewrite andb_false_r. cbn [rbind]. unfold tc_with_time, tc_with_sender.
  cbn [tc_cfg tc_receiver tc_sender tc_segments_out tc_linger_after_streams_finish tc_is_active tc_time_since_last_segment_received].
  rewrite Z.add_0_l, u64_id by lia. destruct (Z.leb_spec (10 * cfg_rt_timeout cfg) ms); [|lia]. reflexivity.
Qed.
End closing.

(** The left side closes first; [ms] is how long it waits in the end. *)
Definition four_way (ms : Z) : list (exchange * State * State) :=
  [(Does Left CEnd, FIN_WAIT_1, ESTABLISHED); (Sends Left, FIN_WAIT_1, ESTABLISHED); (Arrives Left, FIN_WAIT_1, CLOSE_WAIT);
   (Sends Right, FIN_WAIT_1, CLOSE_WAIT); (Arrives Right, FIN_WAIT_2, CLOSE_WAIT);
   (Does Right CEnd, FIN_WAIT_2, LAST_ACK); (Sends Right, FIN_WAIT_2, LAST_ACK); (Arrives Right, TIME_WAIT, LAST_ACK);
   (Sends Left, TIME_WAIT, LAST_ACK); (Arrives Left, TIME_WAIT, CLOSED); (Does Left (CTick ms), CLOSED, CLOSED)].

(** Both sides closed, the left one after waiting. *)
Definition closed_pair (a b : TCPConfig) (ms : Z) : pair :=
  let wa := window_of (heard b (cfg_isn a)) in
  let wb := window_of (heard a (cfg_isn b)) in
  mkPair (mkTCPConnection a (finished a (cfg_isn b)) (quiet a true 2 2 [] 0 wa (room wa)) [] true false ms)
    (mkTCPConnection b (finished b (cfg_isn a)) (quiet b true 2 2 [] 0 wb (room wb)) [] false false 0) [] [].

Lemma four_way_closes a b ms : w32_ok (cfg_isn a) -> w32_ok (cfg_isn b) -> 10 * cfg_rt_timeout a <= ms -> 0 <= ms < W64 ->
  passes (open_pair a b) (four_way ms) (closed_pair a b ms).
Proof.
  intros Ha Hb Hms Hr. unfold open_pair, open_end.
  exchanged (apply ends). sent. exchanged (by apply streaming_hears_fin). sent.
  exchanged (by apply ending_hears_ack). exchanged (apply ends). sent. exchanged (by apply over_hears_fin). sent.
  exchanged (by apply ending_hears_ack). exchanged (by apply over_ticks). reflexivity.
Qed.

(** *** The other side first *)

Definition swap (p : pair) : pair := mkPair (right p) (left p) (from_right p) (from_left p).
Definition other (s : side) : side := match s with Left => Right | Right => Left end.
Definition mirror (x : exchange * State * State) : exchange * State * State :=
  let '(e, sa, sb) := x in
  (match e with Does s o => Does (other s) o | Sends s => Sends (other s) | Arrives s => Arrives (other s) end, sb, sa).

Lemma step_mirror p e sa sb p' : exchange_step p e = Ok p' -> exchange_step (swap p) (mirror (e, sa, sb)).1.1 = Ok (swap p').
Proof.
  destruct p as [a b wa wb]. destruct e as [[] o|[]|[]]; cbn; intros E.
  1, 2: apply rbind_ok in E as (c & -> & [= <-]); done.
  1, 2: by injection E as <-.
  - destruct wa as [|seg wa]; [done|]. apply rbind_ok in E as (c & -> & [= <-]); done.
  - destruct wb as [|seg wb]; [done|]. apply rbind_ok in E as (c & -> & [= <-]); done.
Qed.

Lemma passes_mirror script : forall p q, passes p script q -> passes (swap p) (map mirror script) (swap q).
Proof.
  induction script as [|[[e sa] sb] script IH]; intros p q; cbn [passes map]; [by intros ->|].
  intros (p' & H1 & H2 & H3 & H4). apply (step_mirror _ _ sa sb) in H1.
  destruct (mirror (e, sa, sb)) as [[e' sa'] sb'] eqn:Em. assert (sa' = sb /\ sb' = sa) as [-> ->] by (by injection Em as _ <- <-).
  exists (swap p'). auto.
Qed.

(** C8: The life of a connection.  For all configurations, with any initial sequence
    numbers, capacities and timeouts: three segments open the connection, and so
    do two SYNs that cross each other; both lead to the same pair of endpoints.
    From there, whichever side closes first, four segments close it, and the
    side that closed first is done after ten timeouts; nothing is under way any
    more and both streams have ended.  Each exchange passes through the states of
    the standard. *)
Theorem connection_life a b ms :
  w32_ok (cfg_isn a) -> w32_ok (cfg_isn b) ->
  10 * cfg_rt_timeout a <= ms -> 10 * cfg_rt_timeout b <= ms -> 0 <= ms < W64 ->
  passes (new_pair a b) three_way (open_pair a b) /\ passes (new_pair a b) crossing (open_pair a b) /\
  passes (open_pair a b) (four_way ms) (closed_pair a b ms) /\
  passes (open_pair a b) (map mirror (four_way ms)) (swap (closed_pair b a ms)) /\
  eof (inbound_stream (left (closed_pair a b ms))) = true /\ eof (inbound_stream (right (closed_pair a b ms))) = true.
Proof.
  intros Ha Hb Hma Hmb Hms. split; [by apply three_way_opens|]. split; [by apply crossing_opens|].
  split; [by apply four_way_closes|]. split; [|done].
  change (open_pair a b) with (swap (open_pair b a)). apply passes_mirror. by apply four_way_closes.
Qed.

Lemma connection_life_witness :
  passes (new_pair (mkTCPConfig 1000 65536 10 (mkW32 4294967295)) (mkTCPConfig 7 1 0 (mkW32 0))) three_way
    (open_pair (mkTCPConfig 1000 65536 10 (mkW32 4294967295)) (mkTCPConfig 7 1 0 (mkW32 0))).
Proof.
  apply (connection_life (mkTCPConfig 1000 65536 10 (mkW32 4294967295)) (mkTCPConfig 7 1 0 (mkW32 0)) 10000);
    cbn; unfold w32_ok; cbn; lia.
Defined.
