(* ===== verification/TcpBenchmark.v ===== *)
(** * The throughput benchmark

    [apps/tcp_benchmark.cc]: two connections in one process, one writing a long
    string and the other reading it, whose segments are carried over directly,
    in the order they were sent or in the reverse order. *)
From S2P Require Import Prelude WrappingIntegers ByteStream StreamReassembler Buffer Parser TCPSegment TCPReceiver TCPSender TCPConnection Outgoing Duplex.

(** [TCPConfig config]: the defaults; each connection draws its own initial
    sequence number. *)
Definition bench_cfg (isn : WrappingInt32) : TCPConfig := mkTCPConfig 1000 64000 64000 isn.

Fixpoint receive_all (y : TCPConnection) (segments : list TCPSegment) : result TCPConnection :=
  match segments with
  | [] => Ok y
  | s :: segments => let* y := tc_segment_received y s in receive_all y segments
  end.

(** The first loop moves the queue of [x] to [segments], which is empty again
    afterwards. *)
Definition move_segments (x y : TCPConnection) (segments : list TCPSegment) (reorder : bool)
    : result (TCPConnection * TCPConnection * list TCPSegment) :=
  let segments := segments ++ tc_segments_out x in
  let x := tc_with_out x [] in
  let* y := receive_all y (if reorder then rev segments else segments) in
  Ok (x, y, []).

(** The local variables of [main_loop] that the closure [loop] captures. *)
Record bench : Type := mkBench {
  be_x : TCPConnection;
  be_y : TCPConnection;
  be_bytes_to_send : Buffer;
  be_x_closed : bool;
  be_string_received : bytes }.

(** The loop that writes to [x]; it ends within as many rounds as there are
    bytes, see [write_input_enough]. *)
Fixpoint write_input (fuel : nat) (x : TCPConnection) (bytes_to_send : Buffer)
    : result (TCPConnection * Buffer) :=
  if negb (buf_size bytes_to_send =? 0) && negb (tc_remaining_outbound_capacity x =? 0) then
    match fuel with
    | O => Ok (x, bytes_to_send)
    | S fuel =>
        let want := Z.min (tc_remaining_outbound_capacity x) (buf_size bytes_to_send) in
        let* d := substr (buf_str bytes_to_send) 0 want in
        let '(x, written) := tc_write x d in
        if negb (want =? written) then Err runtime_error
        else
          let* b := buf_remove_prefix bytes_to_send written in
          write_input fuel x b
    end
  else Ok (x, bytes_to_send).

(** The closure [loop]. *)
Definition bench_step (reorder : bool) (b : bench) : result bench :=
  let* (x, bytes_to_send) := write_input (Z.to_nat (buf_size (be_bytes_to_send b))) (be_x b) (be_bytes_to_send b) in
  let '(x, x_closed) :=
    if (buf_size bytes_to_send =? 0) && negb (be_x_closed b) then (tc_end_input_stream x, true)
    else (x, be_x_closed b) in
  let* (z, segments) := move_segments x (be_y b) [] reorder in
  let '(x, y) := z in
  let* (z, segments) := move_segments y x segments false in
  let '(y, x) := z in
  let available_output := buffer_size (inbound_stream y) in
  let '(y, received) :=
    if 0 <? available_output then
      let '(s, d) := read (inbound_stream y) available_output in
      (tc_with_receiver y (rx_with_stream_out (tc_receiver y) s), be_string_received b ++ d)
    else (y, be_string_received b) in
  let* x := tc_tick x 1000 in
  let* y := tc_tick y 1000 in
  Ok (mkBench x y bytes_to_send x_closed received).

Definition bench_start (string_to_send : bytes) (isn_x isn_y : WrappingInt32) : bench :=
  mkBench (tc_connect (new_TCPConnection (bench_cfg isn_x)))
    (tc_end_input_stream (new_TCPConnection (bench_cfg isn_y))) (Buffer_of string_to_send) false [].

(** [while (cond) loop();], which has not ended after [fuel] rounds otherwise. *)
Fixpoint bench_while (fuel : nat) (reorder : bool) (cond : bench -> bool) (b : bench) : option (result bench) :=
  if cond b then
    match fuel with
    | O => None
    | S fuel =>
        match bench_step reorder b with
        | Ok b => bench_while fuel reorder cond b
        | Err e => Some (Err e)
        end
    end
  else Some (Ok b).

Definition main_loop (fuel : nat) (reorder : bool) (string_to_send : bytes) (isn_x isn_y : WrappingInt32)
    : option (result bench) :=
  match bench_while fuel reorder (fun b => negb (eof (inbound_stream (be_y b))))
          (bench_start string_to_send isn_x isn_y) with
  | Some (Ok b) =>
      if bool_decide (be_string_received b = string_to_send) then
        bench_while fuel reorder (fun b => tc_active (be_x b) || tc_active (be_y b)) b
      else Some (Err runtime_error)
  | r => r
  end.

Fixpoint bench_iter (n : nat) (reorder : bool) (b : bench) : result bench :=
  match n with
  | O => Ok b
  | S n => let* b := bench_step reorder b in bench_iter n reorder b
  end.

(** ** Carrying segments over *)

Section Carry.
Context (cl cr : TCPConfig).
Hypothesis Hl : cfg_ok cl.
Hypothesis Hr : cfg_ok cr.
Hypothesis Hcl : cfg_recv_capacity cl + 4 * W32 < W64.
Hypothesis Hcr : cfg_recv_capacity cr + 4 * W32 < W64.

Definition ep_set (e : endpoint) (c : TCPConnection) : endpoint :=
  mkEndpoint c (ep_written e) (ep_read e) (ep_wire e).

(** Everything queued is put on the wire. *)
Lemma transmit_all out : forall l r,
  dx_reachable cl cr l r -> tc_segments_out (ep_conn l) = out ->
  exists wire, dx_reachable cl cr
      (mkEndpoint (tc_with_out (ep_conn l) []) (ep_written l) (ep_read l) wire) r /\
    ep_wire l ⊆ wire /\ (forall s, s ∈ out -> exists a, (s, a) ∈ wire).
Proof.
  induction out as [|s out IH]; intros l r Hd Eo.
  { exists (ep_wire l). split; [|split; [done|by intros s Hs%elem_of_nil]]. destruct l as [c S g w]. cbn in *.
    rewrite <- Eo. by destruct c. }
  destruct (dx_reachable_inv cl cr Hl Hr Hcl Hcr l r Hd) as (hl & hr & [I1 _]).
  destruct (hf_outbound _ _ _ _ _ I1) as [_ O2 O3]. rewrite Eo in O3.
  inversion O3 as [|? ? (a & Ha) _]; subst.
  assert (Hstep : ep_step (cfg_recv_capacity cr) r l (mkEndpoint (tc_with_out (ep_conn l) out)
    (ep_written l) (ep_read l) ((s, a) :: ep_wire l))).
  { apply es_transmit; [done|]. unfold ep_isn, ep_ended. by rewrite O2. }
  destruct (IH _ r (dx_left _ _ _ _ _ Hd Hstep) eq_refl) as (wire & Hd' & Hsub & Hw). cbn in Hd', Hsub.
  exists wire. split; [exact Hd'|]. split; [set_solver|].
  intros s' Hs'. apply elem_of_cons in Hs' as [->|Hs']; [|by apply Hw]. exists a. set_solver.
Qed.

(** Segments of the wire arrive, in any order, when the stream is short. *)
Lemma receive_all_reachable segs : forall l r,
  dx_reachable cl cr l r -> zlen (ep_written l) + 2 < W31 ->
  (forall s, s ∈ segs -> exists a, (s, a) ∈ ep_wire l) ->
  exists c, receive_all (ep_conn r) segs = Ok c /\ dx_reachable cl cr l (ep_set r c).
Proof.
  induction segs as [|s segs IH]; intros l r Hd Hshort Hs; cbn [receive_all].
  { exists (ep_conn r). split; [done|]. by destruct r. }
  destruct (Hs s) as (a & Ha); [by left|].
  destruct (dx_deliver cl cr Hl Hr Hcl Hcr l r s a Hd Ha) as [Ht Hok]. specialize (Ht Hshort).
  destruct (Hok Ht) as (c1 & E1). rewrite E1. cbn [rbind].
  assert (Hstep : ep_step (cfg_recv_capacity cl) l r (ep_set r c1)) by (by eapply es_deliver).
  destruct (IH l (ep_set r c1) (dx_right _ _ _ _ _ Hd Hstep) Hshort) as (c & E & Hd').
  { intros s' Hs'. apply Hs. by right. }
  exists c. split; [exact E|]. exact Hd'.
Qed.

Lemma move_reachable l r reorder :
  dx_reachable cl cr l r -> zlen (ep_written l) + 2 < W31 ->
  exists y wire, move_segments (ep_conn l) (ep_conn r) [] reorder = Ok (tc_with_out (ep_conn l) [], y, []) /\
    dx_reachable cl cr (mkEndpoint (tc_with_out (ep_conn l) []) (ep_written l) (ep_read l) wire) (ep_set r y).
Proof.
  intros Hd Hshort. destruct (transmit_all _ l r Hd eq_refl) as (wire & Hd' & _ & Hw).
  set (segs := if reorder then rev (tc_segments_out (ep_conn l)) else tc_segments_out (ep_conn l)).
  destruct (receive_all_reachable segs _ r Hd' Hshort) as (y & E & Hd2).
  { intros s Hs. cbn [ep_wire]. apply Hw. unfold segs in Hs. destruct reorder; [|done].
    apply list_elem_of_In in Hs. apply list_elem_of_In. by apply in_rev. }
  exists y, wire. split; [|exact Hd2]. unfold move_segments. cbn [app]. fold segs. rewrite E. done.
Qed.
End Carry.

Lemma receive_all_ended segs : forall y y', receive_all y segs = Ok y' -> tc_ended y' = tc_ended y.
Proof.
  induction segs as [|s segs IH]; intros y y' E; cbn [receive_all] in E; [by injection E as <-|].
  apply rbind_ok in E as (y1 & E1 & E). rewrite (IH _ _ E). unfold tc_segment_received in E1.
  apply rbind_ok in E1 as (r & _ & [= <-]). by rewrite after_receiver_ended.
Qed.

Lemma move_segments_ended x y segs reorder x' y' segs' :
  move_segments x y segs reorder = Ok (x', y', segs') -> tc_ended y' = tc_ended y.
Proof. intros E. apply rbind_ok in E as (y1 & E & [= _ <- _]). by eapply receive_all_ended. Qed.

(** ** The writer *)

Lemma bench_cfg_ok isn : w32_ok isn -> cfg_ok (bench_cfg isn).
Proof. intros H. split; [cbn; lia|]. split; [cbn; lia|done]. Qed.

(** A write of no more than the remaining capacity is accepted whole. *)
Lemma tc_write_fits c S d :
  tx_inv (tc_sender c) S -> zlen d <= tc_remaining_outbound_capacity c -> (tc_write c d).2 = zlen d.
Proof.
  intros Ht Hd. pose proof (so_ok _ _ (ti_stream _ _ Ht)) as Ho. unfold tc_remaining_outbound_capacity in Hd.
  rewrite remaining_capacity_eq in Hd by done. unfold tc_write. rewrite write_eq by done. cbn [snd].
  rewrite write_fits by (done || lia). done.
Qed.

Section Bench.
Context (D : bytes) (isn_x isn_y : WrappingInt32).
Hypothesis Hx : w32_ok isn_x.
Hypothesis Hy : w32_ok isn_y.
Hypothesis Hshort : zlen D + 2 < W31.

Let cx := bench_cfg isn_x.
Let cy := bench_cfg isn_y.

Lemma bench_room isn : cfg_recv_capacity (bench_cfg isn) + 4 * W32 < W64.
Proof. cbn. lia. Qed.

(** The endpoints behind the benchmark: [x] has been written what is no longer in
    [bytes_to_send], [y] nothing, and [string_received] was read from [y]. *)
Record be_inv (b : bench) (l r : endpoint) : Prop := {
  bi_reach : dx_reachable cx cy l r;
  bi_x : ep_conn l = be_x b;
  bi_y : ep_conn r = be_y b;
  bi_received : ep_read r = be_string_received b;
  bi_silent : ep_written r = [];
  bi_written : ep_written l ++ buf_str (be_bytes_to_send b) = D;
  bi_buffer : buf_ok (be_bytes_to_send b);
  bi_open : be_x_closed b = false -> ep_ended l = false;
  bi_closed : be_x_closed b = true -> buf_str (be_bytes_to_send b) = [] }.

Lemma bench_start_inv : exists l r, be_inv (bench_start D isn_x isn_y) l r.
Proof.
  set (l := mkEndpoint (tc_connect (new_TCPConnection cx)) [] [] []).
  set (r := mkEndpoint (tc_end_input_stream (new_TCPConnection cy)) [] [] []).
  exists l, r. constructor; try done; [|apply Buffer_of_ok; lia].
  eapply dx_right; [|apply (es_end _ l (ep_new cy))].
  eapply dx_left; [apply dx_start|apply (es_connect _ (ep_new cy) (ep_new cx))].
Qed.

(** Writing: nothing is refused, and the loop has ended when its fuel is used up. *)
Lemma write_input_spec fuel : forall l r b,
  dx_reachable cx cy l r -> ep_ended l = false -> ep_written l ++ buf_str b = D -> buf_ok b ->
  buf_size b <= Z.of_nat fuel ->
  exists x b' S, write_input fuel (ep_conn l) b = Ok (x, b') /\
    dx_reachable cx cy (mkEndpoint x S (ep_read l) (ep_wire l)) r /\ S ++ buf_str b' = D /\ buf_ok b' /\
    tc_ended x = false /\ (buf_size b' = 0 \/ tc_remaining_outbound_capacity x = 0).
Proof.
  induction fuel as [|fuel IH]; intros l r b Hd He HD Hb Hf; pose proof (buf_size_bound b Hb) as Hsz;
    cbn [write_input]; destruct (negb (buf_size b =? 0) && negb (tc_remaining_outbound_capacity (ep_conn l) =? 0)) eqn:Eg.
  - zb. lia.
  - exists (ep_conn l), b, (ep_written l). destruct l as [c S g w]. cbn [ep_conn ep_written ep_read ep_wire] in *.
    split_and!; try done. apply andb_false_iff in Eg as [E|E]; zb; auto.
  - zb. set (want := Z.min _ _). set (d := ztake want (buf_str b)).
    destruct (dx_reachable_inv cx cy (bench_cfg_ok _ Hx) (bench_cfg_ok _ Hy) (bench_room _) (bench_room _) l r Hd)
      as (hl & hr & [I1 _]).
    pose proof (ob_tx _ _ _ (hf_outbound _ _ _ _ _ I1)) as Ht.
    pose proof (so_ok _ _ (ti_stream _ _ Ht)) as Ho.
    assert (Hcap : 0 < tc_remaining_outbound_capacity (ep_conn l)).
    { unfold tc_remaining_outbound_capacity in *. rewrite remaining_capacity_eq in * by done.
      destruct Ho as (? & ? & ?). lia. }
    assert (Hwant : 0 < want <= buf_size b) by (unfold want; lia).
    assert (Hld : zlen d = want) by (unfold d, buf_size in *; rewrite zlen_ztake; lia).
    assert (Esub : substr (buf_str b) 0 want = Ok d).
    { unfold substr. zcase; [unfold buf_size in *; zpos; lia|]. by rewrite zdrop_0. }
    rewrite Esub. cbn [rbind]. pose proof (tc_write_fits (ep_conn l) _ d Ht ltac:(unfold want in *; lia)) as Hw.
    pose proof (f_equal zlen HD) as HzD. rewrite zlen_app in HzD. unfold buf_size in Hsz, Hwant. zpos.
    assert (Hstep : ep_step (cfg_recv_capacity cy) r l (mkEndpoint (tc_write (ep_conn l) d).1
      (ep_written l ++ ztake (tc_write (ep_conn l) d).2 d) (ep_read l) (ep_wire l))).
    { apply es_write; [done|]. cbn [cy bench_cfg cfg_recv_capacity]. lia. }
    destruct (write_outbound _ _ _ d (hf_outbound _ _ _ _ _ I1) He ltac:(lia)) as [_ He'].
    destruct (buf_remove_prefix_ok b want Hb) as (b1 & Eb & Hb1 & Hs1); [unfold buf_size; lia|].
    pose proof (dx_left _ _ _ _ _ Hd Hstep) as Hd'. destruct (tc_write (ep_conn l) d) as [x n]. cbn [fst snd] in *.
    subst n. rewrite Hld, Z.eqb_refl. cbn [negb]. rewrite Eb. cbn [rbind].
    destruct (IH _ r b1 Hd') as (x' & b' & S & E & R); try done.
    + cbn [ep_written]. rewrite <- HD, <- app_assoc. f_equal. rewrite Hs1, ztake_all by lia. apply ztake_zdrop.
    + unfold buf_size in *. rewrite Hs1, zlen_zdrop by lia. lia.
    + exists x', b', S. split; [exact E|]. exact R.
  - exists (ep_conn l), b, (ep_written l). destruct l as [c S g w]. cbn [ep_conn ep_written ep_read ep_wire] in *.
    split_and!; try done. apply andb_false_iff in Eg as [E|E]; zb; auto.
Qed.

Lemma short_written S rest : S ++ rest = D -> zlen S + 2 < W31.
Proof. intros <-. revert Hshort. rewrite zlen_app. zpos. lia. Qed.

(** The first part of [loop]: writing and closing. *)
Lemma write_phase b l r :
  be_inv b l r ->
  exists x0 b' x closed l',
    write_input (Z.to_nat (buf_size (be_bytes_to_send b))) (be_x b) (be_bytes_to_send b) = Ok (x0, b') /\
    (if (buf_size b' =? 0) && negb (be_x_closed b) then (tc_end_input_stream x0, true) else (x0, be_x_closed b))
      = (x, closed) /\
    be_inv (mkBench x (be_y b) b' closed (be_string_received b)) l' r.
Proof.
  intros [Hd Ex Ey Er Hs HD Hb Ho Hc]. rewrite <- Ex. destruct (be_x_closed b) eqn:Ec.
  - exists (ep_conn l), (be_bytes_to_send b), (ep_conn l), true, l. rewrite andb_false_r.
    assert (Hz : buf_size (be_bytes_to_send b) = 0) by (unfold buf_size; by rewrite Hc).
    split; [rewrite Hz; change (Z.to_nat 0) with 0%nat; cbn [write_input]; by rewrite Hz|]. split; [done|]. by constructor.
  - destruct (write_input_spec (Z.to_nat (buf_size (be_bytes_to_send b))) l r (be_bytes_to_send b) Hd (Ho eq_refl) HD Hb)
      as (x0 & b' & S & E & Hd' & HD' & Hb' & He & _).
    { pose proof (buf_size_bound _ Hb). lia. }
    exists x0, b'. destruct (Z.eqb_spec (buf_size b') 0) as [Ez|Ez]; cbn [andb negb].
    + eexists _, true, (mkEndpoint (tc_end_input_stream x0) S (ep_read l) (ep_wire l)).
      split; [exact E|]. split; [done|]. constructor; try done.
      * eapply dx_left; [exact Hd'|]. apply (es_end _ r (mkEndpoint x0 S (ep_read l) (ep_wire l))).
      * intros _. cbn. by apply zlen_0.
    + eexists _, false, (mkEndpoint x0 S (ep_read l) (ep_wire l)).
      split; [exact E|]. split; [done|]. by constructor.
Qed.

(** The second part: both queues are carried over. *)
Lemma exchange_phase b l r reorder :
  be_inv b l r ->
  exists x y1 x' l' r',
    move_segments (be_x b) (be_y b) [] reorder = Ok (x, y1, []) /\
    move_segments y1 x [] false = Ok (tc_with_out y1 [], x', []) /\
    be_inv (mkBench x' (tc_with_out y1 []) (be_bytes_to_send b) (be_x_closed b) (be_string_received b)) l' r'.
Proof.
  intros [Hd Ex Ey Er Hs HD Hb Ho Hc]. pose proof (short_written _ _ HD) as Hsh.
  pose proof (bench_cfg_ok _ Hx) as Kx. pose proof (bench_cfg_ok _ Hy) as Ky.
  destruct (move_reachable cx cy Kx Ky (bench_room _) (bench_room _) l r reorder Hd Hsh) as (y1 & wire & E1 & Hd1).
  rewrite Ex, Ey in E1. apply dx_swap in Hd1.
  destruct (move_reachable cy cx Ky Kx (bench_room _) (bench_room _) _ _ false Hd1) as (x' & wire' & E2 & Hd2).
  { cbn [ep_written ep_set]. rewrite Hs. by vm_compute. }
  cbn [ep_conn ep_set] in E2. rewrite Ex in E2.
  exists (tc_with_out (be_x b) []), y1, x'. eexists _, _. split; [exact E1|]. split; [exact E2|].
  constructor; [by apply dx_swap, Hd2|done..| |done].
  intros E. specialize (Ho E). unfold ep_ended in *. cbn [ep_set ep_conn].
  pose proof (move_segments_ended _ _ _ _ _ _ _ E2) as A. unfold tc_ended in A. rewrite A, <- Ex. exact Ho.
Qed.

(** The third part: [y] is read. *)
Lemma read_phase b l r :
  be_inv b l r ->
  exists y received r',
    (if 0 <? buffer_size (inbound_stream (be_y b)) then
       let '(s, d) := read (inbound_stream (be_y b)) (buffer_size (inbound_stream (be_y b))) in
       (tc_with_receiver (be_y b) (rx_with_stream_out (tc_receiver (be_y b)) s), be_string_received b ++ d)
     else (be_y b, be_string_received b)) = (y, received) /\
    be_inv (mkBench (be_x b) y (be_bytes_to_send b) (be_x_closed b) received) l r'.
Proof.
  intros [Hd Ex Ey Er Hs HD Hb Ho Hc]. set (n := buffer_size (inbound_stream (be_y b))).
  assert (Hn : 0 <= n) by apply buffer_size_nonneg. destruct (0 <? n).
  - pose proof (es_read (cfg_recv_capacity cx) l r n Hn) as Hstep. rewrite Ey, Er, Hs in Hstep.
    destruct (read (inbound_stream (be_y b)) n) as [s d]. cbn [fst snd] in Hstep.
    eexists _, _, _. split; [done|]. constructor; [by eapply dx_right|done..].
  - exists (be_y b), (be_string_received b), r. split; [done|]. by constructor.
Qed.

(** The last part: time passes. *)
Lemma tick_phase b l r :
  be_inv b l r ->
  exists x y l' r', tc_tick (be_x b) 1000 = Ok x /\ tc_tick (be_y b) 1000 = Ok y /\
    be_inv (mkBench x y (be_bytes_to_send b) (be_x_closed b) (be_string_received b)) l' r'.
Proof.
  intros [Hd Ex Ey Er Hs HD Hb Ho Hc].
  destruct (dx_reachable_inv cx cy (bench_cfg_ok _ Hx) (bench_cfg_ok _ Hy) (bench_room _) (bench_room _) l r Hd)
    as (hl & hr & [I1 I2]).
  destruct (tick_outbound _ _ _ 1000 (hf_outbound _ _ _ _ _ I1) ltac:(lia)) as (x & Et & _).
  destruct (tick_outbound _ _ _ 1000 (hf_outbound _ _ _ _ _ I2) ltac:(lia)) as (y & Eu & _).
  exists x, y, (ep_set l x), (ep_set r y). rewrite <- Ex, <- Ey. split; [done|]. split; [done|].
  constructor; try done.
  - eapply dx_right; [|apply (es_tick _ _ r 1000 y); [lia|exact Eu]].
    eapply dx_left; [exact Hd|apply (es_tick _ _ l 1000 x); [lia|exact Et]].
  - intros E. specialize (Ho E). unfold ep_ended. cbn. rewrite <- Ho. by apply (tick_ended _ _ _ Et).
Qed.

Lemma bench_step_spec reorder b l r :
  be_inv b l r -> exists b' l' r', bench_step reorder b = Ok b' /\ be_inv b' l' r'.
Proof.
  intros H0. destruct (write_phase b l r H0) as (x0 & bts & x & closed & l1 & E1 & E2 & H1).
  destruct (exchange_phase _ _ _ reorder H1) as (x1 & y1 & x2 & l2 & r2 & E3 & E4 & H2).
  destruct (read_phase _ _ _ H2) as (y3 & rec & r3 & E5 & H3).
  destruct (tick_phase _ _ _ H3) as (x4 & y4 & l4 & r4 & E6 & E7 & H4).
  cbn [be_x be_y be_bytes_to_send be_x_closed be_string_received] in *.
  eexists _, l4, r4. split; [|exact H4]. unfold bench_step. rewrite E1. cbn [rbind]. rewrite E2.
  rewrite E3. cbn [rbind]. rewrite E4. cbn [rbind]. rewrite E5, E6. cbn [rbind]. rewrite E7. done.
Qed.

Lemma bench_iter_spec n reorder : forall b l r,
  be_inv b l r -> exists b' l' r', bench_iter n reorder b = Ok b' /\ be_inv b' l' r'.
Proof.
  induction n as [|n IH]; intros b l r H; cbn [bench_iter]; [by exists b, l, r|].
  destruct (bench_step_spec reorder b l r H) as (b1 & l1 & r1 & -> & H1). cbn [rbind]. by eapply IH.
Qed.

Lemma bench_prefix b l r : be_inv b l r -> be_string_received b `prefix_of` D.
Proof.
  intros [Hd Ex Ey Er Hs HD Hb Ho Hc].
  pose proof (dx_arrived cx cy (bench_cfg_ok _ Hx) (bench_cfg_ok _ Hy) (bench_room _) (bench_room _) l r Hd) as Ha.
  rewrite Er in Ha. rewrite <- HD. apply prefix_app_r. etrans; [|exact Ha]. by eexists.
Qed.

Lemma bench_while_spec fuel reorder cond : forall b l r,
  be_inv b l r ->
  match bench_while fuel reorder cond b with
  | None => True
  | Some (Err _) => False
  | Some (Ok b') => cond b' = false /\ exists l' r', be_inv b' l' r'
  end.
Proof.
  induction fuel as [|fuel IH]; intros b l r H; cbn [bench_while]; destruct (cond b) eqn:Ec; try done; eauto.
  destruct (bench_step_spec reorder b l r H) as (b1 & l1 & r1 & -> & H1). by eapply IH.
Qed.
End Bench.

(** The benchmark.  For every string shorter than two gigabytes, whatever the two
    initial sequence numbers, and whether segments are reversed or not: each
    round of [loop] returns normally, so that [x] never accepts less than its
    remaining capacity, and what was received is a prefix of the string; the
    only way [main_loop] can throw is the comparison of the strings after the
    inbound stream of [y] has ended. *)
Theorem benchmark_safe string_to_send isn_x isn_y reorder :
  w32_ok isn_x -> w32_ok isn_y -> zlen string_to_send + 2 < W31 ->
  (forall n, exists b, bench_iter n reorder (bench_start string_to_send isn_x isn_y) = Ok b /\
     be_string_received b `prefix_of` string_to_send) /\
  (forall fuel e, main_loop fuel reorder string_to_send isn_x isn_y = Some (Err e) ->
     exists b, bench_while fuel reorder (fun b => negb (eof (inbound_stream (be_y b))))
         (bench_start string_to_send isn_x isn_y) = Some (Ok b) /\
       eof (inbound_stream (be_y b)) = true /\ be_string_received b <> string_to_send).
Proof.
  intros Hx Hy Hs. destruct (bench_start_inv string_to_send isn_x isn_y Hs) as (l & r & H0). split.
  - intros n. destruct (bench_iter_spec _ _ _ Hx Hy Hs n reorder _ l r H0) as (b & l' & r' & E & H).
    exists b. split; [done|]. by eapply (bench_prefix _ _ _ Hx Hy).
  - intros fuel e. unfold main_loop. set (cond := fun b : bench => negb _).
    pose proof (bench_while_spec _ _ _ Hx Hy Hs fuel reorder cond _ l r H0) as Hw.
    destruct (bench_while fuel reorder cond _) as [[b|]|]; try done.
    destruct Hw as (Hc & l' & r' & H'). case_bool_decide as Ed.
    + pose proof (bench_while_spec _ _ _ Hx Hy Hs fuel reorder
        (fun b => tc_active (be_x b) || tc_active (be_y b)) _ _ _ H') as Hw'.
      intros E. by rewrite E in Hw'.
    + intros _. exists b. split; [done|]. split; [|done]. unfold cond in Hc. by apply negb_false_iff in Hc.
Qed.

Lemma benchmark_safe_witness :
  exists b, bench_iter 3 true (bench_start [x61; x62] (mkW32 5) (mkW32 4294967295)) = Ok b /\
    be_string_received b `prefix_of` [x61; x62].
Proof. destruct (benchmark_safe [x61; x62] (mkW32 5) (mkW32 4294967295) true) as [H _]; [done|done|reflexivity|]. exact (H 3%nat). Defined.

(** Runs to the end: 2500 bytes, in order and reversed. *)
Example benchmark_runs :
  forall reorder, match main_loop 40 reorder (repeat x61 2500) (mkW32 5) (mkW32 4294967295) with
  | Some (Ok b) => be_string_received b = repeat x61 2500 /\ tc_active (be_x b) = false /\ tc_active (be_y b) = false
  | _ => False
  end.
Proof. intros []; vm_compute; auto. Qed.

(** A state of two connections in which two bytes have arrived. *)
Lemma duplex_safe_witness :
  exists l r, dx_reachable (bench_cfg (mkW32 5)) (bench_cfg (mkW32 9)) l r /\
    ep_read r = [x61; x62] /\ arrived r `prefix_of` ep_written l.
Proof.
  assert (K5 : w32_ok (mkW32 5)) by done. assert (K9 : w32_ok (mkW32 9)) by done.
  destruct (bench_start_inv [x61; x62] (mkW32 5) (mkW32 9) eq_refl) as (l0 & r0 & H0).
  destruct (bench_iter_spec [x61; x62] (mkW32 5) (mkW32 9) K5 K9 eq_refl 3 true _ l0 r0 H0)
    as (b & l & r & E & H).
  assert (Hrec : be_string_received b = [x61; x62]) by (vm_compute in E; injection E as <-; reflexivity).
  destruct H as [Hd Ex Ey Er Hs HD Hb Ho Hc]. exists l, r. split; [exact Hd|]. split; [by rewrite Er|].
  apply (duplex_safe (bench_cfg (mkW32 5)) (bench_cfg (mkW32 9)) l r);
    [by apply bench_cfg_ok|by apply bench_cfg_ok|reflexivity|reflexivity|exact Hd].
Defined.
