(* ===== verification/Texts.v ===== *)
(** * Texts

    What the program prints about its packets: [to_string] and [summary] of
    [tcp_header.cc], [ipv4_header.cc], [ethernet_header.cc] and
    [arp_message.cc], [TCPState::name] of [tcp_state.cc], and the one-line
    [summary] of a frame of [apps/network_simulator.cc] and [apps/lab7.cc].
    The texts are made by the stream of the C++ library, whose formatting state
    (base, names of booleans, fill and width) is modelled. *)
From S2P Require Import Prelude WrappingIntegers Buffer Parser TCPSegment IPv4 Ethernet Hexdump TCPReceiver TCPSender TCPConnection.

(** ** Formatted output *)

(** The digits of a number that is not negative; twenty are enough for any
    64-bit number in base ten. *)
Fixpoint digits (fuel : nat) (base n : Z) : bytes :=
  match fuel with
  | O => []
  | S fuel => (if n <? base then [] else digits fuel base (n / base)) ++ [hex_digit (n mod base)]
  end.
Definition number (base n : Z) : bytes := digits 20 base n.

(** [std::to_string]. *)
Definition to_string (n : Z) : bytes := number 10 n.

Record ostream : Type := mkOstream {
  os_text : bytes; os_base : Z; os_boolalpha : bool; os_fill : byte; os_width : nat }.
Definition new_ostream : ostream := mkOstream [] 10 false x20 0.

Definition str (s : string) : bytes := String.list_byte_of_string s.

(** What is inserted into a stream: characters, numbers, booleans and the
    manipulators the program uses. *)
Inductive item : Type :=
  | Text (s : string)
  | Chars (b : bytes)
  | Num (n : Z)
  | Flag (b : bool)
  | hex
  | boolalpha
  | setfill (c : byte)
  | width (w : nat).

(** A formatted output pads on the left to the width, and resets the width. *)
Definition insert_item (o : ostream) (i : item) : ostream :=
  match o with
  | mkOstream text base alpha fill w =>
      let put s := mkOstream (text ++ repeat fill (w - length s) ++ s) base alpha fill 0 in
      match i with
      | Text s => put (str s)
      | Chars b => put b
      | Num n => put (number base n)
      | Flag b => put (if alpha then str (if b then "true" else "false") else number base (if b then 1 else 0))
      | hex => mkOstream text 16 alpha fill w
      | boolalpha => mkOstream text base true fill w
      | setfill c => mkOstream text base alpha c w
      | width w => mkOstream text base alpha fill w
      end
  end.

(** [stringstream ss{}; ss << ...; return ss.str();]. *)
Definition print (l : list item) : bytes := os_text (fold_left insert_item l new_ostream).
Abbreviation endline := (Chars [x0a]) (only parsing).

(** [inet_ntoa({htobe32(ip)})]: the bytes from the highest on, with dots. *)
Definition inet_ntoa (ip : Z) : bytes :=
  to_string (Z.land (Z.shiftr ip 24) 255) ++ x2e :: to_string (Z.land (Z.shiftr ip 16) 255) ++
  x2e :: to_string (Z.land (Z.shiftr ip 8) 255) ++ x2e :: to_string (Z.land ip 255).

(** ** The headers *)

(** [operator<<] of a sequence number prints its raw value. *)
Definition Seqno (a : WrappingInt32) : item := Num (raw_value a).

Definition TCPHeader_to_string (h : TCPHeader) : bytes :=
  print [hex; boolalpha; Text "TCP source port: "; Num (th_sport h); endline;
    Text "TCP dest port: "; Num (th_dport h); endline;
    Text "TCP seqno: "; Seqno (th_seqno h); endline;
    Text "TCP ackno: "; Seqno (th_ackno h); endline;
    Text "TCP doff: "; Num (th_doff h); endline;
    Text "Flags: urg: "; Flag (th_urg h); Text " ack: "; Flag (th_ack h); Text " psh: "; Flag (th_psh h);
    Text " rst: "; Flag (th_rst h); Text " syn: "; Flag (th_syn h); Text " fin: "; Flag (th_fin h); endline;
    Text "TCP winsize: "; Num (th_win h); endline;
    Text "TCP cksum: "; Num (th_cksum h); endline;
    Text "TCP uptr: "; Num (th_uptr h); endline].

Definition TCPHeader_summary (h : TCPHeader) : bytes :=
  print [Text "Header(flags="; Text (if th_syn h then "S" else ""); Text (if th_ack h then "A" else "");
    Text (if th_rst h then "R" else ""); Text (if th_fin h then "F" else "");
    Text ",seqno="; Seqno (th_seqno h); Text ",ack="; Seqno (th_ackno h); Text ",win="; Num (th_win h); Text ")"].

Definition IPv4Header_to_string (h : IPv4Header) : bytes :=
  print [hex; boolalpha; Text "IP version: "; Num (ih_ver h); endline;
    Text "IP hdr len: "; Num (ih_hlen h); endline;
    Text "IP tos: "; Num (ih_tos h); endline;
    Text "IP dgram len: "; Num (ih_len h); endline;
    Text "IP id: "; Num (ih_id h); endline;
    Text "Flags: df: "; Flag (ih_df h); Text " mf: "; Flag (ih_mf h); endline;
    Text "Offset: "; Num (ih_offset h); endline;
    Text "TTL: "; Num (ih_ttl h); endline;
    Text "Protocol: "; Num (ih_proto h); endline;
    Text "Checksum: "; Num (ih_cksum h); endline;
    Text "Src addr: "; Num (ih_src h); endline;
    Text "Dst addr: "; Num (ih_dst h); endline].

Definition IPv4Header_summary (h : IPv4Header) : bytes :=
  print [hex; boolalpha; Text "IPv"; Num (ih_ver h); Text ", "; Text "len="; Num (ih_len h); Text ", ";
    Text "protocol="; Num (ih_proto h); Text ", ";
    Chars (if 10 <=? ih_ttl h then [] else str "ttl=" ++ to_string (ih_ttl h) ++ str ", ");
    Text "src="; Chars (inet_ntoa (ih_src h)); Text ", "; Text "dst="; Chars (inet_ntoa (ih_dst h))].

(** [to_string(EthernetAddress)]: the loop writes a colon after all but the
    last byte. *)
Fixpoint address_items (address : EthernetAddress) : list item :=
  match address with
  | [] => []
  | b :: l => width 2 :: setfill x30 :: hex :: Num b ::
      match l with [] => [] | _ => Text ":" :: address_items l end
  end.
Definition EthernetAddress_to_string (address : EthernetAddress) : bytes := print (address_items address).

Definition EthernetHeader_to_string (h : EthernetHeader) : bytes :=
  print ([Text "dst="; Chars (EthernetAddress_to_string (eh_dst h));
    Text ", src="; Chars (EthernetAddress_to_string (eh_src h)); Text ", type="] ++
    (if eh_type h =? TYPE_IPv4 then [Text "IPv4"]
     else if eh_type h =? TYPE_ARP then [Text "ARP"]
     else [Text "[unknown type "; hex; Num (eh_type h); Text "!]"])).

Definition ARPMessage_to_string (m : ARPMessage) : bytes :=
  let opcode_str := "(unknown type)" in
  let opcode_str := if arp_opcode m =? OPCODE_REQUEST then "REQUEST" else opcode_str in
  let opcode_str := if arp_opcode m =? OPCODE_REPLY then "REPLY" else opcode_str in
  print [Text "opcode="; Text opcode_str; Text ", sender="; Chars (EthernetAddress_to_string (arp_sender_ethernet_address m));
    Text "/"; Chars (inet_ntoa (arp_sender_ip_address m)); Text ", target=";
    Chars (EthernetAddress_to_string (arp_target_ethernet_address m)); Text "/";
    Chars (inet_ntoa (arp_target_ip_address m))].

(** [TCPState::name]. *)
Definition TCPState_name (s : TCPState) : bytes :=
  str "sender=`" ++ str (ts_sender s) ++ str "`, receiver=`" ++ str (ts_receiver s) ++ str "`, active=" ++
  to_string (if ts_active s then 1 else 0) ++ str ", linger_after_streams_finish=" ++
  to_string (if ts_linger_after_streams_finish s then 1 else 0).

(** ** Frames *)

(** [arp.parse(frame.payload())] in both programs. *)
Definition summary_arp (ret : bytes) (frame : EthernetFrame) : result bytes :=
  let* b := bl_to_Buffer (ef_payload frame) in
  let* (e, arp) := ARPMessage_parse new_ARPMessage b in
  Ok (ret ++ (if bool_decide (e = NoError) then str " " ++ ARPMessage_to_string arp else str " (bad ARP)")).

(** [summary] of [network_simulator.cc], which shows the payload. *)
Definition simulator_summary (frame : EthernetFrame) : result bytes :=
  let ret := EthernetHeader_to_string (ef_header frame) in
  if eh_type (ef_header frame) =? TYPE_IPv4 then
    let* b := bl_to_Buffer (ef_payload frame) in
    let* (e, dgram) := IPv4Datagram_parse new_IPv4Datagram b in
    Ok (ret ++ (if bool_decide (e = NoError)
                then str " " ++ IPv4Header_summary (ip_header dgram) ++ str " payload=" ++ x22 ::
                     bl_concatenate (ip_payload dgram) ++ [x22]
                else str " (bad IPv4)"))
  else if eh_type (ef_header frame) =? TYPE_ARP then summary_arp ret frame
  else Ok ret.

(** [summary] of [lab7.cc], which shows the TCP header. *)
Definition lab7_summary (frame : EthernetFrame) : result bytes :=
  let ret := EthernetHeader_to_string (ef_header frame) in
  if eh_type (ef_header frame) =? TYPE_IPv4 then
    let* (e, dgram) := IPv4Datagram_parse new_IPv4Datagram (Buffer_of (bl_concatenate (ef_payload frame))) in
    if bool_decide (e = NoError) then
      let ret := ret ++ str " " ++ IPv4Header_summary (ip_header dgram) in
      if ih_proto (ip_header dgram) =? PROTO_TCP then
        let* (e, tcp_seg) := TCPSegment_parse new_TCPSegment (Buffer_of (bl_concatenate (ip_payload dgram)))
                               (pseudo_cksum (ip_header dgram)) in
        Ok (if bool_decide (e = NoError) then ret ++ str " " ++ TCPHeader_summary (header tcp_seg) else ret)
      else Ok ret
    else Ok (ret ++ str " (bad IPv4)")
  else if eh_type (ef_header frame) =? TYPE_ARP then summary_arp ret frame
  else Ok ret.

(** ** Reading the texts back *)

(** The value of a text of digits. *)
Definition value (base : Z) (s : bytes) : Z :=
  fold_left (fun v c => base * v + match unhex c with Some d => d | None => 0 end) s 0.

Lemma value_snoc base s c : value base (s ++ [c]) = base * value base s + match unhex c with Some d => d | None => 0 end.
Proof. unfold value. by rewrite fold_left_app. Qed.

Lemma hex_digit_value d : 0 <= d < 16 -> unhex (hex_digit d) = Some d.
Proof.
  intros Hd. assert (Hz : exists n, d = Z.of_nat n /\ (n < 16)%nat) by (exists (Z.to_nat d); lia).
  destruct Hz as (n & -> & Hn). do 16 (destruct n as [|n]; [reflexivity|]). lia.
Qed.

Lemma digits_value fuel base : 2 <= base <= 16 -> forall n,
  0 <= n < base ^ Z.of_nat fuel -> value base (digits fuel base n) = n.
Proof.
  intros Hb. induction fuel as [|fuel IH]; intros n Hn; cbn [digits]; [cbn in Hn; cbn; lia|].
  rewrite value_snoc, hex_digit_value by (pose proof (Z.mod_pos_bound n base ltac:(lia)); lia).
  rewrite Nat2Z.inj_succ, Z.pow_succ_r in Hn by lia.
  destruct (Z.ltb_spec n base).
  - cbn. rewrite Z.mod_small by lia. lia.
  - rewrite IH by (split; [apply Z.div_pos; lia|apply Z.div_lt_upper_bound; lia]).
    pose proof (Z.div_mod n base ltac:(lia)). lia.
Qed.

Lemma number_value base n : 10 <= base <= 16 -> 0 <= n < W32 -> value base (number base n) = n.
Proof.
  intros Hb Hn. apply digits_value; [lia|]. assert (10 ^ 20 <= base ^ 20) by (apply Z.pow_le_mono_l; lia).
  change (Z.of_nat 20) with 20. lia.
Qed.

Lemma digits_only fuel base : 2 <= base <= 16 -> forall n c, c ∈ digits fuel base n -> is_Some (unhex c).
Proof.
  intros Hb. induction fuel as [|fuel IH]; intros n c; cbn [digits]; [by rewrite elem_of_nil|].
  rewrite elem_of_app, list_elem_of_singleton. intros [Hc| ->].
  - destruct (n <? base); [by rewrite elem_of_nil in Hc|by eapply IH].
  - rewrite hex_digit_value; [eauto|]. pose proof (Z.mod_pos_bound n base ltac:(lia)). lia.
Qed.

(** Two texts with a separator that occurs in neither first part. *)
Lemma split_at (sep : byte) (a : bytes) : forall b r r',
  sep ∉ a -> sep ∉ b -> a ++ sep :: r = b ++ sep :: r' -> a = b /\ r = r'.
Proof.
  induction a as [|x a IH]; intros [|y b] r r' Ha Hb E; cbn in E.
  - by injection E.
  - injection E as -> _. exfalso. apply Hb. by left.
  - injection E as -> _. exfalso. apply Ha. by left.
  - injection E as -> E. apply not_elem_of_cons in Ha as [_ Ha]. apply not_elem_of_cons in Hb as [_ Hb].
    destruct (IH _ _ _ Ha Hb E) as [-> ->]. done.
Qed.

(** A number that ends with something that is not a digit. *)
Lemma number_field base sep n n' r r' :
  10 <= base <= 16 -> unhex sep = None -> 0 <= n < W32 -> 0 <= n' < W32 ->
  number base n ++ sep :: r = number base n' ++ sep :: r' -> n = n' /\ r = r'.
Proof.
  intros Hb Hs Hn Hn' E.
  assert (Hno : forall m, sep ∉ number base m).
  { intros m Hin. apply digits_only in Hin; [|lia]. rewrite Hs in Hin. by destruct Hin. }
  apply split_at in E as [E ->]; [|apply Hno|apply Hno]. split; [|done].
  rewrite <- (number_value base n), <- (number_value base n') by done. by rewrite E.
Qed.

Lemma flag_field (b b' : bool) r r' :
  str (if b then "true" else "false") ++ r = str (if b' then "true" else "false") ++ r' -> b = b' /\ r = r'.
Proof. destruct b, b'; cbn; intros E; try discriminate E; injection E as E; by split. Qed.

(** What a list of items without manipulators prints in hexadecimal. *)
Definition shown_hex (i : item) : bytes :=
  match i with
  | Text s => str s
  | Chars b => b
  | Num n => number 16 n
  | Flag b => str (if b then "true" else "false")
  | _ => []
  end.
Definition is_manipulator (i : item) : bool :=
  match i with hex | boolalpha | setfill _ | width _ => true | _ => false end.

Definition all_shown (l : list item) : bytes := concat (map shown_hex l).

Lemma print_hex l :
  forallb (fun i => negb (is_manipulator i)) l = true ->
  print (hex :: boolalpha :: l) = all_shown l.
Proof.
  unfold all_shown.
  unfold print. cbn [fold_left insert_item new_ostream os_text].
  enough (H : forall t, forallb (fun i => negb (is_manipulator i)) l = true ->
    os_text (fold_left insert_item l (mkOstream t 16 true x20 0)) = t ++ concat (map shown_hex l)) by apply H.
  induction l as [|i l IH]; intros t Hl; cbn [fold_left map concat forallb] in *; [by rewrite app_nil_r|].
  apply andb_true_iff in Hl as [Hi Hl]. rewrite app_assoc.
  destruct i; try done; cbn [insert_item Nat.sub repeat app];
    by apply IH.
Qed.

(** Two texts of the same shape, part by part. *)
Lemma peel_text s l l' : all_shown (Text s :: l) = all_shown (Text s :: l') -> all_shown l = all_shown l'.
Proof. apply app_inv_head. Qed.
Lemma peel_chars b l l' : all_shown (Chars b :: l) = all_shown (Chars b :: l') -> all_shown l = all_shown l'.
Proof. apply app_inv_head. Qed.
Lemma peel_flag b b' l l' :
  all_shown (Flag b :: l) = all_shown (Flag b' :: l') -> b = b' /\ all_shown l = all_shown l'.
Proof. apply flag_field. Qed.
Lemma peel_line n n' l l' :
  all_shown (Num n :: endline :: l) = all_shown (Num n' :: endline :: l') ->
  0 <= n < W32 -> 0 <= n' < W32 -> n = n' /\ all_shown l = all_shown l'.
Proof. intros E Hn Hn'. apply (number_field 16 x0a n n' (all_shown l) (all_shown l')); done || lia. Qed.

Ltac peel H :=
  repeat first
    [ apply peel_text in H
    | apply peel_line in H as [? H]; [|lia|lia]
    | apply peel_flag in H as [? H]
    | apply peel_chars in H ].

(** [TCPHeader::to_string] says everything about a header. *)
Lemma TCPHeader_text_inj h h' :
  TCPHeader_ok h -> TCPHeader_ok h' -> TCPHeader_to_string h = TCPHeader_to_string h' -> h = h'.
Proof.
  intros [H1 H2 H3 H4 H5 H6 H7 H8] [G1 G2 G3 G4 G5 G6 G7 G8] E. unfold TCPHeader_to_string in E.
  rewrite !print_hex in E by reflexivity. unfold w32_ok, Seqno in *.
  peel E. destruct h as [? ? [?] [?] ? ? ? ? ? ? ? ? ? ?], h' as [? ? [?] [?] ? ? ? ? ? ? ? ? ? ?].
  clear E. simpl in *. by subst.
Qed.

(** So does [IPv4Header::to_string]. *)
Lemma IPv4Header_text_inj h h' :
  IPv4Header_ok h -> IPv4Header_ok h' -> IPv4Header_to_string h = IPv4Header_to_string h' -> h = h'.
Proof.
  intros [H1 H2 H3 H4 H5 H6 H7 H8 H9 Ha Hb] [G1 G2 G3 G4 G5 G6 G7 G8 G9 Ga Gb] E. unfold IPv4Header_to_string in E.
  rewrite !print_hex in E by reflexivity.
  peel E. destruct h, h'. clear E. simpl in *. by subst.
Qed.

(** The bytes of an address determine it. *)
Lemma quad_value ip : 0 <= ip < W32 ->
  ip = Z.land (Z.shiftr ip 24) 255 * 16777216 + Z.land (Z.shiftr ip 16) 255 * 65536 +
       Z.land (Z.shiftr ip 8) 255 * 256 + Z.land ip 255.
Proof.
  intros H. change 255 with (Z.ones 8). rewrite !Z.land_ones, !Z.shiftr_div_pow2 by lia.
  change (2 ^ 8) with 256. change (2 ^ 16) with 65536. change (2 ^ 24) with 16777216.
  Z.to_euclidean_division_equations; lia.
Qed.

Lemma land_255 n : 0 <= Z.land n 255 < 256.
Proof. change 255 with (Z.ones 8). rewrite Z.land_ones by lia. apply Z.mod_pos_bound. lia. Qed.

Lemma inet_ntoa_inj ip ip' : 0 <= ip < W32 -> 0 <= ip' < W32 -> inet_ntoa ip = inet_ntoa ip' -> ip = ip'.
Proof.
  intros H H' E. unfold inet_ntoa, to_string in E.
  pose proof (land_255 (Z.shiftr ip 24)). pose proof (land_255 (Z.shiftr ip' 24)).
  pose proof (land_255 (Z.shiftr ip 16)). pose proof (land_255 (Z.shiftr ip' 16)).
  pose proof (land_255 (Z.shiftr ip 8)). pose proof (land_255 (Z.shiftr ip' 8)).
  pose proof (land_255 ip). pose proof (land_255 ip').
  do 3 (apply number_field in E as [? E]; [|lia|reflexivity|lia|lia]).
  apply (f_equal (value 10)) in E. rewrite !number_value in E by lia.
  rewrite (quad_value ip H), (quad_value ip' H'). congruence.
Qed.

(** A byte of an Ethernet address takes two characters. *)
Definition two_digits (b : Z) : bytes := repeat x30 (2 - length (number 16 b)) ++ number 16 b.

Lemma two_digits_spec b : 0 <= b < W8 -> length (two_digits b) = 2%nat /\ value 16 (two_digits b) = b.
Proof.
  intros Hb. assert (Hz : b2z (z2b b) = b) by (rewrite b2z_z2b; by apply u8_id). rewrite <- Hz.
  destruct (z2b b); by vm_compute.
Qed.

Fixpoint address_text (a : EthernetAddress) : bytes :=
  match a with
  | [] => []
  | b :: l => two_digits b ++ match l with [] => [] | _ => x3a :: address_text l end
  end.

Lemma EthernetAddress_text a : EthernetAddress_to_string a = address_text a.
Proof.
  unfold EthernetAddress_to_string, print.
  enough (H : forall t base fill, os_text (fold_left insert_item (address_items a) (mkOstream t base false fill 0)) =
    t ++ address_text a) by apply H.
  induction a as [|b a IH]; intros t base fill; cbn [address_items address_text]; [cbn; by rewrite app_nil_r|].
  destruct a as [|b' a].
  - cbn [fold_left insert_item os_text]. by rewrite app_nil_r.
  - cbn [fold_left]. cbn [insert_item]. change (repeat x30 (0 - length (str ":")) ++ str ":") with [x3a].
    rewrite IH. unfold two_digits. rewrite <- !app_assoc. done.
Qed.

Lemma address_text_inj a : forall a', Forall (fun b => 0 <= b < W8) a -> Forall (fun b => 0 <= b < W8) a' ->
  length a = length a' -> address_text a = address_text a' -> a = a'.
Proof.
  induction a as [|b a IH]; intros [|b' a'] Ha Ha' Hl E; try done. inversion Ha as [|? ? Hb Hr]; subst.
  inversion Ha' as [|? ? Hb' Hr']; subst. injection Hl as Hl. cbn [address_text] in E.
  destruct (two_digits_spec b Hb) as [L1 V1], (two_digits_spec b' Hb') as [L2 V2].
  apply app_inj_1 in E as [E1 E2]; [|congruence]. assert (b = b') as -> by congruence. f_equal.
  apply IH; try done. destruct a, a'; try done. by injection E2.
Qed.

Lemma address_text_length a : Forall (fun b => 0 <= b < W8) a -> a <> [] ->
  length (address_text a) = (3 * length a - 1)%nat.
Proof.
  induction a as [|b a IH]; intros Ha Hn; [done|]. inversion Ha as [|? ? Hb Hr]; subst. cbn [address_text].
  rewrite length_app, (proj1 (two_digits_spec b Hb)). destruct a as [|b' a]; [done|].
  cbn [length] in *. rewrite IH by done. lia.
Qed.

(** The texts of the packets are faithful: [TCPHeader::to_string] and
    [IPv4Header::to_string] say everything about a header, so that two
    headers with the same text are equal; the text of an Ethernet address has
    seventeen characters and determines the address, and the dotted quad of a
    32-bit number determines the number. *)
Theorem texts_faithful :
  (forall h h', TCPHeader_ok h -> TCPHeader_ok h' -> TCPHeader_to_string h = TCPHeader_to_string h' -> h = h') /\
  (forall h h', IPv4Header_ok h -> IPv4Header_ok h' -> IPv4Header_to_string h = IPv4Header_to_string h' -> h = h') /\
  (forall a a', ea_ok a -> ea_ok a' ->
     length (EthernetAddress_to_string a) = 17%nat /\
     (EthernetAddress_to_string a = EthernetAddress_to_string a' -> a = a')) /\
  (forall ip ip', 0 <= ip < W32 -> 0 <= ip' < W32 -> inet_ntoa ip = inet_ntoa ip' -> ip = ip').
Proof.
  split; [apply TCPHeader_text_inj|]. split; [apply IPv4Header_text_inj|]. split; [|apply inet_ntoa_inj].
  intros a a' [L H] [L' H']. rewrite !EthernetAddress_text. split.
  - rewrite address_text_length by (done || (intros ->; done)). by rewrite L.
  - apply address_text_inj; try done. congruence.
Qed.

(** [IPv4Header::summary] prints the length and the protocol in hexadecimal,
    while the time to live and the addresses are decimal. *)
Theorem summary_mixes_bases :
  IPv4Header_summary (mkIPv4Header 4 5 0 100 0 true false 0 9 17 0 167772161 167772162) =
  str "IPv4, len=64, protocol=11, ttl=9, src=10.0.0.1, dst=10.0.0.2".
Proof. vm_compute. reflexivity. Qed.

(** The summaries of frames do not throw: that of the simulator for frames in
    one buffer, as its [deliver] makes them, and that of lab7 for any frame
    whose ARP message, if it is one, is in one buffer. *)
Lemma summary_arp_total ret f :
  Forall buf_ok (ef_payload f) -> (length (ef_payload f) <= 1)%nat -> exists s, summary_arp ret f = Ok s.
Proof.
  intros Hb Hl. unfold summary_arp.
  assert (Hone : exists b, bl_to_Buffer (ef_payload f) = Ok b /\ buf_ok b).
  { destruct (ef_payload f) as [|b [|]]; cbn in *; [eauto with sponge| |lia]. inversion Hb; eauto. }
  destruct Hone as (b & -> & Hok). cbn [rbind].
  destruct (arp_parse_cases new_ARPMessage b Hok) as (e & m & -> & _). cbn [rbind]. eauto.
Qed.

Theorem summaries_total f :
  zlen (bl_concatenate (ef_payload f)) < W32 -> Forall buf_ok (ef_payload f) ->
  ((length (ef_payload f) <= 1)%nat -> exists s, simulator_summary f = Ok s) /\
  ((eh_type (ef_header f) = TYPE_ARP -> (length (ef_payload f) <= 1)%nat) -> exists s, lab7_summary f = Ok s).
Proof.
  intros Hlen Hb. split.
  - intros Hl. unfold simulator_summary. destruct (_ =? TYPE_IPv4).
    + assert (Hone : exists b, bl_to_Buffer (ef_payload f) = Ok b /\ buf_ok b).
      { destruct (ef_payload f) as [|b [|]]; cbn in *; [eauto with sponge| |lia]. inversion Hb; eauto. }
      destruct Hone as (b & -> & Hok). cbn [rbind].
      destruct (datagram_parse_cases new_IPv4Datagram b Hok) as (e & d & -> & _). cbn [rbind]. eauto.
    + destruct (_ =? TYPE_ARP); [by apply summary_arp_total|eauto].
  - intros Harp. unfold lab7_summary. destruct (_ =? TYPE_IPv4).
    + destruct (datagram_parse_cases new_IPv4Datagram (Buffer_of (bl_concatenate (ef_payload f)))) as (e & d & -> & _ & Hp);
        [apply Buffer_of_ok; lia|]. cbn [rbind]. destruct (bool_decide_reflect (e = NoError)) as [He|_]; [|eauto].
      destruct (_ =? PROTO_TCP); [|eauto]. specialize (Hp He).
      destruct (TCPSegment_parse_total new_TCPSegment (Buffer_of (bl_concatenate (ip_payload d)))
        (pseudo_cksum (ip_header d))) as (e' & s' & -> & _); [|cbn [rbind]; eauto].
      apply Buffer_of_ok. rewrite Hp. unfold payload_length. pose proof (u16_range (ih_len (ip_header d) - 4 * ih_hlen (ip_header d))). lia.
    + destruct (Z.eqb_spec (eh_type (ef_header f)) TYPE_ARP); [apply summary_arp_total; auto|eauto].
Qed.

(** A frame with an ARP message of zeros. *)
Definition shown_frame : EthernetFrame :=
  mkEthernetFrame (mkEthernetHeader ETHERNET_BROADCAST [2; 0; 0; 1; 2; 3] TYPE_ARP)
    (BufferList_of (repeat x00 28)).

Lemma summaries_total_witness :
  simulator_summary shown_frame =
    Ok (str "dst=ff:ff:ff:ff:ff:ff, src=02:00:00:01:02:03, type=ARP (bad ARP)") /\
  exists s, lab7_summary shown_frame = Ok s.
Proof.
  split; [vm_compute; reflexivity|]. apply (summaries_total shown_frame).
  - reflexivity.
  - constructor; [by apply Buffer_of_ok|constructor].
  - intros _. cbn. lia.
Defined.
