(* ===== verification/Address.v ===== *)
(** * Socket addresses

    [libsponge/util/address.hh] and [.cc], without the name resolution: the
    storage of an address and its numeric IPv4 form. *)
From S2P Require Import Prelude Parser.

(** A [sockaddr]: its family and the bytes behind it. *)
Record sockaddr : Type := mkSockaddr { sa_family : Z; sa_data : bytes }.
#[global] Instance sockaddr_eq_dec : EqDecision sockaddr.
Proof. solve_decision. Defined.

Definition AF_INET : Z := 2.
Definition sizeof_sockaddr_in : Z := 16.
Definition sizeof_sockaddr_storage : Z := 128.

Record Address : Type := mkAddress { ad_size : Z; ad_address : sockaddr }.
#[global] Instance Address_eq_dec : EqDecision Address.
Proof. solve_decision. Defined.

(** [Address(const sockaddr *, size_t)]: the first [size] bytes are copied,
    two of them for the family. *)
Definition Address_of_sockaddr (addr : sockaddr) (size : Z) : result Address :=
  if sizeof_sockaddr_storage <? size then Err runtime_error
  else Ok (mkAddress size (mkSockaddr (sa_family addr) (ztake (size - 2) (sa_data addr)))).

(** A [sockaddr_in] with port zero: the port, the address and eight zero bytes,
    both numbers in network byte order. *)
Definition sockaddr_in (ip_address : Z) : sockaddr :=
  mkSockaddr AF_INET (be2 0 ++ be4 ip_address ++ repeat x00 8).

Definition ipv4_numeric (a : Address) : result Z :=
  if negb (sa_family (ad_address a) =? AF_INET) || negb (ad_size a =? sizeof_sockaddr_in)
  then Err runtime_error
  else Ok (be_val (ztake 4 (zdrop 2 (sa_data (ad_address a))))).

Definition from_ipv4_numeric (ip_address : Z) : result Address :=
  Address_of_sockaddr (sockaddr_in ip_address) sizeof_sockaddr_in.

(** [operator==] compares the sizes and that many bytes. *)
Definition Address_eqb (a b : Address) : bool :=
  if negb (ad_size a =? ad_size b) then false else bool_decide (ad_address a = ad_address b).

Definition inet (ip_address : Z) : Address := mkAddress 16 (sockaddr_in ip_address).

(** [Address(const string &ip, uint16_t port)] for the dotted quad of
    [ip_address]: [getaddrinfo] with numeric host and service gives the
    [sockaddr_in] of the two numbers. *)
Definition Address_numeric (ip_address port : Z) : Address :=
  mkAddress 16 (mkSockaddr AF_INET (be2 port ++ be4 ip_address ++ repeat x00 8)).

(** [port()]: [getnameinfo] with numeric service prints the port of an internet
    address and fails for other families. *)
Definition AF_INET6 : Z := 10.
Definition sizeof_sockaddr_in6 : Z := 28.
Definition Address_port (a : Address) : result Z :=
  let family := sa_family (ad_address a) in
  if (family =? AF_INET) && (sizeof_sockaddr_in <=? ad_size a)
     || (family =? AF_INET6) && (sizeof_sockaddr_in6 <=? ad_size a)
  then Ok (be_val (ztake 2 (sa_data (ad_address a))))
  else Err runtime_error.

Lemma from_ipv4_numeric_inet ip : from_ipv4_numeric ip = Ok (inet ip).
Proof. reflexivity. Qed.
Lemma ipv4_numeric_inet ip : ipv4_numeric (inet ip) = Ok (u32 ip).
Proof.
  unfold ipv4_numeric. change (zdrop 2 (sa_data (ad_address (inet ip)))) with (be4 ip ++ repeat x00 8).
  change (ztake 4 (be4 ip ++ repeat x00 8)) with (be4 ip). by rewrite be4_val.
Qed.

Lemma Address_port_numeric ip port : 0 <= port < W16 -> Address_port (Address_numeric ip port) = Ok port.
Proof.
  intros H. unfold Address_port. change (ztake 2 (sa_data (ad_address (Address_numeric ip port)))) with (be2 port).
  rewrite be2_val. by rewrite u16_id.
Qed.
Lemma ipv4_numeric_numeric ip port : 0 <= ip < W32 -> ipv4_numeric (Address_numeric ip port) = Ok ip.
Proof.
  intros H. unfold ipv4_numeric.
  change (zdrop 2 (sa_data (ad_address (Address_numeric ip port)))) with (be4 ip ++ repeat x00 8).
  change (ztake 4 (be4 ip ++ repeat x00 8)) with (be4 ip). rewrite be4_val. by rewrite u32_id.
Qed.

(** Numeric addresses: every 32-bit number makes an address that gives the
    number back, and different numbers make different addresses; only an
    IPv4 address of the right size has a numeric form. *)
Theorem ipv4_numeric_roundtrip ip :
  0 <= ip < W32 ->
  exists a, from_ipv4_numeric ip = Ok a /\ ipv4_numeric a = Ok ip /\
    (forall ip' a', 0 <= ip' < W32 -> from_ipv4_numeric ip' = Ok a' ->
       (Address_eqb a a' = true <-> ip = ip')) /\
    (forall b n, ipv4_numeric b = Ok n ->
       sa_family (ad_address b) = AF_INET /\ ad_size b = sizeof_sockaddr_in).
Proof.
  intros H. exists (inet ip). split; [done|]. split; [by rewrite ipv4_numeric_inet, u32_id|]. split.
  - intros ip' a' H' E. rewrite from_ipv4_numeric_inet in E. injection E as <-.
    unfold Address_eqb. cbn [ad_size inet]. rewrite Z.eqb_refl. cbn [negb].
    rewrite bool_decide_eq_true. split; [|by intros ->].
    intros E. change (sockaddr_in ip = sockaddr_in ip') in E.
    assert (E' : ipv4_numeric (inet ip) = ipv4_numeric (inet ip')) by (unfold inet; by rewrite E).
    rewrite !ipv4_numeric_inet in E'. injection E' as E'. by rewrite !u32_id in E'.
  - intros b n. unfold ipv4_numeric. destruct (negb _ || negb _) eqn:Eb; [done|]. zb. done.
Qed.

Lemma ipv4_numeric_roundtrip_witness :
  exists a, from_ipv4_numeric 167772161 = Ok a /\ ipv4_numeric a = Ok 167772161.
Proof.
  destruct (ipv4_numeric_roundtrip 167772161) as (a & H1 & H2 & _); [lia|]. eauto.
Defined.
