(* ===== verification/Resolver.v ===== *)
(** * Names of addresses

    The rest of [libsponge/util/address.cc]: addresses made from names and
    numbers by [getaddrinfo], and their text by [getnameinfo].  The two library
    functions are parameters. *)
From S2P Require Import Prelude Parser Address Hexdump Texts.

(** [addrinfo] as [make_hints] fills it; the other members are zero. *)
Record addrinfo_hints : Type := make_hints { ai_flags : Z; ai_family : Z }.

Definition AI_NUMERICHOST : Z := 4.
Definition AI_ALL : Z := 16.
Definition AI_NUMERICSERV : Z := 1024.

(** [std::stoi]: spaces, a sign, and the digits up to the first character that
    is none; no digits and a number that is not an [int] are exceptions. *)
Definition isspace (c : byte) : bool := (b2z c =? 32) || (9 <=? b2z c) && (b2z c <=? 13).
Definition digit (c : byte) : option Z :=
  if (48 <=? b2z c) && (b2z c <=? 57) then Some (b2z c - 48) else None.
Fixpoint read_digits (s : bytes) (v : Z) (any : bool) : option Z :=
  match s with
  | [] => if any then Some v else None
  | c :: s' => match digit c with
              | Some d => read_digits s' (10 * v + d) true
              | None => if any then Some v else None
              end
  end.
Fixpoint skip_spaces (s : bytes) : bytes :=
  match s with
  | c :: s' => if isspace c then skip_spaces s' else s
  | [] => []
  end.
Definition stoi (s : bytes) : result Z :=
  let s := skip_spaces s in
  let '(negative, s) := match s with
                        | x2d :: s => (true, s)
                        | x2b :: s => (false, s)
                        | _ => (false, s)
                        end in
  match read_digits s 0 false with
  | None => Err invalid_argument
  | Some v => let v := if negative then - v else v in
              if (v <? - W31) || (W31 <=? v) then Err out_of_range else Ok v
  end.

Section Resolver.
(** [getaddrinfo(3)]: an error code, or the list of addresses with their sizes;
    [getnameinfo(3)] with numeric host and service: an error code, or the two
    texts. *)
Variables (getaddrinfo : bytes -> bytes -> addrinfo_hints -> Z + list (sockaddr * Z))
  (getnameinfo : Address -> Z + (bytes * bytes)).

(** [Address(node, service, hints)]. *)
Definition Address_resolved (node service : bytes) (hints : addrinfo_hints) : result Address :=
  match getaddrinfo node service hints with
  | inl _ => Err runtime_error
  | inr [] => Err runtime_error
  | inr ((addr, size) :: _) => Address_of_sockaddr addr size
  end.

(** [Address(hostname, service)]. *)
Definition Address_of_names (hostname service : bytes) : result Address :=
  Address_resolved hostname service (make_hints AI_ALL AF_INET).

(** [Address(ip, port)]. *)
Definition Address_of_ip (ip : bytes) (port : Z) : result Address :=
  Address_resolved ip (to_string port) (make_hints (Z.lor AI_NUMERICHOST AI_NUMERICSERV) AF_INET).

Definition ip_port (a : Address) : result (bytes * Z) :=
  match getnameinfo a with
  | inl _ => Err runtime_error
  | inr (ip, port) => let* n := stoi port in Ok (ip, u16 n)
  end.

Definition Address_ip (a : Address) : result bytes := let* (ip, _) := ip_port a in Ok ip.

Definition Address_to_string (a : Address) : result bytes :=
  let* (ip, port) := ip_port a in Ok (ip ++ str ":" ++ to_string port).

(** What is documented of the two functions: numeric texts are translated both
    ways, without asking a name server. *)
Definition numeric_resolution : Prop :=
  (forall ip port, 0 <= ip < W32 -> 0 <= port < W16 ->
     getnameinfo (Address_numeric ip port) = inr (inet_ntoa ip, to_string port)) /\
  (forall ip port, 0 <= ip < W32 -> 0 <= port < W16 ->
     exists more, getaddrinfo (inet_ntoa ip) (to_string port)
       (make_hints (Z.lor AI_NUMERICHOST AI_NUMERICSERV) AF_INET) =
       inr ((ad_address (Address_numeric ip port), 16) :: more)).

End Resolver.

(** ** Numbers *)

Lemma digit_unhex c d : digit c = Some d -> unhex c = Some d.
Proof. unfold digit, unhex. by destruct (_ && _). Qed.

Lemma hex_digit_digit d : 0 <= d < 10 -> digit (hex_digit d) = Some d.
Proof.
  intros Hd. assert (Hz : exists n, d = Z.of_nat n /\ (n < 10)%nat) by (exists (Z.to_nat d); lia).
  destruct Hz as (n & -> & Hn). do 10 (destruct n as [|n]; [reflexivity|]). lia.
Qed.

Lemma to_string_digits n : Forall (fun c => is_Some (digit c)) (to_string n) /\ to_string n <> [].
Proof.
  unfold to_string, number. split.
  - generalize 20%nat as fuel. intros fuel. revert n. induction fuel as [|fuel IH]; intros n; cbn [digits]; [constructor|].
    apply Forall_app. split; [destruct (n <? 10); [constructor|apply IH]|]. constructor; [|constructor].
    rewrite hex_digit_digit by (apply Z.mod_pos_bound; lia). eauto.
  - cbn [digits]. intros E. apply app_nil in E as [_ E]. discriminate E.
Qed.

Lemma read_digits_value s : forall v any, Forall (fun c => is_Some (digit c)) s -> any = true \/ s <> [] ->
  read_digits s v any =
  Some (fold_left (fun v c => 10 * v + match unhex c with Some d => d | None => 0 end) s v).
Proof.
  induction s as [|c s IH]; intros v any Hs Ha; cbn [read_digits fold_left].
  - by destruct Ha as [->|].
  - inversion Hs as [|? ? [d Hd] Hs']; subst. rewrite Hd, (digit_unhex c d Hd). apply IH; [done|by left].
Qed.

Lemma digit_plain c : is_Some (digit c) -> isspace c = false /\ c <> x2d /\ c <> x2b.
Proof. destruct c; cbn; intros [d [=]]; split_and!; reflexivity || discriminate. Qed.

Lemma stoi_to_string n : 0 <= n < W31 -> stoi (to_string n) = Ok n.
Proof.
  intros Hn. destruct (to_string_digits n) as [Hd Hne].
  assert (Hv : value 10 (to_string n) = n) by (apply number_value; lia). unfold stoi.
  destruct (to_string n) as [|c s] eqn:E; [done|]. apply Forall_cons in Hd as [Hc Hs].
  destruct (digit_plain c Hc) as (Hsp & Hm & Hp). cbn [skip_spaces]. rewrite Hsp.
  assert (Hmatch : (match c with x2d => (true, s) | x2b => (false, s) | _ => (false, c :: s) end) = (false, c :: s))
    by (destruct c; done). rewrite Hmatch.
  rewrite read_digits_value by (done || by right). unfold value in Hv. rewrite Hv.
  destruct (Z.ltb_spec n (- W31)); [lia|]. destruct (Z.leb_spec W31 n); [lia|]. done.
Qed.

Lemma Ok_inj {A} (x y : A) : Ok x = Ok y -> x = y.
Proof. congruence. Qed.

(** C38: Addresses and their texts: when the two library functions translate
    numeric texts as documented, an address made from the dotted quad of a
    number and a port is the address of these numbers, it gives both back,
    its text is the quad, a colon and the port, and different addresses have
    different texts. *)
Theorem address_text_roundtrip getaddrinfo getnameinfo ip port :
  numeric_resolution getaddrinfo getnameinfo -> 0 <= ip < W32 -> 0 <= port < W16 ->
  exists a, Address_of_ip getaddrinfo (inet_ntoa ip) port = Ok a /\
    ipv4_numeric a = Ok ip /\ ip_port getnameinfo a = Ok (inet_ntoa ip, port) /\
    Address_to_string getnameinfo a = Ok (inet_ntoa ip ++ x3a :: to_string port) /\
    forall ip' port' a', 0 <= ip' < W32 -> 0 <= port' < W16 ->
      Address_of_ip getaddrinfo (inet_ntoa ip') port' = Ok a' ->
      Address_to_string getnameinfo a' = Address_to_string getnameinfo a -> a' = a.
Proof.
  intros [Hni Hai] Hip Hport.
  assert (Hmake : forall i p, 0 <= i < W32 -> 0 <= p < W16 ->
    Address_of_ip getaddrinfo (inet_ntoa i) p = Ok (Address_numeric i p)).
  { intros i p Hi Hp. unfold Address_of_ip, Address_resolved. destruct (Hai i p Hi Hp) as [more ->]. reflexivity. }
  assert (Htext : forall i p, 0 <= i < W32 -> 0 <= p < W16 -> ip_port getnameinfo (Address_numeric i p) = Ok (inet_ntoa i, p)).
  { intros i p Hi Hp. unfold ip_port. rewrite Hni by done. rewrite stoi_to_string by lia. cbn [rbind]. by rewrite u16_id. }
  assert (Hshow : forall i p, 0 <= i < W32 -> 0 <= p < W16 ->
    Address_to_string getnameinfo (Address_numeric i p) = Ok (inet_ntoa i ++ x3a :: to_string p)).
  { intros i p Hi Hp. unfold Address_to_string. by rewrite Htext. }
  exists (Address_numeric ip port). rewrite Hmake, Htext, Hshow by done. split; [done|].
  split; [by apply ipv4_numeric_numeric|]. split; [done|]. split; [done|].
  intros ip' port' a' Hip' Hport'. rewrite Hmake by done. intros [= <-]. rewrite Hshow by done. intros E. apply Ok_inj in E.
  assert (Hno : forall i, x3a ∉ inet_ntoa i).
  { intros i. unfold inet_ntoa, to_string. rewrite !not_elem_of_app, !not_elem_of_cons, !not_elem_of_app, !not_elem_of_cons,
      !not_elem_of_app, !not_elem_of_cons.
    assert (Hn : forall n, x3a ∉ number 10 n) by (intros n Hin; apply digits_only in Hin; [by destruct Hin|lia]).
    split_and!; done || apply Hn. }
  apply split_at in E as [E1 E2]; [|apply Hno|apply Hno].
  apply inet_ntoa_inj in E1; [|done|done]. subst ip'. f_equal.
  apply (f_equal (value 10)) in E2. unfold to_string in E2. rewrite !number_value in E2 by lia. by subst.
Qed.

(** Functions that behave so: they read the numbers from the texts. *)
Fixpoint split_on (sep : byte) (cur : bytes) (s : bytes) : list bytes :=
  match s with
  | [] => [cur]
  | c :: s => if bool_decide (c = sep) then cur :: split_on sep [] s else split_on sep (cur ++ [c]) s
  end.
Definition aton (s : bytes) : Z := fold_left (fun v p => 256 * v + value 10 p) (split_on x2e [] s) 0.

Definition numeric_getaddrinfo (node service : bytes) (_ : addrinfo_hints) : Z + list (sockaddr * Z) :=
  inr [(ad_address (Address_numeric (aton node) (value 10 service)), 16)].
Definition numeric_getnameinfo (a : Address) : Z + (bytes * bytes) :=
  match ipv4_numeric a, Address_port a with
  | Ok ip, Ok port => inr (inet_ntoa ip, to_string port)
  | _, _ => inl 1
  end.

Lemma split_on_app sep a : forall cur r, sep ∉ a -> split_on sep cur (a ++ sep :: r) = (cur ++ a) :: split_on sep [] r.
Proof.
  induction a as [|c a IH]; intros cur r Hn; cbn [app split_on].
  - rewrite bool_decide_eq_true_2 by done. by rewrite app_nil_r.
  - apply not_elem_of_cons in Hn as [Hc Hn]. rewrite bool_decide_eq_false_2 by congruence.
    rewrite IH by done. by rewrite <- app_assoc.
Qed.
Lemma split_on_last sep a : forall cur, sep ∉ a -> split_on sep cur a = [cur ++ a].
Proof.
  induction a as [|c a IH]; intros cur Hn; cbn [split_on]; [by rewrite app_nil_r|].
  apply not_elem_of_cons in Hn as [Hc Hn]. rewrite bool_decide_eq_false_2 by congruence.
  rewrite IH by done. by rewrite <- app_assoc.
Qed.

Lemma aton_inet_ntoa ip : 0 <= ip < W32 -> aton (inet_ntoa ip) = ip.
Proof.
  intros H. assert (Hn : forall n, x2e ∉ to_string n) by (intros n Hin; apply digits_only in Hin; [by destruct Hin|lia]).
  unfold aton, inet_ntoa. do 3 (rewrite split_on_app by apply Hn). rewrite split_on_last by apply Hn.
  cbn [fold_left app]. unfold to_string.
  pose proof (land_255 (Z.shiftr ip 24)). pose proof (land_255 (Z.shiftr ip 16)).
  pose proof (land_255 (Z.shiftr ip 8)). pose proof (land_255 ip). rewrite !number_value by lia.
  rewrite (quad_value ip H) at 5. lia.
Qed.

Lemma numeric_resolves : numeric_resolution numeric_getaddrinfo numeric_getnameinfo.
Proof.
  split; intros ip port Hip Hport.
  - unfold numeric_getnameinfo. by rewrite ipv4_numeric_numeric, Address_port_numeric.
  - exists []. unfold numeric_getaddrinfo, to_string. rewrite aton_inet_ntoa, number_value by (done || lia). done.
Qed.

(** 10.0.0.1:80 *)
Lemma address_text_roundtrip_witness :
  exists a, Address_of_ip numeric_getaddrinfo (str "10.0.0.1") 80 = Ok a /\
    Address_to_string numeric_getnameinfo a = Ok (str "10.0.0.1:80") /\ ipv4_numeric a = Ok 167772161.
Proof.
  destruct (address_text_roundtrip numeric_getaddrinfo numeric_getnameinfo 167772161 80) as (a & H1 & H2 & _ & H3 & _);
    [exact numeric_resolves|lia|lia|]. exists a. split; [exact H1|]. split; [exact H3|exact H2].
Defined.
