(* ===== verification/NetworkInterface.v ===== *)
(** * The network interface

    [libsponge/network_interface.hh] and [.cc]: sends IPv4 datagrams in Ethernet
    frames, looks up Ethernet addresses with ARP, and hands received datagrams
    up. *)
From S2P Require Import Prelude Buffer Parser Checksum IPv4 Ethernet Address.

(** A datagram waiting for the Ethernet address of its next hop, and until when
    the request sent for it counts. *)
Record delayed : Type := mkDelayed { dq_dgram : InternetDatagram; dq_ip : Z; dq_time : Z }.

Record NetworkInterface : Type := mkNetworkInterface {
  ni_ethernet_address : EthernetAddress;
  ni_ip_address : Address;
  ni_frames_out : list EthernetFrame;
  ni_timer : Z;
  ni_address_table : gmap Z (EthernetAddress * Z);
  ni_dgram_delay_queue : list delayed }.

Definition new_NetworkInterface (ethernet_address : EthernetAddress) (ip_address : Address)
    : NetworkInterface :=
  mkNetworkInterface ethernet_address ip_address [] 0 ∅ [].

(** The changes the operations make to the members. *)
Definition push_frame (f : EthernetFrame) (n : NetworkInterface) : NetworkInterface :=
  mkNetworkInterface (ni_ethernet_address n) (ni_ip_address n) (ni_frames_out n ++ [f]) (ni_timer n)
    (ni_address_table n) (ni_dgram_delay_queue n).
Definition with_queue (q : list delayed) (n : NetworkInterface) : NetworkInterface :=
  mkNetworkInterface (ni_ethernet_address n) (ni_ip_address n) (ni_frames_out n) (ni_timer n)
    (ni_address_table n) q.
Definition with_table (t : gmap Z (EthernetAddress * Z)) (n : NetworkInterface) : NetworkInterface :=
  mkNetworkInterface (ni_ethernet_address n) (ni_ip_address n) (ni_frames_out n) (ni_timer n)
    t (ni_dgram_delay_queue n).

Definition ipv4_frame (dgram : InternetDatagram) (src dst : EthernetAddress) : result EthernetFrame :=
  let* pay := IPv4Datagram_serialize dgram in
  Ok (mkEthernetFrame (mkEthernetHeader dst src TYPE_IPv4) pay).

Definition arp_frame (m : ARPMessage) (src dst : EthernetAddress) : result EthernetFrame :=
  let* s := ARPMessage_serialize m in
  Ok (mkEthernetFrame (mkEthernetHeader dst src TYPE_ARP) (BufferList_of s)).

(** The loop that looks for a request that still counts. *)
Definition request_pending (n : NetworkInterface) (ip : Z) : bool :=
  existsb (fun d => (dq_ip d =? ip) && (ni_timer n <? dq_time d)) (ni_dgram_delay_queue n).

Definition arp_request (sender_eth : EthernetAddress) (sender_ip target_ip : Z) : ARPMessage :=
  mkARPMessage TYPE_ETHERNET TYPE_IPv4 6 4 OPCODE_REQUEST sender_eth sender_ip
    zero_EthernetAddress target_ip.
Definition arp_reply (sender_eth : EthernetAddress) (sender_ip : Z) (target_eth : EthernetAddress)
    (target_ip : Z) : ARPMessage :=
  mkARPMessage TYPE_ETHERNET TYPE_IPv4 6 4 OPCODE_REPLY sender_eth sender_ip target_eth target_ip.

Definition send_datagram (n : NetworkInterface) (dgram : InternetDatagram) (next_hop : Address)
    : result NetworkInterface :=
  let* next_hop_ip := ipv4_numeric next_hop in
  match ni_address_table n !! next_hop_ip with
  | Some (eth, _) =>
      let* frame := ipv4_frame dgram (ni_ethernet_address n) eth in
      Ok (push_frame frame n)
  | None =>
      if request_pending n next_hop_ip then
        Ok (with_queue (ni_dgram_delay_queue n ++ [mkDelayed dgram next_hop_ip (ni_timer n)]) n)
      else
        let n := with_queue (ni_dgram_delay_queue n ++
                   [mkDelayed dgram next_hop_ip (ni_timer n +! 5 * 1000)]) n in
        let* ip := ipv4_numeric (ni_ip_address n) in
        let* frame := arp_frame (arp_request (ni_ethernet_address n) ip next_hop_ip)
                        (ni_ethernet_address n) ETHERNET_BROADCAST in
        Ok (push_frame frame n)
  end.

(** The loop that sends the delayed datagrams whose next hop is known, from the
    iterator on; [kept] are those it has passed. *)
Fixpoint flush_delayed (n : NetworkInterface) (kept q : list delayed) : result NetworkInterface :=
  match q with
  | [] => Ok (with_queue kept n)
  | d :: q =>
      match ni_address_table n !! dq_ip d with
      | Some (eth, _) =>
          let* frame := ipv4_frame (dq_dgram d) (ni_ethernet_address n) eth in
          flush_delayed (push_frame frame n) kept q
      | None => flush_delayed n (kept ++ [d]) q
      end
  end.

(** [recv_frame] after an ARP message was parsed. *)
Definition recv_arp (n : NetworkInterface) (m : ARPMessage) : result NetworkInterface :=
  let n := with_table (<[arp_sender_ip_address m :=
             (arp_sender_ethernet_address m, ni_timer n +! 30 * 1000)]> (ni_address_table n)) n in
  let* n :=
    if arp_opcode m =? OPCODE_REQUEST then
      let* ip := ipv4_numeric (ni_ip_address n) in
      if arp_target_ip_address m =? ip then
        let* frame := arp_frame (arp_reply (ni_ethernet_address n) ip (arp_sender_ethernet_address m)
                                   (arp_sender_ip_address m))
                        (ni_ethernet_address n) (arp_sender_ethernet_address m) in
        Ok (push_frame frame n)
      else Ok n
    else Ok n in
  flush_delayed n [] (ni_dgram_delay_queue n).

Definition recv_frame (n : NetworkInterface) (frame : EthernetFrame)
    : result (NetworkInterface * option InternetDatagram) :=
  if negb (bool_decide (eh_dst (ef_header frame) = ni_ethernet_address n))
     && negb (bool_decide (eh_dst (ef_header frame) = ETHERNET_BROADCAST)) then Ok (n, None)
  else if eh_type (ef_header frame) =? TYPE_IPv4 then
    let* b := bl_to_Buffer (ef_payload frame) in
    let* (parse_result, dgram) := IPv4Datagram_parse new_IPv4Datagram b in
    if pr_eqb parse_result NoError then Ok (n, Some dgram) else Ok (n, None)
  else
    let* b := bl_to_Buffer (ef_payload frame) in
    let* (parse_result, m) := ARPMessage_parse new_ARPMessage b in
    if negb (pr_eqb parse_result NoError) then Ok (n, None)
    else let* n := recv_arp n m in Ok (n, None).

Definition ni_tick (n : NetworkInterface) (ms_since_last_tick : Z) : NetworkInterface :=
  let timer := ni_timer n +! ms_since_last_tick in
  mkNetworkInterface (ni_ethernet_address n) (ni_ip_address n) (ni_frames_out n) timer
    (filter (fun e => ~ (e.2.2 < timer)) (ni_address_table n)) (ni_dgram_delay_queue n).

(** ** The invariant *)

(** [ip] is the interface's own address.  Entries of the table live for at most
    thirty seconds; nothing waits for an address that is in the table. *)
Record ni_inv (n : NetworkInterface) (ip : Z) : Prop := {
  nii_eth : ea_ok (ni_ethernet_address n);
  nii_ip : ni_ip_address n = inet ip;
  nii_ip_range : 0 <= ip < W32;
  nii_timer : 0 <= ni_timer n < W64 - W32;
  nii_table : map_Forall (fun a e => 0 <= a < W32 /\ ea_ok e.1 /\
                ni_timer n <= e.2 <= ni_timer n + 30000) (ni_address_table n);
  nii_queue : Forall (fun d => IPv4Datagram_ok (dq_dgram d) /\ 0 <= dq_ip d < W32 /\
                ni_address_table n !! dq_ip d = None) (ni_dgram_delay_queue n) }.

Lemma new_NetworkInterface_inv eth ip :
  ea_ok eth -> 0 <= ip < W32 -> ni_inv (new_NetworkInterface eth (inet ip)) ip.
Proof. intros. by constructor. Qed.

Lemma own_ip n ip : ni_inv n ip -> ipv4_numeric (ni_ip_address n) = Ok ip.
Proof. intros []. rewrite nii_ip0, ipv4_numeric_inet. by rewrite u32_id. Qed.

Lemma ipv4_frame_ok d src dst : IPv4Datagram_ok d -> exists f, ipv4_frame d src dst = Ok f.
Proof.
  intros H. destruct (datagram_wire d H) as (l & E & _).
  unfold ipv4_frame. rewrite E. by eexists.
Qed.

Lemma zero_ea_ok : ea_ok zero_EthernetAddress.
Proof. split; [done|]. repeat constructor; simpl; lia. Qed.
Lemma broadcast_ok : ea_ok ETHERNET_BROADCAST.
Proof. split; [done|]. repeat constructor; simpl; lia. Qed.

Lemma arp_request_ok eth ip target :
  ea_ok eth -> 0 <= ip < W32 -> 0 <= target < W32 -> ARPMessage_ok (arp_request eth ip target).
Proof. intros. constructor; try done. apply zero_ea_ok. Qed.
Lemma arp_reply_ok eth ip teth target :
  ea_ok eth -> 0 <= ip < W32 -> ea_ok teth -> 0 <= target < W32 -> ARPMessage_ok (arp_reply eth ip teth target).
Proof. intros. by constructor. Qed.

(** The frame that carries a supported message. *)
Definition arp_message_frame (m : ARPMessage) (src dst : EthernetAddress) : EthernetFrame :=
  mkEthernetFrame (mkEthernetHeader dst src TYPE_ARP) (BufferList_of (arp_bytes m)).
Lemma arp_frame_eq m src dst : ARPMessage_ok m -> arp_frame m src dst = Ok (arp_message_frame m src dst).
Proof. intros H. unfold arp_frame. by rewrite ARPMessage_serialize_eq by apply H. Qed.

(** ** Sending *)

(** What [send_datagram] does in its three cases. *)
Lemma send_datagram_spec n ip d hop :
  ni_inv n ip -> IPv4Datagram_ok d -> 0 <= hop < W32 ->
  exists n', send_datagram n d (inet hop) = Ok n' /\ ni_inv n' ip /\
    ni_timer n' = ni_timer n /\ ni_address_table n' = ni_address_table n /\
    match ni_address_table n !! hop with
    | Some (eth, _) =>
        exists f, ipv4_frame d (ni_ethernet_address n) eth = Ok f /\ n' = push_frame f n
    | None =>
        if request_pending n hop then
          n' = with_queue (ni_dgram_delay_queue n ++ [mkDelayed d hop (ni_timer n)]) n
        else
          n' = push_frame (arp_message_frame (arp_request (ni_ethernet_address n) ip hop)
                             (ni_ethernet_address n) ETHERNET_BROADCAST)
                 (with_queue (ni_dgram_delay_queue n ++ [mkDelayed d hop (ni_timer n + 5000)]) n)
    end.
Proof.
  intros Hn Hd Hh. pose proof (own_ip n ip Hn) as Hown.
  pose proof Hn as [H1 H2 H3 H4 H5 H6]. unfold send_datagram.
  rewrite ipv4_numeric_inet, u32_id by done. cbn [rbind].
  destruct (ni_address_table n !! hop) as [[eth t]|] eqn:El.
  - destruct (ipv4_frame_ok d (ni_ethernet_address n) eth Hd) as (f & E). rewrite E. cbn [rbind].
    eexists. split; [done|]. split; [by constructor|]. split; [done|]. split; [done|]. by exists f.
  - assert (Hq : forall t, Forall (fun d => IPv4Datagram_ok (dq_dgram d) /\ 0 <= dq_ip d < W32 /\
      ni_address_table n !! dq_ip d = None) (ni_dgram_delay_queue n ++ [mkDelayed d hop t])).
    { intros t. apply Forall_app. split; [done|]. by apply Forall_singleton. }
    case_match.
    + eexists. split; [done|]. split; [constructor; try done; apply Hq|done].
    + cbn [ni_ip_address with_queue]. rewrite Hown. cbn [rbind].
      rewrite arp_frame_eq by (by apply arp_request_ok). cbn [rbind]. rewrite u64_id by lia.
      eexists. split; [done|]. split; [constructor; try done; apply Hq|done].
Qed.

(** ** Flushing *)

(** The delayed datagrams with a known next hop leave in order, the others stay
    in order. *)
Lemma flush_delayed_spec q : forall n kept,
  Forall (fun d => IPv4Datagram_ok (dq_dgram d)) q ->
  exists frames,
    flush_delayed n kept q =
      Ok (mkNetworkInterface (ni_ethernet_address n) (ni_ip_address n) (ni_frames_out n ++ frames)
            (ni_timer n) (ni_address_table n)
            (kept ++ filter (fun d => ni_address_table n !! dq_ip d = None) q)) /\
    Forall2 (fun d f => exists e, ni_address_table n !! dq_ip d = Some e /\
               ipv4_frame (dq_dgram d) (ni_ethernet_address n) e.1 = Ok f)
      (filter (fun d => is_Some (ni_address_table n !! dq_ip d)) q) frames.
Proof.
  induction q as [|d q IH]; intros n kept Hq; cbn [flush_delayed].
  { exists []. rewrite !app_nil_r. split; [done|constructor]. }
  inversion Hq as [|? ? Hd Hq']; subst.
  destruct (ni_address_table n !! dq_ip d) as [[eth t]|] eqn:El.
  - destruct (ipv4_frame_ok (dq_dgram d) (ni_ethernet_address n) eth Hd) as (f & Ef).
    rewrite Ef. cbn [rbind]. destruct (IH (push_frame f n) kept Hq') as (frames & E & HF).
    exists (f :: frames). rewrite E. cbn [ni_ethernet_address ni_ip_address ni_frames_out ni_timer
      ni_address_table push_frame]. rewrite <- app_assoc. split.
    + rewrite filter_cons_False by (rewrite El; done). done.
    + rewrite filter_cons_True by (rewrite El; eauto). constructor; [|exact HF].
      exists (eth, t). done.
  - destruct (IH n (kept ++ [d]) Hq') as (frames & E & HF). exists frames. rewrite E. split.
    + rewrite filter_cons_True by done. by rewrite <- app_assoc.
    + rewrite filter_cons_False by (rewrite El; by intros []). done.
Qed.

Lemma filter_ext_in {A} (P Q : A -> Prop) `{!forall x, Decision (P x), !forall x, Decision (Q x)} (l : list A) :
  Forall (fun x => P x <-> Q x) l -> filter P l = filter Q l.
Proof.
  induction 1 as [|x l Hx _ IH]; [done|]. destruct (decide (P x)) as [HP|HP].
  - rewrite !filter_cons_True by tauto. by rewrite IH.
  - rewrite !filter_cons_False by tauto. done.
Qed.

Lemma filter_none {A} (P : A -> Prop) `{!forall x, Decision (P x)} (l : list A) :
  (forall x, x ∈ l -> ~ P x) -> filter P l = [].
Proof.
  induction l as [|x l IH]; intros Hl; [done|]. rewrite filter_cons_False by (apply Hl; by left).
  apply IH. intros y Hy. apply Hl. by right.
Qed.

Lemma Forall2_restrict {A B} (P : A -> Prop) (R : A -> B -> Prop) l k :
  Forall P l -> Forall2 R l k -> Forall2 (fun x y => P x /\ R x y) l k.
Proof.
  intros HP HR. revert HP. induction HR as [|x y l k Hxy _ IH]; intros HP; [constructor|].
  inversion HP; subst. constructor; auto.
Qed.

(** ** Receiving ARP *)

Definition asks_for (m : ARPMessage) (ip : Z) : bool :=
  (arp_opcode m =? OPCODE_REQUEST) && (arp_target_ip_address m =? ip).

(** The answer to a request for this interface. *)
Lemma recv_arp_reply n ip m seth sip :
  ni_inv n ip -> ARPMessage_ok m ->
  sip = arp_sender_ip_address m -> seth = arp_sender_ethernet_address m ->
  forall table,
  (if arp_opcode m =? OPCODE_REQUEST then
     let* ip' := ipv4_numeric (ni_ip_address (with_table table n)) in
     if arp_target_ip_address m =? ip' then
       let* frame := arp_frame (arp_reply (ni_ethernet_address (with_table table n)) ip' seth sip)
                       (ni_ethernet_address (with_table table n)) seth in
       Ok (push_frame frame (with_table table n))
     else Ok (with_table table n)
   else Ok (with_table table n)) =
  Ok (mkNetworkInterface (ni_ethernet_address n) (ni_ip_address n)
        (ni_frames_out n ++
           if asks_for m ip then
             [arp_message_frame (arp_reply (ni_ethernet_address n) ip seth sip) (ni_ethernet_address n) seth]
           else [])
        (ni_timer n) table (ni_dgram_delay_queue n)).
Proof.
  intros Hn [Hs Hse Hsi Hte Hti] -> -> table. pose proof (own_ip n ip Hn) as Hown.
  pose proof Hn as [H1 H2 H3 H4 H5 H6].
  unfold asks_for. cbn [ni_ip_address ni_ethernet_address with_table]. rewrite Hown. cbn [rbind].
  destruct (arp_opcode m =? OPCODE_REQUEST); cbn [andb]; [|by rewrite app_nil_r].
  destruct (arp_target_ip_address m =? ip); [|by rewrite app_nil_r].
  rewrite arp_frame_eq by (by apply arp_reply_ok). done.
Qed.

(** What waits, waits for an unknown address: only the sender's becomes known. *)
Lemma waiting_known n ip sip e :
  ni_inv n ip ->
  Forall (fun d => (<[sip := e]> (ni_address_table n) !! dq_ip d = None <-> dq_ip d <> sip) /\
      (is_Some (<[sip := e]> (ni_address_table n) !! dq_ip d) <-> dq_ip d = sip)) (ni_dgram_delay_queue n).
Proof.
  intros [H1 H2 H3 H4 H5 H6]. eapply Forall_impl; [exact H6|]. intros d (_ & _ & Hd).
  destruct (decide (dq_ip d = sip)) as [->|Hne].
  - rewrite lookup_insert_eq. split; [by split|]. split; [done|by eexists].
  - rewrite lookup_insert_ne by done. rewrite Hd. split; [done|]. split; [by intros []|done].
Qed.

(** The mapping of the sender is learned, a request for this interface is
    answered, and exactly the datagrams that waited for the sender leave. *)
Lemma recv_arp_spec n ip m :
  ni_inv n ip -> ARPMessage_ok m ->
  let sip := arp_sender_ip_address m in
  let seth := arp_sender_ethernet_address m in
  exists n' frames, recv_arp n m = Ok n' /\ ni_inv n' ip /\
    (ni_timer n' = ni_timer n /\ ni_ethernet_address n' = ni_ethernet_address n) /\
    ni_address_table n' = <[sip := (seth, ni_timer n + 30000)]> (ni_address_table n) /\
    ni_frames_out n' = ni_frames_out n ++
      (if asks_for m ip then
         [arp_message_frame (arp_reply (ni_ethernet_address n) ip seth sip) (ni_ethernet_address n) seth]
       else []) ++ frames /\
    ni_dgram_delay_queue n' = filter (fun d => dq_ip d <> sip) (ni_dgram_delay_queue n) /\
    Forall2 (fun d f => ipv4_frame (dq_dgram d) (ni_ethernet_address n) seth = Ok f)
      (filter (fun d => dq_ip d = sip) (ni_dgram_delay_queue n)) frames.
Proof.
  intros Hn [Hs Hse Hsi Hte Hti] sip seth. pose proof (own_ip n ip Hn) as Hown.
  pose proof Hn as [H1 H2 H3 H4 H5 H6]. unfold recv_arp. fold sip seth. rewrite u64_id by lia.
  change (5 * 1000) with 5000. change (30 * 1000) with 30000.
  set (table := <[sip := (seth, ni_timer n + 30000)]> (ni_address_table n)).
  rewrite (recv_arp_reply n ip m seth sip) by done.
  cbn [rbind ni_dgram_delay_queue]. set (n1 := mkNetworkInterface _ _ _ _ _ _).
  destruct (flush_delayed_spec (ni_dgram_delay_queue n) n1 []) as (frames & Ef & HF).
  { eapply Forall_impl; [exact H6|]. by intros d (? & _). }
  pose proof (waiting_known n ip sip (seth, ni_timer n + 30000) Hn) as Hknown. fold table in Hknown.
  rewrite Ef. eexists _, frames. split; [done|].
  unfold n1. cbn [ni_frames_out ni_timer ni_address_table ni_dgram_delay_queue app].
  rewrite (filter_ext_in _ (fun d => dq_ip d <> sip)).
  2:{ eapply Forall_impl; [exact Hknown|]. by intros d []. }
  rewrite (filter_ext_in _ (fun d => dq_ip d = sip)) in HF.
  2:{ eapply Forall_impl; [exact Hknown|]. by intros d []. }
  assert (Hsplit : Forall (fun d => IPv4Datagram_ok (dq_dgram d) /\ 0 <= dq_ip d < W32 /\ table !! dq_ip d = None)
      (filter (fun d => dq_ip d <> sip) (ni_dgram_delay_queue n))).
  { apply Forall_forall. intros d Hd. apply list_elem_of_filter in Hd as [Hd1 Hd2].
    rewrite Forall_forall in H6. destruct (H6 d Hd2) as (? & ? & ?). split; [done|]. split; [done|].
    unfold table. by rewrite lookup_insert_ne. }
  split; [|split; [done|split; [done|split; [by rewrite <- app_assoc|split; [done|]]]]].
  - constructor; try done. cbn. apply map_Forall_insert_2; [|done]. split; [done|]. split; [done|].
    cbn. lia.
  - apply (Forall2_restrict (fun d => dq_ip d = sip)) in HF.
    + eapply Forall2_impl; [exact HF|]. intros d f [Hd (e & He & Hf)]. cbn in He.
      unfold table in He. rewrite Hd, lookup_insert_eq in He. by injection He as <-.
    + apply Forall_forall. intros d Hd. by apply list_elem_of_filter in Hd as [? _].
Qed.

(** ** Every operation *)

Inductive ni_op : Type :=
  | NSend (d : InternetDatagram) (hop : Z)
  | NRecv (frame : EthernetFrame)
  | NTick (ms : Z)
  | NPop.

Definition ni_step (n : NetworkInterface) (o : ni_op) : result NetworkInterface :=
  match o with
  | NSend d hop => send_datagram n d (inet hop)
  | NRecv f => let* (n, _) := recv_frame n f in Ok n
  | NTick ms => Ok (ni_tick n ms)
  | NPop => Ok (mkNetworkInterface (ni_ethernet_address n) (ni_ip_address n) (drop 1 (ni_frames_out n))
                  (ni_timer n) (ni_address_table n) (ni_dgram_delay_queue n))
  end.

(** A frame from the network has its payload in one buffer. *)
Definition ni_op_ok (n : NetworkInterface) (o : ni_op) : Prop :=
  match o with
  | NSend d hop => IPv4Datagram_ok d /\ 0 <= hop < W32
  | NRecv f => exists b, ef_payload f = [b] /\ buf_ok b
  | NTick ms => 0 <= ms /\ ni_timer n + ms < W64 - W32
  | NPop => True
  end.

Lemma ni_tick_lookup n ms a :
  ni_address_table (ni_tick n ms) !! a =
    match ni_address_table n !! a with
    | Some e => if e.2 <? ni_timer n +! ms then None else Some e
    | None => None
    end.
Proof.
  cbn. rewrite map_lookup_filter. destruct (ni_address_table n !! a) as [[e t]|]; cbn; [|done].
  destruct (Z.ltb_spec t (ni_timer n +! ms)); [rewrite option_guard_False|rewrite option_guard_True];
    cbn; done || lia.
Qed.

Lemma ni_tick_inv n ip ms :
  ni_inv n ip -> 0 <= ms -> ni_timer n + ms < W64 - W32 -> ni_inv (ni_tick n ms) ip.
Proof.
  intros [H1 H2 H3 H4 H5 H6] Hms Hb.
  assert (Ht : ni_timer n +! ms = ni_timer n + ms) by (rewrite u64_id; lia).
  constructor; try done; [cbn; lia| |].
  - intros a e He. rewrite ni_tick_lookup in He. cbn [ni_timer ni_tick]. rewrite Ht in *.
    destruct (ni_address_table n !! a) as [e'|] eqn:El; [|done].
    destruct (Z.ltb_spec e'.2 (ni_timer n + ms)); [done|]. injection He as <-.
    destruct (H5 a e' El) as (? & ? & ?). split; [done|]. split; [done|]. lia.
  - eapply Forall_impl; [exact H6|]. intros d (A & B & C). split; [done|]. split; [done|].
    rewrite ni_tick_lookup, C. done.
Qed.

(** What [recv_frame] does with a frame. *)
Definition for_me (n : NetworkInterface) (f : EthernetFrame) : Prop :=
  eh_dst (ef_header f) = ni_ethernet_address n \/ eh_dst (ef_header f) = ETHERNET_BROADCAST.

Lemma for_me_false n f :
  negb (bool_decide (eh_dst (ef_header f) = ni_ethernet_address n))
    && negb (bool_decide (eh_dst (ef_header f) = ETHERNET_BROADCAST)) = true <-> ~ for_me n f.
Proof. unfold for_me. rewrite andb_true_iff, !negb_true_iff, !bool_decide_eq_false. tauto. Qed.

Lemma for_me_true n f :
  negb (bool_decide (eh_dst (ef_header f) = ni_ethernet_address n))
    && negb (bool_decide (eh_dst (ef_header f) = ETHERNET_BROADCAST)) = false <-> for_me n f.
Proof. unfold for_me. rewrite andb_false_iff, !negb_false_iff, !bool_decide_eq_true. tauto. Qed.

Lemma recv_frame_spec n ip f b :
  ni_inv n ip -> ef_payload f = [b] -> buf_ok b ->
  exists n' r, recv_frame n f = Ok (n', r) /\ ni_inv n' ip /\
    ((~ for_me n f /\ n' = n /\ r = None) \/
     (for_me n f /\ eh_type (ef_header f) = TYPE_IPv4 /\ n' = n /\
        exists e d, IPv4Datagram_parse new_IPv4Datagram b = Ok (e, d) /\
          r = (if pr_eqb e NoError then Some d else None)) \/
     (for_me n f /\ eh_type (ef_header f) <> TYPE_IPv4 /\ r = None /\
        exists e m, ARPMessage_parse new_ARPMessage b = Ok (e, m) /\
          ((e <> NoError /\ n' = n) \/ (e = NoError /\ ARPMessage_ok m /\ recv_arp n m = Ok n')))).
Proof.
  intros Hn Hp Hb. unfold recv_frame. destruct (negb _ && negb _) eqn:Eme.
  { apply for_me_false in Eme. exists n, None. split; [done|]. split; [done|]. by left. }
  assert (Hme : for_me n f) by (by apply for_me_true).
  rewrite Hp. cbn [bl_to_Buffer rbind].
  destruct (Z.eqb_spec (eh_type (ef_header f)) TYPE_IPv4) as [Et|Et].
  - destruct (datagram_parse_cases new_IPv4Datagram b Hb) as (e & d & E & _). rewrite E. cbn [rbind].
    exists n, (if pr_eqb e NoError then Some d else None). split; [by destruct (pr_eqb e NoError)|].
    split; [done|]. right. left. split; [done|]. split; [done|]. split; [done|]. by exists e, d.
  - destruct (arp_parse_cases new_ARPMessage b Hb) as (e & m & E & _ & _ & _ & Hm & _). rewrite E. cbn [rbind].
    unfold pr_eqb. destruct (bool_decide_reflect (e = NoError)) as [He|He]; cbn [negb].
    + destruct (recv_arp_spec n ip m Hn (Hm He)) as (n' & frames & Er & Hn' & _). rewrite Er. cbn [rbind].
      exists n', None. split; [done|]. split; [done|]. right. right. split; [done|]. split; [done|].
      split; [done|]. exists e, m. split; [done|]. right. auto.
    + exists n, None. split; [done|]. split; [done|]. right. right. split; [done|]. split; [done|].
      split; [done|]. exists e, m. split; [done|]. by left.
Qed.

(** A frame that an interface sends. *)
Definition frame_ok (f : EthernetFrame) : Prop :=
  ea_ok (eh_dst (ef_header f)) /\ ea_ok (eh_src (ef_header f)) /\ zlen (bl_concatenate (ef_payload f)) < W16.

(** Between receiving and sending, such frames are added, none is removed, and no
    time passes. *)
Definition ni_grows (n n' : NetworkInterface) : Prop :=
  (exists extra, ni_frames_out n' = ni_frames_out n ++ extra /\ Forall frame_ok extra) /\ ni_timer n' = ni_timer n.

Lemma ni_grows_refl n : ni_grows n n.
Proof. split; [|done]. exists []. by rewrite app_nil_r. Qed.
Lemma ni_grows_trans n1 n2 n3 : ni_grows n1 n2 -> ni_grows n2 n3 -> ni_grows n1 n3.
Proof.
  intros [(e1 & H1 & F1) H2] [(e2 & H3 & F2) H4]. split; [|congruence]. exists (e1 ++ e2).
  split; [by rewrite H3, H1, app_assoc|by apply Forall_app_2].
Qed.

Lemma ipv4_frame_sendable d src dst f : IPv4Datagram_ok d -> ea_ok src -> ea_ok dst -> ipv4_frame d src dst = Ok f -> frame_ok f.
Proof.
  intros Hd Hs Ht E. unfold ipv4_frame in E. destruct (datagram_wire d Hd) as (l & El & Hl & _). rewrite El in E.
  injection E as <-. done.
Qed.

Lemma arp_frame_sendable m src dst : ARPMessage_ok m -> ea_ok src -> ea_ok dst -> frame_ok (arp_message_frame m src dst).
Proof.
  intros Hm Hs Hd. split; [done|]. split; [done|]. cbn [ef_payload arp_message_frame]. unfold BufferList_of.
  rewrite concatenate_cons, buf_str_of, zlen_app, arp_bytes_len by done. change (zlen (bl_concatenate [])) with 0. lia.
Qed.

Lemma recv_frame_grows n ip f b n' r :
  ni_inv n ip -> ef_payload f = [b] -> buf_ok b -> recv_frame n f = Ok (n', r) -> ni_grows n n'.
Proof.
  intros Hn Hp Hb E. destruct (recv_frame_spec n ip f b Hn Hp Hb) as (n1 & r1 & E1 & _ & Hc).
  rewrite E in E1. injection E1 as <- <-. pose proof (ni_grows_refl n).
  destruct Hc as [(_ & -> & _)|[(_ & _ & -> & _)|(_ & _ & _ & e & m & _ & [[_ ->]|(_ & Hm & Ea)])]]; [done..|].
  destruct (recv_arp_spec n ip m Hn Hm) as (n2 & fr & E2 & _ & [Et _] & _ & Ef & _ & Hfr). rewrite Ea in E2. injection E2 as <-.
  split; [|done]. rewrite Ef. eexists. split; [done|]. pose proof Hn as [H1 _ H3 _ _ H6]. pose proof Hm as [].
  apply Forall_app_2; [destruct (asks_for m ip); [|done]; constructor; [|done]; apply arp_frame_sendable; [by apply arp_reply_ok|done..]|].
  apply Forall_forall. intros x Hx. apply list_elem_of_lookup in Hx as (k & Hk).
  destruct (Forall2_lookup_r _ _ _ _ _ Hfr Hk) as (y & Hy & Ey). apply list_elem_of_lookup_2, list_elem_of_filter in Hy as [_ Hy].
  destruct (proj1 (Forall_forall _ _) H6 y Hy) as [Hok _]. exact (ipv4_frame_sendable _ _ _ _ Hok H1 ao_sender Ey).
Qed.

Lemma send_datagram_grows n ip d hop n' :
  ni_inv n ip -> IPv4Datagram_ok d -> 0 <= hop < W32 -> send_datagram n d (inet hop) = Ok n' -> ni_grows n n'.
Proof.
  intros Hn Hd Hh E. destruct (send_datagram_spec n ip d hop Hn Hd Hh) as (n1 & E1 & _ & Et & _ & Hc).
  rewrite E in E1. injection E1 as <-. pose proof Hn as [H1 _ H3 _ H5 _]. split; [|done].
  destruct (ni_address_table n !! hop) as [[eth t]|] eqn:El.
  - destruct Hc as (f & Ef & ->). exists [f]. split; [done|]. constructor; [|done].
    destruct (H5 _ _ El) as (_ & He & _). exact (ipv4_frame_sendable _ _ _ _ Hd H1 He Ef).
  - destruct (request_pending n hop); subst n'; [exists []; by rewrite app_nil_r|].
    eexists. split; [done|]. constructor; [|done]. apply arp_frame_sendable; [by apply arp_request_ok|done|apply broadcast_ok].
Qed.

Lemma ni_step_inv n ip o :
  ni_inv n ip -> ni_op_ok n o -> exists n', ni_step n o = Ok n' /\ ni_inv n' ip.
Proof.
  intros Hn Ho. destruct o; cbn [ni_step ni_op_ok] in *.
  - destruct Ho as [Hd Hh]. destruct (send_datagram_spec n ip d hop Hn Hd Hh) as (n' & E & H & _). eauto.
  - destruct Ho as (b & Hp & Hb). destruct (recv_frame_spec n ip frame b Hn Hp Hb) as (n' & r & E & H & _).
    rewrite E. cbn [rbind]. eauto.
  - destruct Ho. eexists. split; [done|]. by apply ni_tick_inv.
  - eexists. split; [done|]. by destruct Hn.
Qed.

(** ** Runs of an interface *)

Inductive ni_steps : NetworkInterface -> NetworkInterface -> Prop :=
  | ns_refl n : ni_steps n n
  | ns_step n1 n2 o n3 :
      ni_steps n1 n2 -> ni_op_ok n2 o -> ni_step n2 o = Ok n3 -> ni_steps n1 n3.

Lemma ni_steps_inv n ip n' : ni_inv n ip -> ni_steps n n' -> ni_inv n' ip.
Proof.
  intros Hn. induction 1 as [|n1 n2 o n3 _ IH Ho E]; [done|].
  destruct (ni_step_inv n2 ip o (IH Hn) Ho) as (n3' & E' & H). congruence.
Qed.

(** A request for [hop] counts until [t]: a datagram waits that long for the
    answer, or the answer came and lasts that long. *)
Definition asked (hop t : Z) (n : NetworkInterface) : Prop :=
  (exists d, d ∈ ni_dgram_delay_queue n /\ dq_ip d = hop /\ t <= dq_time d) \/
  (exists e, ni_address_table n !! hop = Some e /\ t <= e.2).

Lemma recv_arp_asked n ip m n' hop t :
  ni_inv n ip -> ARPMessage_ok m -> t <= ni_timer n + 30000 ->
  recv_arp n m = Ok n' -> asked hop t n -> asked hop t n'.
Proof.
  intros Hn Hm Ht E Ha. destruct (recv_arp_spec n ip m Hn Hm) as (n'' & fr & E' & _ & _ & Htab & _ & Hq & _).
  rewrite E in E'. injection E' as <-.
  destruct (decide (arp_sender_ip_address m = hop)) as [<-|Hne].
  - right. eexists. rewrite Htab, lookup_insert_eq. split; [done|]. cbn. lia.
  - destruct Ha as [(d & Hd & <- & Hdt)|(e & He & Het)].
    + left. exists d. rewrite Hq, list_elem_of_filter. auto.
    + right. exists e. by rewrite Htab, lookup_insert_ne.
Qed.

Lemma recv_frame_asked n ip f r n' hop t b :
  ni_inv n ip -> ef_payload f = [b] -> buf_ok b -> t <= ni_timer n + 30000 ->
  recv_frame n f = Ok (n', r) -> asked hop t n -> asked hop t n'.
Proof.
  intros Hn Hp Hb Ht E Ha.
  destruct (recv_frame_spec n ip f b Hn Hp Hb) as (n'' & r' & E' & _ & Hc).
  rewrite E in E'. injection E' as <- <-.
  destruct Hc as [(_ & -> & _)|[(_ & _ & -> & _)|(_ & _ & _ & e & m & _ & [[_ ->]|(_ & Hm & Er)])]]; try done.
  by eapply recv_arp_asked.
Qed.

Lemma send_datagram_asked n ip d h n' hop t :
  ni_inv n ip -> IPv4Datagram_ok d -> 0 <= h < W32 ->
  send_datagram n d (inet h) = Ok n' -> asked hop t n -> asked hop t n'.
Proof.
  intros Hn Hd Hh E Ha. destruct (send_datagram_spec n ip d h Hn Hd Hh) as (n'' & E' & _ & _ & Ht & Hc).
  rewrite E in E'. injection E' as <-. destruct Ha as [(x & Hx & Hxh)|He].
  - left. exists x. split; [|done].
    destruct (ni_address_table n !! h) as [[eth t']|]; [by destruct Hc as (f & _ & ->)|].
    destruct (request_pending n h); subst n'; cbn; apply elem_of_app; by left.
  - right. by rewrite Ht.
Qed.

Lemma ni_step_asked n ip o n' hop t :
  ni_inv n ip -> ni_op_ok n o -> ni_step n o = Ok n' -> ni_timer n <= t <= ni_timer n + 30000 ->
  ni_timer n' <= t -> asked hop t n -> asked hop t n'.
Proof.
  intros Hn Ho E Ht Ht' Ha. destruct o as [d h|f|ms|]; cbn [ni_step ni_op_ok] in *.
  - destruct Ho. by eapply send_datagram_asked.
  - destruct Ho as (b & Hp & Hb). destruct (recv_frame n f) as [[n1 r]|] eqn:Er; [|done].
    cbn [rbind] in E. injection E as <-. eapply recv_frame_asked; eauto. lia.
  - injection E as <-. destruct Ha as [Hd|(e & He & Het)]; [by left|]. right. exists e.
    rewrite ni_tick_lookup, He. split; [|done]. destruct (Z.ltb_spec e.2 (ni_timer n +! ms)); [|done].
    cbn in Ht'. lia.
  - by injection E as <-.
Qed.

Lemma ni_step_timer n ip o n' :
  ni_inv n ip -> ni_op_ok n o -> ni_step n o = Ok n' -> ni_timer n <= ni_timer n'.
Proof.
  intros Hn Ho E. pose proof (nii_timer n ip Hn). destruct o as [d h|f|ms|]; cbn [ni_step ni_op_ok] in *.
  - destruct Ho as [Hd Hh]. destruct (send_datagram_spec n ip d h Hn Hd Hh) as (n'' & E' & _ & Et & _).
    rewrite E in E'. injection E' as <-. lia.
  - destruct Ho as (b & Hp & Hb). destruct (recv_frame n f) as [[n1 r]|] eqn:Er; [|done].
    cbn [rbind] in E. injection E as <-.
    destruct (recv_frame_spec n ip f b Hn Hp Hb) as (n'' & r' & E' & _ & Hc).
    rewrite Er in E'. injection E' as <- <-.
    destruct Hc as [(_ & -> & _)|[(_ & _ & -> & _)|(_ & _ & _ & e & m & _ & [[_ ->]|(_ & Hm & Ea)])]]; try lia.
    destruct (recv_arp_spec n ip m Hn Hm) as (n'' & fr & E' & _ & Et & _).
    rewrite Ea in E'. injection E' as <-. lia.
  - injection E as <-. cbn. rewrite u64_id by lia. lia.
  - injection E as <-. cbn. lia.
Qed.

Lemma ni_steps_asked n ip n' hop t :
  ni_inv n ip -> ni_steps n n' -> ni_timer n <= t <= ni_timer n + 30000 -> ni_timer n' <= t ->
  asked hop t n -> asked hop t n' /\ ni_timer n <= ni_timer n'.
Proof.
  intros Hn Hs Ht. induction Hs as [|n1 n2 o n3 Hs IH Ho E]; intros Ht' Ha; [split; [done|lia]|].
  pose proof (ni_steps_inv _ _ _ Hn Hs) as Hn2. pose proof (ni_step_timer _ _ _ _ Hn2 Ho E).
  destruct (IH Hn Ht) as [Ha2 Hle]; [lia|done|]. split; [|lia]. eapply ni_step_asked; eauto. lia.
Qed.

(** ** Correctness *)

(** C29: Every operation on an interface succeeds and keeps the invariant:
    sending a datagram of version 4 whose fields are within their widths and
    whose length field is right, receiving a frame whose payload is one buffer
    of any content whatsoever, as parsing gives it, and letting time pass while
    the clock stays below [2^64 - 2^32]. Known addresses expire within thirty
    seconds, and no datagram waits for an address that is known. *)
Theorem interface_invariant eth ip n o :
  ea_ok eth -> 0 <= ip < W32 -> ni_steps (new_NetworkInterface eth (inet ip)) n -> ni_op_ok n o ->
  ni_inv n ip /\ exists n', ni_step n o = Ok n' /\ ni_inv n' ip /\
    (forall d, d ∈ ni_dgram_delay_queue n' -> ni_address_table n' !! dq_ip d = None).
Proof.
  intros He Hi Hs Ho. pose proof (ni_steps_inv _ ip _ (new_NetworkInterface_inv eth ip He Hi) Hs) as Hn.
  split; [done|]. destruct (ni_step_inv n ip o Hn Ho) as (n' & E & Hn'). exists n'. split; [done|].
  split; [done|]. intros d Hd. pose proof (nii_queue n' ip Hn') as Hq. rewrite Forall_forall in Hq.
  by apply Hq.
Qed.

(** Sending.  With a known next hop the datagram leaves in a frame to it;
    otherwise it waits, and a request is broadcast unless one for that hop was
    sent in the last five seconds. *)
Theorem interface_send n ip d hop :
  ni_inv n ip -> IPv4Datagram_ok d -> 0 <= hop < W32 ->
  exists n', send_datagram n d (inet hop) = Ok n' /\ ni_inv n' ip /\
    match ni_address_table n !! hop with
    | Some (eth, _) =>
        exists s, IPv4Datagram_serialize d = Ok s /\
          ni_frames_out n' = ni_frames_out n ++
            [mkEthernetFrame (mkEthernetHeader eth (ni_ethernet_address n) TYPE_IPv4) s] /\
          ni_dgram_delay_queue n' = ni_dgram_delay_queue n
    | None =>
        map dq_dgram (ni_dgram_delay_queue n') = map dq_dgram (ni_dgram_delay_queue n) ++ [d] /\
        ((exists w, w ∈ ni_dgram_delay_queue n /\ dq_ip w = hop /\ ni_timer n < dq_time w) ->
           ni_frames_out n' = ni_frames_out n) /\
        ((forall w, w ∈ ni_dgram_delay_queue n -> dq_ip w = hop -> dq_time w <= ni_timer n) ->
           ni_frames_out n' = ni_frames_out n ++
             [arp_message_frame (arp_request (ni_ethernet_address n) ip hop)
                (ni_ethernet_address n) ETHERNET_BROADCAST])
    end.
Proof.
  intros Hn Hd Hh. destruct (send_datagram_spec n ip d hop Hn Hd Hh) as (n' & E & Hn' & _ & _ & Hc).
  exists n'. split; [done|]. split; [done|].
  destruct (ni_address_table n !! hop) as [[eth t]|].
  - destruct Hc as (f & Ef & ->). unfold ipv4_frame in Ef.
    destruct (IPv4Datagram_serialize d) as [s|]; [|done]. injection Ef as <-. by exists s.
  - destruct (request_pending n hop) eqn:Ep; rewrite Hc; cbn; rewrite map_app.
    + split; [done|]. split; [done|]. intros Hw. exfalso.
      apply existsb_exists in Ep as (w & Hi & Ew). apply list_elem_of_In in Hi. zb.
      specialize (Hw w Hi). lia.
    + split; [done|]. split; [|done]. intros (w & Hi & Ew & Ht). exfalso.
      assert (request_pending n hop = true); [|congruence]. apply existsb_exists. exists w.
      split; [by apply list_elem_of_In|]. rewrite Ew, Z.eqb_refl. cbn. lia.
Qed.

(** At most one request in five seconds: after a request for a hop was
    sent, whatever the interface does and receives, a send to that hop within
    five seconds pushes no other request. *)
Theorem interface_one_request n ip d hop n1 n2 d' :
  ni_inv n ip -> IPv4Datagram_ok d -> 0 <= hop < W32 ->
  ni_address_table n !! hop = None -> send_datagram n d (inet hop) = Ok n1 ->
  request_pending n hop = false ->
  ni_steps n1 n2 -> ni_timer n2 < ni_timer n + 5000 -> IPv4Datagram_ok d' ->
  exists n3, send_datagram n2 d' (inet hop) = Ok n3 /\
    (ni_frames_out n3 = ni_frames_out n2 \/
     exists f, ni_frames_out n3 = ni_frames_out n2 ++ [f] /\ eh_type (ef_header f) = TYPE_IPv4).
Proof.
  intros Hn Hd Hh Et E1 Ep Hs Ht Hd'.
  destruct (send_datagram_spec n ip d hop Hn Hd Hh) as (n1' & E & Hn1 & Ht1 & _ & Hc).
  rewrite E1 in E. injection E as <-. rewrite Et, Ep in Hc.
  assert (Ha : asked hop (ni_timer n + 5000) n1).
  { left. exists (mkDelayed d hop (ni_timer n + 5000)). rewrite Hc. cbn. split; [|done].
    apply elem_of_app. right. by apply list_elem_of_singleton. }
  destruct (ni_steps_asked n1 ip n2 hop (ni_timer n + 5000) Hn1 Hs) as [Ha2 _]; try lia; [done|].
  destruct (send_datagram_spec n2 ip d' hop (ni_steps_inv _ _ _ Hn1 Hs) Hd' Hh)
    as (n3 & E3 & _ & _ & _ & Hc3).
  exists n3. split; [done|]. destruct (ni_address_table n2 !! hop) as [[eth t]|] eqn:El.
  - destruct Hc3 as (f & Ef & ->). right. exists f. split; [done|]. unfold ipv4_frame in Ef.
    destruct (IPv4Datagram_serialize d'); [|done]. by injection Ef as <-.
  - left. destruct Ha2 as [(w & Hw & Ew & Hwt)|(e & He & _)]; [|congruence].
    assert (Epp : request_pending n2 hop = true).
    { apply existsb_exists. exists w. split; [by apply list_elem_of_In|]. rewrite Ew, Z.eqb_refl. cbn. lia. }
    rewrite Epp in Hc3. by rewrite Hc3.
Qed.

(** Learning.  An ARP message addressed to the interface, request or reply,
    teaches it the sender's address for thirty seconds; a request for its own
    address is answered; the datagrams that waited for the sender leave, in
    order, and the others keep waiting. *)
Theorem interface_learns n ip f m l :
  ni_inv n ip -> for_me n f -> eh_type (ef_header f) = TYPE_ARP -> ARPMessage_ok m ->
  ef_payload f = BufferList_of (arp_bytes m ++ l) -> zlen l + 28 < W64 ->
  exists n' frames, recv_frame n f = Ok (n', None) /\
    ni_address_table n' = <[arp_sender_ip_address m :=
      (arp_sender_ethernet_address m, ni_timer n + 30000)]> (ni_address_table n) /\
    ni_frames_out n' = ni_frames_out n ++
      (if asks_for m ip then
         [arp_message_frame (arp_reply (ni_ethernet_address n) ip (arp_sender_ethernet_address m)
            (arp_sender_ip_address m)) (ni_ethernet_address n) (arp_sender_ethernet_address m)]
       else []) ++ frames /\
    ni_dgram_delay_queue n' =
      filter (fun d => dq_ip d <> arp_sender_ip_address m) (ni_dgram_delay_queue n) /\
    Forall2 (fun d f => ipv4_frame (dq_dgram d) (ni_ethernet_address n) (arp_sender_ethernet_address m) = Ok f)
      (filter (fun d => dq_ip d = arp_sender_ip_address m) (ni_dgram_delay_queue n)) frames.
Proof.
  intros Hn Hme Ht Hm Hp Hl.
  destruct (recv_arp_spec n ip m Hn Hm) as (n' & fr & E & _ & _ & Htab & Hf & Hq & HF).
  exists n', fr. split; [|done]. unfold recv_frame. rewrite (proj2 (for_me_true n f) Hme), Ht, Hp.
  change (TYPE_ARP =? TYPE_IPv4) with false. cbn [BufferList_of bl_to_Buffer rbind].
  rewrite (ARPMessage_parse_bytes m _ _ l Hm); [|apply Buffer_of_ok; rewrite zlen_app, arp_bytes_len by done; lia|done].
  cbn [rbind]. change (negb (pr_eqb NoError NoError)) with false.
  cbn iota. by rewrite E.
Qed.

(** Time.  After a tick an address is known exactly when it was known and its
    thirty seconds are not over; nothing else changes. *)
Theorem interface_tick n ip ms a eth :
  ni_inv n ip -> 0 <= ms -> ni_timer n + ms < W64 - W32 ->
  ((exists t, ni_address_table (ni_tick n ms) !! a = Some (eth, t)) <->
   (exists t, ni_address_table n !! a = Some (eth, t) /\ ni_timer n + ms <= t)) /\
  (30000 < ms -> ni_address_table (ni_tick n ms) = ∅) /\
  ni_frames_out (ni_tick n ms) = ni_frames_out n /\
  ni_dgram_delay_queue (ni_tick n ms) = ni_dgram_delay_queue n.
Proof.
  intros Hn Hms Hb. pose proof (nii_timer n ip Hn).
  assert (Ht : ni_timer n +! ms = ni_timer n + ms) by (rewrite u64_id; lia).
  split; [|split; [|done]].
  - rewrite ni_tick_lookup, Ht. destruct (ni_address_table n !! a) as [[e t]|]; cbn [snd].
    + destruct (Z.ltb_spec t (ni_timer n + ms)); naive_solver lia.
    + naive_solver.
  - intros Hlong. apply map_eq. intros x. rewrite ni_tick_lookup, Ht, lookup_empty.
    destruct (ni_address_table n !! x) as [[e t]|] eqn:El; [|done].
    destruct (nii_table n ip Hn x _ El) as (_ & _ & Hr). cbn [snd] in *.
    destruct (Z.ltb_spec t (ni_timer n + ms)); [done|lia].
Qed.

(** ** Two interfaces on one wire *)

(** A frame as its receiver gets it: serialised, parsed, and received. *)
Definition deliver (n : NetworkInterface) (f : EthernetFrame)
    : result (NetworkInterface * option InternetDatagram) :=
  let* (r, f') := EthernetFrame_parse new_EthernetFrame
                    (Buffer_of (bl_concatenate (EthernetFrame_serialize f))) in
  if negb (pr_eqb r NoError) then Ok (n, None) else recv_frame n f'.

Lemma deliver_arp n ip m src dst :
  ni_inv n ip -> ARPMessage_ok m -> ea_ok src -> ea_ok dst ->
  dst = ni_ethernet_address n \/ dst = ETHERNET_BROADCAST ->
  deliver n (arp_message_frame m src dst) = let* n' := recv_arp n m in Ok (n', None).
Proof.
  intros Hn Hm Hs Hd Hme. unfold deliver.
  destruct (EthernetFrame_parse_bytes (arp_message_frame m src dst) new_EthernetFrame) as (b & -> & Hb & Hbs).
  { by constructor. }
  { cbn [ef_payload arp_message_frame]. unfold BufferList_of. rewrite concatenate_cons, buf_str_of, zlen_app,
      arp_bytes_len by done.
    change (zlen (bl_concatenate [])) with 0. lia. }
  cbn [rbind]. change (negb (pr_eqb NoError NoError)) with false. cbn iota.
  unfold recv_frame. set (f := mkEthernetFrame _ [b]).
  rewrite (proj2 (for_me_true n f) Hme). cbn [ef_header ef_payload eh_type arp_message_frame f].
  change (TYPE_ARP =? TYPE_IPv4) with false. cbn [bl_to_Buffer rbind].
  rewrite (ARPMessage_parse_bytes m _ b [] Hm Hb); [done|]. rewrite Hbs.
  cbn [ef_payload arp_message_frame]. unfold BufferList_of. by rewrite concatenate_cons, buf_str_of.
Qed.

Lemma deliver_ipv4 n d src f :
  IPv4Datagram_ok d -> ea_ok src -> ea_ok (ni_ethernet_address n) ->
  ipv4_frame d src (ni_ethernet_address n) = Ok f ->
  exists d', deliver n f = Ok (n, Some d') /\
    ip_header d' = set_ip_cksum (ih_cksum (ip_header d')) (ip_header d) /\
    bl_concatenate (ip_payload d') = bl_concatenate (ip_payload d) /\ IPv4Datagram_ok d'.
Proof.
  intros Hd Hs Hn Ef. unfold ipv4_frame in Ef. destruct (datagram_wire d Hd) as (l & El & Hl & Hw).
  rewrite El in Ef. cbn [rbind] in Ef. injection Ef as <-. unfold deliver.
  destruct (EthernetFrame_parse_bytes (mkEthernetFrame (mkEthernetHeader (ni_ethernet_address n) src TYPE_IPv4) l)
    new_EthernetFrame) as (b & -> & Hb & Hbs); [by constructor|cbn [ef_payload]; lia|].
  cbn [rbind]. change (negb (pr_eqb NoError NoError)) with false. cbn iota.
  unfold recv_frame. set (f := mkEthernetFrame _ [b]).
  assert (Hme : for_me n f) by by left.
  rewrite (proj2 (for_me_true n f) Hme). cbn [ef_header ef_payload eh_type f].
  change (TYPE_IPv4 =? TYPE_IPv4) with true. cbn [bl_to_Buffer rbind].
  destruct (Hw b new_IPv4Datagram Hb Hbs) as (d' & -> & _ & H1 & H2 & H3). cbn [rbind].
  by exists d'.
Qed.

(** C28: Address resolution from end to end: when an interface sends a datagram to
    a neighbour it does not know, its request, the neighbour's reply and the
    frame that then leaves, each carried as bytes, end with the neighbour
    handing up the datagram; afterwards each knows the other. *)
Theorem interface_resolution a b ipa ipb d :
  ni_inv a ipa -> ni_inv b ipb -> IPv4Datagram_ok d -> ni_address_table a !! ipb = None ->
  (forall w, w ∈ ni_dgram_delay_queue a -> dq_ip w <> ipb) ->
  exists a1 request b1 reply more a2 f d',
    send_datagram a d (inet ipb) = Ok a1 /\ ni_frames_out a1 = ni_frames_out a ++ [request] /\
    deliver b request = Ok (b1, None) /\ ni_frames_out b1 = ni_frames_out b ++ reply :: more /\
    deliver a1 reply = Ok (a2, None) /\ ni_frames_out a2 = ni_frames_out a1 ++ [f] /\
    deliver b1 f = Ok (b1, Some d') /\
    ip_header d' = set_ip_cksum (ih_cksum (ip_header d')) (ip_header d) /\
    bl_concatenate (ip_payload d') = bl_concatenate (ip_payload d) /\
    ni_address_table a2 !! ipb = Some (ni_ethernet_address b, ni_timer a + 30000) /\
    ni_address_table b1 !! ipa = Some (ni_ethernet_address a, ni_timer b + 30000).
Proof.
  intros Ha Hb Hd Ht Hq. pose proof Ha as [Hae Hai Hair Hat _ _]. pose proof Hb as [Hbe Hbi Hbir Hbt _ _].
  destruct (send_datagram_spec a ipa d ipb Ha Hd Hbir) as (a1 & Ea & Ha1 & Ht1 & Htab1 & Hc).
  assert (Ep : request_pending a ipb = false).
  { apply not_true_is_false. intros E. apply existsb_exists in E as (w & Hi & Ew).
    apply list_elem_of_In in Hi. zb. by apply (Hq w). }
  rewrite Ht, Ep in Hc.
  assert (Hea : ni_ethernet_address a1 = ni_ethernet_address a) by by rewrite Hc.
  assert (Hra : ARPMessage_ok (arp_request (ni_ethernet_address a) ipa ipb)) by by apply arp_request_ok.
  destruct (recv_arp_spec b ipb (arp_request (ni_ethernet_address a) ipa ipb) Hb Hra)
    as (b1 & more & Eb & Hb1 & Htb & Htabb & Hfb & _ & _).
  assert (Hask : asks_for (arp_request (ni_ethernet_address a) ipa ipb) ipb = true).
  { unfold asks_for. cbn. by rewrite Z.eqb_refl. }
  rewrite Hask in Hfb. cbn [arp_sender_ethernet_address arp_sender_ip_address arp_request] in *.
  destruct Htb as [_ Heb].
  set (rep := arp_reply (ni_ethernet_address b) ipb (ni_ethernet_address a) ipa) in *.
  assert (Hrb : ARPMessage_ok rep) by by apply arp_reply_ok.
  destruct (recv_arp_spec a1 ipa rep Ha1 Hrb) as (a2 & fs & Ea2 & Ha2 & Hta2 & Htaba & Hfa & _ & HF).
  change (asks_for rep ipa) with false in Hfa. cbn [app] in Hfa.
  change (arp_sender_ip_address rep) with ipb in *.
  change (arp_sender_ethernet_address rep) with (ni_ethernet_address b) in *.
  assert (Hf1 : filter (fun w => dq_ip w = ipb) (ni_dgram_delay_queue a1) = [mkDelayed d ipb (ni_timer a + 5000)]).
  { rewrite Hc. cbn [ni_dgram_delay_queue push_frame with_queue]. rewrite filter_app, filter_none by done.
    by rewrite filter_cons_True. }
  rewrite Hf1 in HF. apply Forall2_cons_inv_l in HF as (f & fs' & Ef & HF & ->).
  apply Forall2_nil_inv_l in HF as ->. cbn [dq_dgram] in Ef. rewrite Hea, <- Heb in Ef.
  destruct (deliver_ipv4 b1 d (ni_ethernet_address a) f Hd Hae) as (d' & Ed & H1 & H2 & _); [by rewrite Heb|done|].
  exists a1, (arp_message_frame (arp_request (ni_ethernet_address a) ipa ipb) (ni_ethernet_address a) ETHERNET_BROADCAST).
  exists b1, (arp_message_frame rep (ni_ethernet_address b) (ni_ethernet_address a)), more, a2, f, d'.
  split; [done|]. split; [by rewrite Hc|]. split.
  { rewrite (deliver_arp b ipb) by (done || apply broadcast_ok || by right). by rewrite Eb. }
  split; [done|]. split.
  { rewrite (deliver_arp a1 ipa) by (done || by left). by rewrite Ea2. }
  split; [done|]. split; [done|]. split; [done|]. split; [done|].
  rewrite Htaba, Htabb, !lookup_insert_eq, Ht1. done.
Qed.

(** A frame of any type but IPv4 is taken for ARP. *)
Theorem interface_any_type_is_arp n dst src t payload :
  t <> TYPE_IPv4 ->
  recv_frame n (mkEthernetFrame (mkEthernetHeader dst src t) payload) =
  recv_frame n (mkEthernetFrame (mkEthernetHeader dst src TYPE_ARP) payload).
Proof.
  intros Ht. unfold recv_frame. cbn [ef_header eh_dst eh_type ef_payload].
  apply Z.eqb_neq in Ht. by rewrite Ht.
Qed.

(** ** Witnesses *)

Definition eth_a : EthernetAddress := [2; 0; 0; 0; 0; 1].
Definition eth_b : EthernetAddress := [2; 0; 0; 0; 0; 2].
Definition host_a : NetworkInterface := new_NetworkInterface eth_a (inet 167772161).
Definition host_b : NetworkInterface := new_NetworkInterface eth_b (inet 167772162).

Lemma host_a_inv : ni_inv host_a 167772161.
Proof. apply new_NetworkInterface_inv; [split; [done|repeat constructor; simpl; lia]|lia]. Qed.
Lemma host_b_inv : ni_inv host_b 167772162.
Proof. apply new_NetworkInterface_inv; [split; [done|repeat constructor; simpl; lia]|lia]. Qed.

Lemma interface_invariant_witness :
  exists n', ni_step host_a (NSend example_datagram 167772162) = Ok n' /\ ni_inv n' 167772161.
Proof.
  destruct (interface_invariant eth_a 167772161 host_a (NSend example_datagram 167772162))
    as (_ & n' & E & H & _).
  - exact (nii_eth _ _ host_a_inv).
  - lia.
  - apply ns_refl.
  - split; [apply example_datagram_ok|lia].
  - eauto.
Defined.

Lemma interface_send_witness :
  exists n', send_datagram host_a example_datagram (inet 167772162) = Ok n' /\
    length (ni_frames_out n') = 1%nat.
Proof.
  destruct (interface_send host_a 167772161 example_datagram 167772162) as (n' & E & _ & Hc).
  - apply host_a_inv.
  - apply example_datagram_ok.
  - lia.
  - exists n'. split; [exact E|]. change (ni_address_table host_a !! 167772162) with (@None (EthernetAddress * Z)) in Hc.
    destruct Hc as (_ & _ & Hf). rewrite Hf; [reflexivity|]. intros w Hw. by apply elem_of_nil in Hw.
Defined.

Lemma interface_one_request_witness :
  exists n1 n3, send_datagram host_a example_datagram (inet 167772162) = Ok n1 /\
    send_datagram (ni_tick n1 4999) example_datagram (inet 167772162) = Ok n3 /\
    length (ni_frames_out n3) = 1%nat.
Proof.
  destruct (send_datagram host_a example_datagram (inet 167772162)) as [n1|] eqn:E1; [|vm_compute in E1; discriminate].
  assert (Hn1 : ni_timer n1 = 0 /\ length (ni_frames_out n1) = 1%nat /\ ni_address_table n1 = ∅).
  { vm_compute in E1. injection E1 as <-. split; [|split]; reflexivity. }
  destruct Hn1 as (Ht & Hl & Htab).
  destruct (interface_one_request host_a 167772161 example_datagram 167772162 n1 (ni_tick n1 4999) example_datagram)
    as (n3 & E3 & Hf).
  - apply host_a_inv.
  - apply example_datagram_ok.
  - lia.
  - reflexivity.
  - exact E1.
  - reflexivity.
  - eapply ns_step with (o := NTick 4999); [apply ns_refl| |reflexivity]. cbn. rewrite Ht. lia.
  - cbn [ni_tick ni_timer]. rewrite Ht. reflexivity.
  - apply example_datagram_ok.
  - exists n1, n3. split; [reflexivity|]. split; [exact E3|]. destruct Hf as [->|(f & Hf & Ht')]; [exact Hl|].
    exfalso. vm_compute in E1. injection E1 as <-. vm_compute in E3. injection E3 as <-.
    vm_compute in Hf. discriminate.
Defined.

Lemma interface_learns_witness :
  exists n', recv_frame host_a (arp_message_frame (arp_request eth_b 167772162 167772161) eth_b ETHERNET_BROADCAST)
      = Ok (n', None) /\
    ni_address_table n' !! 167772162 = Some (eth_b, 30000).
Proof.
  destruct (interface_learns host_a 167772161
    (arp_message_frame (arp_request eth_b 167772162 167772161) eth_b ETHERNET_BROADCAST)
    (arp_request eth_b 167772162 167772161) []) as (n' & fs & E & Ht & _).
  - apply host_a_inv.
  - by right.
  - reflexivity.
  - apply arp_request_ok; [exact (nii_eth _ _ host_b_inv)|lia|lia].
  - cbn [ef_payload arp_message_frame]. by rewrite app_nil_r.
  - reflexivity.
  - exists n'. split; [exact E|]. rewrite Ht. reflexivity.
Defined.

Lemma interface_tick_witness : ni_address_table (ni_tick host_a 30001) = ∅.
Proof.
  destruct (interface_tick host_a 167772161 30001 0 eth_a) as (_ & H & _).
  - apply host_a_inv.
  - lia.
  - reflexivity.
  - apply H. lia.
Defined.

Lemma interface_resolution_witness :
  exists a1 b1 a2 d', send_datagram host_a example_datagram (inet 167772162) = Ok a1 /\
    ni_address_table a2 !! 167772162 = Some (eth_b, 30000) /\
    ni_address_table b1 !! 167772161 = Some (eth_a, 30000) /\
    bl_concatenate (ip_payload d') = bl_concatenate (ip_payload example_datagram).
Proof.
  destruct (interface_resolution host_a host_b 167772161 167772162 example_datagram)
    as (a1 & rq & b1 & rp & more & a2 & f & d' & E & _ & _ & _ & _ & _ & _ & _ & H1 & H2 & H3).
  - apply host_a_inv.
  - apply host_b_inv.
  - apply example_datagram_ok.
  - reflexivity.
  - intros w Hw. by apply elem_of_nil in Hw.
  - exists a1, b1, a2, d'. auto.
Defined.

Lemma interface_any_type_is_arp_witness :
  recv_frame host_a (mkEthernetFrame (mkEthernetHeader eth_a eth_b 34525)
    (BufferList_of (arp_bytes (arp_request eth_b 167772162 167772161)))) =
  recv_frame host_a (mkEthernetFrame (mkEthernetHeader eth_a eth_b TYPE_ARP)
    (BufferList_of (arp_bytes (arp_request eth_b 167772162 167772161)))).
Proof. by apply interface_any_type_is_arp. Defined.
