(* ===== verification/Router.v ===== *)
(** * The router

    [libsponge/router.hh] and [.cc]: interfaces that queue the datagrams they
    receive, and the forwarding of those datagrams by longest prefix. *)
From S2P Require Import Prelude Buffer Parser Checksum IPv4 Ethernet Address NetworkInterface.

Record AsyncNetworkInterface : Type := mkAsyncNetworkInterface {
  as_base : NetworkInterface;
  as_datagrams_out : list InternetDatagram }.

Definition new_AsyncNetworkInterface (n : NetworkInterface) : AsyncNetworkInterface :=
  mkAsyncNetworkInterface n [].

Definition async_recv_frame (a : AsyncNetworkInterface) (frame : EthernetFrame)
    : result AsyncNetworkInterface :=
  let* (n, optional_dgram) := recv_frame (as_base a) frame in
  match optional_dgram with
  | Some d => Ok (mkAsyncNetworkInterface n (as_datagrams_out a ++ [d]))
  | None => Ok (mkAsyncNetworkInterface n (as_datagrams_out a))
  end.

(** [send_datagram], which the class inherits. *)
Definition async_send_datagram (a : AsyncNetworkInterface) (d : InternetDatagram) (next_hop : Address)
    : result AsyncNetworkInterface :=
  let* n := send_datagram (as_base a) d next_hop in
  Ok (mkAsyncNetworkInterface n (as_datagrams_out a)).

(** What a route leads to: the next hop, none when the network is directly
    attached, and the index of the interface. *)
Definition route_info : Type := option Address * Z.

Record Router : Type := mkRouter {
  r_interfaces : list AsyncNetworkInterface;
  r_routes : gmap (Z * Z) route_info }.

Definition new_Router : Router := mkRouter [] ∅.

Definition add_interface (r : Router) (a : AsyncNetworkInterface) : Router * Z :=
  let interfaces := r_interfaces r ++ [a] in
  (mkRouter interfaces (r_routes r), u64 (zlen interfaces - 1)).

(** [interface]: [vector::at] throws when the index is out of range. *)
Definition interface (r : Router) (N : Z) : result AsyncNetworkInterface :=
  if N <? 0 then Err out_of_range
  else match r_interfaces r !! Z.to_nat N with
       | Some a => Ok a
       | None => Err out_of_range
       end.

(** Writing through the reference [interface] returns. *)
Definition set_interface (r : Router) (N : Z) (a : AsyncNetworkInterface) : Router :=
  mkRouter (<[Z.to_nat N := a]> (r_interfaces r)) (r_routes r).

Definition add_route (r : Router) (route_prefix prefix_length : Z) (next_hop : option Address)
    (interface_num : Z) : Router :=
  mkRouter (r_interfaces r) (<[(route_prefix, prefix_length) := (next_hop, interface_num)]> (r_routes r)).

(** The two inner loops: [i] halvings, then [i] doublings, in 32 bits. *)
Fixpoint halve (i : nat) (x : Z) : Z :=
  match i with
  | O => x
  | S i => halve i (x / 2)
  end.
Fixpoint double (i : nat) (x : Z) : Z :=
  match i with
  | O => x
  | S i => double i (u32 (x * 2))
  end.
Definition dst_part (dst : Z) (i : nat) : Z := double i (halve i dst).

(** The outer loop from [i] on, [n] rounds before it ends, up to the route it
    finds. *)
Fixpoint find_route (routes : gmap (Z * Z) route_info) (dst : Z) (n i : nat) : option route_info :=
  match n with
  | O => None
  | S n =>
      match routes !! (dst_part dst i, u8 (32 - Z.of_nat i)) with
      | Some route => Some route
      | None => find_route routes dst n (S i)
      end
  end.

Definition with_ttl (ttl : Z) (d : InternetDatagram) : InternetDatagram :=
  mkIPv4Datagram (set_ip_ttl ttl (ip_header d)) (ip_payload d).

Definition route_one_datagram (r : Router) (dgram : InternetDatagram) : result Router :=
  match find_route (r_routes r) (ih_dst (ip_header dgram)) 33 0 with
  | None => Ok r
  | Some (hop, interface_num) =>
      let* next_hop := match hop with
                       | Some a => Ok a
                       | None => from_ipv4_numeric (ih_dst (ip_header dgram))
                       end in
      if ih_ttl (ip_header dgram) =? 0 then Ok r
      else
        let new_dgram := with_ttl (u8 (ih_ttl (ip_header dgram) - 1)) dgram in
        if ih_ttl (ip_header new_dgram) =? 0 then Ok r
        else
          let* a := interface r interface_num in
          let* a := async_send_datagram a new_dgram next_hop in
          Ok (set_interface r interface_num a)
  end.

Definition pop_datagram (k : nat) (r : Router) : Router :=
  mkRouter (alter (fun a => mkAsyncNetworkInterface (as_base a) (drop 1 (as_datagrams_out a))) k (r_interfaces r))
    (r_routes r).

(** The queue of interface [k]; the reference stays valid while datagrams are
    routed. *)
Definition queue_of (r : Router) (k : nat) : list InternetDatagram :=
  match r_interfaces r !! k with
  | Some a => as_datagrams_out a
  | None => []
  end.

(** The inner loop of [route]: as many rounds as the queue is long. *)
Fixpoint drain (fuel : nat) (k : nat) (r : Router) : result Router :=
  match queue_of r k with
  | [] => Ok r
  | d :: _ =>
      match fuel with
      | O => Ok r
      | S fuel => let* r := route_one_datagram r d in drain fuel k (pop_datagram k r)
      end
  end.

(** The outer loop, over the interfaces [k], [k + 1], ... *)
Fixpoint route_from (n k : nat) (r : Router) : result Router :=
  match n with
  | O => Ok r
  | S n => let* r := drain (length (queue_of r k)) k r in route_from n (S k) r
  end.

Definition route (r : Router) : result Router := route_from (length (r_interfaces r)) 0 r.

(** ** Longest-prefix match *)

Lemma halve_eq i : forall x, 0 <= x -> halve i x = x / 2 ^ Z.of_nat i.
Proof.
  induction i as [|i IH]; intros x Hx; cbn [halve]; [by rewrite Z.div_1_r|].
  rewrite IH by (apply Z.div_pos; lia). rewrite Z.div_div by lia.
  by rewrite Nat2Z.inj_succ, Z.pow_succ_r by lia.
Qed.

Lemma double_eq i : forall x, 0 <= x -> x * 2 ^ Z.of_nat i < W32 -> double i x = x * 2 ^ Z.of_nat i.
Proof.
  induction i as [|i IH]; intros x Hx Hb; cbn [double]; [lia|].
  rewrite Nat2Z.inj_succ, Z.pow_succ_r in * by lia.
  pose proof (Z.pow_pos_nonneg 2 (Z.of_nat i) ltac:(lia) ltac:(lia)).
  rewrite u32_id by nia. rewrite IH by nia. lia.
Qed.

(** The low [i] bits are cleared. *)
Lemma dst_part_eq dst i : 0 <= dst < W32 -> dst_part dst i = dst / 2 ^ Z.of_nat i * 2 ^ Z.of_nat i.
Proof.
  intros Hd. unfold dst_part. pose proof (Z.pow_pos_nonneg 2 (Z.of_nat i) ltac:(lia) ltac:(lia)).
  rewrite halve_eq by lia. apply double_eq; [apply Z.div_pos; lia|].
  pose proof (Z.mul_div_le dst (2 ^ Z.of_nat i)). lia.
Qed.

Lemma find_route_some routes dst v n : forall i,
  find_route routes dst n i = Some v ->
  exists j, (i <= j < i + n)%nat /\ routes !! (dst_part dst j, u8 (32 - Z.of_nat j)) = Some v /\
    forall k, (i <= k < j)%nat -> routes !! (dst_part dst k, u8 (32 - Z.of_nat k)) = None.
Proof.
  induction n as [|n IH]; intros i; cbn [find_route]; [done|].
  destruct (routes !! (dst_part dst i, u8 (32 - Z.of_nat i))) as [w|] eqn:E.
  - intros [= <-]. exists i. split; [lia|]. split; [done|]. intros k Hk. lia.
  - intros H. destruct (IH _ H) as (j & Hj & Ej & Hk). exists j. split; [lia|]. split; [done|].
    intros k Hk'. destruct (decide (k = i)) as [->|]; [done|]. apply Hk. lia.
Qed.

Lemma find_route_none routes dst n : forall i,
  find_route routes dst n i = None ->
  forall k, (i <= k < i + n)%nat -> routes !! (dst_part dst k, u8 (32 - Z.of_nat k)) = None.
Proof.
  induction n as [|n IH]; intros i; cbn [find_route]; intros H k Hk; [lia|].
  destruct (routes !! (dst_part dst i, u8 (32 - Z.of_nat i))) as [w|] eqn:E; [done|].
  destruct (decide (k = i)) as [->|]; [done|]. apply (IH (S i)); [done|lia].
Qed.

(** The first [len] bits of the two addresses agree. *)
Definition prefix_matches (p len dst : Z) : Prop := p / 2 ^ (32 - len) = dst / 2 ^ (32 - len).

(** A route whose prefix has no bits set beyond its length. *)
Definition canonical (p len : Z) : Prop := 0 <= p < W32 /\ 0 <= len <= 32 /\ p mod 2 ^ (32 - len) = 0.

Lemma prefix_matches_dst_part p len dst :
  canonical p len -> 0 <= dst < W32 ->
  prefix_matches p len dst <-> p = dst_part dst (Z.to_nat (32 - len)).
Proof.
  intros (Hp & Hl & Hm) Hd. unfold prefix_matches. rewrite dst_part_eq by done.
  rewrite Z2Nat.id by lia. pose proof (Z.pow_pos_nonneg 2 (32 - len) ltac:(lia) ltac:(lia)).
  pose proof (Z.div_mod p (2 ^ (32 - len)) ltac:(lia)). split.
  - intros <-. lia.
  - intros ->. by rewrite Z.div_mul by lia.
Qed.

(** The route to use for [dst]: it matches, and no longer one does. *)
Definition best_route (routes : gmap (Z * Z) route_info) (dst p len : Z) (v : route_info) : Prop :=
  routes !! (p, len) = Some v /\ prefix_matches p len dst /\
  forall p' len' v', routes !! (p', len') = Some v' -> prefix_matches p' len' dst -> len' <= len.

Definition routes_canonical (routes : gmap (Z * Z) route_info) : Prop :=
  forall p len v, routes !! (p, len) = Some v -> canonical p len.

Lemma find_route_spec routes dst :
  routes_canonical routes -> 0 <= dst < W32 ->
  match find_route routes dst 33 0 with
  | Some v => exists p len, best_route routes dst p len v
  | None => forall p len v, routes !! (p, len) = Some v -> ~ prefix_matches p len dst
  end.
Proof.
  intros Hc Hd.
  assert (Hkey : forall p len v, routes !! (p, len) = Some v -> prefix_matches p len dst ->
    0 <= len <= 32 /\ routes !! (dst_part dst (Z.to_nat (32 - len)),
                                u8 (32 - Z.of_nat (Z.to_nat (32 - len)))) = Some v).
  { intros p len v E Hm. pose proof (Hc p len v E) as Hcp. pose proof Hcp as (_ & Hl & _).
    apply prefix_matches_dst_part in Hm; [|done|done]. rewrite <- Hm, Z2Nat.id by lia.
    replace (32 - (32 - len)) with len by lia. rewrite u8_id by lia. done. }
  destruct (find_route routes dst 33 0) as [v|] eqn:Ef.
  - destruct (find_route_some _ _ _ _ _ Ef) as (j & Hj & Ej & Hk).
    rewrite u8_id in Ej by lia. exists (dst_part dst j), (32 - Z.of_nat j). split; [done|]. split.
    + apply prefix_matches_dst_part; [by eapply Hc|done|]. by replace (Z.to_nat (32 - (32 - Z.of_nat j))) with j by lia.
    + intros p' len' v' E' Hm'. destruct (Hkey p' len' v' E' Hm') as [Hl' Ek].
      destruct (decide (32 - len' < Z.of_nat j)); [|lia].
      rewrite Hk in Ek by lia. done.
  - intros p len v E Hm. destruct (Hkey p len v E Hm) as [Hl Ek].
    rewrite (find_route_none _ _ _ _ Ef) in Ek by lia. done.
Qed.

Lemma best_route_unique routes dst p len v p' len' v' :
  routes_canonical routes -> 0 <= dst < W32 ->
  best_route routes dst p len v -> best_route routes dst p' len' v' -> p = p' /\ len = len' /\ v = v'.
Proof.
  intros Hc Hd (E & Hm & Hb) (E' & Hm' & Hb').
  assert (len = len') as <- by (apply Z.le_antisymm; eauto).
  apply prefix_matches_dst_part in Hm, Hm'; eauto. rewrite <- Hm' in Hm. subst. by simplify_eq.
Qed.

(** A route whose prefix has bits set beyond its length is as good as absent. *)
Definition host_bits (p len : Z) : Prop := 0 <= len <= 32 /\ p mod 2 ^ (32 - len) <> 0.

Lemma find_route_ext routes routes' dst n : forall i,
  (forall k, (i <= k < i + n)%nat ->
     routes !! (dst_part dst k, u8 (32 - Z.of_nat k)) = routes' !! (dst_part dst k, u8 (32 - Z.of_nat k))) ->
  find_route routes dst n i = find_route routes' dst n i.
Proof.
  induction n as [|n IH]; intros i H; cbn [find_route]; [done|].
  rewrite H by lia. rewrite IH; [done|]. intros k Hk. apply H. lia.
Qed.

Lemma find_route_host_bits routes dst p len : 0 <= dst < W32 -> host_bits p len ->
  find_route routes dst 33 0 = find_route (delete (p, len) routes) dst 33 0.
Proof.
  intros Hd [Hl Hp]. apply find_route_ext. intros k Hk. rewrite u8_id by lia.
  rewrite lookup_delete_ne; [done|]. intros [= -> ->]. apply Hp. rewrite dst_part_eq by done.
  replace (32 - (32 - Z.of_nat k)) with (Z.of_nat k) by lia. apply Z_mod_mult.
Qed.

(** ** Forwarding *)

Definition hop_of (hop : option Address) (dst : Z) : Address :=
  match hop with Some a => a | None => inet dst end.

(** The interfaces are sound, and each route has a canonical prefix, an existing
    interface and an IPv4 next hop. *)
Record router_ok (r : Router) : Prop := {
  ro_interfaces : Forall (fun a => exists ip, ni_inv (as_base a) ip) (r_interfaces r);
  ro_canonical : routes_canonical (r_routes r);
  ro_routes : forall p len hop k, r_routes r !! (p, len) = Some (hop, k) ->
    0 <= k < zlen (r_interfaces r) /\
    match hop with Some a => exists h, 0 <= h < W32 /\ a = inet h | None => True end }.

Lemma with_ttl_ok d ttl : IPv4Datagram_ok d -> 0 <= ttl < W8 -> IPv4Datagram_ok (with_ttl ttl d).
Proof. intros ([] & Hb & Hl) Ht. split; [by constructor|done]. Qed.

Lemma interface_ok r k : 0 <= k < zlen (r_interfaces r) ->
  exists a, interface r k = Ok a /\ r_interfaces r !! Z.to_nat k = Some a.
Proof.
  intros Hk. unfold interface, zlen in *. zcase; [lia|].
  destruct (lookup_lt_is_Some_2 (r_interfaces r) (Z.to_nat k)) as [a Ha]; [lia|].
  exists a. by rewrite Ha.
Qed.

Lemma set_interface_ok r k a ip :
  router_ok r -> ni_inv (as_base a) ip -> router_ok (set_interface r k a).
Proof.
  intros [H1 H2 H3] Ha. constructor; cbn; [|done|].
  - apply Forall_insert; [done|by exists ip].
  - intros p len hop j E. unfold zlen. rewrite length_insert. by apply (H3 p len hop j).
Qed.

(** What happens to a datagram for which [v] was found. *)
Definition sent_on (r r' : Router) (d : InternetDatagram) (v : route_info) : Prop :=
  exists a n', r_interfaces r !! Z.to_nat v.2 = Some a /\
    send_datagram (as_base a) (with_ttl (ih_ttl (ip_header d) - 1) d) (hop_of v.1 (ih_dst (ip_header d))) = Ok n' /\
    r' = set_interface r v.2 (mkAsyncNetworkInterface n' (as_datagrams_out a)).

Lemma route_one_spec r d :
  router_ok r -> IPv4Datagram_ok d ->
  exists r', route_one_datagram r d = Ok r' /\ router_ok r' /\
    match find_route (r_routes r) (ih_dst (ip_header d)) 33 0 with
    | None => r' = r
    | Some v => if ih_ttl (ip_header d) <=? 1 then r' = r else sent_on r r' d v
    end.
Proof.
  intros Hr Hd. pose proof Hd as (Hh & _). pose proof (iho_dst _ Hh) as Hdst. pose proof (iho_ttl _ Hh) as Httl.
  pose proof (find_route_spec (r_routes r) _ (ro_canonical r Hr) Hdst) as Hf.
  unfold route_one_datagram. destruct (find_route _ _ _ _) as [[hop k]|]; [|by exists r].
  destruct Hf as (p & len & E & _).
  destruct (ro_routes r Hr p len hop k E) as [Hk Hhop].
  replace (match hop with Some a => Ok a | None => from_ipv4_numeric (ih_dst (ip_header d)) end)
    with (Ok (hop_of hop (ih_dst (ip_header d)))) by (by destruct hop). cbn [rbind].
  destruct (Z.leb_spec (ih_ttl (ip_header d)) 1) as [Hle|Hgt].
  { exists r. split; [|done]. cbn [with_ttl ip_header ih_ttl set_ip_ttl]. repeat zcase; [done|done|].
    rewrite u8_id in * by lia. lia. }
  cbn [with_ttl ip_header ih_ttl set_ip_ttl]. rewrite u8_id by lia. repeat zcase; [lia..|].
  destruct (interface_ok r k Hk) as (a & Ea & Ha). rewrite Ea. cbn [rbind].
  destruct (proj1 (Forall_lookup _ _) (ro_interfaces r Hr) _ _ Ha) as (ip & Hn).
  assert (Hhop' : exists h, 0 <= h < W32 /\ hop_of hop (ih_dst (ip_header d)) = inet h).
  { destruct hop as [a'|]; cbn [hop_of]; [done|]. by eexists. }
  destruct Hhop' as (h & Hh' & Eh).
  destruct (send_datagram_spec (as_base a) ip (with_ttl (ih_ttl (ip_header d) - 1) d) h Hn)
    as (n' & Es & Hn' & _); [apply with_ttl_ok; [done|lia]|done|].
  unfold async_send_datagram. unfold with_ttl in *. rewrite Eh, Es. cbn [rbind]. eexists. split; [done|].
  split; [by eapply set_interface_ok|]. exists a, n'. cbn [fst snd]. by rewrite Eh.
Qed.

(** C30: The router forwards by longest prefix, when its routes have prefixes
    without bits beyond their length, existing interfaces and IPv4 next hops,
    its interfaces are sound, and the datagram's header is. A datagram that no
    route matches, or whose time to live is at most one, is dropped and nothing
    changes; any other leaves on the interface of the longest matching route,
    its time to live one less, for the route's next hop or for its own
    destination when the route has none. (A route with host bits is not found by
    the code: [router_host_bits].) *)
Theorem router_forwards r d :
  router_ok r -> IPv4Datagram_ok d ->
  exists r', route_one_datagram r d = Ok r' /\ router_ok r' /\
    ((forall p len v, r_routes r !! (p, len) = Some v -> ~ prefix_matches p len (ih_dst (ip_header d))) ->
       r' = r) /\
    (ih_ttl (ip_header d) <= 1 -> r' = r) /\
    (forall p len hop k, best_route (r_routes r) (ih_dst (ip_header d)) p len (hop, k) ->
       1 < ih_ttl (ip_header d) ->
       exists a n', r_interfaces r !! Z.to_nat k = Some a /\
         send_datagram (as_base a) (with_ttl (ih_ttl (ip_header d) - 1) d)
           (hop_of hop (ih_dst (ip_header d))) = Ok n' /\
         r_interfaces r' = <[Z.to_nat k := mkAsyncNetworkInterface n' (as_datagrams_out a)]> (r_interfaces r)).
Proof.
  intros Hr Hd. pose proof (iho_dst _ (proj1 Hd)) as Hdst.
  destruct (route_one_spec r d Hr Hd) as (r' & E & Hr' & Hc). exists r'. split; [done|]. split; [done|].
  pose proof (find_route_spec (r_routes r) _ (ro_canonical r Hr) Hdst) as Hf.
  destruct (find_route _ _ _ _) as [v|].
  - destruct Hf as (p & len & Hb). pose proof Hb as (El & Hm & _). split.
    { intros Hno. by destruct (Hno p len v El). }
    destruct (Z.leb_spec (ih_ttl (ip_header d)) 1) as [Hle|Hgt].
    + split; [done|]. intros. lia.
    + split; [lia|]. intros p' len' hop k Hb' _.
      destruct (best_route_unique _ _ _ _ _ _ _ _ (ro_canonical r Hr) Hdst Hb Hb') as (_ & _ & ->).
      destruct Hc as (a & n' & Ha & Es & ->). by exists a, n'.
  - subst r'. split; [done|]. split; [done|]. intros p len hop k (El & Hm & _). by destruct (Hf _ _ _ El).
Qed.

(** A route whose prefix has bits set beyond its length never applies: with
    such a route added, every datagram goes where it went before. *)
Theorem router_host_bits r d p len hop k :
  IPv4Datagram_ok d -> 0 <= len <= 32 -> p mod 2 ^ (32 - len) <> 0 ->
  route_one_datagram (add_route r p len hop k) d =
    let* r' := route_one_datagram r d in Ok (add_route r' p len hop k).
Proof.
  intros ([] & _) Hl Hp.
  assert (Hf : forall n i, (i + n <= 33)%nat -> find_route (r_routes (add_route r p len hop k)) (ih_dst (ip_header d)) n i =
    find_route (r_routes r) (ih_dst (ip_header d)) n i).
  { induction n as [|n IH]; intros i Hi; cbn [find_route]; [done|]. rewrite IH by lia.
    cbn [r_routes add_route]. rewrite lookup_insert_ne; [done|]. intros [= Ep El]. apply Hp.
    rewrite u8_id in El by lia. rewrite Ep, dst_part_eq by done.
    replace (32 - len) with (Z.of_nat i) by lia. apply Z.mod_mul. pose proof (Z.pow_pos_nonneg 2 (Z.of_nat i)). lia. }
  unfold route_one_datagram. rewrite Hf by lia.
  destruct (find_route (r_routes r) _ 33 0) as [[hop' k']|]; [|done].
  assert (Hhop : exists a, match hop' with Some a => Ok a | None => from_ipv4_numeric (ih_dst (ip_header d)) end = Ok a)
    by (destruct hop'; eauto). destruct Hhop as (a & ->). cbn [rbind].
  destruct (_ =? 0); [done|]. destruct (_ =? 0); [done|].
  change (interface (add_route r p len hop k) k') with (interface r k').
  destruct (interface r k') as [b|]; [|done]. cbn [rbind].
  destruct (async_send_datagram _ _ _); done.
Qed.

(** ** Routing everything *)

Fixpoint route_list (r : Router) (ds : list InternetDatagram) : result Router :=
  match ds with
  | [] => Ok r
  | d :: ds => let* r := route_one_datagram r d in route_list r ds
  end.

(** The first [m] datagrams of queue [k] gone. *)
Definition drop_queue (m k : nat) (r : Router) : Router :=
  mkRouter (alter (fun a => mkAsyncNetworkInterface (as_base a) (drop m (as_datagrams_out a))) k (r_interfaces r))
    (r_routes r).

Lemma drop_queue_queue m k r j :
  queue_of (drop_queue m k r) j = if decide (j = k) then drop m (queue_of r j) else queue_of r j.
Proof.
  unfold queue_of, drop_queue. cbn [r_interfaces]. destruct (decide (j = k)) as [->|Hne].
  - rewrite list_lookup_alter_eq. destruct (r_interfaces r !! k); cbn; [done|by rewrite drop_nil].
  - by rewrite list_lookup_alter_ne.
Qed.

Lemma drop_queue_base m k r : map as_base (r_interfaces (drop_queue m k r)) = map as_base (r_interfaces r).
Proof.
  unfold drop_queue. cbn [r_interfaces]. generalize (r_interfaces r). intros l. revert k.
  induction l as [|a l IH]; intros k; [done|]. destruct k; cbn; [done|]. f_equal. apply IH.
Qed.

Lemma drop_queue_add m m' k r : drop_queue m k (drop_queue m' k r) = drop_queue (m' + m) k r.
Proof.
  unfold drop_queue. cbn [r_interfaces r_routes]. f_equal. rewrite list_alter_alter_eq.
  apply list_alter_ext; [|done]. intros a _. unfold compose. cbn. by rewrite drop_drop.
Qed.

Lemma interface_drop_queue m k r j :
  interface (drop_queue m k r) j =
    let* a := interface r j in
    Ok (if decide (Z.to_nat j = k) then mkAsyncNetworkInterface (as_base a) (drop m (as_datagrams_out a)) else a).
Proof.
  unfold interface. zcase; [done|]. cbn [r_interfaces drop_queue]. destruct (decide (Z.to_nat j = k)) as [->|Hne].
  - rewrite list_lookup_alter_eq. by destruct (r_interfaces r !! k).
  - rewrite list_lookup_alter_ne by done. by destruct (r_interfaces r !! Z.to_nat j).
Qed.

Lemma drop_queue_set m k r j n q :
  r_interfaces r !! Z.to_nat j = Some q ->
  drop_queue m k (set_interface r j (mkAsyncNetworkInterface n (as_datagrams_out q))) =
  set_interface (drop_queue m k r) j (mkAsyncNetworkInterface n
    (as_datagrams_out (if decide (Z.to_nat j = k) then mkAsyncNetworkInterface (as_base q) (drop m (as_datagrams_out q)) else q))).
Proof.
  intros Hq. unfold drop_queue, set_interface. cbn [r_interfaces r_routes]. f_equal.
  apply list_eq. intros i. pose proof (lookup_lt_Some _ _ _ Hq) as Hl.
  destruct (decide (Z.to_nat j = k)) as [Ek|Hne]; [subst k|].
  - destruct (decide (i = Z.to_nat j)) as [->|Hi].
    + rewrite list_lookup_alter_eq, !list_lookup_insert_eq by (by rewrite ?length_alter). done.
    + by rewrite list_lookup_alter_ne, !list_lookup_insert_ne, list_lookup_alter_ne by done.
  - destruct (decide (i = Z.to_nat j)) as [->|Hi].
    + rewrite list_lookup_alter_ne, !list_lookup_insert_eq by (done || by rewrite ?length_alter). done.
    + rewrite (list_lookup_insert_ne (alter _ _ _)) by done. destruct (decide (i = k)) as [->|Hik].
      * by rewrite !list_lookup_alter_eq, list_lookup_insert_ne by done.
      * by rewrite !list_lookup_alter_ne, list_lookup_insert_ne by done.
Qed.

(** Routing does not look at the queues, so dropping from one commutes. *)
Lemma route_one_drop m k r d :
  route_one_datagram (drop_queue m k r) d = let* r' := route_one_datagram r d in Ok (drop_queue m k r').
Proof.
  unfold route_one_datagram. cbn [r_routes drop_queue].
  destruct (find_route (r_routes r) _ 33 0) as [[hop j]|]; [|done].
  destruct (match hop with Some a => Ok a | None => _ end) as [h|]; [|done]. cbn [rbind].
  destruct (_ =? 0); [done|]. destruct (_ =? 0); [done|]. rewrite interface_drop_queue.
  unfold interface at 1. unfold interface at 1. destruct (j <? 0); [done|].
  destruct (r_interfaces r !! Z.to_nat j) as [q|] eqn:Eq; [|done]. cbn [rbind]. unfold async_send_datagram.
  replace (as_base (if decide (Z.to_nat j = k) then _ else q)) with (as_base q) by (by case_decide).
  destruct (send_datagram (as_base q) _ h); [|done]. cbn [rbind]. by rewrite drop_queue_set.
Qed.

Lemma route_list_drop m k ds : forall r,
  route_list (drop_queue m k r) ds = let* r' := route_list r ds in Ok (drop_queue m k r').
Proof.
  induction ds as [|d ds IH]; intros r; cbn [route_list]; [done|].
  rewrite route_one_drop. destruct (route_one_datagram r d); [|done]. cbn [rbind]. apply IH.
Qed.

Lemma route_one_queues r d r' : route_one_datagram r d = Ok r' ->
  (forall j, queue_of r' j = queue_of r j) /\ length (r_interfaces r') = length (r_interfaces r).
Proof.
  unfold route_one_datagram. destruct (find_route _ _ _ _) as [[hop k]|]; [|by intros [= <-]].
  destruct (match hop with Some a => Ok a | None => _ end) as [h|]; [|done]. cbn [rbind].
  destruct (_ =? 0); [by intros [= <-]|]. destruct (_ =? 0); [by intros [= <-]|].
  unfold interface. destruct (k <? 0); [done|].
  destruct (r_interfaces r !! Z.to_nat k) as [q|] eqn:Eq; [|done]. cbn [rbind]. unfold async_send_datagram.
  destruct (send_datagram (as_base q) _ h); [|done]. cbn [rbind]. intros [= <-].
  split; [|apply length_insert]. intros j. unfold queue_of. cbn [r_interfaces set_interface].
  destruct (decide (j = Z.to_nat k)) as [->|Hne].
  - rewrite list_lookup_insert_eq by (by eapply lookup_lt_Some). by rewrite Eq.
  - by rewrite list_lookup_insert_ne by done.
Qed.

Lemma route_list_queues ds : forall r r', route_list r ds = Ok r' ->
  (forall j, queue_of r' j = queue_of r j) /\ length (r_interfaces r') = length (r_interfaces r).
Proof.
  induction ds as [|d ds IH]; intros r r'; cbn [route_list]; [by intros [= <-]|].
  destruct (route_one_datagram r d) as [r1|] eqn:E; [|done]. cbn [rbind]. intros H.
  destruct (route_one_queues r d r1 E) as [H1 H2]. destruct (IH r1 r' H) as [H3 H4].
  split; [intros j; by rewrite H3|congruence].
Qed.

Lemma pop_datagram_drop k r : pop_datagram k r = drop_queue 1 k r.
Proof. done. Qed.

Lemma drain_spec k q : forall r,
  queue_of r k = q ->
  drain (length q) k r = let* r' := route_list r q in Ok (drop_queue (length q) k r').
Proof.
  induction q as [|d q IH]; intros r Hq; cbn [length].
  - cbn [drain route_list rbind]. rewrite Hq. f_equal. destruct r as [l t]. unfold drop_queue.
    cbn [r_interfaces r_routes]. f_equal. symmetry. apply list_alter_id. by intros [? ?].
  - cbn [drain route_list]. rewrite Hq. destruct (route_one_datagram r d) as [r1|] eqn:E; [|done]. cbn [rbind].
    rewrite pop_datagram_drop, IH.
    + rewrite route_list_drop. destruct (route_list r1 q) as [r2|]; [|done]. cbn [rbind].
      by rewrite drop_queue_add.
    + rewrite drop_queue_queue, decide_True by done. destruct (route_one_queues r d r1 E) as [-> _].
      by rewrite Hq.
Qed.

Lemma route_list_app ds ds' : forall r,
  route_list r (ds ++ ds') = let* r' := route_list r ds in route_list r' ds'.
Proof.
  induction ds as [|d ds IH]; intros r; cbn [route_list app]; [done|].
  destruct (route_one_datagram r d); [|done]. cbn [rbind]. apply IH.
Qed.

(** The queues of [n] interfaces from [k] on emptied. *)
Fixpoint clear_queues (n k : nat) (r : Router) : Router :=
  match n with
  | O => r
  | S n => clear_queues n (S k) (drop_queue (length (queue_of r k)) k r)
  end.

Lemma clear_queues_queue n : forall k r j,
  queue_of (clear_queues n k r) j = if decide (k <= j < k + n)%nat then [] else queue_of r j.
Proof.
  induction n as [|n IH]; intros k r j; cbn [clear_queues]; [by rewrite decide_False by lia|].
  rewrite IH, drop_queue_queue. destruct (decide (j = k)) as [->|Hne].
  - rewrite decide_False, decide_True by lia. by apply drop_ge.
  - repeat case_decide; done || lia.
Qed.

Lemma clear_queues_base n : forall k r,
  map as_base (r_interfaces (clear_queues n k r)) = map as_base (r_interfaces r) /\
  r_routes (clear_queues n k r) = r_routes r.
Proof.
  induction n as [|n IH]; intros k r; cbn [clear_queues]; [done|].
  destruct (IH (S k) (drop_queue (length (queue_of r k)) k r)) as [-> ->].
  by rewrite drop_queue_base.
Qed.

Lemma route_from_spec n : forall k r,
  route_from n k r =
    let* r' := route_list r (concat (map (queue_of r) (seq k n))) in Ok (clear_queues n k r').
Proof.
  induction n as [|n IH]; intros k r; cbn [route_from seq map concat]; [done|].
  rewrite (drain_spec k (queue_of r k) r eq_refl), route_list_app.
  destruct (route_list r (queue_of r k)) as [r1|] eqn:E; [|done]. cbn [rbind].
  destruct (route_list_queues _ _ _ E) as [Hq _].
  rewrite IH, route_list_drop.
  replace (map (queue_of (drop_queue (length (queue_of r k)) k r1)) (seq (S k) n))
    with (map (queue_of r) (seq (S k) n)).
  2:{ apply map_ext_in. intros j Hj. apply in_seq in Hj.
      by rewrite drop_queue_queue, decide_False, Hq by lia. }
  destruct (route_list r1 _) as [r2|] eqn:E2; [|done]. cbn [rbind clear_queues].
  destruct (route_list_queues _ _ _ E2) as [Hq2 _]. by rewrite Hq2, Hq.
Qed.

Lemma queues_concat r : map (queue_of r) (seq 0 (length (r_interfaces r))) = map as_datagrams_out (r_interfaces r).
Proof.
  apply list_eq. intros i. change (map ?f ?l) with (f <$> l). rewrite !list_lookup_fmap.
  destruct (r_interfaces r !! i) as [a|] eqn:E.
  - rewrite lookup_seq_lt by (by eapply lookup_lt_Some). cbn. unfold queue_of. by rewrite E.
  - rewrite lookup_seq_ge by (by apply lookup_ge_None). done.
Qed.

Lemma router_ok_base r r' :
  router_ok r -> map as_base (r_interfaces r') = map as_base (r_interfaces r) -> r_routes r' = r_routes r ->
  router_ok r'.
Proof.
  intros [H1 H2 H3] Hb Hr.
  assert (Hl : zlen (r_interfaces r') = zlen (r_interfaces r)).
  { unfold zlen. rewrite <- (length_map as_base (r_interfaces r')), Hb. by rewrite length_map. }
  constructor; rewrite ?Hr, ?Hl; try done.
  assert (Hf : Forall (fun n => exists ip, ni_inv n ip) (as_base <$> r_interfaces r)) by by apply Forall_fmap.
  change (as_base <$> r_interfaces r) with (map as_base (r_interfaces r)) in Hf.
  rewrite <- Hb in Hf. exact (proj1 (Forall_fmap _ _ _) Hf).
Qed.

Lemma route_list_ok ds : forall r, router_ok r -> Forall IPv4Datagram_ok ds ->
  exists r', route_list r ds = Ok r' /\ router_ok r' /\ r_routes r' = r_routes r.
Proof.
  induction ds as [|d ds IH]; intros r Hr Hds; cbn [route_list]; [by exists r|].
  inversion Hds as [|? ? Hd Hds']; subst.
  destruct (route_one_spec r d Hr Hd) as (r1 & -> & Hr1 & Hc). cbn [rbind].
  destruct (IH r1 Hr1 Hds') as (r' & E & Hr' & Ht). exists r'. split; [done|]. split; [done|]. rewrite Ht.
  destruct (find_route _ _ _ _) as [v|]; [|by subst]. destruct (_ <=? 1); [by subst|].
  by destruct Hc as (a & n' & _ & _ & ->).
Qed.

Lemma route_all r :
  router_ok r ->
  (forall a d, a ∈ r_interfaces r -> d ∈ as_datagrams_out a -> IPv4Datagram_ok d) ->
  exists r1 r', route_list r (concat (map as_datagrams_out (r_interfaces r))) = Ok r1 /\
    route r = Ok r' /\ router_ok r' /\
    map as_base (r_interfaces r') = map as_base (r_interfaces r1) /\ r_routes r' = r_routes r /\
    (forall a, a ∈ r_interfaces r' -> as_datagrams_out a = []).
Proof.
  intros Hr Hq.
  destruct (route_list_ok (concat (map as_datagrams_out (r_interfaces r))) r Hr) as (r1 & E & Hr1 & Ht).
  { apply Forall_forall. intros d Hd. apply list_elem_of_In, in_concat in Hd as (q & Hq1 & Hq2).
    apply in_map_iff in Hq1 as (a & <- & Ha). apply (Hq a); by apply list_elem_of_In. }
  exists r1, (clear_queues (length (r_interfaces r)) 0 r1). split; [done|].
  split. { unfold route. by rewrite route_from_spec, queues_concat, E. }
  destruct (clear_queues_base (length (r_interfaces r)) 0 r1) as [Hb Ht'].
  split; [by eapply router_ok_base|]. split; [done|]. split; [congruence|].
  intros a Ha. apply list_elem_of_lookup in Ha as (j & Hj).
  pose proof (clear_queues_queue (length (r_interfaces r)) 0 r1 j) as Hqj.
  unfold queue_of at 1 in Hqj. rewrite Hj in Hqj. rewrite Hqj, decide_True; [done|].
  apply lookup_lt_Some in Hj. rewrite <- (length_map as_base), Hb, length_map in Hj.
  destruct (route_list_queues _ _ _ E) as [_ El]. lia.
Qed.

(** C31: [route] terminates with every queue empty, having routed every queued
    datagram exactly once, interface by interface and in arrival order, and the
    router stays sound, when the routes are as in [router_forwards] and every
    queued datagram has a sound header. (A received datagram of version 6 makes
    it throw: [router_throws].) *)
Theorem router_routes_all r :
  router_ok r ->
  (forall a d, a ∈ r_interfaces r -> d ∈ as_datagrams_out a -> IPv4Datagram_ok d) ->
  exists r1 r', route_list r (concat (map as_datagrams_out (r_interfaces r))) = Ok r1 /\
    route r = Ok r' /\ router_ok r' /\
    map as_base (r_interfaces r') = map as_base (r_interfaces r1) /\ r_routes r' = r_routes r /\
    (forall a, a ∈ r_interfaces r' -> as_datagrams_out a = []).
Proof. apply route_all. Qed.

(** ** Frames only accumulate *)

(** The frames queued on each interface of [r] are still queued in [r'], before
    any others. *)
Definition frames_grow (r r' : Router) : Prop :=
  Forall2 (fun a a' => ni_grows (as_base a) (as_base a')) (r_interfaces r) (r_interfaces r').

Lemma frames_grow_refl r : frames_grow r r.
Proof. unfold frames_grow. induction (r_interfaces r); constructor; [apply ni_grows_refl|done]. Qed.
Lemma frames_grow_trans r1 r2 r3 : frames_grow r1 r2 -> frames_grow r2 r3 -> frames_grow r1 r3.
Proof.
  unfold frames_grow. intros H1. generalize (r_interfaces r3) as l3. induction H1; intros l3 H2; inversion H2; subst; constructor.
  - by eapply ni_grows_trans.
  - by auto.
Qed.

Lemma frames_grow_base r r' : map as_base (r_interfaces r') = map as_base (r_interfaces r) -> frames_grow r r'.
Proof.
  unfold frames_grow. generalize (r_interfaces r) as l, (r_interfaces r') as l'.
  induction l as [|a l IH]; intros [|a' l'] E; try done; constructor; injection E as E1 E2; [rewrite E1; apply ni_grows_refl|by apply IH].
Qed.

Lemma frames_grow_set r k a a' : r_interfaces r !! Z.to_nat k = Some a ->
  ni_grows (as_base a) (as_base a') -> frames_grow r (set_interface r k a').
Proof.
  intros Ha Hp. unfold frames_grow, set_interface. cbn [r_interfaces].
  rewrite <- (list_insert_id (r_interfaces r) (Z.to_nat k) a Ha) at 1. apply Forall2_insert; [apply frames_grow_refl|done].
Qed.

Lemma route_one_grows r d r' : router_ok r -> IPv4Datagram_ok d -> route_one_datagram r d = Ok r' -> frames_grow r r'.
Proof.
  intros Hr Hd E. destruct (route_one_spec r d Hr Hd) as (r1 & E1 & _ & Hc). rewrite E in E1. injection E1 as <-.
  pose proof (find_route_spec (r_routes r) _ (ro_canonical r Hr) (iho_dst _ (proj1 Hd))) as Hf.
  destruct (find_route _ _ _ _) as [[hop k]|]; [|subst; apply frames_grow_refl].
  destruct (Z.leb_spec (ih_ttl (ip_header d)) 1); [subst; apply frames_grow_refl|]. destruct Hc as (a & n' & Ha & Es & ->).
  destruct Hf as (p & len & El & _). destruct (ro_routes r Hr p len hop k El) as [_ Hhop]. cbn [fst snd] in *.
  destruct (proj1 (Forall_lookup _ _) (ro_interfaces r Hr) _ _ Ha) as (ip & Hn).
  assert (exists h, 0 <= h < W32 /\ hop_of hop (ih_dst (ip_header d)) = inet h) as (h & Hh & Eh).
  { destruct hop as [a'|]; [done|]. exists (ih_dst (ip_header d)). split; [apply Hd|done]. }
  rewrite Eh in Es. eapply frames_grow_set; [exact Ha|]. eapply send_datagram_grows; [exact Hn| |exact Hh|exact Es].
  apply with_ttl_ok; [done|]. pose proof (iho_ttl _ (proj1 Hd)). lia.
Qed.

Lemma route_list_grows ds : forall r r', router_ok r -> Forall IPv4Datagram_ok ds -> route_list r ds = Ok r' -> frames_grow r r'.
Proof.
  induction ds as [|d ds IH]; intros r r' Hr Hds; cbn [route_list]; [intros [= <-]; apply frames_grow_refl|].
  inversion Hds as [|? ? Hd Hds']; subst. destruct (route_one_spec r d Hr Hd) as (r1 & E & Hr1 & _). rewrite E. cbn [rbind].
  intros Er. eapply frames_grow_trans; [by eapply route_one_grows|by eapply IH].
Qed.

Lemma route_grows r r' :
  router_ok r -> (forall a d, a ∈ r_interfaces r -> d ∈ as_datagrams_out a -> IPv4Datagram_ok d) ->
  route r = Ok r' -> frames_grow r r'.
Proof.
  intros Hr Hq E. destruct (route_all r Hr Hq) as (r1 & r2 & E1 & E2 & _ & Hb & _). rewrite E in E2. injection E2 as <-.
  eapply frames_grow_trans; [|by apply frames_grow_base]. clear Hb E.
  assert (Hds : Forall IPv4Datagram_ok (concat (map as_datagrams_out (r_interfaces r)))).
  { apply Forall_forall. intros d Hd. apply list_elem_of_In, in_concat in Hd as (q & Hq1 & Hq2).
    apply in_map_iff in Hq1 as (a & <- & Ha). apply (Hq a); by apply list_elem_of_In. }
  by eapply route_list_grows.
Qed.

(** ** A datagram that stops the router *)

(** A router with one interface and a default route. *)
Definition small_router : Router :=
  add_route (add_interface new_Router (new_AsyncNetworkInterface host_a)).1 0 0 (Some (inet 167772162)) 0.

(** A frame for interface 0 as received from the network. *)
Definition router_recv (r : Router) (f : EthernetFrame) : result Router :=
  let* a := interface r 0 in
  let* a := async_recv_frame a f in
  Ok (set_interface r 0 a).

(** The router throws on a received frame: a frame that claims IPv4 and holds
    bytes of version 6 is accepted by [IPv4Datagram::parse], queued, and makes
    [route] throw when it is serialised again. *)
Theorem router_throws :
  let bad := mkEthernetFrame (mkEthernetHeader eth_a eth_b TYPE_IPv4)
               [Buffer_of ([x65; x00; x00; x14] ++ repeat x00 4 ++ [x40] ++ repeat x00 11)] in
  exists r2,
    (let* r1 := router_recv small_router
                  (arp_message_frame (arp_reply eth_b 167772162 eth_a 167772161) eth_b eth_a) in
     router_recv r1 bad) = Ok r2 /\
    route r2 = Err runtime_error.
Proof.
  intros bad. destruct (let* r1 := _ in router_recv r1 bad) as [r2|] eqn:E; [|vm_compute in E; discriminate].
  exists r2. split; [done|]. vm_compute in E. injection E as <-. vm_compute. reflexivity.
Qed.

(** ** Witnesses *)

Lemma small_router_routes p len v :
  r_routes small_router !! (p, len) = Some v -> p = 0 /\ len = 0 /\ v = (Some (inet 167772162), 0).
Proof.
  intros H. change (r_routes small_router) with
    (<[(0, 0) := (Some (inet 167772162), 0)]> (∅ : gmap (Z * Z) route_info)) in H.
  apply lookup_insert_Some in H as [[[= <- <-] <-]|[_ H]]; done.
Qed.

Lemma small_router_ok : router_ok small_router.
Proof.
  constructor.
  - apply Forall_singleton. exists 167772161. apply host_a_inv.
  - intros p len v H. apply small_router_routes in H as (-> & -> & _).
    split; [lia|]. split; [lia|]. reflexivity.
  - intros p len hop k H. apply small_router_routes in H as (_ & _ & [= -> ->]).
    split; [by vm_compute|]. exists 167772162. split; [lia|reflexivity].
Qed.

Lemma router_forwards_witness :
  exists r', route_one_datagram small_router example_datagram = Ok r' /\
    length (ni_frames_out (as_base (default (new_AsyncNetworkInterface host_b) (r_interfaces r' !! 0%nat)))) = 1%nat.
Proof.
  destruct (router_forwards small_router example_datagram) as (r' & E & _ & _ & _ & Hf).
  - apply small_router_ok.
  - apply example_datagram_ok.
  - exists r'. split; [exact E|].
    destruct (Hf 0 0 (Some (inet 167772162)) 0) as (a & n' & Ha & Es & Hr').
    + split; [reflexivity|]. split; [reflexivity|]. intros p' len' v' H _.
      apply small_router_routes in H as (_ & -> & _). lia.
    + reflexivity.
    + rewrite Hr'. vm_compute in Ha. injection Ha as <-. vm_compute in Es. injection Es as <-. reflexivity.
Defined.

Lemma router_host_bits_witness :
  route_one_datagram (add_route small_router 167772161 8 None 0) example_datagram =
    let* r' := route_one_datagram small_router example_datagram in Ok (add_route r' 167772161 8 None 0).
Proof.
  apply router_host_bits; [apply example_datagram_ok|lia|]. vm_compute. discriminate.
Defined.

Lemma router_routes_all_witness :
  exists r', route (set_interface small_router 0 (mkAsyncNetworkInterface host_a [example_datagram; example_datagram]))
      = Ok r' /\ (forall a, a ∈ r_interfaces r' -> as_datagrams_out a = []).
Proof.
  destruct (router_routes_all
    (set_interface small_router 0 (mkAsyncNetworkInterface host_a [example_datagram; example_datagram])))
    as (r1 & r' & _ & E & _ & _ & _ & Hq).
  - eapply set_interface_ok; [apply small_router_ok|apply host_a_inv].
  - intros a d Ha Hd. vm_compute in Ha. apply list_elem_of_singleton in Ha as ->.
    apply elem_of_cons in Hd as [->|Hd]; [apply example_datagram_ok|].
    apply elem_of_cons in Hd as [->|Hd]; [apply example_datagram_ok|]. by apply elem_of_nil in Hd.
  - eauto.
Defined.
