(* ===== verification/NetworkSimulator.v ===== *)
(** * The network simulator

    [apps/network_simulator.cc]: hosts on the links of a router exchange datagrams
    and check that they receive exactly what they expect.  Random numbers are
    arguments; what is printed is left out. *)
From S2P Require Import Prelude Buffer Parser Checksum IPv4 Ethernet Address NetworkInterface Router.
From Stdlib Require String.
Open Scope string_scope.
Open Scope list_scope.
Open Scope Z_scope.

(** [random] are the numbers drawn for the six bytes. *)
Definition random_host_ethernet_address (random : list Z) : EthernetAddress :=
  match map u8 random with
  | [] => []
  | b :: addr => Z.land (Z.lor b 2) 254 :: addr
  end.

Definition random_router_ethernet_address (random : list Z) : EthernetAddress :=
  match map u8 random with
  | _ :: _ :: _ :: addr => 2 :: 0 :: 0 :: addr
  | addr => addr
  end.

(** A dotted quad. *)
Definition quad (a b c d : Z) : Z := ((a * 256 + b) * 256 + c) * 256 + d.

(** ** Hosts *)

Record Host : Type := mkHost {
  h_name : string;
  h_my_address : Address;
  h_interface : AsyncNetworkInterface;
  h_next_hop : Address;
  h_expecting_to_receive : list InternetDatagram }.

(** [x.serialize().concatenate()]. *)
Definition serialized (d : InternetDatagram) : result bytes :=
  let* l := IPv4Datagram_serialize d in Ok (bl_concatenate l).

Fixpoint expecting (expectations : list InternetDatagram) (expected : InternetDatagram) : result bool :=
  match expectations with
  | [] => Ok false
  | x :: expectations =>
      let* a := serialized x in
      let* b := serialized expected in
      if bool_decide (a = b) then Ok true else expecting expectations expected
  end.

Fixpoint remove_expectation (expectations : list InternetDatagram) (expected : InternetDatagram)
    : result (list InternetDatagram) :=
  match expectations with
  | [] => Ok []
  | x :: expectations =>
      let* a := serialized x in
      let* b := serialized expected in
      if bool_decide (a = b) then Ok expectations
      else let* l := remove_expectation expectations expected in Ok (x :: l)
  end.

Definition new_Host (name : string) (my_address next_hop : Address) (random : list Z) : Host :=
  mkHost name my_address
    (new_AsyncNetworkInterface (new_NetworkInterface (random_host_ethernet_address random) my_address)) next_hop [].

Definition with_interface (h : Host) (a : AsyncNetworkInterface) : Host :=
  mkHost (h_name h) (h_my_address h) a (h_next_hop h) (h_expecting_to_receive h).

(** [random] is the printed random number. *)
Definition send_to (h : Host) (destination : Address) (ttl : Z) (random : bytes) : result (Host * InternetDatagram) :=
  let hd := ip_header new_IPv4Datagram in
  let* src := ipv4_numeric (h_my_address h) in
  let* dst := ipv4_numeric destination in
  let payload := BufferList_of (String.list_byte_of_string "random payload: {" ++ random ++ String.list_byte_of_string "}") in
  let hd := set_ip_dst dst (set_ip_src src hd) in
  let hd := set_ip_len (u16 (ih_hlen hd * 4 +! bl_size payload)) hd in
  let dgram := mkIPv4Datagram (set_ip_ttl ttl hd) payload in
  let* a := async_send_datagram (h_interface h) dgram (h_next_hop h) in
  Ok (with_interface h a, dgram).

Definition expect (h : Host) (expected : InternetDatagram) : Host :=
  mkHost (h_name h) (h_my_address h) (h_interface h) (h_next_hop h) (h_expecting_to_receive h ++ [expected]).

(** The loop of [check]: what is left of the expectations. *)
Fixpoint check_received (received expectations : list InternetDatagram) : result (list InternetDatagram) :=
  match received with
  | [] => Ok expectations
  | dgram_received :: received =>
      let* ok := expecting expectations dgram_received in
      if negb ok then Err runtime_error
      else
        let* expectations := remove_expectation expectations dgram_received in
        check_received received expectations
  end.

Definition check (h : Host) : result Host :=
  let* unmet := check_received (as_datagrams_out (h_interface h)) (h_expecting_to_receive h) in
  match unmet with
  | [] => Ok (mkHost (h_name h) (h_my_address h) (mkAsyncNetworkInterface (as_base (h_interface h)) []) (h_next_hop h) [])
  | _ :: _ => Err runtime_error
  end.

(** ** Links *)

Definition frames_out (a : AsyncNetworkInterface) : list EthernetFrame := ni_frames_out (as_base a).

(** [clear]: one frame is popped from the interface for each of [frames]. *)
Definition clear_frames (frames : list EthernetFrame) (a : AsyncNetworkInterface) : AsyncNetworkInterface :=
  let n := as_base a in
  mkAsyncNetworkInterface
    (mkNetworkInterface (ni_ethernet_address n) (ni_ip_address n) (drop (length frames) (ni_frames_out n)) (ni_timer n)
       (ni_address_table n) (ni_dgram_delay_queue n)) (as_datagrams_out a).

Fixpoint deliver (src : list EthernetFrame) (dst : AsyncNetworkInterface) : result AsyncNetworkInterface :=
  match src with
  | [] => Ok dst
  | f :: src =>
      let f := mkEthernetFrame (ef_header f) (BufferList_of (bl_concatenate (ef_payload f))) in
      let* dst := async_recv_frame dst f in
      deliver src dst
  end.

Definition exchange_frames (x y : AsyncNetworkInterface) : result (AsyncNetworkInterface * AsyncNetworkInterface) :=
  let x_frames := frames_out x in
  let y_frames := frames_out y in
  let* y := deliver x_frames y in
  let* x := deliver y_frames x in
  Ok (clear_frames x_frames x, clear_frames y_frames y).

Definition exchange_frames3 (x y z : AsyncNetworkInterface)
    : result (AsyncNetworkInterface * AsyncNetworkInterface * AsyncNetworkInterface) :=
  let x_frames := frames_out x in
  let y_frames := frames_out y in
  let z_frames := frames_out z in
  let* y := deliver x_frames y in
  let* z := deliver x_frames z in
  let* x := deliver y_frames x in
  let* z := deliver y_frames z in
  let* x := deliver z_frames x in
  let* y := deliver z_frames y in
  Ok (clear_frames x_frames x, clear_frames y_frames y, clear_frames z_frames z).

(** ** The network *)

(** The hosts by name, in some order. *)
Record Network : Type := mkNetwork {
  nw_router : Router;
  default_id : Z; eth0_id : Z; eth1_id : Z; eth2_id : Z; uun3_id : Z; hs4_id : Z; mit5_id : Z;
  nw_hosts : list (string * Host) }.

Definition with_router (n : Network) (r : Router) : Network :=
  mkNetwork r (default_id n) (eth0_id n) (eth1_id n) (eth2_id n) (uun3_id n) (hs4_id n) (mit5_id n) (nw_hosts n).
Definition with_hosts (n : Network) (hosts : list (string * Host)) : Network :=
  mkNetwork (nw_router n) (default_id n) (eth0_id n) (eth1_id n) (eth2_id n) (uun3_id n) (hs4_id n) (mit5_id n) hosts.

Fixpoint find_host (name : string) (hosts : list (string * Host)) : option Host :=
  match hosts with
  | [] => None
  | (x, h) :: hosts => if String.eqb x name then Some h else find_host name hosts
  end.

(** [insert] leaves a key that is there alone. *)
Definition insert_host (h : Host) (hosts : list (string * Host)) : list (string * Host) :=
  match find_host (h_name h) hosts with
  | Some _ => hosts
  | None => hosts ++ [(h_name h, h)]
  end.

Definition host (n : Network) (name : string) : result Host :=
  match find_host name (nw_hosts n) with
  | None => Err runtime_error
  | Some h => if String.eqb (h_name h) name then Ok h else Err runtime_error
  end.

(** Writing through the reference that [host] returns. *)
Definition set_host (n : Network) (name : string) (h : Host) : Network :=
  with_hosts n (map (fun x => if String.eqb (fst x) name then (fst x, h) else x) (nw_hosts n)).

(** The constructor: [random k] are the numbers drawn for the [k]th address, the
    router's first. *)
Definition new_Network (random : nat -> list Z) : result Network :=
  let add r k ip := add_interface r (new_AsyncNetworkInterface
    (new_NetworkInterface (random_router_ethernet_address (random k)) (inet ip))) in
  let (r, id0) := add new_Router 0%nat (quad 171 67 76 46) in
  let (r, id1) := add r 1%nat (quad 10 0 0 1) in
  let (r, id2) := add r 2%nat (quad 172 16 0 1) in
  let (r, id3) := add r 3%nat (quad 192 168 0 1) in
  let (r, id4) := add r 4%nat (quad 198 178 229 1) in
  let (r, id5) := add r 5%nat (quad 143 195 0 2) in
  let (r, id6) := add r 6%nat (quad 128 30 76 255) in
  let hosts := insert_host (new_Host "applesauce" (inet (quad 10 0 0 2)) (inet (quad 10 0 0 1)) (random 7%nat)) [] in
  let hosts := insert_host (new_Host "default_router" (inet (quad 171 67 76 1)) (inet 0) (random 8%nat)) hosts in
  let hosts := insert_host (new_Host "cherrypie" (inet (quad 192 168 0 2)) (inet (quad 192 168 0 1)) (random 9%nat)) hosts in
  let hosts := insert_host (new_Host "hs_router" (inet (quad 143 195 0 1)) (inet 0) (random 10%nat)) hosts in
  let hosts := insert_host (new_Host "dm42" (inet (quad 198 178 229 42)) (inet (quad 198 178 229 1)) (random 11%nat)) hosts in
  let hosts := insert_host (new_Host "dm43" (inet (quad 198 178 229 43)) (inet (quad 198 178 229 1)) (random 12%nat)) hosts in
  let n := mkNetwork r id0 id1 id2 id3 id4 id5 id6 hosts in
  let* default_router := host n "default_router" in
  let* hs_router := host n "hs_router" in
  let r := add_route r 0 0 (Some (h_my_address default_router)) id0 in
  let r := add_route r (quad 10 0 0 0) 8 None id1 in
  let r := add_route r (quad 172 16 0 0) 16 None id2 in
  let r := add_route r (quad 192 168 0 0) 24 None id3 in
  let r := add_route r (quad 198 178 229 0) 24 None id4 in
  let r := add_route r (quad 143 195 0 0) 17 (Some (h_my_address hs_router)) id5 in
  let r := add_route r (quad 143 195 128 0) 18 (Some (h_my_address hs_router)) id5 in
  let r := add_route r (quad 143 195 192 0) 19 (Some (h_my_address hs_router)) id5 in
  let r := add_route r (quad 128 30 76 255) 16 (Some (inet (quad 128 30 0 1))) id6 in
  Ok (with_router n r).

(** A link between an interface of the router and a host. *)
Definition link (n : Network) (id : Z) (name : string) : result Network :=
  let* x := interface (nw_router n) id in
  let* h := host n name in
  let* (x, y) := exchange_frames x (h_interface h) in
  Ok (set_host (with_router n (set_interface (nw_router n) id x)) name (with_interface h y)).

Definition link2 (n : Network) (id : Z) (name1 name2 : string) : result Network :=
  let* x := interface (nw_router n) id in
  let* h1 := host n name1 in
  let* h2 := host n name2 in
  let* (xy, z) := exchange_frames3 x (h_interface h1) (h_interface h2) in
  let (x, y) := (xy : AsyncNetworkInterface * AsyncNetworkInterface) in
  let n := with_router n (set_interface (nw_router n) id x) in
  Ok (set_host (set_host n name1 (with_interface h1 y)) name2 (with_interface h2 z)).

Definition simulate_physical_connections (n : Network) : result Network :=
  let* n := link n (default_id n) "default_router" in
  let* n := link n (eth0_id n) "applesauce" in
  let* n := link n (eth2_id n) "cherrypie" in
  let* n := link n (hs4_id n) "hs_router" in
  link2 n (uun3_id n) "dm42" "dm43".

Fixpoint rounds (k : nat) (n : Network) : result Network :=
  match k with
  | O => Ok n
  | S k =>
      let* r := route (nw_router n) in
      let* n := simulate_physical_connections (with_router n r) in
      rounds k n
  end.

Fixpoint check_all (hosts : list (string * Host)) : result (list (string * Host)) :=
  match hosts with
  | [] => Ok []
  | (name, h) :: hosts =>
      let* h := check h in
      let* hosts := check_all hosts in
      Ok ((name, h) :: hosts)
  end.

Definition simulate (n : Network) : result Network :=
  let* n := rounds 256 n in
  let* hosts := check_all (nw_hosts n) in
  Ok (with_hosts n hosts).

(** ** The tests *)

(** One host sends; another, if given, expects the datagram with its time to live
    one less. *)
Definition test (n : Network) (from : string) (to : Address) (ttl : Z) (random : bytes) (expected_at : option string)
    : result Network :=
  let* h := host n from in
  let* (h, dgram_sent) := send_to h to ttl random in
  let n := set_host n from h in
  let* n :=
    match expected_at with
    | Some name =>
        let* h := host n name in
        Ok (set_host n name (expect h (with_ttl (u8 (ih_ttl (ip_header dgram_sent) - 1)) dgram_sent)))
    | None => Ok n
    end in
  simulate n.

Definition network_simulator (random : nat -> list Z) (payloads : nat -> bytes) : result Network :=
  let* n := new_Network random in
  let* cherrypie := host n "cherrypie" in
  let* n := test n "applesauce" (h_my_address cherrypie) 64 (payloads 0%nat) (Some "cherrypie") in
  let* applesauce := host n "applesauce" in
  let* n := test n "cherrypie" (h_my_address applesauce) 64 (payloads 1%nat) (Some "applesauce") in
  let* n := test n "applesauce" (inet (quad 1 2 3 4)) 64 (payloads 2%nat) (Some "default_router") in
  let* n := test n "applesauce" (inet (quad 143 195 131 17)) 64 (payloads 3%nat) (Some "hs_router") in
  let* n := test n "cherrypie" (inet (quad 143 195 193 52)) 64 (payloads 4%nat) (Some "hs_router") in
  let* n := test n "cherrypie" (inet (quad 143 195 223 255)) 64 (payloads 5%nat) (Some "hs_router") in
  let* n := test n "cherrypie" (inet (quad 143 195 224 0)) 64 (payloads 6%nat) (Some "default_router") in
  let* dm43 := host n "dm43" in
  let* n := test n "dm42" (h_my_address dm43) 64 (payloads 7%nat) (Some "dm43") in
  let* n := test n "applesauce" (inet (quad 1 2 3 4)) 1 (payloads 8%nat) None in
  test n "applesauce" (inet (quad 1 2 3 4)) 0 (payloads 9%nat) None.

(** ** What [check] checks *)

Definition wire_of (d : InternetDatagram) : bytes := match serialized d with Ok b => b | Err _ => [] end.
Definition serialisable (d : InternetDatagram) : Prop := serialized d = Ok (wire_of d).

Lemma expecting_eq l d : Forall serialisable l -> serialisable d ->
  expecting l d = Ok (bool_decide (wire_of d ∈ map wire_of l)).
Proof.
  intros Hl Hd. induction Hl as [|x l Hx Hl IH]; cbn [expecting map]; [by rewrite bool_decide_eq_false_2 by apply not_elem_of_nil|].
  rewrite Hx, Hd. cbn [rbind]. destruct (bool_decide_reflect (wire_of x = wire_of d)) as [E|E].
  - rewrite bool_decide_eq_true_2; [done|]. rewrite E. by left.
  - rewrite IH. f_equal. apply bool_decide_ext. rewrite elem_of_cons. naive_solver.
Qed.

Lemma remove_expectation_spec l d : Forall serialisable l -> serialisable d -> wire_of d ∈ map wire_of l ->
  exists l', remove_expectation l d = Ok l' /\ Forall serialisable l' /\ map wire_of l ≡ₚ wire_of d :: map wire_of l'.
Proof.
  intros Hl Hd Hin. induction Hl as [|x l Hx Hl IH]; cbn [remove_expectation map] in *; [by apply elem_of_nil in Hin|].
  rewrite Hx, Hd. cbn [rbind]. destruct (bool_decide_reflect (wire_of x = wire_of d)) as [E|E].
  - exists l. rewrite E. done.
  - destruct IH as (l' & -> & Hl' & Hp); [apply elem_of_cons in Hin as [|]; [congruence|done]|]. cbn [rbind].
    exists (x :: l'). split; [done|]. split; [by constructor|]. cbn. rewrite Hp. apply Permutation_swap.
Qed.

Lemma check_received_spec received : forall expectations,
  Forall serialisable received -> Forall serialisable expectations ->
  match check_received received expectations with
  | Ok unmet => map wire_of expectations ≡ₚ map wire_of received ++ map wire_of unmet
  | Err _ => forall rest, ~ map wire_of expectations ≡ₚ map wire_of received ++ rest
  end.
Proof.
  induction received as [|d received IH]; intros l Hr Hl; cbn [check_received map]; [done|].
  inversion Hr as [|? ? Hd Hr']; subst. rewrite expecting_eq by done. cbn [rbind].
  destruct (bool_decide_reflect (wire_of d ∈ map wire_of l)) as [Hin|Hin]; cbn [negb].
  - destruct (remove_expectation_spec l d Hl Hd Hin) as (l' & -> & Hl' & Hp). cbn [rbind].
    specialize (IH l' Hr' Hl'). destruct (check_received received l') as [unmet|].
    + rewrite Hp, IH. done.
    + intros rest Hall. apply (IH rest). apply (Permutation_cons_inv (a := wire_of d)). by rewrite <- Hp.
  - intros rest Hall. apply Hin. rewrite Hall. by left.
Qed.

(** C36: The check of a host is exact: it succeeds precisely when the datagrams that
    arrived are, as bytes and up to their order, those that were expected, none
    missing, none unexpected and none twice; afterwards nothing is queued or
    expected. *)
Theorem host_check_exact h :
  Forall serialisable (as_datagrams_out (h_interface h)) -> Forall serialisable (h_expecting_to_receive h) ->
  ((exists h', check h = Ok h') <->
     map wire_of (as_datagrams_out (h_interface h)) ≡ₚ map wire_of (h_expecting_to_receive h)) /\
  (forall h', check h = Ok h' -> as_datagrams_out (h_interface h') = [] /\ h_expecting_to_receive h' = []).
Proof.
  intros Hr He. unfold check. pose proof (check_received_spec _ _ Hr He) as H.
  destruct (check_received _ _) as [unmet|]; cbn [rbind].
  - destruct unmet as [|d unmet]; cbn [map] in H.
    + rewrite app_nil_r in H. split; [|by intros h' [= <-]]. split; [by rewrite H|by eexists].
    + split; [|done]. split; [by intros [h' ?]|]. intros Hp. exfalso. rewrite <- Hp in H.
      apply Permutation_length in H. rewrite length_app in H. cbn in H. lia.
  - split; [|done]. split; [by intros [h' ?]|]. intros Hp. exfalso. apply (H []). by rewrite app_nil_r.
Qed.

(** ** Links do not fail *)

Definition short_frame (f : EthernetFrame) : Prop := zlen (bl_concatenate (ef_payload f)) < W64.

Lemma deliver_total src : forall dst ip, ni_inv (as_base dst) ip -> Forall short_frame src ->
  exists dst' out new, deliver src dst = Ok dst' /\ ni_inv (as_base dst') ip /\ frames_out dst' = frames_out dst ++ out /\
    as_datagrams_out dst' = as_datagrams_out dst ++ new.
Proof.
  induction src as [|f src IH]; intros dst ip Hn Hs; cbn [deliver].
  { exists dst, [], []. by rewrite !app_nil_r. }
  inversion Hs as [|? ? Hf Hs']; subst. set (b := Buffer_of (bl_concatenate (ef_payload f))).
  destruct (recv_frame_spec (as_base dst) ip (mkEthernetFrame (ef_header f) [b]) b Hn eq_refl) as (n' & o & E & Hn' & Hc).
  { by apply Buffer_of_ok. }
  unfold async_recv_frame, BufferList_of. fold b. rewrite E. cbn [rbind].
  destruct (recv_frame_grows _ ip (mkEthernetFrame (ef_header f) [b]) b _ _ Hn eq_refl (Buffer_of_ok _ Hf) E) as [(out1 & Hout & _) _].
  set (dst1 := mkAsyncNetworkInterface n' (as_datagrams_out dst ++ match o with Some d => [d] | None => [] end)).
  assert (Hm : match o with Some d => Ok (mkAsyncNetworkInterface n' (as_datagrams_out dst ++ [d]))
    | None => Ok (mkAsyncNetworkInterface n' (as_datagrams_out dst)) end = Ok dst1)
    by (unfold dst1; destruct o; by rewrite ?app_nil_r).
  rewrite Hm. cbn [rbind]. destruct (IH dst1 ip Hn' Hs') as (dst' & out & new & -> & H1 & H2 & H3).
  exists dst', (out1 ++ out), (match o with Some d => [d] | None => [] end ++ new). split; [done|]. split; [done|].
  rewrite H2, H3. unfold dst1, frames_out. cbn. rewrite Hout, <- !app_assoc. done.
Qed.

(** A link carries every frame once.  Whatever frames two interfaces have queued,
    exchanging them never throws; each interface is given the other's frames in
    order, and what is queued afterwards is exactly what the interfaces sent in
    answer. *)
Theorem exchange_frames_exact x y ipx ipy :
  ni_inv (as_base x) ipx -> ni_inv (as_base y) ipy ->
  Forall short_frame (frames_out x) -> Forall short_frame (frames_out y) ->
  exists x1 y1 x' y' answers_x answers_y,
    deliver (frames_out x) y = Ok y1 /\ deliver (frames_out y) x = Ok x1 /\
    exchange_frames x y = Ok (x', y') /\ ni_inv (as_base x') ipx /\ ni_inv (as_base y') ipy /\
    frames_out x1 = frames_out x ++ answers_x /\ frames_out x' = answers_x /\
    frames_out y1 = frames_out y ++ answers_y /\ frames_out y' = answers_y /\
    as_datagrams_out x' = as_datagrams_out x1 /\ as_datagrams_out y' = as_datagrams_out y1.
Proof.
  intros Hx Hy Fx Fy. destruct (deliver_total _ y ipy Hy Fx) as (y1 & ay & ny & E1 & I1 & O1 & _).
  destruct (deliver_total _ x ipx Hx Fy) as (x1 & ax & nx & E2 & I2 & O2 & _).
  exists x1, y1, (clear_frames (frames_out x) x1), (clear_frames (frames_out y) y1), ax, ay.
  unfold exchange_frames. rewrite E1. cbn [rbind]. rewrite E2. cbn [rbind]. split; [done|]. split; [done|].
  split; [done|]. split; [by destruct I2|]. split; [by destruct I1|].
  change (frames_out (clear_frames (frames_out x) x1)) with (drop (length (frames_out x)) (frames_out x1)).
  change (frames_out (clear_frames (frames_out y) y1)) with (drop (length (frames_out y)) (frames_out y1)).
  rewrite O1, O2, !drop_app_length. done.
Qed.

(** ** A simulation *)

(** Some random numbers. *)
Definition sample_random (k : nat) : list Z := map (fun i => 1000 * Z.of_nat k + 37 * Z.of_nat i) (seq 1 6).
Definition sample_payload (k : nat) : bytes := repeat x31 (S k).

(** The whole program: all ten tests pass. *)
Theorem simulation_succeeds : exists n, network_simulator sample_random sample_payload = Ok n.
Proof. eexists. vm_compute. reflexivity. Qed.

(** The routes of the network but the one to 128.30.0.0/16. *)
Definition canonical_routes : gmap (Z * Z) route_info :=
  list_to_map [((0, 0), (Some (inet (quad 171 67 76 1)), 0)); ((quad 10 0 0 0, 8), (None, 1));
    ((quad 172 16 0 0, 16), (None, 2)); ((quad 192 168 0 0, 24), (None, 3)); ((quad 198 178 229 0, 24), (None, 4));
    ((quad 143 195 0 0, 17), (Some (inet (quad 143 195 0 1)), 5));
    ((quad 143 195 128 0, 18), (Some (inet (quad 143 195 0 1)), 5));
    ((quad 143 195 192 0, 19), (Some (inet (quad 143 195 0 1)), 5))].

Lemma new_Network_routes random n : new_Network random = Ok n ->
  delete (quad 128 30 76 255, 16) (r_routes (nw_router n)) = canonical_routes.
Proof. intros [= <-]. vm_compute. reflexivity. Qed.

Lemma canonical_routes_cases p len v : canonical_routes !! (p, len) = Some v ->
  (p = 0 /\ len = 0 /\ v = (Some (inet (quad 171 67 76 1)), 0)) \/
  (p = quad 10 0 0 0 /\ len = 8 /\ v = (None, 1)) \/
  (p = quad 172 16 0 0 /\ len = 16 /\ v = (None, 2)) \/
  (p = quad 192 168 0 0 /\ len = 24 /\ v = (None, 3)) \/
  (p = quad 198 178 229 0 /\ len = 24 /\ v = (None, 4)) \/
  (p = quad 143 195 0 0 /\ len = 17 /\ v = (Some (inet (quad 143 195 0 1)), 5)) \/
  (p = quad 143 195 128 0 /\ len = 18 /\ v = (Some (inet (quad 143 195 0 1)), 5)) \/
  (p = quad 143 195 192 0 /\ len = 19 /\ v = (Some (inet (quad 143 195 0 1)), 5)).
Proof.
  intros Hv. apply elem_of_list_to_map_2 in Hv. rewrite !elem_of_cons, elem_of_nil in Hv.
  destruct_or!; try done; injection Hv as -> -> ->; naive_solver.
Qed.

Lemma canonical_routes_canonical : routes_canonical canonical_routes.
Proof.
  intros p len v Hv. apply canonical_routes_cases in Hv. unfold canonical, quad in *.
  destruct_or!; destruct Hv as (-> & -> & _); repeat split; (lia || reflexivity).
Qed.

(** The power of two that [prefix_matches] divides by, evaluated. *)
Ltac eval_pow H :=
  match type of H with
  | _ / ?m = _ => let x := eval vm_compute in m in change m with x in H
  end.

(** The route to 128.30.0.0/16 is given as 128.30.76.255 with sixteen bits, and
    is never found: every address of that network is routed to the default
    router. *)
Theorem mit_unreachable random n dst :
  new_Network random = Ok n -> quad 128 30 0 0 <= dst <= quad 128 30 255 255 ->
  find_route (r_routes (nw_router n)) dst 33 0 = Some (Some (inet (quad 171 67 76 1)), 0).
Proof.
  intros Hn Hd. assert (0 <= dst < W32) by (unfold quad in *; lia).
  rewrite (find_route_host_bits _ _ (quad 128 30 76 255) 16) by (done || (split; [lia|done])).
  rewrite (new_Network_routes _ _ Hn). pose proof (find_route_spec _ _ canonical_routes_canonical H) as Hf.
  assert (Hdef : canonical_routes !! (0, 0) = Some (Some (inet (quad 171 67 76 1)), 0)) by done.
  destruct (find_route canonical_routes dst 33 0) as [v|].
  - destruct Hf as (p & len & Hv & Hm & _). apply canonical_routes_cases in Hv. unfold prefix_matches, quad in *.
    destruct_or!; destruct Hv as (-> & -> & ->); [done|exfalso; eval_pow Hm; Z.to_euclidean_division_equations; lia..].
  - exfalso. apply (Hf _ _ _ Hdef). unfold prefix_matches. rewrite !Z.div_small; lia.
Qed.

(** ** Witnesses *)

(** A host that got the datagram it expects. *)
Definition sample_dgram : InternetDatagram :=
  mkIPv4Datagram (set_ip_len 24 (ip_header new_IPv4Datagram)) (BufferList_of (repeat x31 4)).
Definition sample_host : Host :=
  let h := expect (new_Host "dm42" (inet (quad 198 178 229 42)) (inet (quad 198 178 229 1)) (sample_random 0)) sample_dgram in
  with_interface h (mkAsyncNetworkInterface (as_base (h_interface h)) [sample_dgram]).

Lemma host_check_exact_witness : exists h', check sample_host = Ok h' /\ h_expecting_to_receive h' = [].
Proof.
  destruct (host_check_exact sample_host) as [[_ H] H2]; [by repeat constructor..|].
  destruct H as [h' E]; [reflexivity|]. exists h'. split; [exact E|]. apply (H2 h' E).
Defined.

(** An interface that asks for an Ethernet address, and the one that answers. *)
Definition asking : AsyncNetworkInterface :=
  let a := new_AsyncNetworkInterface (new_NetworkInterface (random_host_ethernet_address (sample_random 0)) (inet (quad 10 0 0 2))) in
  match async_send_datagram a example_datagram (inet (quad 10 0 0 1)) with Ok a => a | Err _ => a end.
Definition answering : AsyncNetworkInterface :=
  new_AsyncNetworkInterface (new_NetworkInterface (random_router_ethernet_address (sample_random 1)) (inet (quad 10 0 0 1))).

Lemma asking_inv : ni_inv (as_base asking) (quad 10 0 0 2).
Proof.
  destruct (send_datagram_spec (new_NetworkInterface (random_host_ethernet_address (sample_random 0)) (inet (quad 10 0 0 2)))
    (quad 10 0 0 2) example_datagram (quad 10 0 0 1)) as (n' & E & Hn & _).
  - apply new_NetworkInterface_inv; [|done]. split; [done|]. by repeat constructor.
  - apply example_datagram_ok.
  - done.
  - unfold asking, async_send_datagram. cbn [as_base new_AsyncNetworkInterface]. by rewrite E.
Qed.

Lemma exchange_frames_exact_witness :
  exists x' y', exchange_frames asking answering = Ok (x', y') /\ ni_inv (as_base x') (quad 10 0 0 2).
Proof.
  destruct (exchange_frames_exact asking answering (quad 10 0 0 2) (quad 10 0 0 1))
    as (x1 & y1 & x' & y' & ax & ay & _ & _ & E & Hx & _).
  - exact asking_inv.
  - apply new_NetworkInterface_inv; [|done]. split; [done|]. by repeat constructor.
  - constructor; [by vm_compute|constructor].
  - constructor.
  - exists x', y'. exact (conj E Hx).
Defined.

Lemma mit_unreachable_witness : exists n, new_Network sample_random = Ok n /\
  find_route (r_routes (nw_router n)) (quad 128 30 76 7) 33 0 = Some (Some (inet (quad 171 67 76 1)), 0).
Proof.
  destruct (new_Network sample_random) as [n|] eqn:E; [|exact (False_ind _ ltac:(discriminate E))].
  exists n. split; [reflexivity|]. apply (mit_unreachable sample_random n); [exact E|]. by vm_compute.
Defined.
