(* ===== verification/Adapters.v ===== *)
(** * Adapters

    [libsponge/tcp_helpers/fd_adapter.hh], [lossy_fd_adapter.hh],
    [tcp_over_ip.hh], [tuntap_adapter.hh] and their [.cc]: between TCP segments
    and what a UDP socket, a TUN device or a TAP device carries.  The device is
    explicit: [read] takes what the device delivers, and every operation returns
    what it writes to the device. *)
From S2P Require Import Prelude WrappingIntegers Buffer Parser Checksum TCPSegment IPv4 Ethernet Address NetworkInterface.

Record FdAdapterConfig : Type := mkFdAdapterConfig {
  fc_source : Address;
  fc_destination : Address;
  fc_loss_rate_dn : Z;
  fc_loss_rate_up : Z }.

Definition default_FdAdapterConfig : FdAdapterConfig :=
  mkFdAdapterConfig (Address_numeric 0 0) (Address_numeric 0 0) 0 0.

Record FdAdapterBase : Type := mkFdAdapterBase { fa_cfg : FdAdapterConfig; fa_listen : bool }.

Definition new_FdAdapterBase : FdAdapterBase := mkFdAdapterBase default_FdAdapterConfig false.

Definition set_listening (a : FdAdapterBase) (l : bool) : FdAdapterBase := mkFdAdapterBase (fa_cfg a) l.
Definition set_source (x : Address) (a : FdAdapterBase) : FdAdapterBase :=
  mkFdAdapterBase (mkFdAdapterConfig x (fc_destination (fa_cfg a)) (fc_loss_rate_dn (fa_cfg a))
    (fc_loss_rate_up (fa_cfg a))) (fa_listen a).
Definition set_destination (x : Address) (a : FdAdapterBase) : FdAdapterBase :=
  mkFdAdapterBase (mkFdAdapterConfig (fc_source (fa_cfg a)) x (fc_loss_rate_dn (fa_cfg a))
    (fc_loss_rate_up (fa_cfg a))) (fa_listen a).

(** A condition on an address that is looked at only when not listening. *)
Definition unless_listening (a : FdAdapterBase) (m : result Z) (f : Z -> bool) : result bool :=
  if fa_listen a then Ok false else let* x := m in Ok (f x).

(** ** TCP in IPv4 *)

Definition unwrap_tcp_in_ip (a : FdAdapterBase) (ip_dgram : InternetDatagram)
    : result (FdAdapterBase * option TCPSegment) :=
  let h := ip_header ip_dgram in
  let* other := unless_listening a (ipv4_numeric (fc_source (fa_cfg a))) (fun x => negb (ih_dst h =? x)) in
  if (other : bool) then Ok (a, None)
  else
  let* other := unless_listening a (ipv4_numeric (fc_destination (fa_cfg a))) (fun x => negb (ih_src h =? x)) in
  if (other : bool) then Ok (a, None)
  else if negb (ih_proto h =? PROTO_TCP) then Ok (a, None)
  else
  let* b := bl_to_Buffer (ip_payload ip_dgram) in
  let* (r, tcp_seg) := TCPSegment_parse new_TCPSegment b (pseudo_cksum h) in
  if negb (pr_eqb NoError r) then Ok (a, None)
  else
  let* port := Address_port (fc_source (fa_cfg a)) in
  if negb (th_dport (header tcp_seg) =? port) then Ok (a, None)
  else if fa_listen a && negb (th_syn (header tcp_seg) && negb (th_rst (header tcp_seg))) then Ok (a, None)
  else
  let a := if fa_listen a then
             set_listening (set_destination (Address_numeric (ih_src h) (th_sport (header tcp_seg)))
               (set_source (Address_numeric (ih_dst h) port) a)) false
           else a in
  let* peer := Address_port (fc_destination (fa_cfg a)) in
  if negb (th_sport (header tcp_seg) =? peer) then Ok (a, None)
  else Ok (a, Some tcp_seg).

(** The segment is passed by reference and keeps the port numbers. *)
Definition wrap_tcp_in_ip (a : FdAdapterBase) (seg : TCPSegment) : result (TCPSegment * InternetDatagram) :=
  let* sport := Address_port (fc_source (fa_cfg a)) in
  let* dport := Address_port (fc_destination (fa_cfg a)) in
  let seg := with_header (set_dport dport) (with_header (set_sport sport) seg) in
  let* src := ipv4_numeric (fc_source (fa_cfg a)) in
  let* dst := ipv4_numeric (fc_destination (fa_cfg a)) in
  let h := set_ip_dst dst (set_ip_src src (ip_header new_IPv4Datagram)) in
  let h := set_ip_len (u16 (ih_hlen h * 4 + th_doff (header seg) * 4 +! buf_size (payload seg))) h in
  let* pay := TCPSegment_serialize seg (pseudo_cksum h) in
  Ok (seg, mkIPv4Datagram h pay).

(** ** What an adapter is

    The template parameter of [LossyFdAdapter] and of the socket: [I] is what its
    device delivers, [O] what it writes there. *)
Class FdAdapter (A I O : Type) : Type := {
  adapter_read : A -> I -> result (A * option TCPSegment * list O);
  adapter_write : A -> TCPSegment -> result (A * TCPSegment * list O);
  adapter_tick : A -> Z -> A * list O;
  adapter_base : A -> FdAdapterBase;
  adapter_set_base : A -> FdAdapterBase -> A;
  (** whether reading this sets the end of file of the descriptor, as
      [FileDescriptor::read] does and [UDPSocket::recv] does not *)
  adapter_eof : I -> bool }.

(** What clients rely on: the configured loss rates are the client's. *)
Class FdAdapterLaws (A I O : Type) `{FdAdapter A I O} : Prop := {
  adapter_read_rates a i a' s out : adapter_read a i = Ok (a', s, out) ->
    fc_loss_rate_dn (fa_cfg (adapter_base a')) = fc_loss_rate_dn (fa_cfg (adapter_base a)) /\
    fc_loss_rate_up (fa_cfg (adapter_base a')) = fc_loss_rate_up (fa_cfg (adapter_base a));
  adapter_write_rates a s a' s' out : adapter_write a s = Ok (a', s', out) ->
    fc_loss_rate_dn (fa_cfg (adapter_base a')) = fc_loss_rate_dn (fa_cfg (adapter_base a)) /\
    fc_loss_rate_up (fa_cfg (adapter_base a')) = fc_loss_rate_up (fa_cfg (adapter_base a)) }.

(** ** UDP *)

Record received_datagram : Type := mkReceivedDatagram { rd_source_address : Address; rd_payload : bytes }.

Record TCPOverUDPSocketAdapter : Type := mkUDPAdapter { ua_base : FdAdapterBase }.

Definition udp_read (u : TCPOverUDPSocketAdapter) (datagram : received_datagram)
    : result (TCPOverUDPSocketAdapter * option TCPSegment) :=
  let a := ua_base u in
  if negb (fa_listen a) && negb (Address_eqb (rd_source_address datagram) (fc_destination (fa_cfg a)))
  then Ok (u, None)
  else
  let* (r, seg) := TCPSegment_parse new_TCPSegment (Buffer_of (rd_payload datagram)) 0 in
  if negb (pr_eqb NoError r) then Ok (u, None)
  else if fa_listen a then
    if th_syn (header seg) && negb (th_rst (header seg)) then
      Ok (mkUDPAdapter (set_listening (set_destination (rd_source_address datagram) a) false), Some seg)
    else Ok (u, None)
  else Ok (u, Some seg).

Definition udp_write (u : TCPOverUDPSocketAdapter) (seg : TCPSegment) : result (TCPSegment * (Address * bytes)) :=
  let a := ua_base u in
  let* sport := Address_port (fc_source (fa_cfg a)) in
  let* dport := Address_port (fc_destination (fa_cfg a)) in
  let seg := with_header (set_dport dport) (with_header (set_sport sport) seg) in
  let* s := TCPSegment_serialize seg 0 in
  Ok (seg, (fc_destination (fa_cfg a), bl_concatenate s)).

#[export] Instance UDPAdapter : FdAdapter TCPOverUDPSocketAdapter received_datagram (Address * bytes) := {
  adapter_read u d := let* (u, s) := udp_read u d in Ok (u, s, []);
  adapter_write u seg := let* (seg, d) := udp_write u seg in Ok (u, seg, [d]);
  adapter_tick u ms := (u, []);
  adapter_base := ua_base;
  adapter_set_base u a := mkUDPAdapter a;
  adapter_eof d := false }.

(** ** A TUN device *)

Record TCPOverIPv4OverTunFdAdapter : Type := mkTunAdapter { ta_base : FdAdapterBase }.

Definition tun_read (t : TCPOverIPv4OverTunFdAdapter) (s : bytes)
    : result (TCPOverIPv4OverTunFdAdapter * option TCPSegment) :=
  let* (r, ip_dgram) := IPv4Datagram_parse new_IPv4Datagram (Buffer_of s) in
  if negb (pr_eqb r NoError) then Ok (t, None)
  else let* (a, seg) := unwrap_tcp_in_ip (ta_base t) ip_dgram in Ok (mkTunAdapter a, seg).

Definition tun_write (t : TCPOverIPv4OverTunFdAdapter) (seg : TCPSegment) : result (TCPSegment * bytes) :=
  let* (seg, d) := wrap_tcp_in_ip (ta_base t) seg in
  let* s := IPv4Datagram_serialize d in
  Ok (seg, bl_concatenate s).

#[export] Instance TunAdapter : FdAdapter TCPOverIPv4OverTunFdAdapter bytes bytes := {
  adapter_read t s := let* (t, seg) := tun_read t s in Ok (t, seg, []);
  adapter_write t seg := let* (seg, s) := tun_write t seg in Ok (t, seg, [s]);
  adapter_tick t ms := (t, []);
  adapter_base := ta_base;
  adapter_set_base t a := mkTunAdapter a;
  adapter_eof s := zlen s =? 0 }.

(** ** A TAP device *)

Record TCPOverIPv4OverEthernetAdapter : Type := mkEthernetAdapter {
  ea_base : FdAdapterBase;
  ea_interface : NetworkInterface;
  ea_next_hop : Address }.

(** The constructor writes an empty frame to the device. *)
Definition new_EthernetAdapter (eth_address : EthernetAddress) (ip_address next_hop : Address)
    : TCPOverIPv4OverEthernetAdapter * list bytes :=
  (mkEthernetAdapter new_FdAdapterBase (new_NetworkInterface eth_address ip_address) next_hop,
   [bl_concatenate (EthernetFrame_serialize new_EthernetFrame)]).

Definition take_frames (n : NetworkInterface) : NetworkInterface :=
  mkNetworkInterface (ni_ethernet_address n) (ni_ip_address n) [] (ni_timer n)
    (ni_address_table n) (ni_dgram_delay_queue n).

(** The loop writes each frame and removes it. *)
Definition send_pending (n : NetworkInterface) : NetworkInterface * list bytes :=
  (take_frames n, map (fun f => bl_concatenate (EthernetFrame_serialize f)) (ni_frames_out n)).

Definition ethernet_read (e : TCPOverIPv4OverEthernetAdapter) (s : bytes)
    : result (TCPOverIPv4OverEthernetAdapter * option TCPSegment * list bytes) :=
  let* (r, frame) := EthernetFrame_parse new_EthernetFrame (Buffer_of s) in
  if negb (pr_eqb r NoError) then Ok (e, None, [])
  else
  let* (n, ip_dgram) := recv_frame (ea_interface e) frame in
  let (n, out) := send_pending n in
  match ip_dgram with
  | Some d =>
      let* (a, seg) := unwrap_tcp_in_ip (ea_base e) d in
      Ok (mkEthernetAdapter a n (ea_next_hop e), seg, out)
  | None => Ok (mkEthernetAdapter (ea_base e) n (ea_next_hop e), None, out)
  end.

Definition ethernet_tick (e : TCPOverIPv4OverEthernetAdapter) (ms_since_last_tick : Z)
    : TCPOverIPv4OverEthernetAdapter * list bytes :=
  let (n, out) := send_pending (ni_tick (ea_interface e) ms_since_last_tick) in
  (mkEthernetAdapter (ea_base e) n (ea_next_hop e), out).

Definition ethernet_write (e : TCPOverIPv4OverEthernetAdapter) (seg : TCPSegment)
    : result (TCPOverIPv4OverEthernetAdapter * TCPSegment * list bytes) :=
  let* (seg, d) := wrap_tcp_in_ip (ea_base e) seg in
  let* n := send_datagram (ea_interface e) d (ea_next_hop e) in
  let (n, out) := send_pending n in
  Ok (mkEthernetAdapter (ea_base e) n (ea_next_hop e), seg, out).

#[export] Instance EthernetAdapter : FdAdapter TCPOverIPv4OverEthernetAdapter bytes bytes := {
  adapter_read := ethernet_read;
  adapter_write := ethernet_write;
  adapter_tick := ethernet_tick;
  adapter_base := ea_base;
  adapter_set_base e a := mkEthernetAdapter a (ea_interface e) (ea_next_hop e);
  adapter_eof s := zlen s =? 0 }.

(** ** Losing segments *)

(** A lossy adapter: the generator [_rand] is a state [R] from which [rand] draws
    a number. *)
Section lossy.
Context {A I O R : Type} `{FdAdapter A I O} (rand : R -> Z * R).

Record LossyFdAdapter : Type := mkLossy { lf_rand : R; lf_adapter : A }.

(** No number is drawn when the rate is zero. *)
Definition should_drop (l : LossyFdAdapter) (uplink : bool) : bool * LossyFdAdapter :=
  let cfg := fa_cfg (adapter_base (lf_adapter l)) in
  let loss := if uplink then fc_loss_rate_up cfg else fc_loss_rate_dn cfg in
  if loss =? 0 then (false, l)
  else let (x, g) := rand (lf_rand l) in (u16 x <? loss, mkLossy g (lf_adapter l)).

Definition lossy_read (l : LossyFdAdapter) (i : I) : result (LossyFdAdapter * option TCPSegment * list O) :=
  let* (x, out) := adapter_read (lf_adapter l) i in
  let (a, ret) := (x : A * option TCPSegment) in
  let (drop, l) := should_drop (mkLossy (lf_rand l) a) false in
  if drop then Ok (l, None, out) else Ok (l, ret, out).

Definition lossy_write (l : LossyFdAdapter) (seg : TCPSegment)
    : result (LossyFdAdapter * TCPSegment * list O) :=
  let (drop, l) := should_drop l true in
  if drop then Ok (l, seg, [])
  else
    let* (x, out) := adapter_write (lf_adapter l) seg in
    let (a, seg) := (x : A * TCPSegment) in
    Ok (mkLossy (lf_rand l) a, seg, out).

Definition lossy_tick (l : LossyFdAdapter) (ms_since_last_tick : Z) : LossyFdAdapter * list O :=
  let (a, out) := adapter_tick (lf_adapter l) ms_since_last_tick in (mkLossy (lf_rand l) a, out).
End lossy.
Arguments LossyFdAdapter : clear implicits.

#[export] Instance LossyAdapter {A I O R} `{FdAdapter A I O} (rand : R -> Z * R) : FdAdapter (LossyFdAdapter A R) I O := {
  adapter_read := lossy_read rand;
  adapter_write := lossy_write rand;
  adapter_tick := lossy_tick;
  adapter_base l := adapter_base (lf_adapter l);
  adapter_set_base l a := mkLossy (lf_rand l) (adapter_set_base (lf_adapter l) a);
  adapter_eof i := adapter_eof (A := A) (O := O) i }.

(** ** Which segments an adapter accepts *)

Record cfg_ok (c : FdAdapterConfig) (ip port peer_ip peer_port : Z) : Prop := {
  co_source : fc_source c = Address_numeric ip port;
  co_destination : fc_destination c = Address_numeric peer_ip peer_port;
  co_ip : 0 <= ip < W32;
  co_port : 0 <= port < W16;
  co_peer_ip : 0 <= peer_ip < W32;
  co_peer_port : 0 <= peer_port < W16 }.

Lemma cfg_addresses c ip port pip pport :
  cfg_ok c ip port pip pport ->
  ipv4_numeric (fc_source c) = Ok ip /\ ipv4_numeric (fc_destination c) = Ok pip /\
  Address_port (fc_source c) = Ok port /\ Address_port (fc_destination c) = Ok pport.
Proof.
  intros [-> -> H1 H2 H3 H4].
  by rewrite !ipv4_numeric_numeric, !Address_port_numeric by done.
Qed.

(** Parsing a segment fails or gives a segment whose ports are 16-bit numbers. *)
Lemma parse_segment_ports b c : buf_ok b ->
  exists r s, TCPSegment_parse new_TCPSegment b c = Ok (r, s) /\ 0 <= th_sport (header s) < W16.
Proof.
  intros Hb. unfold TCPSegment_parse. destruct (negb _); [eexists _, _; split; [done|cbn; lia]|].
  assert (Hy : yields TCPHeader_parse (fun v => 0 <= th_sport v.2 < W16)).
  { unfold TCPHeader_parse. eapply yields_bind; [apply yields_u16|intros sport Hs]. do 8 pstep.
    case_match; [by apply yields_ret|].
    eapply yields_bind; [apply yields_skip, u64_range|intros _ _]. pstep. case_match; by apply yields_ret. }
  destruct (Hy _ (new_NetParser_state b Hb)) as (v & p & -> & _ & Hv & _). cbn [rbind].
  eexists _, _. split; [done|]. done.
Qed.

(** The test of [unwrap_tcp_in_ip], for an adapter at [ip] and [port] whose peer
    is [peer_ip] and [peer_port], on a datagram whose payload was parsed to [s]
    with result [r]. *)
Definition accepts (listening : bool) (ip port peer_ip peer_port : Z) (h : IPv4Header)
    (r : ParseResult) (s : TCPHeader) : bool :=
  (ih_proto h =? PROTO_TCP) && pr_eqb NoError r && (th_dport s =? port) &&
  (if listening then th_syn s && negb (th_rst s)
   else (ih_dst h =? ip) && (ih_src h =? peer_ip) && (th_sport s =? peer_port)).

Lemma unwrap_spec a ip port pip pport d b :
  cfg_ok (fa_cfg a) ip port pip pport -> ip_payload d = [b] -> buf_ok b ->
  0 <= ih_src (ip_header d) < W32 -> 0 <= ih_dst (ip_header d) < W32 ->
  exists r s, TCPSegment_parse new_TCPSegment b (pseudo_cksum (ip_header d)) = Ok (r, s) /\
    0 <= th_sport (header s) < W16 /\
    unwrap_tcp_in_ip a d =
      if accepts (fa_listen a) ip port pip pport (ip_header d) r (header s)
      then Ok (if fa_listen a then
                 set_listening (set_destination (Address_numeric (ih_src (ip_header d)) (th_sport (header s)))
                   (set_source (Address_numeric (ih_dst (ip_header d)) port) a)) false
               else a, Some s)
      else Ok (a, None).
Proof.
  intros Hc Hp Hb Hs Hd. destruct (cfg_addresses _ _ _ _ _ Hc) as (E1 & E2 & E3 & E4).
  destruct (parse_segment_ports b (pseudo_cksum (ip_header d)) Hb) as (r & s & E & Hsp).
  exists r, s. split; [done|]. split; [done|]. unfold unwrap_tcp_in_ip, unless_listening, accepts.
  rewrite Hp, E1, E2, E3. cbn [bl_to_Buffer rbind]. rewrite E. destruct (fa_listen a); cbn [rbind andb].
  - destruct (ih_proto (ip_header d) =? PROTO_TCP); cbn [negb andb]; [|done].
    destruct (pr_eqb NoError r); cbn [negb andb]; [|done].
    destruct (th_dport (header s) =? port); cbn [negb andb]; [|done].
    destruct (th_syn (header s) && negb (th_rst (header s))); cbn [negb]; [|done].
    cbn [fc_destination fa_cfg set_listening set_destination].
    rewrite Address_port_numeric by done. cbn [rbind]. by rewrite Z.eqb_refl.
  - rewrite E4. cbn [rbind].
    destruct (ih_dst (ip_header d) =? ip); cbn [negb andb]; [|by rewrite !andb_false_r].
    destruct (ih_src (ip_header d) =? pip); cbn [negb andb]; [|by rewrite !andb_false_r].
    destruct (ih_proto (ip_header d) =? PROTO_TCP); cbn [negb andb]; [|done].
    destruct (pr_eqb NoError r); cbn [negb andb]; [|done].
    destruct (th_dport (header s) =? port); cbn [negb andb]; [|done].
    by destruct (th_sport (header s) =? pport).
Qed.

Lemma adopt_ok a ip port pip pport src dst sport :
  cfg_ok (fa_cfg a) ip port pip pport -> 0 <= src < W32 -> 0 <= dst < W32 -> 0 <= sport < W16 ->
  cfg_ok (fa_cfg (set_listening (set_destination (Address_numeric src sport)
    (set_source (Address_numeric dst port) a)) false)) dst port src sport.
Proof. intros []. by constructor. Qed.

(** The filter of the TCP-over-IPv4 adapters.  A datagram yields a segment
    exactly when it carries one with a valid checksum for the adapter's port,
    and, when listening, the segment is a SYN without RST, otherwise the
    datagram and the segment come from the peer to this address.  A listening
    adapter then adopts the two ends of the segment as its own; nothing else
    changes it. *)
Theorem unwrap_filters a ip port pip pport d b :
  cfg_ok (fa_cfg a) ip port pip pport -> ip_payload d = [b] -> buf_ok b ->
  0 <= ih_src (ip_header d) < W32 -> 0 <= ih_dst (ip_header d) < W32 ->
  exists r s a' o, TCPSegment_parse new_TCPSegment b (pseudo_cksum (ip_header d)) = Ok (r, s) /\
    unwrap_tcp_in_ip a d = Ok (a', o) /\
    (o = Some s <-> accepts (fa_listen a) ip port pip pport (ip_header d) r (header s) = true) /\
    (o = None -> a' = a) /\
    (forall s', o = Some s' -> s' = s /\ fa_listen a' = false /\
       cfg_ok (fa_cfg a') (ih_dst (ip_header d)) (th_dport (header s))
         (ih_src (ip_header d)) (th_sport (header s))).
Proof.
  intros Hc Hp Hb Hs Hd. destruct (unwrap_spec a ip port pip pport d b Hc Hp Hb Hs Hd) as (r & s & E & Hsp & ->).
  exists r, s. destruct (accepts _ _ _ _ _ _ _ _) eqn:Ea.
  - eexists _, _. split; [done|]. split; [done|]. split; [done|]. split; [done|]. intros s' [= <-].
    split; [done|]. unfold accepts in Ea. destruct (fa_listen a) eqn:El; zb.
    + split; [done|]. subst port. by eapply adopt_ok.
    + split; [done|]. subst. done.
  - eexists _, _. split; [done|]. split; [done|]. split; [done|]. split; [done|]. done.
Qed.

(** ** From one adapter to another *)

Definition addressed (port peer_port : Z) (s : TCPSegment) : TCPSegment :=
  with_header (set_dport peer_port) (with_header (set_sport port) s).

Lemma addressed_ok port peer_port s :
  TCPSegment_ok s -> 0 <= port < W16 -> 0 <= peer_port < W16 -> TCPSegment_ok (addressed port peer_port s).
Proof. intros ([] & H) ? ?. split; [by constructor|done]. Qed.

(** A segment that fits in a datagram. *)
Definition fits (s : TCPSegment) : Prop :=
  TCPSegment_ok s /\ 20 + 4 * th_doff (header s) + zlen (buf_str (payload s)) < W16.

(** What a receiver of the segment [s] gets: a new checksum, otherwise [s]. *)
Definition same_segment (s s' : TCPSegment) : Prop :=
  header s' = set_cksum (th_cksum (header s')) (header s) /\ buf_str (payload s') = buf_str (payload s).

Lemma wrap_spec a ip port pip pport s :
  cfg_ok (fa_cfg a) ip port pip pport -> fits s ->
  exists d, wrap_tcp_in_ip a s = Ok (addressed port pport s, d) /\ IPv4Datagram_ok d /\
    ih_src (ip_header d) = ip /\ ih_dst (ip_header d) = pip /\ ih_proto (ip_header d) = PROTO_TCP /\
    forall b s0, buf_ok b -> buf_str b = bl_concatenate (ip_payload d) ->
    exists s', TCPSegment_parse s0 b (pseudo_cksum (ip_header d)) = Ok (NoError, s') /\
      same_segment (addressed port pport s) s'.
Proof.
  intros Hc [Hs Hf]. destruct (cfg_addresses _ _ _ _ _ Hc) as (E1 & E2 & E3 & E4).
  destruct Hc as [_ _ C1 C2 C3 C4]. pose proof (addressed_ok port pport s Hs C2 C4) as Hs'.
  pose proof (tho_doff _ (proj1 Hs)) as Hdoff. pose proof (zlen_nonneg (buf_str (payload s))) as Hnn.
  unfold wrap_tcp_in_ip. rewrite E1, E2, E3, E4. cbn [rbind]. fold (addressed port pport s).
  set (len := u16 _). assert (Hlen : len = 20 + 4 * th_doff (header s) + zlen (buf_str (payload s))).
  { unfold len, buf_size. cbn [ih_hlen set_ip_dst set_ip_src new_IPv4Datagram ip_header default_IPv4Header
      addressed with_header header payload th_doff set_dport set_sport].
    change (IPv4Header_LENGTH / 4) with 5. rewrite u64_id, u16_id by lia. lia. }
  set (h := set_ip_len len _).
  assert (Hh : IPv4Header_ok h).
  { unfold h. constructor; cbn; try lia; try done. }
  destruct (segment_wire (addressed port pport s) (pseudo_cksum h) Hs' (pseudo_cksum_bound h Hh))
    as (l & El & Hl & Hbl & Hw).
  rewrite El. cbn [rbind]. exists (mkIPv4Datagram h l). split; [done|]. split.
  { split; [done|]. split; [done|]. cbn [ip_payload ip_header]. rewrite Hl.
    change (ih_len h) with len. change (4 * ih_hlen h) with 20.
    change (4 * th_doff (header s) + zlen (buf_str (payload s)) = len - 20). lia. }
  split; [done|]. split; [done|]. split; [done|]. cbn [ip_header ip_payload].
  intros b s0 Hb Hbs. destruct (Hw b s0 Hb Hbs) as (s' & Hp & H1 & H2 & _). by exists s'.
Qed.

Lemma datagram_parse_one d0 b r d : IPv4Datagram_parse d0 b = Ok (r, d) -> exists b', ip_payload d = [b'].
Proof.
  unfold IPv4Datagram_parse. destruct (IPv4Header_parse _ _) as [[hr p]|]; [|done]. cbn [rbind].
  destruct (negb _); intros [= _ <-]; by eexists.
Qed.

Lemma recv_frame_one n f n' d : recv_frame n f = Ok (n', Some d) -> exists c, ip_payload d = [c].
Proof.
  unfold recv_frame. destruct (negb _ && negb _); [done|]. destruct (_ =? TYPE_IPv4).
  - destruct (bl_to_Buffer _) as [b|]; [|done]. cbn [rbind].
    destruct (IPv4Datagram_parse _ b) as [[r x]|] eqn:E; [|done]. cbn [rbind].
    destruct (pr_eqb r NoError); [|done]. intros [= _ <-]. by eapply datagram_parse_one.
  - destruct (bl_to_Buffer _) as [b|]; [|done]. cbn [rbind].
    destruct (ARPMessage_parse _ b) as [[r x]|]; [|done]. cbn [rbind].
    destruct (negb _); [done|]. by destruct (recv_arp n x).
Qed.

(** Unwrapping what the other end wrapped, after a datagram layer that changed
    only the checksum. *)
Lemma unwrap_wrapped a ip port pip pport b bip bpip bpport s d d' :
  cfg_ok (fa_cfg a) ip port pip pport -> cfg_ok (fa_cfg b) bip pport bpip bpport ->
  (if fa_listen b then th_syn (header s) = true /\ th_rst (header s) = false
   else bip = pip /\ bpip = ip /\ bpport = port) ->
  wrap_tcp_in_ip a s = Ok (addressed port pport s, d) -> fits s ->
  (exists c, ip_payload d' = [c]) -> IPv4Datagram_ok d' ->
  ip_header d' = set_ip_cksum (ih_cksum (ip_header d')) (ip_header d) ->
  bl_concatenate (ip_payload d') = bl_concatenate (ip_payload d) ->
  exists b' s', unwrap_tcp_in_ip b d' = Ok (b', Some s') /\
    same_segment (addressed port pport s) s' /\ fa_listen b' = false /\ cfg_ok (fa_cfg b') pip pport ip port.
Proof.
  intros Ha Hb Hl Ew Hf (c & Ec) Hd' Eh Ep.
  destruct (wrap_spec a ip port pip pport s Ha Hf) as (d1 & Ew' & Hd & Esrc & Edst & Eproto & Hw).
  rewrite Ew in Ew'. injection Ew' as <-.
  assert (Hsrc : ih_src (ip_header d') = ip) by (rewrite Eh; done).
  assert (Hdst : ih_dst (ip_header d') = pip) by (rewrite Eh; done).
  assert (Hproto : ih_proto (ip_header d') = PROTO_TCP) by (rewrite Eh; done).
  assert (Hcks : pseudo_cksum (ip_header d') = pseudo_cksum (ip_header d)) by (by rewrite Eh).
  assert (Hcok : buf_ok c) by (destruct Hd' as (_ & Hall & _); rewrite Ec in Hall; by inversion Hall).
  destruct (unwrap_spec b bip pport bpip bpport d' c Hb Ec Hcok) as (r & s' & Er & Hsp & ->);
    [rewrite Hsrc; apply Ha|rewrite Hdst; apply Ha|].
  destruct (Hw c new_TCPSegment Hcok) as (s2 & Es2 & Hss).
  { by rewrite <- Ep, Ec. }
  rewrite Hcks, Es2 in Er. injection Er as <- <-. pose proof Hss as [Hh _].
  assert (Hacc : accepts (fa_listen b) bip pport bpip bpport (ip_header d') NoError (header s2) = true).
  { unfold accepts. rewrite Hproto, Hsrc, Hdst. change (PROTO_TCP =? PROTO_TCP) with true.
    change (pr_eqb NoError NoError) with true. rewrite Hh.
    cbn [andb set_cksum addressed with_header header set_dport set_sport th_dport th_sport th_syn th_rst].
    rewrite Z.eqb_refl. destruct (fa_listen b); destruct Hl as [H1 H2]; [by rewrite H1, H2|].
    destruct H2 as [-> ->]. subst. by rewrite !Z.eqb_refl. }
  rewrite Hacc. eexists _, s2. split; [done|]. split; [done|].
  assert (Hs2 : th_sport (header s2) = port) by (by rewrite Hh).
  destruct (fa_listen b) eqn:El.
  - split; [done|]. rewrite Hsrc, Hdst, Hs2. eapply adopt_ok; [done|apply Ha..].
  - split; [done|]. destruct Hl as (-> & -> & ->). done.
Qed.

(** Over TUN devices: what one adapter writes, the adapter at the other end
    reads as the same segment, with the ports of the connection; a listening
    adapter does so for a SYN, and is then connected to the sender. *)
Theorem tun_delivers a b ip port pip pport bip bpip bpport s :
  cfg_ok (fa_cfg (ta_base a)) ip port pip pport -> cfg_ok (fa_cfg (ta_base b)) bip pport bpip bpport ->
  (if fa_listen (ta_base b) then th_syn (header s) = true /\ th_rst (header s) = false
   else bip = pip /\ bpip = ip /\ bpport = port) ->
  fits s ->
  exists bytes b' s', tun_write a s = Ok (addressed port pport s, bytes) /\
    tun_read b bytes = Ok (b', Some s') /\ same_segment (addressed port pport s) s' /\
    fa_listen (ta_base b') = false /\ cfg_ok (fa_cfg (ta_base b')) pip pport ip port.
Proof.
  intros Ha Hb Hl Hf. destruct (wrap_spec _ ip port pip pport s Ha Hf) as (d & Ew & Hd & _).
  destruct (datagram_wire d Hd) as (l & El & Hlen & Hw).
  destruct (Hw (Buffer_of (bl_concatenate l)) new_IPv4Datagram) as (d' & Ed & _ & Eh & Ep & Hd').
  { apply Buffer_of_ok. lia. } { done. }
  destruct (unwrap_wrapped _ ip port pip pport (ta_base b) bip bpip bpport s d d' Ha Hb Hl Ew Hf
    (datagram_parse_one _ _ _ _ Ed) Hd' Eh Ep) as (b' & s' & Eu & Hs & H1 & H2).
  exists (bl_concatenate l), (mkTunAdapter b'), s'. unfold tun_write, tun_read.
  rewrite Ew. cbn [rbind]. rewrite El. cbn [rbind]. split; [done|].
  rewrite Ed. cbn [rbind]. change (negb (pr_eqb NoError NoError)) with false. cbn iota.
  by rewrite Eu.
Qed.

(** C32: Over TAP devices: with the next hop's Ethernet address known, writing a
    segment puts one frame on the device, and the adapter at the other end
    reads it as the same segment and writes nothing. *)
Theorem ethernet_delivers a b ip port pip pport bip bpip bpport s na nb hop t :
  cfg_ok (fa_cfg (ea_base a)) ip port pip pport -> cfg_ok (fa_cfg (ea_base b)) bip pport bpip bpport ->
  (if fa_listen (ea_base b) then th_syn (header s) = true /\ th_rst (header s) = false
   else bip = pip /\ bpip = ip /\ bpport = port) ->
  fits s ->
  ni_inv (ea_interface a) na -> ni_frames_out (ea_interface a) = [] ->
  ni_inv (ea_interface b) nb -> ni_frames_out (ea_interface b) = [] ->
  ea_next_hop a = inet hop -> 0 <= hop < W32 ->
  ni_address_table (ea_interface a) !! hop = Some (ni_ethernet_address (ea_interface b), t) ->
  exists frame a' b' s', ethernet_write a s = Ok (a', addressed port pport s, [frame]) /\
    ethernet_read b frame = Ok (b', Some s', []) /\ same_segment (addressed port pport s) s' /\
    ni_frames_out (ea_interface a') = [] /\ ni_inv (ea_interface a') na /\
    ea_interface b' = ea_interface b /\
    fa_listen (ea_base b') = false /\ cfg_ok (fa_cfg (ea_base b')) pip pport ip port.
Proof.
  intros Ha Hb Hl Hf Hna Hfa Hnb Hfb Ehop Hhop Ht.
  destruct (wrap_spec _ ip port pip pport s Ha Hf) as (d & Ew & Hd & _).
  destruct (send_datagram_spec (ea_interface a) na d hop Hna Hd Hhop) as (n' & En & Hn' & _ & _ & Hc).
  rewrite Ht in Hc. destruct Hc as (f & Ef & ->).
  destruct (deliver_ipv4 (ea_interface b) d _ f Hd (nii_eth _ _ Hna) (nii_eth _ _ Hnb) Ef)
    as (d' & Ed & Eh & Ep & Hd').
  unfold deliver in Ed. set (frame := bl_concatenate (EthernetFrame_serialize f)) in *.
  destruct (EthernetFrame_parse new_EthernetFrame (Buffer_of frame)) as [[r f']|] eqn:Efp; [|done].
  cbn [rbind] in Ed. destruct (negb (pr_eqb r NoError)) eqn:Er; [done|].
  assert (Hone : exists c, ip_payload d' = [c]) by (by eapply recv_frame_one).
  destruct (unwrap_wrapped _ ip port pip pport (ea_base b) bip bpip bpport s d d' Ha Hb Hl Ew Hf
    Hone Hd' Eh Ep) as (b' & s' & Eu & Hs & H1 & H2).
  exists frame, (mkEthernetAdapter (ea_base a) (take_frames (push_frame f (ea_interface a))) (ea_next_hop a)).
  exists (mkEthernetAdapter b' (take_frames (ea_interface b)) (ea_next_hop b)), s'.
  unfold ethernet_write, ethernet_read. rewrite Ew. cbn [rbind]. rewrite Ehop, En. cbn [rbind send_pending].
  cbn [ni_frames_out push_frame]. rewrite Hfa. cbn [app map]. split; [done|].
  rewrite Efp. cbn [rbind]. rewrite Er. rewrite Ed. cbn [rbind send_pending]. rewrite Eu. cbn [rbind].
  rewrite Hfb. split; [done|]. split; [done|]. split; [done|]. split; [by destruct Hn'|].
  split; [|done]. cbn. unfold take_frames. rewrite <- Hfb. by destruct (ea_interface b).
Qed.

(** Over UDP: a segment sent by the peer, or a SYN when listening, is read as
    it was written whatever port numbers it holds; the adapter looks at the
    address of the UDP datagram only, and when listening adopts it as its
    destination. *)
Theorem udp_delivers u s src :
  TCPSegment_ok s ->
  (if fa_listen (ua_base u) then th_syn (header s) = true /\ th_rst (header s) = false
   else src = fc_destination (fa_cfg (ua_base u))) ->
  exists l u' s', TCPSegment_serialize s 0 = Ok l /\
    udp_read u (mkReceivedDatagram src (bl_concatenate l)) = Ok (u', Some s') /\ same_segment s s' /\
    fa_listen (ua_base u') = false /\ fc_destination (fa_cfg (ua_base u')) = src /\
    fc_source (fa_cfg (ua_base u')) = fc_source (fa_cfg (ua_base u)).
Proof.
  intros Hs Hl. destruct (segment_wire s 0 Hs ltac:(lia)) as (l & El & Hlen & _ & Hw).
  destruct (Hw (Buffer_of (bl_concatenate l)) new_TCPSegment) as (s' & Es & Hh & Hp & _).
  { apply Buffer_of_ok. destruct Hs as (Hh & _ & Hz). pose proof (tho_doff _ Hh). lia. } { done. }
  assert (Hsame : same_segment s s') by done.
  exists l. unfold udp_read. cbn [rd_source_address rd_payload]. rewrite Es. cbn [rbind].
  change (negb (pr_eqb NoError NoError)) with false. destruct (fa_listen (ua_base u)) eqn:E; cbn [negb andb].
  - rewrite Hh. cbn [th_syn th_rst set_cksum]. destruct Hl as [-> ->]. cbn [negb andb]. by eexists _, s'.
  - subst src. unfold Address_eqb. rewrite Z.eqb_refl. cbn [negb].
    rewrite bool_decide_eq_true_2 by done. cbn [negb]. by exists u, s'.
Qed.

Lemma udp_delivers_witness :
  exists l u' s', TCPSegment_serialize (with_header (set_syn true) new_TCPSegment) 0 = Ok l /\
    udp_read (mkUDPAdapter (set_listening new_FdAdapterBase true))
      (mkReceivedDatagram (Address_numeric 16909060 9) (bl_concatenate l)) = Ok (u', Some s').
Proof.
  destruct (udp_delivers (mkUDPAdapter (set_listening new_FdAdapterBase true))
    (with_header (set_syn true) new_TCPSegment) (Address_numeric 16909060 9)) as (l & u' & s' & E1 & E2 & _).
  - split; [constructor; unfold w32_ok; simpl; try lia; done|]. by split.
  - done.
  - by exists l, u', s'.
Defined.

(** ** The laws of the adapters *)

Definition same_rates (a b : FdAdapterBase) : Prop :=
  fc_loss_rate_dn (fa_cfg b) = fc_loss_rate_dn (fa_cfg a) /\
  fc_loss_rate_up (fa_cfg b) = fc_loss_rate_up (fa_cfg a).

Lemma unwrap_rates a d a' s : unwrap_tcp_in_ip a d = Ok (a', s) -> same_rates a a'.
Proof.
  unfold unwrap_tcp_in_ip. intros E.
  repeat match type of E with
    | Ok _ = Ok _ => injection E as <- _
    | rbind _ _ = Ok _ => let x := fresh in apply rbind_ok in E as (x & _ & E); try destruct x
    | (if ?b then _ else _) = Ok _ => destruct b
    end; done || by destruct (fa_listen a).
Qed.

#[export] Instance UDPAdapterLaws : FdAdapterLaws TCPOverUDPSocketAdapter received_datagram (Address * bytes).
Proof.
  split.
  - intros a i a' s out E. apply rbind_ok in E as ([u seg] & E & [= <- _ _]). unfold udp_read in E.
    destruct (_ && _); [by injection E as <- _|]. apply rbind_ok in E as ([r x] & _ & E).
    repeat case_match; simplify_eq; done.
  - intros a s a' s' out E. apply rbind_ok in E as ([x d] & _ & [= <- _ _]). done.
Qed.

#[export] Instance TunAdapterLaws : FdAdapterLaws TCPOverIPv4OverTunFdAdapter bytes bytes.
Proof.
  split.
  - intros a i a' s out E. apply rbind_ok in E as ([t seg] & E & [= <- _ _]). unfold tun_read in E.
    apply rbind_ok in E as ([r x] & _ & E). destruct (negb _); [by injection E as <- _|].
    apply rbind_ok in E as ([b y] & E & [= <- _]). by apply unwrap_rates in E.
  - intros a s a' s' out E. apply rbind_ok in E as ([x d] & _ & [= <- _ _]). done.
Qed.

#[export] Instance EthernetAdapterLaws : FdAdapterLaws TCPOverIPv4OverEthernetAdapter bytes bytes.
Proof.
  split.
  - intros a i a' s out E. cbn in E. unfold ethernet_read in E. apply rbind_ok in E as ([r x] & _ & E).
    destruct (negb _); [by injection E as <- _ _|]. apply rbind_ok in E as ([n [d|]] & _ & E); cbn [send_pending] in E.
    + apply rbind_ok in E as ([b y] & E & [= <- _ _]). by apply unwrap_rates in E.
    + by injection E as <- _ _.
  - intros a s a' s' out E. cbn in E. unfold ethernet_write in E. apply rbind_ok in E as ([x d] & _ & E).
    apply rbind_ok in E as (n & _ & E). cbn [send_pending] in E. by injection E as <- _ _.
Qed.

(** ** What a lossy adapter loses *)

(** A sequence of reads: the segments they yield and what they write. *)
Fixpoint adapter_reads {A I O} {FA : FdAdapter A I O} (a : A) (ins : list I) : result (A * list TCPSegment * list O) :=
  match ins with
  | [] => Ok (a, [], [])
  | i :: ins =>
      let* (x, out) := adapter_read a i in
      let* (y, out') := adapter_reads (fst x) ins in
      Ok (fst y, match snd x with Some s => s :: snd y | None => snd y end, out ++ out')
  end.

Section lossy_correct.
Context {A I O R : Type} {FA : FdAdapter A I O} {FL : FdAdapterLaws A I O} (rand : R -> Z * R).

Lemma should_drop_adapter (l : LossyFdAdapter A R) up drop l' :
  should_drop rand l up = (drop, l') -> lf_adapter l' = lf_adapter l /\
  ((if up then fc_loss_rate_up (fa_cfg (adapter_base (lf_adapter l)))
    else fc_loss_rate_dn (fa_cfg (adapter_base (lf_adapter l)))) = 0 -> drop = false /\ l' = l).
Proof.
  unfold should_drop. set (loss := if up then _ else _).
  destruct (Z.eqb_spec loss 0) as [Ez|Ez]; [by intros [= <- <-]|].
  destruct (rand (lf_rand l)) as [x g]. intros [= <- <-]. done.
Qed.

Lemma lossy_reads ins : forall (l : LossyFdAdapter A R) a' segs out,
  adapter_reads (lf_adapter l) ins = Ok (a', segs, out) ->
  exists g kept, adapter_reads (FA := LossyAdapter rand) l ins = Ok (mkLossy g a', kept, out) /\
    kept `sublist_of` segs /\
    (fc_loss_rate_dn (fa_cfg (adapter_base (lf_adapter l))) = 0 -> kept = segs /\ g = lf_rand l).
Proof.
  induction ins as [|i ins IH]; intros l a' segs out E; cbn [adapter_reads] in *.
  { injection E as <- <- <-. exists (lf_rand l), []. split; [by destruct l|]. done. }
  apply rbind_ok in E as ([[a1 s] o] & E1 & E). apply rbind_ok in E as ([[a2 segs'] o'] & E2 & [= <- <- <-]).
  cbn [fst snd] in *. change (adapter_read l i) with (lossy_read rand l i). unfold lossy_read. rewrite E1. cbn [rbind].
  destruct (should_drop rand (mkLossy (lf_rand l) a1) false) as [drop l1] eqn:Ed.
  destruct (should_drop_adapter _ _ _ _ Ed) as [Ea Hz]. cbn [lf_adapter] in Ea, Hz. rewrite <- Ea in E2.
  destruct (IH l1 _ _ _ E2) as (g & kept & E3 & Hsub & Hall).
  destruct (adapter_read_rates _ _ _ _ _ E1) as [Er _]. rewrite Er in Hz. rewrite Ea, Er in Hall.
  exists g, (match (if drop then None else s) with Some s => s :: kept | None => kept end).
  split; [destruct drop; cbn [rbind fst snd]; rewrite E3; done|]. split.
  - destruct drop, s; by (constructor || done).
  - intros H0. destruct (Hz H0) as [-> ->]. destruct (Hall H0) as [-> ->]. done.
Qed.

End lossy_correct.

(** A lossy adapter only loses segments: over any sequence of reads it leaves
    the adapter and the device as they would be without it, the segments it
    yields are a subsequence of the adapter's, and with a loss rate of zero
    all of them; a write reaches the device unchanged or not at all. *)
Theorem lossy_only_loses {A I O R : Type} {FA : FdAdapter A I O} {FL : FdAdapterLaws A I O} (rand : R -> Z * R)
    (l : LossyFdAdapter A R) (ins : list I) a' segs (out : list O) :
  adapter_reads (lf_adapter l) ins = Ok (a', segs, out) ->
  (exists g kept, adapter_reads (FA := LossyAdapter rand) l ins = Ok (mkLossy g a', kept, out) /\
    kept `sublist_of` segs /\
    (fc_loss_rate_dn (fa_cfg (adapter_base (lf_adapter l))) = 0 -> kept = segs)) /\
  (forall seg, (exists g, lossy_write rand l seg = Ok (mkLossy g (lf_adapter l), seg, [])) \/
     (exists g, lossy_write rand l seg =
        let* (x, out) := adapter_write (lf_adapter l) seg in Ok (mkLossy g (fst x), snd x, out))).
Proof.
  intros E. split.
  - destruct (lossy_reads rand ins l a' segs out E) as (g & kept & E' & Hs & Hz).
    exists g, kept. split; [done|]. split; [done|]. intros H0. by destruct (Hz H0).
  - intros seg. unfold lossy_write. destruct (should_drop rand l true) as [[] l1] eqn:Ed;
      destruct (should_drop_adapter rand _ _ _ _ Ed) as [Ea _]; [left|right]; exists (lf_rand l1).
    + destruct l1. cbn in *. by subst.
    + rewrite Ea. by destruct (adapter_write (lf_adapter l) seg) as [[[]]|].
Qed.

(** A lossy adapter is an adapter. *)
#[export] Instance LossyAdapterLaws {A I O R} {FA : FdAdapter A I O} {FL : FdAdapterLaws A I O} (rand : R -> Z * R) :
  FdAdapterLaws (H := LossyAdapter rand) (LossyFdAdapter A R) I O.
Proof.
  split.
  - intros l i l' s out E. cbn in E. unfold lossy_read in E. apply rbind_ok in E as ([[a ret] o] & Er & E).
    destruct (should_drop rand _ false) as [drop l1] eqn:Ed.
    destruct (should_drop_adapter rand _ _ _ _ Ed) as [Ea _]. cbn [lf_adapter] in Ea.
    apply adapter_read_rates in Er. rewrite <- Ea in Er. destruct drop; by injection E as <- _ _.
  - intros l seg l' s out E. cbn in E. unfold lossy_write in E.
    destruct (should_drop rand l true) as [drop l1] eqn:Ed.
    destruct (should_drop_adapter rand _ _ _ _ Ed) as [Ea _].
    destruct drop; [injection E as <- _ _; cbn; by rewrite Ea|].
    apply rbind_ok in E as ([[a x] o] & Ew & E). injection E as <- _ _. apply adapter_write_rates in Ew.
    by rewrite Ea in Ew.
Qed.

(** ** Witnesses *)

Definition client_base : FdAdapterBase :=
  mkFdAdapterBase (mkFdAdapterConfig (Address_numeric 167772161 40000) (Address_numeric 167772162 80) 0 0) false.
Definition server_base : FdAdapterBase :=
  mkFdAdapterBase (mkFdAdapterConfig (Address_numeric 0 80) (Address_numeric 0 0) 0 0) true.
Definition syn_segment : TCPSegment := with_header (set_syn true) new_TCPSegment.

Lemma client_cfg_ok : cfg_ok (fa_cfg client_base) 167772161 40000 167772162 80.
Proof. constructor; done || lia. Qed.
Lemma server_cfg_ok : cfg_ok (fa_cfg server_base) 0 80 0 0.
Proof. constructor; done || lia. Qed.
Lemma syn_fits : fits syn_segment.
Proof.
  split; [|reflexivity]. split; [constructor; unfold w32_ok; simpl; try lia; done|]. by split.
Qed.

Lemma unwrap_filters_witness :
  unwrap_tcp_in_ip client_base (mkIPv4Datagram default_IPv4Header [Buffer_of []]) = Ok (client_base, None).
Proof.
  destruct (unwrap_filters client_base 167772161 40000 167772162 80
    (mkIPv4Datagram default_IPv4Header [Buffer_of []]) (Buffer_of [])) as (r & s & a' & o & _ & E & Ho & Hn & Hs).
  - apply client_cfg_ok.
  - reflexivity.
  - by apply Buffer_of_ok.
  - simpl. lia.
  - simpl. lia.
  - rewrite E. destruct o as [s'|]; [|by rewrite Hn].
    exfalso. destruct (Hs s' eq_refl) as (-> & _). destruct Ho as [Ho _]. specialize (Ho eq_refl).
    unfold accepts in Ho. zb. cbn in *. lia.
Defined.

Lemma tun_delivers_witness :
  exists bytes b' s', tun_write (mkTunAdapter client_base) syn_segment = Ok (addressed 40000 80 syn_segment, bytes) /\
    tun_read (mkTunAdapter server_base) bytes = Ok (b', Some s') /\ th_syn (header s') = true /\
    fc_destination (fa_cfg (ta_base b')) = Address_numeric 167772161 40000.
Proof.
  destruct (tun_delivers (mkTunAdapter client_base) (mkTunAdapter server_base) 167772161 40000 167772162 80 0 0 0
    syn_segment) as (bytes & b' & s' & E1 & E2 & [Hs _] & _ & Hc).
  - apply client_cfg_ok.
  - apply server_cfg_ok.
  - done.
  - apply syn_fits.
  - exists bytes, b', s'. split; [exact E1|]. split; [exact E2|]. split; [by rewrite Hs|]. by destruct Hc.
Defined.

Lemma ethernet_delivers_witness :
  exists frame a' b' s',
    ethernet_write (mkEthernetAdapter client_base
      (with_table (<[167772162 := (eth_b, 30000)]> ∅) host_a) (inet 167772162)) syn_segment
      = Ok (a', addressed 40000 80 syn_segment, [frame]) /\
    ethernet_read (mkEthernetAdapter server_base host_b (inet 167772161)) frame = Ok (b', Some s', []) /\
    th_syn (header s') = true.
Proof.
  destruct (ethernet_delivers
    (mkEthernetAdapter client_base (with_table (<[167772162 := (eth_b, 30000)]> ∅) host_a) (inet 167772162))
    (mkEthernetAdapter server_base host_b (inet 167772161)) 167772161 40000 167772162 80 0 0 0 syn_segment
    167772161 167772162 167772162 30000) as (frame & a' & b' & s' & E1 & E2 & [Hs _] & _).
  - apply client_cfg_ok.
  - apply server_cfg_ok.
  - done.
  - apply syn_fits.
  - destruct host_a_inv as [H1 H2 H3 H4 _ _]. constructor; try done.
    apply map_Forall_singleton. split; [lia|]. split; [exact (nii_eth _ _ host_b_inv)|]. simpl. lia.
  - reflexivity.
  - apply host_b_inv.
  - reflexivity.
  - reflexivity.
  - lia.
  - reflexivity.
  - exists frame, a', b', s'. split; [exact E1|]. split; [exact E2|]. by rewrite Hs.
Defined.

Lemma lossy_only_loses_witness :
  exists g kept, adapter_reads (FA := LossyAdapter (fun n : Z => (n, n + 1)))
    (mkLossy 7 (mkTunAdapter client_base)) [[x61]; [x62]] = Ok (mkLossy g (mkTunAdapter client_base), kept, []) /\
    kept = [].
Proof.
  destruct (lossy_only_loses (fun n : Z => (n, n + 1)) (mkLossy 7 (mkTunAdapter client_base))
    [[x61]; [x62]] (mkTunAdapter client_base) [] []) as [(g & kept & E & _ & Hz) _].
  - vm_compute. reflexivity.
  - exists g, kept. split; [exact E|]. by apply Hz.
Defined.
