(* ===== verification/FileDescriptor.v ===== *)
(** * File descriptors

    [libsponge/util/file_descriptor.hh] and [.cc].  Handles are shared: every
    copy of a descriptor refers to one [FDWrapper], which is the state here.
    The kernel is a parameter of each operation: what [read(2)] returned, and
    what the successive [writev(2)] returned; [None] stands for a call that
    failed, for which [SystemCall] throws. *)
From S2P Require Import Prelude Buffer.

Record FDWrapper : Type := mkFDWrapper {
  fd_num : Z;
  fd_eof : bool;
  fd_closed : bool;
  fd_read_count : Z;
  fd_write_count : Z }.

Definition new_FDWrapper (fd : Z) : result FDWrapper :=
  if fd <? 0 then Err runtime_error else Ok (mkFDWrapper fd false false 0 0).

Definition register_read (w : FDWrapper) : FDWrapper :=
  mkFDWrapper (fd_num w) (fd_eof w) (fd_closed w) (u32 (fd_read_count w + 1)) (fd_write_count w).
Definition register_write (w : FDWrapper) : FDWrapper :=
  mkFDWrapper (fd_num w) (fd_eof w) (fd_closed w) (fd_read_count w) (u32 (fd_write_count w + 1)).
Definition set_eof (w : FDWrapper) : FDWrapper :=
  mkFDWrapper (fd_num w) true (fd_closed w) (fd_read_count w) (fd_write_count w).

Definition fd_close (w : FDWrapper) : FDWrapper :=
  mkFDWrapper (fd_num w) true true (fd_read_count w) (fd_write_count w).

(** The destructor closes what is open. *)
Definition fd_destroy (w : FDWrapper) : FDWrapper := if fd_closed w then w else fd_close w.

Definition BUFFER_SIZE : Z := 1024 * 1024.

Definition fd_read (w : FDWrapper) (limit : Z) (sys : option bytes) : result (FDWrapper * bytes) :=
  let size_to_read := Z.min BUFFER_SIZE limit in
  match sys with
  | None => Err runtime_error
  | Some data =>
      let bytes_read := zlen data in
      let w := if (0 <? limit) && (bytes_read =? 0) then set_eof w else w in
      if size_to_read <? bytes_read then Err runtime_error
      else Ok (register_read w, data)
  end.

(** One round of the loop of [write]: the descriptor, what is left of the buffer
    and how much was written. *)
Definition write_round (w : FDWrapper) (buffer : BufferViewList) (sys : option Z)
    : result (FDWrapper * BufferViewList * Z) :=
  match sys with
  | None => Err runtime_error
  | Some bytes_written =>
      if (bytes_written =? 0) && negb (bvl_size buffer =? 0) then Err runtime_error
      else if bvl_size buffer <? bytes_written then Err runtime_error
      else
        let* buffer := bvl_remove_prefix buffer bytes_written in
        Ok (register_write w, buffer, bytes_written)
  end.

(** The loop, along the kernel's answers; without a further answer the call has
    not returned. *)
Fixpoint fd_write (w : FDWrapper) (buffer : BufferViewList) (write_all : bool) (total_bytes_written : Z)
    (sys : list (option Z)) : option (result (FDWrapper * Z)) :=
  match sys with
  | [] => None
  | a :: sys =>
      match write_round w buffer a with
      | Err e => Some (Err e)
      | Ok (w, buffer, n) =>
          if write_all && negb (bvl_size buffer =? 0)
          then fd_write w buffer write_all (total_bytes_written +! n) sys
          else Some (Ok (w, total_bytes_written +! n))
      end
  end.

(** ** Writing everything *)

(** The kernel's answers accept at least a byte each time, and no more than is
    left of [size] bytes. *)
Fixpoint progressing (size : Z) (sys : list (option Z)) : Prop :=
  match sys with
  | [] => True
  | None :: _ => False
  | Some n :: sys => n <= size /\ (0 < size -> 0 < n) /\ 0 <= n /\ progressing (size - n) sys
  end.

Lemma write_round_ok w buffer n :
  zlen (concat buffer) < W64 -> 0 <= n <= zlen (concat buffer) -> (0 < zlen (concat buffer) -> 0 < n) ->
  exists buffer', write_round w buffer (Some n) = Ok (register_write w, buffer', n) /\
    concat buffer' = zdrop n (concat buffer).
Proof.
  intros Hs Hn Hp. unfold write_round. rewrite bvl_size_eq by done.
  pose proof (bvl_remove_prefix_spec buffer n ltac:(lia) Hs) as H.
  destruct ((n =? 0) && negb (zlen (concat buffer) =? 0)) eqn:E; [zb; lia|].
  destruct (Z.ltb_spec (zlen (concat buffer)) n); [lia|]. destruct H as (b & -> & Hb). by exists b.
Qed.

(** The state of a descriptor apart from its counters. *)
Definition same_state (w w' : FDWrapper) : Prop :=
  fd_num w' = fd_num w /\ fd_eof w' = fd_eof w /\ fd_closed w' = fd_closed w.

Lemma fd_write_all sys : forall w buffer total,
  0 <= total -> total + zlen (concat buffer) < W64 ->
  progressing (zlen (concat buffer)) sys -> zlen (concat buffer) <= zlen sys -> 0 < zlen sys ->
  exists w', fd_write w buffer true total sys = Some (Ok (w', total + zlen (concat buffer))) /\ same_state w w'.
Proof.
  induction sys as [|a sys IH]; intros w buffer total Ht Hs Hp Hl Hpos; [done|].
  rewrite zlen_cons in *. destruct a as [n|]; [|done]. destruct Hp as (Hn & Hn1 & Hn0 & Hp).
  destruct (write_round_ok w buffer n) as (b & E & Hb); [lia|lia|done|]. cbn [fd_write]. rewrite E.
  assert (Hlb : zlen (concat b) = zlen (concat buffer) - n) by (rewrite Hb; zl).
  pose proof (zlen_nonneg (concat buffer)). rewrite bvl_size_eq by lia. rewrite u64_id by lia.
  destruct (Z.eqb_spec (zlen (concat b)) 0) as [Ez|Ez]; cbn [andb negb].
  - exists (register_write w). split; [|done]. do 3 f_equal. lia.
  - rewrite <- Hlb in Hp. destruct (IH (register_write w) b (total + n)) as (w' & E' & Hw); [lia|lia|done|lia|lia|].
    exists w'. rewrite E', Hlb. split; [|done]. do 3 f_equal. lia.
Qed.

(** What the loop returns is the whole size. *)
Lemma fd_write_total sys : forall w buffer total w' k,
  0 <= total -> total + zlen (concat buffer) < W64 -> progressing (zlen (concat buffer)) sys ->
  fd_write w buffer true total sys = Some (Ok (w', k)) -> k = total + zlen (concat buffer).
Proof.
  induction sys as [|a sys IH]; intros w buffer total w' k Ht Hs Hp; cbn [fd_write]; [done|].
  destruct a as [n|]; [|done]. destruct Hp as (Hn & Hn1 & Hn0 & Hp).
  destruct (write_round_ok w buffer n) as (b & -> & Hb); [lia|lia|done|].
  assert (Hlb : zlen (concat b) = zlen (concat buffer) - n) by (rewrite Hb; zl).
  rewrite bvl_size_eq by lia. rewrite u64_id by lia.
  destruct (Z.eqb_spec (zlen (concat b)) 0) as [Ez|Ez]; cbn [andb negb].
  - intros [= _ <-]. lia.
  - intros E. rewrite <- Hlb in Hp. apply IH in E; [lia|lia|lia|done].
Qed.

Lemma progressing_take sys : forall size n, progressing size sys -> progressing size (take n sys).
Proof.
  induction sys as [|[m|] sys IH]; intros z n Hp; destruct n; cbn in *; try done.
  destruct Hp as (? & ? & ? & ?). auto.
Qed.

(** [write] with [write_all] terminates and writes everything: when the
    kernel accepts at least a byte each time, the loop ends after at most as
    many rounds as there are bytes, and returns the size of the buffer; it
    never returns having written less. *)
Theorem fd_write_complete w buffer sys :
  zlen (concat buffer) < W64 -> progressing (zlen (concat buffer)) sys ->
  Z.max 1 (zlen (concat buffer)) <= zlen sys ->
  (exists w', fd_write w buffer true 0 sys = Some (Ok (w', bvl_size buffer)) /\ same_state w w') /\
  (forall n w' k, fd_write w buffer true 0 (take n sys) = Some (Ok (w', k)) -> k = bvl_size buffer).
Proof.
  intros Hs Hp Hl. rewrite bvl_size_eq by done. split.
  - destruct (fd_write_all sys w buffer 0) as (w' & E & Hw); [lia|lia|done|lia|lia|]. by exists w'.
  - intros n w' k E. apply fd_write_total in E; [lia|lia|lia|]. by apply progressing_take.
Qed.

Lemma fd_write_complete_witness :
  exists w', fd_write (mkFDWrapper 3 false false 0 0) [[x61; x62]; [x63]] true 0 [Some 1; Some 1; Some 1]
    = Some (Ok (w', 3)).
Proof.
  destruct (fd_write_complete (mkFDWrapper 3 false false 0 0) [[x61; x62]; [x63]] [Some 1; Some 1; Some 1])
    as [(w' & E & _) _]; [reflexivity|simpl; vm_compute; repeat split; congruence|by vm_compute|].
  by exists w'.
Defined.

(** What [read] does with an answer of at most the size asked for. *)
Lemma fd_read_ok w limit data :
  0 <= limit -> zlen data <= Z.min BUFFER_SIZE limit ->
  fd_read w limit (Some data) =
    Ok (register_read (if (0 <? limit) && (zlen data =? 0) then set_eof w else w), data).
Proof. intros Hl Hd. unfold fd_read. zcase; [lia|done]. Qed.

Lemma count_changes c : 0 <= c < W32 -> u32 (c + 1) <> c.
Proof. intros H. unfold u32. wz. Qed.

(** ** A kernel that answers the coming calls

    [amounts] is its answers to the coming calls: a negative one stands for a
    call that fails; otherwise it is how much a transfer moves, where a read
    moves at least a byte, unless none is left or none was asked for, and a
    write of some bytes moves at least one. *)
Definition transfer (amounts : list Z) (most : Z) : Z := Z.min (Z.max 1 (hd 1 amounts)) most.

(** One of the next [n] calls fails. *)
Definition refuses (n : nat) (amounts : list Z) : bool := existsb (fun a => a <? 0) (take n amounts).

Definition kernel_read (amounts : list Z) (available : bytes) (limit : Z) : option bytes :=
  if refuses 1 amounts then None else Some (ztake (transfer amounts (Z.min BUFFER_SIZE limit)) available).

(** [write] with [write_all] false makes one system call. *)
Definition write_some (amounts : list Z) (w : FDWrapper) (data : bytes) : result (FDWrapper * Z) :=
  match fd_write w (BufferViewList_of_str data) false 0
          [if refuses 1 amounts then None else Some (transfer amounts (zlen data))] with
  | Some r => r
  | None => Err undefined_behaviour
  end.

(** [n] calls in a row, each of which throws if it fails: the answers left. *)
Definition kernel_calls (n : nat) (amounts : list Z) : result (list Z) :=
  if refuses n amounts then Err runtime_error else Ok (drop n amounts).

(** [close] that may fail. *)
Definition try_close (w : FDWrapper) (ok : bool) : result FDWrapper :=
  if ok then Ok (fd_close w) else Err runtime_error.

Lemma refuses_more n m amounts : (n <= m)%nat -> refuses n amounts = true -> refuses m amounts = true.
Proof.
  unfold refuses. intros Hn. rewrite !existsb_exists. intros (a & Ha & H). exists a. split; [|done].
  apply list_elem_of_In. apply list_elem_of_In in Ha. apply elem_of_take in Ha as (i & Hi & Hlt).
  apply elem_of_take. exists i. split; [done|lia].
Qed.
Lemma refuses_later n amounts : refuses n (tl amounts) = true -> refuses (S n) amounts = true.
Proof. destruct amounts as [|a amounts]; unfold refuses; cbn; [by rewrite take_nil|]. intros ->. apply orb_true_r. Qed.

Lemma refuses_next n amounts : refuses n (drop 1 amounts) = true -> refuses (S n) amounts = true.
Proof. intros H. apply refuses_later. by destruct amounts. Qed.

Definition counts_ok (w : FDWrapper) : Prop := 0 <= fd_read_count w < W32 /\ 0 <= fd_write_count w < W32.

Lemma register_read_counts w : counts_ok w -> counts_ok (register_read w).
Proof. intros [_ ?]. split; [apply u32_range|done]. Qed.
Lemma register_write_counts w : counts_ok w -> counts_ok (register_write w).
Proof. intros [? _]. split; [done|apply u32_range]. Qed.

Lemma count_changes2 c : 0 <= c < W32 -> u32 (u32 (c + 1) + 1) <> c.
Proof. intros H. unfold u32. wz. Qed.

Lemma transfer_bound amounts most :
  0 <= most -> 0 <= transfer amounts most <= most /\ (0 < most -> 0 < transfer amounts most).
Proof. unfold transfer. lia. Qed.

Lemma ztake_zdrop_len n (l : bytes) : 0 <= n -> ztake n l ++ zdrop (zlen (ztake n l)) l = l.
Proof.
  intros Hn. rewrite zlen_ztake by done. destruct (Z.le_ge_cases n (zlen l)).
  - rewrite Z.min_l by done. apply ztake_zdrop.
  - rewrite Z.min_r by done. rewrite ztake_all, zdrop_all by lia. apply app_nil_r.
Qed.

(** Reading from a descriptor that still delivers [left] and is at its end only
    when that is nothing. *)
Lemma fd_read_some amounts w limit left got :
  0 <= limit -> counts_ok w -> (fd_eof w = true -> left = []) ->
  kernel_read amounts left limit = Some got ->
  exists w', fd_read w limit (Some got) = Ok (w', got) /\ counts_ok w' /\ fd_closed w' = fd_closed w /\
    fd_read_count w' <> fd_read_count w /\ fd_write_count w' = fd_write_count w /\
    (fd_eof w = true -> fd_eof w' = true) /\ (fd_eof w' = true -> left = []) /\
    zlen got <= limit /\ got ++ zdrop (zlen got) left = left.
Proof.
  unfold kernel_read. intros Hl Hw Heof. destruct (refuses 1 amounts); [done|]. intros [= <-].
  set (got := ztake _ left).
  destruct (transfer_bound amounts (Z.min BUFFER_SIZE limit)) as [Ht1 Ht2]; [unfold BUFFER_SIZE; lia|].
  assert (Hbuf : 0 < BUFFER_SIZE) by (by vm_compute).
  assert (Hgot : zlen got <= Z.min BUFFER_SIZE limit) by (unfold got; zl).
  rewrite fd_read_ok by (done || lia). eexists. split; [done|].
  assert (Hempty : (0 <? limit) && (zlen got =? 0) = true -> left = []).
  { intros E. zb. unfold got in *. apply zlen_0. zl. }
  set (w' := if (0 <? limit) && (zlen got =? 0) then set_eof w else w).
  assert (Hw' : counts_ok w' /\ fd_closed w' = fd_closed w /\ fd_read_count w' = fd_read_count w /\
    fd_write_count w' = fd_write_count w /\ (fd_eof w = true -> fd_eof w' = true) /\ (fd_eof w' = true -> left = [])).
  { unfold w'. destruct ((0 <? limit) && (zlen got =? 0)); by auto 10. }
  destruct Hw' as (Hcw & Hcl & Hrc & Hwc & Hkeep & Hleft).
  split; [by apply register_read_counts|]. split; [done|].
  split. { cbn. rewrite Hrc. apply count_changes. apply Hw. }
  split; [done|]. split; [done|]. split; [done|]. split; [lia|]. apply ztake_zdrop_len. lia.
Qed.

(** A read that the kernel refuses throws. *)
Lemma fd_read_refused amounts w limit left :
  kernel_read amounts left limit = None ->
  refuses 1 amounts = true /\ fd_read w limit (kernel_read amounts left limit) = Err runtime_error.
Proof. unfold kernel_read. by destruct (refuses 1 amounts). Qed.

Lemma write_some_ok amounts w out : zlen out < W64 ->
  if refuses 1 amounts then write_some amounts w out = Err runtime_error
  else exists n, write_some amounts w out = Ok (register_write w, n) /\ 0 <= n <= zlen out /\ (0 < zlen out -> 0 < n).
Proof.
  intros Hs. pose proof (zlen_nonneg out). destruct (transfer_bound amounts (zlen out)) as [Ht1 Ht2]; [lia|].
  unfold write_some. destruct (refuses 1 amounts); [done|].
  exists (transfer amounts (zlen out)). split; [|done].
  assert (Hsz : zlen (concat [out]) = zlen out) by (cbn; by rewrite app_nil_r).
  destruct (write_round_ok w [out] (transfer amounts (zlen out))) as (b & E & _); [lia|lia|intros; apply Ht2; lia|].
  unfold BufferViewList_of_str. cbn [fd_write]. rewrite E. cbn [andb]. by rewrite Z.add_0_l, u64_id by lia.
Qed.
