(* ===== verification/Handles.v ===== *)
(** * Shared handles of file descriptors

    The class [FileDescriptor] of [libsponge/util/file_descriptor.hh] and
    [.cc] itself: a [shared_ptr] to an [FDWrapper].  The store holds the
    wrappers with their reference counts, the handles that point to them, and
    the kernel's table of open descriptors.  A wrapper is destroyed with its
    last handle, and closes its descriptor unless it was closed before. *)
From S2P Require Import Prelude Buffer FileDescriptor.

(** A handle is a pointer, null once it was moved from.  [st_table] says which
    wrapper a descriptor was opened for; the kernel forgets it with [close]. *)
Record store : Type := mkStore {
  st_cells : gmap nat (FDWrapper * Z);
  st_handles : gmap nat (option nat);
  st_table : gmap Z nat;
  st_next : nat }.

Definition empty_store : store := mkStore ∅ ∅ ∅ 0.

(** [close(2)]: [EBADF] for a number that is not open. *)
Definition k_close (table : gmap Z nat) (fd : Z) : option (gmap Z nat) :=
  match table !! fd with Some _ => Some (delete fd table) | None => None end.

(** What a handle points to; using one that was moved from is undefined. *)
Definition deref (s : store) (h : nat) : result (nat * FDWrapper * Z) :=
  match st_handles s !! h with
  | Some (Some c) => match st_cells s !! c with
                     | Some (w, k) => Ok (c, w, k)
                     | None => Err undefined_behaviour
                     end
  | _ => Err undefined_behaviour
  end.

Definition set_cell (s : store) (c : nat) (w : FDWrapper) (k : Z) : store :=
  mkStore (<[c := (w, k)]> (st_cells s)) (st_handles s) (st_table s) (st_next s).
Definition set_handle (s : store) (h : nat) (p : option nat) : store :=
  mkStore (st_cells s) (<[h := p]> (st_handles s)) (st_table s) (st_next s).

(** [FileDescriptor(const int fd)]: [make_shared<FDWrapper>(fd)]. *)
Definition construct (s : store) (h : nat) (fd : Z) : result store :=
  let* w := new_FDWrapper fd in
  Ok (mkStore (<[st_next s := (w, 1)]> (st_cells s)) (<[h := Some (st_next s)]> (st_handles s))
        (st_table s) (S (st_next s))).

(** [~FDWrapper]: a failure of [close] is printed and swallowed. *)
Definition wrapper_destroy (w : FDWrapper) (table : gmap Z nat) : gmap Z nat :=
  if fd_closed w then table
  else match k_close table (fd_num w) with Some table => table | None => table end.

(** A pointer to [c] goes away. *)
Definition release (s : store) (c : nat) : store :=
  match st_cells s !! c with
  | None => s
  | Some (w, k) =>
      if k - 1 =? 0 then
        mkStore (delete c (st_cells s)) (st_handles s) (wrapper_destroy w (st_table s)) (st_next s)
      else set_cell s c w (k - 1)
  end.

Definition release_handle (s : store) (p : option nat) : store :=
  match p with Some c => release s c | None => s end.

(** [duplicate()], into the handle [h']. *)
Definition duplicate (s : store) (h h' : nat) : result store :=
  let* (cw, k) := deref s h in
  Ok (set_handle (set_cell s cw.1 cw.2 (k + 1)) h' (Some cw.1)).

(** The move constructor. *)
Definition move_construct (s : store) (h h' : nat) : store :=
  match st_handles s !! h with
  | Some p => set_handle (set_handle s h None) h' p
  | None => s
  end.

(** The move assignment [h' = std::move(h)]; assigning a handle to itself
    changes nothing. *)
Definition move_assign (s : store) (h h' : nat) : store :=
  if (h =? h')%nat then s
  else match st_handles s !! h, st_handles s !! h' with
       | Some p, Some old => release_handle (set_handle (set_handle s h None) h' p) old
       | _, _ => s
       end.

(** [~FileDescriptor]. *)
Definition destroy (s : store) (h : nat) : store :=
  match st_handles s !! h with
  | Some p =>
      release_handle (mkStore (st_cells s) (delete h (st_handles s)) (st_table s) (st_next s)) p
  | None => s
  end.

(** [close()]: the system call, which throws on an error, then the flags. *)
Definition close (s : store) (h : nat) : result store :=
  let* (cw, k) := deref s h in
  match k_close (st_table s) (fd_num cw.2) with
  | None => Err runtime_error
  | Some table =>
      Ok (mkStore (<[cw.1 := (fd_close cw.2, k)]> (st_cells s)) (st_handles s) table (st_next s))
  end.

(** [read] through a handle: the wrapper is changed for all handles. *)
Definition read_handle (s : store) (h : nat) (limit : Z) (sys : option bytes) : result (store * bytes) :=
  let* (cw, k) := deref s h in
  let* (w, data) := fd_read cw.2 limit sys in
  Ok (set_cell s cw.1 w k, data).

(** [write]: what the calls before a failure counted stays counted. *)
Fixpoint write_calls (w : FDWrapper) (buffer : BufferViewList) (write_all : bool) (total : Z)
    (sys : list (option Z)) : option (FDWrapper * result Z) :=
  match sys with
  | [] => None
  | a :: sys =>
      match write_round w buffer a with
      | Err e => Some (w, Err e)
      | Ok (w, buffer, n) =>
          if write_all && negb (bvl_size buffer =? 0) then write_calls w buffer write_all (total +! n) sys
          else Some (w, Ok (total +! n))
      end
  end.

Definition write_handle (s : store) (h : nat) (buffer : BufferViewList) (write_all : bool)
    (sys : list (option Z)) : result (store * option (result Z)) :=
  let* (cw, k) := deref s h in
  match write_calls cw.2 buffer write_all 0 sys with
  | None => Ok (s, None)
  | Some (w, r) => Ok (set_cell s cw.1 w k, Some r)
  end.

(** [fd_num()], [eof()], [closed()] and the counters are the wrapper's. *)
Definition handle_state (s : store) (h : nat) : result FDWrapper :=
  let* (cw, _) := deref s h in Ok cw.2.

(** ** Runs *)

(** The kernel's part of opening: the number it returns is not in use, and is
    now open for the wrapper made of it. *)
Inductive fd_op : Type :=
  | OpOpen (h : nat) (fd : Z)
  | OpDuplicate (h h' : nat)
  | OpMove (h h' : nat)
  | OpAssign (h h' : nat)
  | OpDestroy (h : nat)
  | OpClose (h : nat)
  | OpRead (h : nat) (limit : Z) (sys : option bytes)
  | OpWrite (h : nat) (buffer : BufferViewList) (write_all : bool) (sys : list (option Z)).

Definition k_open (s : store) (fd : Z) : store :=
  mkStore (st_cells s) (st_handles s) (<[fd := st_next s]> (st_table s)) (st_next s).

Definition fd_step (s : store) (o : fd_op) : result store :=
  match o with
  | OpOpen h fd => if fd <? 0 then construct s h fd else construct (k_open s fd) h fd
  | OpDuplicate h h' => duplicate s h h'
  | OpMove h h' => Ok (move_construct s h h')
  | OpAssign h h' => Ok (move_assign s h h')
  | OpDestroy h => Ok (destroy s h)
  | OpClose h => close s h
  | OpRead h limit sys => let* (s, _) := read_handle s h limit sys in Ok s
  | OpWrite h b all sys => let* (s, _) := write_handle s h b all sys in Ok s
  end.

(** Constructors make new handles, the others name existing ones; the kernel
    returns numbers that are not in use; no handle is closed a second time. *)
Definition fd_op_ok (s : store) (o : fd_op) : Prop :=
  match o with
  | OpOpen h fd => st_handles s !! h = None /\ st_table s !! fd = None
  | OpDuplicate h h' | OpMove h h' => is_Some (st_handles s !! h) /\ st_handles s !! h' = None
  | OpAssign h h' => is_Some (st_handles s !! h) /\ is_Some (st_handles s !! h')
  | OpDestroy h | OpRead h _ _ | OpWrite h _ _ _ => is_Some (st_handles s !! h)
  | OpClose h => is_Some (st_handles s !! h) /\
      (forall w, handle_state s h = Ok w -> fd_closed w = false)
  end.

(** A call that throws leaves the store as it is. *)
Inductive fd_reachable : store -> Prop :=
  | fr_empty : fd_reachable empty_store
  | fr_step s o s' : fd_reachable s -> fd_op_ok s o -> fd_step s o = Ok s' -> fd_reachable s'.

(** ** The invariant *)

(** How many handles point to the wrapper [c]. *)
Definition refs (m : gmap nat (option nat)) (c : nat) : Z :=
  Z.of_nat (size (filter (fun x => x.2 = Some c) m)).
Definition points (p : option nat) (c : nat) : Z := if decide (p = Some c) then 1 else 0.

Lemma refs_new m h p c : m !! h = None -> refs (<[h := p]> m) c = refs m c + points p c.
Proof.
  intros Hn. unfold refs, points. destruct (decide (p = Some c)) as [Hp|Hp].
  - rewrite map_filter_insert_True by done. rewrite map_size_insert_None; [lia|].
    apply map_lookup_filter_None. by left.
  - rewrite map_filter_insert_False by done. rewrite delete_id by done. lia.
Qed.

Lemma refs_remove m h p c : m !! h = Some p -> refs (delete h m) c = refs m c - points p c.
Proof.
  intros Hh. rewrite <- (insert_delete_id m h p Hh) at 2. rewrite refs_new by apply lookup_delete_eq. lia.
Qed.

Lemma refs_change m h p p' c :
  m !! h = Some p -> refs (<[h := p']> m) c = refs m c - points p c + points p' c.
Proof.
  intros Hh. rewrite <- insert_delete_eq, refs_new by apply lookup_delete_eq.
  rewrite (refs_remove m h p) by done. lia.
Qed.

Lemma refs_nonneg m c : 0 <= refs m c.
Proof. unfold refs. lia. Qed.

Lemma points_range p c : 0 <= points p c <= 1.
Proof. unfold points. case_decide; lia. Qed.

Lemma refs_pos m c : 0 < refs m c <-> exists h, m !! h = Some (Some c).
Proof.
  unfold refs. split.
  - intros Hs. destruct (decide (filter (fun x : nat * option nat => x.2 = Some c) m = ∅)) as [E|E].
    { rewrite E, map_size_empty in Hs. lia. }
    apply map_choose in E as (h & p & Hp). apply map_lookup_filter_Some in Hp as [Hp E]. cbn in E. subst p. eauto.
  - intros [h Hh]. enough (size (filter (fun x : nat * option nat => x.2 = Some c) m) <> 0%nat) by lia.
    rewrite map_size_non_empty_iff. intros E.
    assert (Hx : filter (fun x : nat * option nat => x.2 = Some c) m !! h = None) by (rewrite E; apply lookup_empty).
    apply map_lookup_filter_None in Hx as [Hx|Hx]; [congruence|]. by eapply Hx.
Qed.

(** Every wrapper counts the handles that point to it, up to a correction for
    the pointer that is being released, and the kernel has open exactly the
    descriptors of the wrappers that were not closed. *)
Record st_inv (extra : option nat) (s : store) : Prop := {
  sv_count : forall c w k, st_cells s !! c = Some (w, k) -> k = refs (st_handles s) c + points extra c /\ 1 <= k;
  sv_pointed : forall c, 0 < refs (st_handles s) c + points extra c -> is_Some (st_cells s !! c);
  sv_fresh : forall c, is_Some (st_cells s !! c) -> (c < st_next s)%nat;
  sv_open : forall c w k, st_cells s !! c = Some (w, k) -> fd_closed w = false -> st_table s !! fd_num w = Some c;
  sv_owned : forall n c, st_table s !! n = Some c ->
    exists w k, st_cells s !! c = Some (w, k) /\ fd_num w = n /\ fd_closed w = false }.

Lemma points_None c : points None c = 0.
Proof. done. Qed.

Lemma empty_store_inv : st_inv None empty_store.
Proof.
  constructor; try done.
  intros c [x Hx]. by destruct c.
Qed.

Lemma release_inv s c : st_inv (Some c) s -> st_inv None (release s c).
Proof.
  intros [H1 H2 H3 H4 H5]. unfold release.
  assert (Hp : forall c', points (Some c) c' = if decide (c' = c) then 1 else 0).
  { intros c'. unfold points. do 2 case_decide; congruence || done. }
  destruct (H2 c) as [[w k] Hc]; [rewrite Hp, decide_True by done; pose proof (refs_nonneg (st_handles s) c); lia|].
  rewrite Hc. pose proof (H1 _ _ _ Hc) as [Hk Hk1]. rewrite Hp, decide_True in Hk by done.
  destruct (Z.eqb_spec (k - 1) 0) as [Hz|Hz].
  - constructor; cbn [st_cells st_handles st_table st_next].
    + intros c' w' k' Hc'. apply lookup_delete_Some in Hc' as [Hne Hc']. rewrite points_None.
      specialize (H1 _ _ _ Hc'). rewrite Hp, decide_False in H1 by done. done.
    + intros c' Hc'. rewrite points_None in Hc'. destruct (decide (c' = c)) as [->|Hne]; [lia|].
      rewrite lookup_delete_ne by done. apply H2. rewrite Hp, decide_False by done. done.
    + intros c' [x Hx]. apply lookup_delete_Some in Hx as [_ Hx]. eauto.
    + intros c' w' k' Hc' Ho. apply lookup_delete_Some in Hc' as [Hne Hc'].
      pose proof (H4 _ _ _ Hc' Ho) as Hw'. unfold wrapper_destroy, k_close. destruct (fd_closed w) eqn:Ew; [done|].
      pose proof (H4 _ _ _ Hc Ew) as Hw. rewrite Hw. rewrite lookup_delete_ne; [done|]. intros E. congruence.
    + intros n c' Hn. unfold wrapper_destroy, k_close in Hn. destruct (fd_closed w) eqn:Ew.
      * destruct (H5 _ _ Hn) as (w' & k' & Hc' & E & Ho). exists w', k'. rewrite lookup_delete_ne; [done|].
        intros <-. congruence.
      * rewrite (H4 _ _ _ Hc Ew) in Hn. apply lookup_delete_Some in Hn as [Hne Hn].
        destruct (H5 _ _ Hn) as (w' & k' & Hc' & E & Ho). exists w', k'. rewrite lookup_delete_ne; [done|].
        intros <-. congruence.
  - constructor; cbn [st_cells st_handles st_table st_next set_cell].
    + intros c' w' k' Hc'. rewrite points_None. apply lookup_insert_Some in Hc' as [[<- [= <- <-]]|[Hne Hc']]; [lia|].
      specialize (H1 _ _ _ Hc'). rewrite Hp, decide_False in H1 by done. done.
    + intros c' Hc'. rewrite points_None in Hc'. destruct (decide (c' = c)) as [->|Hne].
      * rewrite lookup_insert_eq. eauto.
      * rewrite lookup_insert_ne by done. apply H2. rewrite Hp, decide_False by done. done.
    + intros c' Hc'. destruct (decide (c' = c)) as [->|Hne]; [eauto|]. rewrite lookup_insert_ne in Hc' by done. eauto.
    + intros c' w' k' Hc' Ho. apply lookup_insert_Some in Hc' as [[<- [= <- <-]]|[Hne Hc']]; eauto.
    + intros n c' Hn. destruct (H5 _ _ Hn) as (w' & k' & Hc' & E & Ho). destruct (decide (c' = c)) as [->|Hne].
      * rewrite lookup_insert_eq. rewrite Hc in Hc'. injection Hc' as <- <-. eauto.
      * rewrite lookup_insert_ne by done. eauto.
Qed.

(** Moving pointers between handles keeps the counts. *)
Lemma handles_inv e e' s m :
  st_inv e s -> (forall c, refs m c + points e' c = refs (st_handles s) c + points e c) ->
  st_inv e' (mkStore (st_cells s) m (st_table s) (st_next s)).
Proof.
  intros [H1 H2 H3 H4 H5] Hm. constructor; cbn [st_cells st_handles st_table st_next]; try done.
  - intros c w k Hc. rewrite Hm. eauto.
  - intros c Hc. apply H2. by rewrite <- Hm.
Qed.

Lemma release_handle_inv p s : st_inv p s -> st_inv None (release_handle s p).
Proof. destruct p; [apply release_inv|done]. Qed.

Lemma set_cell_inv s c w k w' :
  st_inv None s -> st_cells s !! c = Some (w, k) -> fd_num w' = fd_num w -> fd_closed w' = fd_closed w ->
  st_inv None (set_cell s c w' k).
Proof.
  intros [H1 H2 H3 H4 H5] Hc Hn Hcl. constructor; cbn [st_cells st_handles st_table st_next set_cell].
  - intros c' w1 k1 Hc'. apply lookup_insert_Some in Hc' as [[<- [= <- <-]]|[Hne Hc']]; eauto.
  - intros c' Hc'. destruct (decide (c' = c)) as [->|Hne]; [rewrite lookup_insert_eq; eauto|].
    rewrite lookup_insert_ne by done. eauto.
  - intros c' Hc'. destruct (decide (c' = c)) as [->|Hne]; [eauto|]. rewrite lookup_insert_ne in Hc' by done. eauto.
  - intros c' w1 k1 Hc' Ho. apply lookup_insert_Some in Hc' as [[<- [= <- <-]]|[Hne Hc']]; [|eauto].
    rewrite Hn. eapply H4; [exact Hc|congruence].
  - intros n c' Ht. destruct (H5 _ _ Ht) as (w1 & k1 & Hc' & E & Ho). destruct (decide (c' = c)) as [->|Hne].
    + rewrite Hc in Hc'. injection Hc' as <- <-. rewrite lookup_insert_eq. exists w', k. split; [done|]. split; congruence.
    + rewrite lookup_insert_ne by done. eauto.
Qed.

Lemma construct_inv s h fd s' :
  st_inv None s -> st_handles s !! h = None -> st_table s !! fd = None ->
  fd_step s (OpOpen h fd) = Ok s' -> st_inv None s'.
Proof.
  intros [H1 H2 H3 H4 H5] Hh Ht. cbn [fd_step]. unfold construct, new_FDWrapper, k_open. 
  destruct (Z.ltb_spec fd 0); [done|]. cbn [rbind st_cells st_handles st_table st_next]. intros [= <-].
  assert (Hfree : st_cells s !! st_next s = None).
  { destruct (st_cells s !! st_next s) eqn:E; [|done]. specialize (H3 (st_next s) ltac:(eauto)). lia. }
  assert (H0 : refs (st_handles s) (st_next s) = 0).
  { pose proof (refs_nonneg (st_handles s) (st_next s)).
    destruct (Z.eq_dec (refs (st_handles s) (st_next s)) 0); [done|]. destruct (H2 (st_next s)) as [x Hx]; [rewrite points_None; lia|].
    congruence. }
  assert (Hp : forall c, points (Some (st_next s)) c = if decide (c = st_next s) then 1 else 0)
    by (intros c; unfold points; do 2 case_decide; congruence || done).
  constructor; cbn [st_cells st_handles st_table st_next].
  - intros c w k Hc. rewrite refs_new by done. rewrite points_None, Hp.
    apply lookup_insert_Some in Hc as [[<- [= <- <-]]|[Hne Hc]].
    + rewrite decide_True by done. lia.
    + rewrite decide_False by done. specialize (H1 _ _ _ Hc). rewrite points_None in H1. lia.
  - intros c Hc. rewrite refs_new, points_None, Hp in Hc by done. destruct (decide (c = st_next s)) as [->|Hne].
    + rewrite lookup_insert_eq. eauto.
    + rewrite lookup_insert_ne by done. apply H2. rewrite points_None. lia.
  - intros c Hc. destruct (decide (c = st_next s)) as [->|Hne]; [lia|]. rewrite lookup_insert_ne in Hc by done.
    specialize (H3 _ Hc). lia.
  - intros c w k Hc Ho. apply lookup_insert_Some in Hc as [[<- [= <- <-]]|[Hne Hc]]; cbn.
    + by rewrite lookup_insert_eq.
    + specialize (H4 _ _ _ Hc Ho). rewrite lookup_insert_ne; [done|congruence].
  - intros n c Hn. apply lookup_insert_Some in Hn as [[<- <-]|[Hne Hn]].
    + rewrite lookup_insert_eq. eauto.
    + destruct (H5 _ _ Hn) as (w & k & Hc & E). exists w, k. rewrite lookup_insert_ne; [done|congruence].
Qed.

Lemma duplicate_inv s h h' s' :
  st_inv None s -> st_handles s !! h' = None -> duplicate s h h' = Ok s' -> st_inv None s'.
Proof.
  intros Hinv Hh. pose proof Hinv as [H1 H2 H3 H4 H5]. unfold duplicate, deref.
  destruct (st_handles s !! h) as [[c|]|]; try done. destruct (st_cells s !! c) as [[w k]|] eqn:Hc; [|done].
  cbn [rbind fst snd]. intros [= <-].
  assert (Hp : forall c', points (Some c) c' = if decide (c' = c) then 1 else 0)
    by (intros c'; unfold points; do 2 case_decide; congruence || done).
  constructor; cbn [set_handle set_cell st_cells st_handles st_table st_next].
  - intros c' w' k' Hc'. rewrite refs_new by done. rewrite points_None, Hp.
    apply lookup_insert_Some in Hc' as [[<- [= <- <-]]|[Hne Hc']].
    + rewrite decide_True by done. specialize (H1 _ _ _ Hc). rewrite points_None in H1. lia.
    + rewrite decide_False by done. specialize (H1 _ _ _ Hc'). rewrite points_None in H1. lia.
  - intros c' Hc'. rewrite refs_new, points_None, Hp in Hc' by done. destruct (decide (c' = c)) as [->|Hne].
    + rewrite lookup_insert_eq. eauto.
    + rewrite lookup_insert_ne by done. apply H2. rewrite points_None. lia.
  - intros c' Hc'. destruct (decide (c' = c)) as [->|Hne]; [eauto|]. rewrite lookup_insert_ne in Hc' by done. eauto.
  - intros c' w' k' Hc' Ho. apply lookup_insert_Some in Hc' as [[<- [= <- <-]]|[Hne Hc']]; eauto.
  - intros n c' Hn. destruct (H5 _ _ Hn) as (w' & k' & Hc' & E). destruct (decide (c' = c)) as [->|Hne].
    + rewrite Hc in Hc'. injection Hc' as <- <-. rewrite lookup_insert_eq. eauto.
    + rewrite lookup_insert_ne by done. eauto.
Qed.

Lemma close_inv s h s' :
  st_inv None s -> (forall w, handle_state s h = Ok w -> fd_closed w = false) ->
  close s h = Ok s' -> st_inv None s'.
Proof.
  intros [H1 H2 H3 H4 H5] Hd. unfold close, handle_state, deref, k_close in *.
  destruct (st_handles s !! h) as [[c|]|]; try done. destruct (st_cells s !! c) as [[w k]|] eqn:Hc; [|done].
  cbn [rbind fst snd] in *. specialize (Hd _ eq_refl). pose proof (H4 _ _ _ Hc Hd) as Ho. rewrite Ho. intros [= <-].
  constructor; cbn [st_cells st_handles st_table st_next].
  - intros c' w' k' Hc'. apply lookup_insert_Some in Hc' as [[<- [= <- <-]]|[Hne Hc']]; eauto.
  - intros c' Hc'. destruct (decide (c' = c)) as [->|Hne]; [rewrite lookup_insert_eq; eauto|].
    rewrite lookup_insert_ne by done. eauto.
  - intros c' Hc'. destruct (decide (c' = c)) as [->|Hne]; [eauto|]. rewrite lookup_insert_ne in Hc' by done. eauto.
  - intros c' w' k' Hc' Hcl. apply lookup_insert_Some in Hc' as [[<- [= <- <-]]|[Hne Hc']]; [done|].
    pose proof (H4 _ _ _ Hc' Hcl). rewrite lookup_delete_ne; [done|]. intros E. congruence.
  - intros n c' Hn. apply lookup_delete_Some in Hn as [Hne Hn]. destruct (H5 _ _ Hn) as (w' & k' & Hc' & E & Hcl).
    exists w', k'. rewrite lookup_insert_ne; [done|]. intros <-. congruence.
Qed.

Lemma read_same w limit sys w' d : fd_read w limit sys = Ok (w', d) -> fd_num w' = fd_num w /\ fd_closed w' = fd_closed w.
Proof.
  unfold fd_read. destruct sys as [data|]; [|done]. destruct (_ <? _); [done|]. intros [= <- _].
  by destruct (_ && _).
Qed.

Lemma write_calls_same sys : forall w buffer all total w' r,
  write_calls w buffer all total sys = Some (w', r) -> fd_num w' = fd_num w /\ fd_closed w' = fd_closed w.
Proof.
  induction sys as [|a sys IH]; intros w buffer all total w' r; cbn [write_calls]; [done|].
  destruct (write_round w buffer a) as [[[w1 b1] n]|e] eqn:E; [|by intros [= <- _]].
  assert (Hw : w1 = register_write w).
  { unfold write_round in E. destruct a; [|done]. destruct (_ && _); [done|]. destruct (_ <? _); [done|].
    apply rbind_ok in E as (b & _ & [= <- _ _]). done. }
  subst w1. destruct (_ && _); [|by intros [= <- _]]. intros H. apply IH in H. done.
Qed.

(** The result is that of [fd_write]. *)
Lemma write_calls_result sys : forall w buffer all total,
  fd_write w buffer all total sys =
  match write_calls w buffer all total sys with
  | None => None
  | Some (w', Ok n) => Some (Ok (w', n))
  | Some (_, Err e) => Some (Err e)
  end.
Proof.
  induction sys as [|a sys IH]; intros w buffer all total; cbn [fd_write write_calls]; [done|].
  destruct (write_round w buffer a) as [[[w1 b1] n]|e]; [|done]. destruct (_ && _); [apply IH|done].
Qed.

Lemma fd_step_inv s o s' :
  st_inv None s -> fd_op_ok s o -> fd_step s o = Ok s' -> st_inv None s'.
Proof.
  intros Hinv Ho E. destruct o as [h fd|h h'|h h'|h h'|h|h|h limit sys|h b all sys]; cbn [fd_op_ok] in Ho.
  - destruct Ho as [Ho1 Ho2]. by apply (construct_inv s h fd).
  - destruct Ho as [_ Ho]. by apply (duplicate_inv s h h').
  - destruct Ho as [[p Hp] Hn]. injection E as <-. unfold move_construct. rewrite Hp.
    apply (handles_inv None None s); [done|]. intros c. cbn [set_handle st_handles].
    assert (h <> h') by congruence. rewrite refs_new by (by rewrite lookup_insert_ne).
    rewrite (refs_change _ _ p) by done. rewrite points_None. lia.
  - destruct Ho as [[p Hp] [old Hold]]. injection E as <-. unfold move_assign. rewrite Hp, Hold.
    destruct (Nat.eqb_spec h h') as [->|Hne]; [done|]. apply release_handle_inv.
    apply (handles_inv None old s); [done|]. intros c. cbn [set_handle st_handles].
    rewrite (refs_change _ _ old) by (by rewrite lookup_insert_ne). rewrite (refs_change _ _ p) by done.
    rewrite points_None. lia.
  - destruct Ho as [p Hp]. injection E as <-. unfold destroy. rewrite Hp. apply release_handle_inv.
    apply (handles_inv None p s); [done|]. intros c. rewrite (refs_remove _ _ p) by done. rewrite points_None. lia.
  - destruct Ho as [_ Ho]. by apply (close_inv s h).
  - cbn in E. apply rbind_ok in E as ([s1 d] & E & [= <-]). unfold read_handle, deref in E.
    destruct (st_handles s !! h) as [[c|]|]; try done. destruct (st_cells s !! c) as [[w k]|] eqn:Hc; [|done].
    cbn [rbind fst snd] in E. apply rbind_ok in E as ([w' d'] & E & [= <- _]). apply read_same in E as [].
    by eapply set_cell_inv.
  - cbn in E. apply rbind_ok in E as ([s1 d] & E & [= <-]). unfold write_handle, deref in E.
    destruct (st_handles s !! h) as [[c|]|]; try done. destruct (st_cells s !! c) as [[w k]|] eqn:Hc; [|done].
    cbn [rbind fst snd] in E. destruct (write_calls w b all 0 sys) as [[w' r]|] eqn:Ew; injection E as <- _; [|done].
    apply write_calls_same in Ew as []. by eapply set_cell_inv.
Qed.

Lemma fd_reachable_inv s : fd_reachable s -> st_inv None s.
Proof. induction 1; [apply empty_store_inv|]. by eapply fd_step_inv. Qed.

(** What destroying a handle does to the kernel's table. *)
Lemma destroy_table s h c w k :
  st_inv None s -> st_handles s !! h = Some (Some c) -> st_cells s !! c = Some (w, k) ->
  st_table (destroy s h) =
    if (k =? 1) && negb (fd_closed w) then delete (fd_num w) (st_table s) else st_table s.
Proof.
  intros Hinv Hh Hc. unfold destroy. rewrite Hh. cbn [release_handle]. unfold release. cbn [st_cells].
  rewrite Hc. replace (k - 1 =? 0) with (k =? 1) by (destruct (Z.eqb_spec k 1), (Z.eqb_spec (k - 1) 0); lia || done).
  destruct (k =? 1); [|done]. cbn [st_table andb]. unfold wrapper_destroy, k_close.
  destruct (fd_closed w) eqn:Ew; [done|]. by rewrite (sv_open _ _ Hinv _ _ _ Hc Ew).
Qed.

Lemma sole_handle s h c w k :
  st_inv None s -> st_handles s !! h = Some (Some c) -> st_cells s !! c = Some (w, k) ->
  k = 1 <-> forall h', st_handles s !! h' = Some (Some c) -> h' = h.
Proof.
  intros Hinv Hh Hc. destruct (sv_count _ _ Hinv _ _ _ Hc) as [Hk _]. rewrite points_None, Z.add_0_r in Hk.
  pose proof (refs_remove (st_handles s) h (Some c) c Hh) as Hr.
  assert (Hp : points (Some c) c = 1) by (unfold points; by rewrite decide_True). rewrite Hp in Hr.
  pose proof (refs_pos (delete h (st_handles s)) c) as Hpos. split.
  - intros -> h' Hh'. destruct (decide (h' = h)) as [|Hne]; [done|].
    assert (0 < refs (delete h (st_handles s)) c); [|lia]. apply Hpos. exists h'. by rewrite lookup_delete_ne.
  - intros Hall. pose proof (refs_nonneg (delete h (st_handles s)) c).
    destruct (Z.eq_dec (refs (delete h (st_handles s)) c) 0); [lia|].
    destruct (proj1 Hpos ltac:(lia)) as (h' & Hh'). apply lookup_delete_Some in Hh' as [Hne Hh'].
    by rewrite (Hall _ Hh') in Hne.
Qed.

(** C35: Sharing of descriptors.  Whatever sequence of opening, duplicating, moving,
    assigning, reading, writing, closing and destroying of handles happens,
    with no handle closed twice: the descriptors open in the kernel are
    exactly those of the wrappers that were not closed and have a handle; a
    handle that was not moved from refers to a wrapper, whose count is the
    number of its handles, and whose number, while it is not closed, is the
    descriptor opened for it; and destroying a handle closes the descriptor
    if it is the last one and nobody closed it, and nothing otherwise. *)
Theorem handles_own_descriptors s :
  fd_reachable s ->
  (forall n c, st_table s !! n = Some c <->
     exists w k h, st_cells s !! c = Some (w, k) /\ fd_num w = n /\ fd_closed w = false /\
       st_handles s !! h = Some (Some c)) /\
  (forall h c, st_handles s !! h = Some (Some c) ->
     exists w, handle_state s h = Ok w /\ st_cells s !! c = Some (w, refs (st_handles s) c) /\
       (fd_closed w = false -> st_table s !! fd_num w = Some c) /\
       ((forall h', st_handles s !! h' = Some (Some c) -> h' = h) -> fd_closed w = false ->
          st_table (destroy s h) = delete (fd_num w) (st_table s)) /\
       ((exists h', h' <> h /\ st_handles s !! h' = Some (Some c)) \/ fd_closed w = true ->
          st_table (destroy s h) = st_table s)).
Proof.
  intros Hr. pose proof (fd_reachable_inv s Hr) as Hinv. split.
  - intros n c. split.
    + intros Hn. destruct (sv_owned _ _ Hinv _ _ Hn) as (w & k & Hc & E & Ho).
      destruct (sv_count _ _ Hinv _ _ _ Hc) as [Hk Hk1]. rewrite points_None in Hk.
      destruct (proj1 (refs_pos (st_handles s) c) ltac:(lia)) as [h Hh]. by exists w, k, h.
    + intros (w & k & h & Hc & <- & Ho & _). by apply (sv_open _ _ Hinv c w k).
  - intros h c Hh. assert (Hpos : 0 < refs (st_handles s) c) by (apply refs_pos; eauto).
    destruct (sv_pointed _ _ Hinv c) as [[w k] Hc]; [rewrite points_None; lia|]. exists w.
    destruct (sv_count _ _ Hinv _ _ _ Hc) as [Hk Hk1]. rewrite points_None, Z.add_0_r in Hk.
    unfold handle_state, deref. rewrite Hh, Hc. split; [done|]. split; [by rewrite Hk|].
    split; [by apply (sv_open _ _ Hinv c w k)|]. rewrite (destroy_table s h c w k Hinv Hh Hc).
    pose proof (sole_handle s h c w k Hinv Hh Hc) as Hsole. split.
    + intros Hall Ho. rewrite (proj2 Hsole Hall), Ho. done.
    + intros [(h' & Hne & Hh')|Hcl]; [|by rewrite Hcl, andb_false_r].
      destruct (Z.eqb_spec k 1) as [->|]; [|done]. by destruct (Hne (proj1 Hsole eq_refl h' Hh')).
Qed.

(** Two handles of descriptor 3: the first one may go without closing it. *)
Definition two_handles : store :=
  set_handle (set_cell (mkStore {[0%nat := (mkFDWrapper 3 false false 0 0, 1)]} {[0%nat := Some 0%nat]}
    {[3 := 0%nat]} 1) 0 (mkFDWrapper 3 false false 0 0) 2) 1 (Some 0%nat).

Lemma two_handles_reachable : fd_reachable two_handles.
Proof.
  apply (fr_step (mkStore {[0%nat := (mkFDWrapper 3 false false 0 0, 1)]} {[0%nat := Some 0%nat]}
    {[3 := 0%nat]} 1) (OpDuplicate 0 1)).
  - apply (fr_step empty_store (OpOpen 0 3)); [apply fr_empty|done|reflexivity].
  - split; [by eexists|reflexivity].
  - reflexivity.
Qed.

Lemma handles_own_descriptors_witness :
  st_table (destroy two_handles 0) = st_table two_handles /\
  st_table (destroy (destroy two_handles 0) 1) = ∅.
Proof.
  destruct (handles_own_descriptors two_handles two_handles_reachable) as [_ H].
  destruct (H 0%nat 0%nat) as (w & _ & _ & _ & _ & H2); [reflexivity|].
  split; [|reflexivity]. apply H2. left. exists 1%nat. split; [discriminate|reflexivity].
Defined.

(** [close] does not look at [_closed].  When a handle is closed twice, the
    second call goes to the kernel with a number that may by then belong to
    somebody else: here it closes the descriptor of another handle, which
    goes on believing that it is open. *)
Theorem double_close_hits_another :
  exists s1 s2 s3 s4, fd_step empty_store (OpOpen 0 3) = Ok s1 /\ close s1 0 = Ok s2 /\
    fd_step s2 (OpOpen 1 3) = Ok s3 /\ close s3 0 = Ok s4 /\
    (exists w, handle_state s4 1 = Ok w /\ fd_closed w = false /\ st_table s4 !! fd_num w = None).
Proof.
  do 4 eexists. do 4 (split; [reflexivity|]). eexists. split; [reflexivity|]. split; reflexivity.
Qed.
