(* ===== verification/AdapterSafety.v ===== *)
(** * What a socket relies on in its adapter

    The class [FdAdapterSafe]: an adapter in good order takes whatever its device
    delivers and whatever segment a connection sends without throwing, stays in
    good order, and hands up only segments whose fields have values of their
    types.  The adapters over UDP, TUN and TAP, and the lossy adapter over any of
    them, are instances. *)
From S2P Require Import Prelude WrappingIntegers Buffer Parser Checksum TCPSegment IPv4 Ethernet TCPSender TCPConnection Outgoing Address NetworkInterface Adapters FileDescriptor.

(** [adapter_ok t a]: the timers of [a] have counted at most [t] milliseconds.
    The clock of an interface stays away from the end of its range. *)
Class FdAdapterSafe (A I O : Type) {FA : FdAdapter A I O} : Type := {
  adapter_ok : Z -> A -> Prop;
  adapter_input_ok : I -> Prop;
  adapter_read_safe t a i : adapter_ok t a -> adapter_input_ok i ->
    exists a' o out, adapter_read a i = Ok (a', o, out) /\ adapter_ok t a' /\ (forall s, o = Some s -> seg_in_ok s);
  adapter_write_safe t a s : adapter_ok t a -> sendable s ->
    exists a' s' out, adapter_write a s = Ok (a', s', out) /\ adapter_ok t a';
  adapter_tick_safe t a ms : adapter_ok t a -> 0 <= ms -> t + ms < W64 - W32 ->
    adapter_ok (t + ms) (adapter_tick a ms).1 }.

(** ** Parsed segments *)

Lemma parsed_segment_in_ok b c s :
  buf_ok b -> zlen (buf_str b) <= BUFFER_SIZE ->
  TCPSegment_parse new_TCPSegment b c = Ok (NoError, s) -> seg_in_ok s.
Proof.
  intros Hb Hl. unfold TCPSegment_parse. destruct (negb _); [done|].
  assert (Hy : yields TCPHeader_parse (fun v => w32_ok (th_seqno v.2) /\ w32_ok (th_ackno v.2) /\ 0 <= th_win v.2 < W16)).
  { unfold TCPHeader_parse. do 9 pstep. case_match; [by apply yields_ret|].
    eapply yields_bind; [apply yields_skip, u64_range|intros _ _]. pstep. case_match; by apply yields_ret. }
  destruct (Hy _ (new_NetParser_state b Hb)) as (v & p & E & _ & (H1 & H2 & H3) & _). rewrite E. cbn [rbind].
  intros [= He <-]. destruct (consumes_TCPHeader _ _ _ (new_NetParser_state b Hb) E) as [_ C].
  destruct (C He) as (_ & hdr & _ & R). split; [done|]. split; [done|]. split; [done|].
  cbn [payload]. change (buf_str b = hdr ++ buf_str (np_buffer p)) in R. rewrite R, zlen_app in Hl.
  unfold BUFFER_SIZE in Hl. zpos. lia.
Qed.

(** ** Parsed datagrams *)

Lemma parsed_datagram b d :
  buf_ok b -> IPv4Datagram_parse new_IPv4Datagram b = Ok (NoError, d) ->
  exists c, ip_payload d = [c] /\ buf_ok c /\ zlen (buf_str c) < W16 /\
    0 <= ih_src (ip_header d) < W32 /\ 0 <= ih_dst (ip_header d) < W32.
Proof.
  intros Hb E. destruct (datagram_parse_cases new_IPv4Datagram b Hb) as (r & d1 & E1 & _ & Hlen).
  rewrite E in E1. injection E1 as <- <-. specialize (Hlen eq_refl).
  destruct (datagram_parse_one _ _ _ _ E) as (c & Ec). exists c. split; [done|].
  assert (Hy : yields (IPv4Header_parse default_IPv4Header)
    (fun v => 0 <= ih_src v.2 < W32 /\ 0 <= ih_dst v.2 < W32)).
  { unfold IPv4Header_parse. pstep. unfold IPv4Header_parse_fields. case_match; [by apply yields_ret|]. do 10 pstep.
    do 4 (case_match; [by apply yields_ret|]).
    eapply yields_bind; [apply yields_skip, u64_range|intros _ _]. pstep.
    case_match; [by apply yields_ret|]. case_match; by apply yields_ret. }
  unfold IPv4Datagram_parse in E. cbn [ip_header new_IPv4Datagram] in E.
  destruct (Hy _ (new_NetParser_state b Hb)) as (v & p & Ep & [Hp _] & Hv & _). rewrite Ep in E. cbn [rbind] in E.
  assert (Ed : d = mkIPv4Datagram (snd v) (BufferList_of_Buffer (np_buffer p)))
    by (destruct (negb _); by injection E as _ <-).
  subst d. injection Ec as <-. split; [done|]. split; [|done].
  cbn [ip_payload ip_header] in Hlen. rewrite concatenate_one in Hlen. rewrite Hlen. apply u16_range.
Qed.

(** ** Configurations *)

Definition base_ok (a : FdAdapterBase) : Prop :=
  exists ip port pip pport, cfg_ok (fa_cfg a) ip port pip pport.

Lemma unwrap_safe a b d :
  base_ok a -> buf_ok b -> IPv4Datagram_parse new_IPv4Datagram b = Ok (NoError, d) ->
  exists a' o, unwrap_tcp_in_ip a d = Ok (a', o) /\ base_ok a' /\ (forall s, o = Some s -> seg_in_ok s).
Proof.
  intros (ip & port & pip & pport & Hc) Hb E. destruct (parsed_datagram b d Hb E) as (c & Ec & Hcb & Hl & Hs & Hd).
  destruct (unwrap_spec a ip port pip pport d c Hc Ec Hcb Hs Hd) as (r & s & Ep & Hsp & ->).
  destruct (accepts _ _ _ _ _ _ _ _) eqn:Ea; eexists _, _; (split; [reflexivity|]).
  - split.
    + destruct (fa_listen a); eexists _, _, _, _; [by eapply adopt_ok|exact Hc].
    + intros s' [= <-]. unfold accepts, pr_eqb in Ea. assert (Er : NoError = r).
      { destruct (bool_decide_reflect (NoError = r)); [done|]. by rewrite andb_false_r in Ea. }
      subst r. eapply parsed_segment_in_ok; [exact Hcb| |exact Ep]. unfold BUFFER_SIZE. lia.
  - split; [by eexists _, _, _, _|done].
Qed.

Lemma sendable_fits s : sendable s -> fits s.
Proof.
  intros Hs. split; [by apply sendable_ok|]. destruct Hs as [_ -> _ H]. unfold MAX_PAYLOAD_SIZE in H. lia.
Qed.

Lemma wrap_safe a s : base_ok a -> sendable s ->
  exists s' d, wrap_tcp_in_ip a s = Ok (s', d) /\ IPv4Datagram_ok d.
Proof.
  intros (ip & port & pip & pport & Hc) Hs.
  destruct (wrap_spec a ip port pip pport s Hc (sendable_fits s Hs)) as (d & E & Hd & _). eauto.
Qed.

(** ** The adapters *)

(** The kernel gives a datagram's source as an IPv4 address. *)
Definition udp_input_ok (d : received_datagram) : Prop :=
  (exists ip port, rd_source_address d = Address_numeric ip port /\ 0 <= ip < W32 /\ 0 <= port < W16) /\
  zlen (rd_payload d) <= 65536.

Lemma udp_read_safe u d : base_ok (ua_base u) -> udp_input_ok d ->
  exists u' o, udp_read u d = Ok (u', o) /\ base_ok (ua_base u') /\ (forall s, o = Some s -> seg_in_ok s).
Proof.
  intros (ip & port & pip & pport & Hc) ((sip & sport & Es & Hsip & Hsport) & Hl). unfold udp_read.
  assert (Hb : buf_ok (Buffer_of (rd_payload d))) by (apply Buffer_of_ok; lia).
  assert (Hbase : base_ok (ua_base u)) by (by eexists _, _, _, _).
  destruct (negb (fa_listen (ua_base u)) && _); [by eexists _, _|].
  destruct (parse_segment_ports _ 0 Hb) as (r & s & E & _). rewrite E. cbn [rbind]. unfold pr_eqb.
  destruct (bool_decide_reflect (NoError = r)) as [<-|]; cbn [negb]; [|by eexists _, _].
  assert (Hseg : seg_in_ok s).
  { eapply parsed_segment_in_ok; [exact Hb| |exact E]. rewrite buf_str_of. unfold BUFFER_SIZE. lia. }
  destruct (fa_listen (ua_base u)).
  - destruct (th_syn (header s) && _); [|by eexists _, _]. eexists _, _. split; [reflexivity|].
    split; [|by intros s' [= <-]]. exists ip, port, sip, sport. destruct Hc. rewrite Es. by constructor.
  - eexists _, _. split; [reflexivity|]. split; [done|]. by intros s' [= <-].
Qed.

#[export] Program Instance UDPAdapterSafe : FdAdapterSafe TCPOverUDPSocketAdapter received_datagram (Address * bytes) := {
  adapter_ok t u := base_ok (ua_base u);
  adapter_input_ok := udp_input_ok }.
Next Obligation.
  intros t u d Hu Hd. destruct (udp_read_safe u d Hu Hd) as (u' & o & E & H1 & H2).
  exists u', o, []. cbn. by rewrite E.
Qed.
Next Obligation.
  intros t u s (ip & port & pip & pport & Hc) Hs. destruct (cfg_addresses _ _ _ _ _ Hc) as (_ & _ & E3 & E4).
  cbn. unfold udp_write. rewrite E3, E4. cbn [rbind].
  destruct (segment_wire (addressed port pport s) 0) as (l & El & _); [|lia|].
  { apply addressed_ok; [by apply sendable_ok|apply Hc|apply Hc]. }
  unfold addressed in El. rewrite El. cbn [rbind]. eexists _, _, _. split; [reflexivity|]. by eexists _, _, _, _.
Qed.
Next Obligation. done. Qed.

#[export] Program Instance TunAdapterSafe : FdAdapterSafe TCPOverIPv4OverTunFdAdapter bytes bytes := {
  adapter_ok t a := base_ok (ta_base a);
  adapter_input_ok s := zlen s <= BUFFER_SIZE }.
Next Obligation.
  intros t a s Ha Hl. cbn in *. unfold tun_read. unfold BUFFER_SIZE in Hl.
  assert (Hb : buf_ok (Buffer_of s)) by (apply Buffer_of_ok; lia).
  destruct (datagram_parse_cases new_IPv4Datagram _ Hb) as (r & d & E & _). rewrite E. cbn [rbind]. unfold pr_eqb.
  destruct (bool_decide_reflect (r = NoError)) as [->|]; cbn [negb rbind]; [|by eexists _, _, _].
  destruct (unwrap_safe (ta_base a) _ d Ha Hb E) as (a' & o & -> & H1 & H2). cbn [rbind]. by eexists _, _, _.
Qed.
Next Obligation.
  intros t a s Ha Hs. cbn in *. unfold tun_write. destruct (wrap_safe _ s Ha Hs) as (s' & d & -> & Hd). cbn [rbind].
  destruct (datagram_wire d Hd) as (l & -> & _). cbn [rbind]. by eexists _, _, _.
Qed.
Next Obligation. done. Qed.

Record ethernet_ok (t : Z) (e : TCPOverIPv4OverEthernetAdapter) : Prop := {
  eo_base : base_ok (ea_base e);
  eo_interface : exists ip, ni_inv (ea_interface e) ip;
  eo_timer : ni_timer (ea_interface e) <= t;
  eo_next_hop : exists hop, ea_next_hop e = inet hop /\ 0 <= hop < W32 }.

Lemma take_frames_inv n ip : ni_inv n ip -> ni_inv (take_frames n) ip.
Proof. by intros []. Qed.

Lemma parsed_frame b : buf_ok b ->
  exists r f c, EthernetFrame_parse new_EthernetFrame b = Ok (r, f) /\ ef_payload f = [c] /\ buf_ok c.
Proof.
  intros Hb. unfold EthernetFrame_parse. 
  assert (Hh : EthernetHeader_ok (ef_header new_EthernetFrame)).
  { constructor; [exact zero_ea_ok|exact zero_ea_ok|]. by vm_compute. }
  destruct (yields_EthernetHeader _ Hh _ (new_NetParser_state b Hb)) as (v & p & -> & [Hp _] & _).
  cbn [rbind]. by eexists _, _, _.
Qed.

Lemma ethernet_read_safe t e s : ethernet_ok t e -> zlen s <= BUFFER_SIZE ->
  exists e' o out, ethernet_read e s = Ok (e', o, out) /\ ethernet_ok t e' /\ (forall s, o = Some s -> seg_in_ok s).
Proof.
  intros [Hbase (ip & Hn) Ht Hhop] Hl. unfold ethernet_read. unfold BUFFER_SIZE in Hl.
  destruct (parsed_frame (Buffer_of s)) as (r & f & c & -> & Ec & Hcb); [apply Buffer_of_ok; lia|]. cbn [rbind].
  destruct (negb (pr_eqb r NoError)); [eexists _, _, _; split; [reflexivity|]; split; [constructor; eauto|done]|].
  destruct (recv_frame_spec (ea_interface e) ip f c Hn Ec Hcb) as (n' & o & E & Hn' & Hcases). rewrite E.
  cbn [rbind send_pending].
  assert (Htimer : ni_timer n' = ni_timer (ea_interface e)) by apply (recv_frame_grows _ _ _ _ _ _ Hn Ec Hcb E).
  assert (Hnext : forall a', base_ok a' -> ethernet_ok t (mkEthernetAdapter a' (take_frames n') (ea_next_hop e))).
  { intros a' Ha'. constructor; [done| |cbn; lia|done]. exists ip. by apply take_frames_inv. }
  destruct o as [d|]; [|eexists _, _, _; split; [reflexivity|]; split; [by apply Hnext|done]].
  assert (Hd : IPv4Datagram_parse new_IPv4Datagram c = Ok (NoError, d)).
  { destruct Hcases as [(_ & _ & ?)|[(_ & _ & _ & x & d' & Ed & Eo)|(_ & _ & ? & _)]]; [done| |done].
    unfold pr_eqb in Eo. case_bool_decide; [|done]. subst x. by injection Eo as <-. }
  destruct (unwrap_safe (ea_base e) c d Hbase Hcb Hd) as (a' & o & -> & H1 & H2). cbn [rbind].
  eexists _, _, _. split; [reflexivity|]. split; [by apply Hnext|done].
Qed.

#[export] Program Instance EthernetAdapterSafe : FdAdapterSafe TCPOverIPv4OverEthernetAdapter bytes bytes := {
  adapter_ok := ethernet_ok;
  adapter_input_ok s := zlen s <= BUFFER_SIZE }.
Next Obligation. exact ethernet_read_safe. Qed.
Next Obligation.
  intros t e s [Hbase (ip & Hn) Ht (hop & Ehop & Hhop)] Hs. cbn in *. unfold ethernet_write.
  destruct (wrap_safe _ s Hbase Hs) as (s' & d & -> & Hd). cbn [rbind]. rewrite Ehop.
  destruct (send_datagram_spec _ ip d hop Hn Hd Hhop) as (n' & -> & Hn' & Et & _). cbn [rbind send_pending].
  eexists _, _, _. split; [reflexivity|]. constructor; [done| |cbn; lia|by exists hop].
  exists ip. by apply take_frames_inv.
Qed.
Next Obligation.
  intros t e ms [Hbase (ip & Hn) Ht Hhop] Hms Hb. pose proof (nii_timer _ _ Hn).
  constructor; [done| | |done].
  - exists ip. apply take_frames_inv, ni_tick_inv; [done|done|lia].
  - cbn. rewrite u64_id by lia. lia.
Qed.

#[export] Program Instance LossyAdapterSafe {A I O R} {FA : FdAdapter A I O} {FS : FdAdapterSafe A I O}
    (rand : R -> Z * R) : FdAdapterSafe (FA := LossyAdapter rand) (LossyFdAdapter A R) I O := {
  adapter_ok t l := adapter_ok t (lf_adapter l);
  adapter_input_ok := adapter_input_ok }.
Next Obligation.
  intros A I O R FA FS rand t l i Hl Hi. cbn. unfold lossy_read.
  destruct (adapter_read_safe t (lf_adapter l) i Hl Hi) as (a' & o & out & -> & Ha & Ho). cbn [rbind].
  destruct (should_drop rand _ false) as [drop l1] eqn:Ed.
  destruct (should_drop_adapter rand _ _ _ _ Ed) as [Ea _]. cbn [lf_adapter] in Ea. rewrite <- Ea in Ha.
  destruct drop; by eexists _, _, _.
Qed.
Next Obligation.
  intros A I O R FA FS rand t l s Hl Hs. cbn. unfold lossy_write.
  destruct (should_drop rand l true) as [drop l1] eqn:Ed.
  destruct (should_drop_adapter rand _ _ _ _ Ed) as [Ea _]. cbn in Hl. rewrite <- Ea in Hl. destruct drop; [by eexists _, _, _|].
  destruct (adapter_write_safe t (lf_adapter l1) s Hl Hs) as (a' & s' & out & -> & Ha). cbn [rbind]. by eexists _, _, _.
Qed.
Next Obligation.
  intros A I O R FA FS rand t l ms Hl Hms Hb. cbn. unfold lossy_tick.
  pose proof (adapter_tick_safe t (lf_adapter l) ms Hl Hms Hb) as H.
  destruct (adapter_tick (lf_adapter l) ms) as [a out]. exact H.
Qed.
