(* ===== verification/Links.v ===== *)
(** * What adapters carry

    The class [FdLink]: every datagram that an adapter puts on its device, now or
    after it has waited for an Ethernet address, reads at the other end as a
    segment that was written to it, but for the port numbers and the checksum, or
    as nothing.  The adapters over UDP, TUN and TAP, and the lossy adapter over
    any of them, are instances. *)
From S2P Require Import Prelude WrappingIntegers Buffer Parser Checksum TCPSegment IPv4 Ethernet TCPReceiver TCPSender TCPConnection Outgoing Address NetworkInterface Adapters FileDescriptor AdapterSafety.

(** ** Segments that a connection cannot tell apart *)

Definition same_content (s s' : TCPSegment) : Prop :=
  (exists sport dport cksum, header s' = set_cksum cksum (set_dport dport (set_sport sport (header s)))) /\
  buf_str (payload s') = buf_str (payload s).

Lemma received_content c s s' : same_content s s' -> tc_segment_received c s' = tc_segment_received c s.
Proof.
  intros [(sport & dport & cksum & Hh) Hp]. destruct s as [h b], s' as [h' b']. cbn in Hh, Hp. subst h'.
  unfold tc_segment_received, tc_after_receiver, rx_segment_received, rx_push, length_in_sequence_space, buf_copy.
  cbn [header payload]. rewrite Hp. done.
Qed.

Lemma addressed_content s s' port peer_port : same_segment (addressed port peer_port s) s' -> same_content s s'.
Proof. intros [Hh Hp]. split; [by exists port, peer_port, (th_cksum (header s'))|done]. Qed.

(** ** The class *)

(** What is on the device: [carries o i] when the other end may be given [i] for
    [o], [reads_as i s] when some adapter reads [i] as [s], and [adapter_holds W a]
    when every segment that [a] keeps back is one of [W]. *)
Class FdMedium (A I O : Type) : Type := {
  carries : O -> I -> Prop;
  reads_as : I -> TCPSegment -> Prop;
  adapter_holds : (TCPSegment -> Prop) -> A -> Prop }.

Section says.
Context {A I O : Type} {FM : FdMedium A I O}.

(** [i] reads as a segment of [W], or as nothing. *)
Definition comes_from (W : TCPSegment -> Prop) (i : I) : Prop :=
  forall s', reads_as (A := A) (O := O) i s' -> exists s, W s /\ same_content s s'.
Definition says (W : TCPSegment -> Prop) (o : O) : Prop :=
  forall i, carries (A := A) o i -> comes_from W i.

Lemma comes_from_mono (W W' : TCPSegment -> Prop) i : (forall s, W s -> W' s) -> comes_from W i -> comes_from W' i.
Proof. intros H Hc s' Hs. destruct (Hc s' Hs) as (s & ? & ?). eauto. Qed.
Lemma says_mono (W W' : TCPSegment -> Prop) o : (forall s, W s -> W' s) -> says W o -> says W' o.
Proof. intros H Ho i Hi. eapply comes_from_mono; [exact H|by apply Ho]. Qed.
End says.

Class FdLink (A I O : Type) {FA : FdAdapter A I O} {FS : FdAdapterSafe A I O} {FM : FdMedium A I O} : Prop := {
  link_reads a i a' s out : adapter_read a i = Ok (a', Some s, out) -> reads_as (A := A) (O := O) i s;
  link_mono (W W' : TCPSegment -> Prop) (a : A) :
    (forall s, W s -> W' s) -> adapter_holds (I := I) (O := O) W a -> adapter_holds (I := I) (O := O) W' a;
  link_read W t a i a' o out : adapter_ok t a -> adapter_input_ok i -> adapter_holds (I := I) (O := O) W a ->
    adapter_read a i = Ok (a', o, out) -> adapter_holds (I := I) (O := O) W a' /\ Forall (says (A := A) (I := I) W) out;
  link_write W t a s a' s' out : adapter_ok t a -> sendable s -> W s -> adapter_holds (I := I) (O := O) W a ->
    adapter_write a s = Ok (a', s', out) -> adapter_holds (I := I) (O := O) W a' /\ Forall (says (A := A) (I := I) W) out;
  link_tick W (a a' : A) ms out : adapter_holds (I := I) (O := O) W a -> adapter_tick a ms = (a', out) ->
    adapter_holds (I := I) (O := O) W a' /\ Forall (says (A := A) (I := I) W) out }.

(** ** UDP *)

(** The adapter looks only at the source address and the payload of a datagram. *)
#[export] Instance UDPMedium : FdMedium TCPOverUDPSocketAdapter received_datagram (Address * bytes) := {
  carries o d := rd_payload d = o.2;
  reads_as d s := TCPSegment_parse new_TCPSegment (Buffer_of (rd_payload d)) 0 = Ok (NoError, s);
  adapter_holds W u := True }.

Lemma udp_reads u d u' s : udp_read u d = Ok (u', Some s) ->
  TCPSegment_parse new_TCPSegment (Buffer_of (rd_payload d)) 0 = Ok (NoError, s).
Proof.
  unfold udp_read. intros E. destruct (_ && _); [done|]. apply rbind_ok in E as ([r seg] & -> & E). unfold pr_eqb in E.
  destruct (bool_decide_reflect (NoError = r)) as [<-|]; [|done]. cbn [negb] in E.
  repeat case_match; by simplify_eq.
Qed.

Lemma udp_says (W : TCPSegment -> Prop) u s s' d :
  base_ok (ua_base u) -> sendable s -> W s -> udp_write u s = Ok (s', d) ->
  says (A := TCPOverUDPSocketAdapter) (I := received_datagram) W d.
Proof.
  intros (ip & port & pip & pport & Hc) Hs HW E. destruct (cfg_addresses _ _ _ _ _ Hc) as (_ & _ & E3 & E4).
  unfold udp_write in E. rewrite E3, E4 in E. cbn [rbind] in E. fold (addressed port pport s) in E.
  assert (Hok : TCPSegment_ok (addressed port pport s)) by (apply addressed_ok; [by apply sendable_ok|apply Hc|apply Hc]).
  destruct (segment_wire (addressed port pport s) 0 Hok ltac:(lia)) as (l & El & Hl & _ & Hw).
  rewrite El in E. injection E as <- <-. intros i Hi s' Hr. cbn in Hi, Hr. rewrite Hi in Hr.
  destruct (Hw (Buffer_of (bl_concatenate l)) new_TCPSegment) as (s2 & E2 & H1 & H2 & _).
  { apply Buffer_of_ok. destruct (sendable_fits _ Hs) as [_ Hf]. cbn in Hl. lia. } { done. }
  rewrite E2 in Hr. injection Hr as <-. exists s. split; [done|]. by apply (addressed_content _ _ port pport).
Qed.

#[export] Instance UDPLink : FdLink TCPOverUDPSocketAdapter received_datagram (Address * bytes).
Proof.
  split.
  - intros a i a' s out E. apply rbind_ok in E as ([u o] & E & [= <- -> _]). by eapply udp_reads.
  - done.
  - intros W t a i a' o out _ _ _ E. apply rbind_ok in E as ([u o'] & _ & [= _ _ <-]). by split.
  - intros W t a s a' s' out Ha Hs HW _ E. apply rbind_ok in E as ([u d] & E & [= _ _ <-]).
    split; [done|]. constructor; [|done]. exact (udp_says W a s _ _ Ha Hs HW E).
  - intros W a a' ms out _ E. injection E as _ <-. split; [done|constructor].
Qed.

(** ** TCP in IPv4 *)

(** [d] reads as a segment of [W], once it has been parsed. *)
Definition datagram_says (W : TCPSegment -> Prop) (d : InternetDatagram) : Prop :=
  exists s, W s /\ IPv4Datagram_ok d /\
    forall b, buf_ok b -> buf_str b = bl_concatenate (ip_payload d) ->
    exists s', TCPSegment_parse new_TCPSegment b (pseudo_cksum (ip_header d)) = Ok (NoError, s') /\ same_content s s'.

Lemma datagram_says_mono (W W' : TCPSegment -> Prop) d : (forall s, W s -> W' s) -> datagram_says W d -> datagram_says W' d.
Proof. intros H (s & Hs & Hd). exists s. auto. Qed.

Lemma wrap_says (W : TCPSegment -> Prop) a s s' d :
  base_ok a -> sendable s -> W s -> wrap_tcp_in_ip a s = Ok (s', d) -> datagram_says W d.
Proof.
  intros (ip & port & pip & pport & Hc) Hs HW E.
  destruct (wrap_spec a ip port pip pport s Hc (sendable_fits s Hs)) as (d1 & E1 & Hd & _ & _ & _ & Hw).
  rewrite E in E1. injection E1 as _ <-. exists s. split; [done|]. split; [done|]. intros b Hb Hbs.
  destruct (Hw b new_TCPSegment Hb Hbs) as (s2 & E2 & H2). exists s2. split; [done|]. by eapply addressed_content.
Qed.

(** A datagram that yields a segment carries it. *)
Definition datagram_reads (d : InternetDatagram) (s : TCPSegment) : Prop :=
  exists b, bl_to_Buffer (ip_payload d) = Ok b /\
    TCPSegment_parse new_TCPSegment b (pseudo_cksum (ip_header d)) = Ok (NoError, s).

Lemma unwrap_reads a d a' s : unwrap_tcp_in_ip a d = Ok (a', Some s) -> datagram_reads d s.
Proof.
  unfold unwrap_tcp_in_ip. intros E. apply rbind_ok in E as ([] & _ & E); [done|].
  apply rbind_ok in E as ([] & _ & E); [done|]. destruct (negb _); [done|]. apply rbind_ok in E as (b & Eb & E).
  apply rbind_ok in E as ([r seg] & Er & E). unfold pr_eqb in E.
  destruct (bool_decide_reflect (NoError = r)) as [<-|]; [|done]. cbn [negb] in E.
  exists b. split; [done|]. rewrite Er. apply rbind_ok in E as (port & _ & E).
  destruct (negb _); [done|]. destruct (_ && _); [done|]. apply rbind_ok in E as (peer & _ & E).
  destruct (negb _); [done|]. by injection E as _ ->.
Qed.

(** What was serialised is parsed to a datagram that reads the same. *)
Lemma datagram_content W d l b d' s' :
  datagram_says W d -> IPv4Datagram_serialize d = Ok l -> buf_ok b -> buf_str b = bl_concatenate l ->
  IPv4Datagram_parse new_IPv4Datagram b = Ok (NoError, d') -> datagram_reads d' s' -> exists s, W s /\ same_content s s'.
Proof.
  intros (s & HW & Hd & Hr) El Hb Hbs Ed (c & Ec & Es). destruct (datagram_wire d Hd) as (l1 & El1 & _ & Hw).
  rewrite El in El1. injection El1 as <-. destruct (Hw b new_IPv4Datagram Hb Hbs) as (d1 & E1 & _ & Eh & Ep & Hd1).
  rewrite Ed in E1. injection E1 as <-. destruct (datagram_parse_one _ _ _ _ Ed) as (c1 & Ec1). rewrite Ec1 in Ec.
  injection Ec as ->. destruct Hd1 as (_ & Hall & _). rewrite Ec1 in Hall, Ep. assert (Hcb : buf_ok c) by (by inversion Hall).
  destruct (Hr c Hcb) as (s2 & E2 & H2); [rewrite <- Ep; symmetry; apply concatenate_one|].
  rewrite Eh in Es. change (pseudo_cksum (set_ip_cksum _ (ip_header d))) with (pseudo_cksum (ip_header d)) in Es.
  rewrite E2 in Es. injection Es as ->. by exists s.
Qed.

(** ** TUN *)

#[export] Instance TunMedium : FdMedium TCPOverIPv4OverTunFdAdapter bytes bytes := {
  carries o i := i = o;
  reads_as i s := exists d, IPv4Datagram_parse new_IPv4Datagram (Buffer_of i) = Ok (NoError, d) /\ datagram_reads d s;
  adapter_holds W a := True }.

Lemma tun_says (W : TCPSegment -> Prop) a s s' o :
  base_ok (ta_base a) -> sendable s -> W s -> tun_write a s = Ok (s', o) -> says (A := TCPOverIPv4OverTunFdAdapter) W o.
Proof.
  intros Ha Hs HW E. unfold tun_write in E. apply rbind_ok in E as ([x d] & Ew & E). apply rbind_ok in E as (l & El & [= _ <-]).
  pose proof (wrap_says W _ _ _ _ Ha Hs HW Ew) as Hd. intros i -> s2 (d2 & E2 & H2).
  pose proof Hd as (_ & _ & Hok & _). destruct (datagram_wire d Hok) as (l1 & El1 & Hl & _). rewrite El in El1. injection El1 as <-.
  apply (datagram_content W d l (Buffer_of (bl_concatenate l)) d2 s2); try done. apply Buffer_of_ok. lia.
Qed.

#[export] Instance TunLink : FdLink TCPOverIPv4OverTunFdAdapter bytes bytes.
Proof.
  split.
  - intros a i a' s out E. apply rbind_ok in E as ([u o] & E & [= <- -> _]). unfold tun_read in E.
    apply rbind_ok in E as ([r d] & E1 & E). unfold pr_eqb in E.
    destruct (bool_decide_reflect (r = NoError)) as [->|]; [|done]. cbn [negb] in E.
    apply rbind_ok in E as ([b seg] & E & [= _ ->]). exists d. split; [done|]. by eapply unwrap_reads.
  - done.
  - intros W t a i a' o out _ _ _ E. apply rbind_ok in E as ([u o'] & _ & [= _ _ <-]). by split.
  - intros W t a s a' s' out Ha Hs HW _ E. apply rbind_ok in E as ([u d] & E & [= _ _ <-]).
    split; [done|]. constructor; [|done]. exact (tun_says W a s _ _ Ha Hs HW E).
  - intros W a a' ms out _ E. injection E as _ <-. split; [done|constructor].
Qed.

(** ** TAP *)

(** Frames of another type than IPv4 never yield a segment. *)
#[export] Instance EthernetMedium : FdMedium TCPOverIPv4OverEthernetAdapter bytes bytes := {
  carries o i := i = o;
  reads_as i s := exists f b d, EthernetFrame_parse new_EthernetFrame (Buffer_of i) = Ok (NoError, f) /\
    eh_type (ef_header f) = TYPE_IPv4 /\ ef_payload f = [b] /\
    IPv4Datagram_parse new_IPv4Datagram b = Ok (NoError, d) /\ datagram_reads d s;
  adapter_holds W e := ni_frames_out (ea_interface e) = [] /\
    Forall (fun q => datagram_says W (dq_dgram q)) (ni_dgram_delay_queue (ea_interface e)) }.

Abbreviation frame_says W := (fun f => says (A := TCPOverIPv4OverEthernetAdapter) W (bl_concatenate (EthernetFrame_serialize f))).

Lemma ipv4_frame_says W d src dst f :
  datagram_says W d -> ea_ok src -> ea_ok dst -> ipv4_frame d src dst = Ok f -> frame_says W f.
Proof.
  intros Hd Hs Ht E. pose proof Hd as (_ & _ & Hok & _). unfold ipv4_frame in E. apply rbind_ok in E as (l & El & [= <-]).
  destruct (datagram_wire d Hok) as (l1 & El1 & Hl & _). rewrite El in El1. injection El1 as <-.
  intros i -> s' (f & b & d' & Ef & _ & Ep & Ed & Hr). set (f0 := mkEthernetFrame _ l) in Ef.
  destruct (EthernetFrame_parse_bytes f0 new_EthernetFrame) as (b1 & E1 & Hb & Hbs); [by constructor|change (zlen (bl_concatenate l) + 14 < W64); lia|].
  rewrite Ef in E1. injection E1 as ->. injection Ep as ->. by eapply datagram_content.
Qed.

Lemma arp_frame_says W m src dst : ARPMessage_ok m -> ea_ok src -> ea_ok dst -> frame_says W (arp_message_frame m src dst).
Proof.
  intros Hm Hs Ht. destruct (arp_frame_sendable m src dst Hm Hs Ht) as (_ & _ & Hl).
  destruct (EthernetFrame_parse_bytes (arp_message_frame m src dst) new_EthernetFrame) as (b & E & _); [by constructor|lia|].
  intros i -> s' (f & b' & d & Ef & Hty & _). rewrite E in Ef. injection Ef as <-. done.
Qed.

Lemma send_datagram_says W n ip d hop n' :
  ni_inv n ip -> datagram_says W d -> 0 <= hop < W32 -> send_datagram n d (inet hop) = Ok n' ->
  ni_frames_out n = [] -> Forall (fun q => datagram_says W (dq_dgram q)) (ni_dgram_delay_queue n) ->
  Forall (frame_says W) (ni_frames_out n') /\ Forall (fun q => datagram_says W (dq_dgram q)) (ni_dgram_delay_queue n').
Proof.
  intros Hn Hd Hh E Hf Hq. pose proof Hd as (_ & _ & Hok & _). pose proof Hn as [H1 _ H3 _ H5 _].
  destruct (send_datagram_spec n ip d hop Hn Hok Hh) as (n1 & E1 & _ & _ & _ & Hc). rewrite E in E1. injection E1 as <-.
  assert (Hadd : forall t, Forall (fun q => datagram_says W (dq_dgram q)) (ni_dgram_delay_queue n ++ [mkDelayed d hop t])).
  { intros t. apply Forall_app. split; [done|]. by repeat constructor. }
  destruct (ni_address_table n !! hop) as [[eth t]|] eqn:El.
  - destruct Hc as (f & Ef & ->). cbn. rewrite Hf. split; [|done]. constructor; [|done].
    destruct (H5 _ _ El) as (_ & He & _). eapply ipv4_frame_says; [exact Hd|exact H1|exact He|exact Ef].
  - destruct (request_pending n hop); subst n'; cbn; rewrite Hf; (split; [|apply Hadd]); [done|]. constructor; [|done].
    apply arp_frame_says; [by apply arp_request_ok|done|apply broadcast_ok].
Qed.

Lemma recv_frame_says W n ip f b n' r :
  ni_inv n ip -> ef_payload f = [b] -> buf_ok b -> recv_frame n f = Ok (n', r) ->
  ni_frames_out n = [] -> Forall (fun q => datagram_says W (dq_dgram q)) (ni_dgram_delay_queue n) ->
  Forall (frame_says W) (ni_frames_out n') /\ Forall (fun q => datagram_says W (dq_dgram q)) (ni_dgram_delay_queue n').
Proof.
  intros Hn Hp Hb E Hf Hq. destruct (recv_frame_spec n ip f b Hn Hp Hb) as (n1 & r1 & E1 & _ & Hc).
  rewrite E in E1. injection E1 as <- <-.
  assert (Hsame : n' = n -> Forall (frame_says W) (ni_frames_out n') /\
    Forall (fun q => datagram_says W (dq_dgram q)) (ni_dgram_delay_queue n')) by (intros ->; by rewrite Hf).
  destruct Hc as [(_ & Hc & _)|[(_ & _ & Hc & _)|(_ & _ & _ & e & m & _ & [[_ Hc]|(_ & Hm & Ea)])]]; [by apply Hsame..|].
  destruct (recv_arp_spec n ip m Hn Hm) as (n2 & fr & E2 & _ & _ & _ & Ef & Eq & Hfr). rewrite Ea in E2. injection E2 as <-.
  rewrite Ef, Eq, Hf. pose proof Hn as [H1 _ H3 _ _ _]. pose proof Hm as []. split.
  - cbn [app]. apply Forall_app. split.
    + destruct (asks_for m ip); [|done]. constructor; [|done]. by apply arp_frame_says; [apply arp_reply_ok|..].
    + apply Forall_forall. intros x Hx. apply list_elem_of_lookup in Hx as (k & Hk).
      destruct (Forall2_lookup_r _ _ _ _ _ Hfr Hk) as (y & Hy & Ey).
      apply list_elem_of_lookup_2, list_elem_of_filter in Hy as [_ Hy].
      eapply ipv4_frame_says; [exact (proj1 (Forall_forall _ _) Hq y Hy)|exact H1|exact ao_sender|exact Ey].
  - apply Forall_forall. intros y Hy. apply list_elem_of_filter in Hy as [_ Hy]. by apply (proj1 (Forall_forall _ _) Hq).
Qed.

(** What [send_pending] puts on the device. *)
Lemma send_pending_says W n : Forall (frame_says W) (ni_frames_out n) ->
  Forall (says (A := TCPOverIPv4OverEthernetAdapter) W) (send_pending n).2.
Proof. intros H. cbn. by apply Forall_fmap. Qed.

Lemma ethernet_reads e i e' s out : ethernet_read e i = Ok (e', Some s, out) ->
  reads_as (A := TCPOverIPv4OverEthernetAdapter) (O := bytes) i s.
Proof.
  intros E. unfold ethernet_read in E. apply rbind_ok in E as ([r f] & Ef & E). unfold pr_eqb in E.
  destruct (bool_decide_reflect (r = NoError)) as [->|]; [|done]. cbn [negb] in E.
  apply rbind_ok in E as ([n [d|]] & Er & E); cbn [send_pending] in E; [|done].
  apply rbind_ok in E as ([a' o] & Eu & [= _ -> _]). apply unwrap_reads in Eu.
  unfold recv_frame in Er. destruct (negb _ && negb _); [done|]. destruct (Z.eqb_spec (eh_type (ef_header f)) TYPE_IPv4) as [Ht|Ht].
  - apply rbind_ok in Er as (b & Eb & Er). apply rbind_ok in Er as ([r d'] & Ed & Er). unfold pr_eqb in Er.
    destruct (bool_decide_reflect (r = NoError)) as [->|]; [|done]. injection Er as _ ->.
    exists f, b, d. split; [done|]. split; [done|]. split; [|done].
    unfold bl_to_Buffer in Eb. revert Ef Eb. unfold EthernetFrame_parse. destruct (EthernetHeader_parse _ _) as [[v p]|]; [|done].
    cbn [rbind]. intros [= _ <-]. cbn. by intros [= <-].
  - apply rbind_ok in Er as (b & _ & Er). apply rbind_ok in Er as ([r m] & _ & Er). destruct (negb _); [done|].
    by apply rbind_ok in Er as (n1 & _ & Er).
Qed.

#[export] Instance EthernetLink : FdLink TCPOverIPv4OverEthernetAdapter bytes bytes.
Proof.
  split.
  - exact ethernet_reads.
  - intros W W' e HW [H1 H2]. split; [done|]. eapply Forall_impl; [exact H2|]. intros q. by apply datagram_says_mono.
  - intros W t e i e' o out [_ (ip & Hn) _ _] Hi [H1 H2] E. cbn in Hi, E. unfold ethernet_read in E. unfold BUFFER_SIZE in Hi.
    destruct (parsed_frame (Buffer_of i)) as (r & f & b & Ef & Ep & Hb); [apply Buffer_of_ok; lia|]. rewrite Ef in E.
    cbn [rbind] in E. destruct (negb _); [by injection E as <- _ <-|].
    apply rbind_ok in E as ([n d] & Er & E). destruct (recv_frame_says W _ ip f b n d Hn Ep Hb Er H1 H2) as [F1 F2].
    pose proof (send_pending_says W n F1) as Hout. cbn [send_pending snd] in E, Hout.
    destruct d as [d|]; [apply rbind_ok in E as ([a' seg] & _ & E)|]; by injection E as <- _ <-.
  - intros W t e s e' s' out [Hbase (ip & Hn) _ (hop & Ehop & Hhop)] Hs HW [H1 H2] E. cbn in E. unfold ethernet_write in E.
    apply rbind_ok in E as ([x d] & Ew & E). apply rbind_ok in E as (n & En & E). rewrite Ehop in En.
    pose proof (wrap_says W _ _ _ _ Hbase Hs HW Ew) as Hd.
    destruct (send_datagram_says W _ ip d hop n Hn Hd Hhop En H1 H2) as [F1 F2].
    pose proof (send_pending_says W n F1) as Hout. cbn [send_pending snd] in E, Hout. by injection E as <- _ <-.
  - intros W e e' ms out [H1 H2] E. cbn in E. unfold ethernet_tick in E. cbn [send_pending] in E. injection E as <- <-.
    cbn. rewrite H1. by repeat split.
Qed.

(** ** Losing segments *)

#[export] Instance LossyMedium {A I O R} {FM : FdMedium A I O} : FdMedium (LossyFdAdapter A R) I O := {
  carries := carries (A := A);
  reads_as := reads_as (A := A) (O := O);
  adapter_holds W l := adapter_holds (I := I) (O := O) W (lf_adapter l) }.

#[export] Instance LossyLink {A I O R} {FA : FdAdapter A I O} {FS : FdAdapterSafe A I O} {FM : FdMedium A I O}
    {FL : FdLink A I O} (rand : R -> Z * R) :
  FdLink (FA := LossyAdapter rand) (FS := LossyAdapterSafe rand) (LossyFdAdapter A R) I O.
Proof.
  split.
  - intros l i l' s out E. cbn in E. unfold lossy_read in E. apply rbind_ok in E as ([[a o] out'] & E1 & E).
    destruct (should_drop rand _ false) as [[] l1]; [done|]. injection E as _ -> _. exact (link_reads _ _ _ _ _ E1).
  - intros W W' l HW Hl. exact (link_mono (A := A) W W' _ HW Hl).
  - intros W t l i l' o out Ha Hi Hl E. cbn in E. unfold lossy_read in E. apply rbind_ok in E as ([[a o'] out'] & E1 & E).
    destruct (link_read W t _ i a o' out' Ha Hi Hl E1) as [H1 H2]. destruct (should_drop rand _ false) as [drop l1] eqn:Ed.
    destruct (should_drop_adapter rand _ _ _ _ Ed) as [Ea _]. cbn in Ea. destruct drop; injection E as <- _ <-; cbn; by rewrite Ea.
  - intros W t l s l' s' out Ha Hs HW Hl E. cbn in E. unfold lossy_write in E.
    destruct (should_drop rand l true) as [drop l1] eqn:Ed. destruct (should_drop_adapter rand _ _ _ _ Ed) as [Ea _].
    destruct drop; [injection E as <- _ <-; cbn; by rewrite Ea|]. apply rbind_ok in E as ([[a seg] out'] & E1 & E).
    injection E as <- _ <-. rewrite Ea in E1. exact (link_write W t _ s a seg out' Ha Hs HW Hl E1).
  - intros W l l' ms out Hl E. cbn in E. unfold lossy_tick in E. destruct (adapter_tick (lf_adapter l) ms) as [a out'] eqn:E1.
    injection E as <- <-. exact (link_tick W _ a ms out' Hl E1).
Qed.
