(* ===== verification/Socket.v ===== *)
(** * Sockets and devices

    [libsponge/util/socket.hh] and [.cc], [libsponge/util/tun.hh] and [.cc], the
    wrapper of system calls of [libsponge/util/util.cc] and
    [FileDescriptor::set_blocking].  A socket is the [FDWrapper] of its
    descriptor; what a system call answers is an argument, [None] when it
    failed. *)
From S2P Require Import Prelude Buffer Parser Address FileDescriptor Adapters.

(** [SystemCall]: the value, unless it is negative and [errno] is not the one
    that is acceptable. *)
Definition SystemCall (return_value errno errno_mask : Z) : result Z :=
  if (0 <=? return_value) || (errno =? errno_mask) then Ok return_value else Err runtime_error.

(** The calls that only succeed or fail; no [errno] is zero. *)
Definition syscall_ok (ok : bool) : result unit :=
  let* _ := SystemCall (if ok then 0 else -1) 1 0 in Ok tt.

Definition AF_UNIX : Z := 1.
Definition SOCK_STREAM : Z := 1.
Definition SOCK_DGRAM : Z := 2.
Definition SHUT_RD : Z := 0.
Definition SHUT_WR : Z := 1.
Definition SHUT_RDWR : Z := 2.
Definition sizeof_int : Z := 4.

(** [Socket(domain, type)]: [fd] is what [socket(2)] returned. *)
Definition Socket_new (fd errno : Z) : result FDWrapper :=
  let* fd := SystemCall fd errno 0 in new_FDWrapper fd.

(** [getsockopt] fills in a value and its length. *)
Definition check_option (answer : option (Z * Z)) (expected : Z) : result unit :=
  match answer with
  | None => Err runtime_error
  | Some (actual_value, len) =>
      if negb (len =? sizeof_int) || negb (actual_value =? expected) then Err runtime_error else Ok tt
  end.

(** [Socket(fd, domain, type)]. *)
Definition Socket_of_fd (w : FDWrapper) (domain type : Z) (so_domain so_type : option (Z * Z)) : result FDWrapper :=
  let* _ := check_option so_domain domain in
  let* _ := check_option so_type type in
  Ok w.

Definition UDPSocket_of_fd (w : FDWrapper) := Socket_of_fd w AF_INET SOCK_DGRAM.
Definition TCPSocket_of_fd (w : FDWrapper) := Socket_of_fd w AF_INET SOCK_STREAM.
Definition LocalStreamSocket_of_fd (w : FDWrapper) := Socket_of_fd w AF_UNIX SOCK_STREAM.

(** [get_address]: what [getsockname] or [getpeername] filled in. *)
Definition get_address (answer : option (sockaddr * Z)) : result Address :=
  match answer with
  | None => Err runtime_error
  | Some (address, size) => Address_of_sockaddr address size
  end.

(** [bind], [connect], [listen] and [set_reuseaddr] leave the object alone. *)
Definition Socket_bind (w : FDWrapper) (address : Address) (ok : bool) : result FDWrapper :=
  let* _ := syscall_ok ok in Ok w.
Definition Socket_connect (w : FDWrapper) (address : Address) (ok : bool) : result FDWrapper :=
  let* _ := syscall_ok ok in Ok w.
Definition TCPSocket_listen (w : FDWrapper) (backlog : Z) (ok : bool) : result FDWrapper :=
  let* _ := syscall_ok ok in Ok w.
Definition set_reuseaddr (w : FDWrapper) (ok : bool) : result FDWrapper :=
  let* _ := syscall_ok ok in Ok w.

Definition Socket_shutdown (w : FDWrapper) (how : Z) (ok : bool) : result FDWrapper :=
  let* _ := syscall_ok ok in
  if how =? SHUT_RD then Ok (register_read w)
  else if how =? SHUT_WR then Ok (register_write w)
  else if how =? SHUT_RDWR then Ok (register_write (register_read w))
  else Err runtime_error.

(** [accept] counts as a read whether or not it succeeds. *)
Definition TCPSocket_accept (w : FDWrapper) (fd errno : Z) (so_domain so_type : option (Z * Z))
    : FDWrapper * result FDWrapper :=
  (register_read w,
   let* fd := SystemCall fd errno 0 in
   let* s := new_FDWrapper fd in
   TCPSocket_of_fd s so_domain so_type).

(** ** Datagrams *)

(** [recv]: the kernel hands over the datagram [data], of which it copies no more
    than fits; with [MSG_TRUNC] it returns the whole length. *)
Definition UDPSocket_recv (w : FDWrapper) (datagram : received_datagram) (mtu : Z)
    (answer : option (bytes * sockaddr * Z)) : result (FDWrapper * received_datagram) :=
  let payload := resize (rd_payload datagram) mtu in
  match answer with
  | None => Err runtime_error
  | Some (data, source, fromlen) =>
      let payload := ztake mtu data ++ zdrop (zlen data) payload in
      let recv_len := zlen data in
      if mtu <? recv_len then Err runtime_error
      else
        let w := register_read w in
        let* source_address := Address_of_sockaddr source fromlen in
        Ok (w, mkReceivedDatagram source_address (resize payload recv_len))
  end.

(** [recv(mtu)] starts from an empty datagram. *)
Definition UDPSocket_recv_new (w : FDWrapper) (mtu : Z) (answer : option (bytes * sockaddr * Z)) :=
  UDPSocket_recv w (mkReceivedDatagram (mkAddress 0 (mkSockaddr 0 [])) []) mtu answer.

Definition sendmsg_helper (payload : BufferViewList) (sent : option Z) : result unit :=
  match sent with
  | None => Err runtime_error
  | Some bytes_sent => if negb (u64 bytes_sent =? bvl_size payload) then Err runtime_error else Ok tt
  end.

(** The message goes out with the destination, if there is one. *)
Definition UDPSocket_sendto (w : FDWrapper) (destination : Address) (payload : BufferViewList) (sent : option Z)
    : result (FDWrapper * (Address * bytes)) :=
  let* _ := sendmsg_helper payload sent in Ok (register_write w, (destination, concat payload)).
Definition UDPSocket_send (w : FDWrapper) (payload : BufferViewList) (sent : option Z) : result (FDWrapper * bytes) :=
  let* _ := sendmsg_helper payload sent in Ok (register_write w, concat payload).

(** ** Non-blocking descriptors *)

Definition O_NONBLOCK : Z := 2048.

(** [set_blocking]: [flags] is the answer of the first [fcntl], [setfl] that of
    the second to the flags it is given; the result is the flags then set. *)
Definition set_blocking (blocking_state : bool) (flags : option Z) (setfl : Z -> bool) : result Z :=
  match flags with
  | None => Err runtime_error
  | Some flags =>
      let flags := if blocking_state then Z.lxor flags (Z.land flags O_NONBLOCK) else Z.lor flags O_NONBLOCK in
      let* _ := syscall_ok (setfl flags) in
      Ok flags
  end.

(** ** TUN and TAP devices *)

Definition IFF_TUN : Z := 1.
Definition IFF_TAP : Z := 2.
Definition IFF_NO_PI : Z := 4096.
Definition IFNAMSIZ : Z := 16.

Record ifreq : Type := mkIfreq { ifr_name : bytes; ifr_flags : Z }.

(** [strncpy] copies up to the first null byte and fills up with zeros. *)
Fixpoint c_string (s : bytes) : bytes :=
  match s with
  | [] => []
  | b :: s => if bool_decide (b = x00) then [] else b :: c_string s
  end.

Definition strncpy (s : bytes) (n : Z) : bytes := resize (ztake n (c_string s)) n.

(** The request of the constructor of [TunTapFD]: its last byte is set to zero. *)
Definition tun_request (devname : bytes) (is_tun : bool) : ifreq :=
  mkIfreq (strncpy devname (IFNAMSIZ - 1) ++ [x00]) (Z.lor (if is_tun then IFF_TUN else IFF_TAP) IFF_NO_PI).

Definition TunTapFD_new (devname : bytes) (is_tun : bool) (fd errno : Z) (ioctl : ifreq -> bool) : result FDWrapper :=
  let* fd := SystemCall fd errno 0 in
  let* w := new_FDWrapper fd in
  let* _ := syscall_ok (ioctl (tun_request devname is_tun)) in
  Ok w.

(** ** Properties *)

Lemma UDPSocket_recv_eq w d mtu data source fromlen :
  0 <= mtu -> 0 <= fromlen <= sizeof_sockaddr_storage ->
  UDPSocket_recv w d mtu (Some (data, source, fromlen)) =
    if zlen data <=? mtu then
      Ok (register_read w,
          mkReceivedDatagram (mkAddress fromlen (mkSockaddr (sa_family source) (ztake (fromlen - 2) (sa_data source)))) data)
    else Err runtime_error.
Proof.
  intros Hm Hf. unfold UDPSocket_recv. destruct (Z.leb_spec (zlen data) mtu) as [Hle|Hgt]; zcase; try lia; [|done].
  unfold Address_of_sockaddr. destruct (Z.ltb_spec sizeof_sockaddr_storage fromlen); [lia|]. cbn [rbind].
  do 3 f_equal. unfold resize at 1. rewrite (ztake_all mtu) by done. rewrite ztake_app_len, zlen_app. zpos.
  replace (Z.to_nat _) with 0%nat by lia. cbn [repeat]. by rewrite app_nil_r.
Qed.

(** Receiving is exact.  A datagram that fits in the buffer is returned byte for
    byte, whatever was in the buffer, and counted as one read; a larger one is
    never returned cut short but throws. *)
Theorem udp_recv_exact w d mtu data source fromlen :
  0 <= mtu -> 0 <= fromlen <= sizeof_sockaddr_storage ->
  UDPSocket_recv w d mtu (Some (data, source, fromlen)) =
    if zlen data <=? mtu then
      Ok (register_read w,
          mkReceivedDatagram (mkAddress fromlen (mkSockaddr (sa_family source) (ztake (fromlen - 2) (sa_data source)))) data)
    else Err runtime_error.
Proof. apply UDPSocket_recv_eq. Qed.

Lemma udp_recv_exact_witness :
  UDPSocket_recv_new (mkFDWrapper 3 false false 0 0) 2 (Some ([x61; x62; x63], sockaddr_in 1, 16)) = Err runtime_error.
Proof.
  unfold UDPSocket_recv_new. rewrite udp_recv_exact; [reflexivity|lia|].
  split; [lia|unfold sizeof_sockaddr_storage; lia].
Defined.

(** Sending is all or nothing: [sendto] returns only when the kernel took the
    whole datagram. *)
Lemma sendto_all w dst payload sent w' m :
  UDPSocket_sendto w dst payload sent = Ok (w', m) ->
  (exists n, sent = Some n /\ u64 n = bvl_size payload) /\ m = (dst, concat payload) /\ w' = register_write w.
Proof.
  unfold UDPSocket_sendto, sendmsg_helper. destruct sent as [n|]; [|done].
  destruct (Z.eqb_spec (u64 n) (bvl_size payload)); cbn [negb rbind]; [|done]. intros [= <- <-]. eauto.
Qed.

(** [set_blocking] changes the non-blocking flag and no other. *)
Theorem set_blocking_bit b flags setfl flags' i :
  0 <= i -> set_blocking b (Some flags) setfl = Ok flags' ->
  Z.testbit flags' i = if i =? 11 then negb b else Z.testbit flags i.
Proof.
  intros Hi E. unfold set_blocking in E. apply rbind_ok in E as (u & _ & [= <-]). assert (Hbit : Z.testbit O_NONBLOCK i = (i =? 11)).
  { change O_NONBLOCK with (2 ^ 11). rewrite Z.pow2_bits_eqb by lia. apply Z.eqb_sym. }
  destruct b; rewrite ?Z.lxor_spec, ?Z.lor_spec, ?Z.land_spec, Hbit.
  - destruct (i =? 11); rewrite ?andb_true_r, ?andb_false_r; [apply xorb_nilpotent|apply xorb_false_r].
  - destruct (i =? 11); [apply orb_true_r|apply orb_false_r].
Qed.

Lemma set_blocking_bit_witness : Z.testbit 2 1 = true /\ set_blocking true (Some 2050) (fun _ => true) = Ok 2.
Proof. split; [exact (set_blocking_bit true 2050 (fun _ => true) 2 1 ltac:(lia) eq_refl)|reflexivity]. Defined.

Lemma c_string_pad s n : c_string (s ++ repeat x00 n) = c_string s.
Proof. induction s as [|b s IH]; cbn; [by destruct n|]. case_bool_decide; [done|]. by rewrite IH. Qed.

Lemma c_string_idem s n : c_string (ztake n (c_string s)) = ztake n (c_string s).
Proof.
  unfold ztake. generalize (Z.to_nat n). intros k. revert k.
  induction s as [|b s IH]; intros k; cbn [c_string]; [by destruct k|].
  case_bool_decide as Eb; [by destruct k|]. destruct k; [done|]. cbn [take c_string].
  rewrite bool_decide_eq_false_2 by done. by rewrite IH.
Qed.

(** The name in the request of a device: sixteen bytes, zero-terminated, and read
    as a C string at most fifteen bytes of the name that was asked for. *)
Theorem tun_request_name devname is_tun :
  zlen (ifr_name (tun_request devname is_tun)) = IFNAMSIZ /\
  last (ifr_name (tun_request devname is_tun)) = Some x00 /\
  c_string (ifr_name (tun_request devname is_tun)) = ztake 15 (c_string devname).
Proof.
  assert (Hl : zlen (strncpy devname 15) = 15).
  { unfold strncpy. rewrite resize_pad; [|rewrite zlen_ztake; lia].
    rewrite zlen_app, zlen_repeat; [lia|]. rewrite zlen_ztake by lia. lia. }
  unfold tun_request. cbn [ifr_name]. change (IFNAMSIZ - 1) with 15. split; [by rewrite zlen_app, Hl|].
  split; [apply last_snoc|]. unfold strncpy. rewrite resize_pad by (rewrite zlen_ztake by lia; lia).
  rewrite <- app_assoc. change [x00] with (repeat x00 1). rewrite <- repeat_app, c_string_pad. apply c_string_idem.
Qed.
