(* ===== verification/EventLoop.v ===== *)
(** * The event loop

    [libsponge/util/eventloop.hh] and [.cc].  The closures of the rules act on a
    state [S] of the program that uses the loop; its rules are the elements of a
    type [T], and [RuleSet] says what the closures of each are.  [poll(2)] is an
    argument: its answer to the descriptors it is given in a state. *)
From S2P Require Import Prelude Buffer FileDescriptor.

Inductive Direction : Type := In | Out.
#[global] Instance Direction_eq_dec : EqDecision Direction.
Proof. solve_decision. Defined.

Definition POLLIN : Z := 1.
Definition POLLOUT : Z := 4.
Definition POLLERR : Z := 8.
Definition POLLHUP : Z := 16.
Definition POLLNVAL : Z := 32.

Definition direction_events (d : Direction) : Z := match d with In => POLLIN | Out => POLLOUT end.

Class RuleSet (T S : Type) : Type := {
  rule_fd : T -> S -> FDWrapper;
  rule_direction : T -> Direction;
  rule_callback : T -> S -> result S;
  rule_interest : T -> S -> bool;
  rule_cancel : T -> S -> result S }.

(** [Result]. *)
Inductive LoopResult : Type := Success | Timeout | Exit.

Record pollfd : Type := mkPollfd { pf_fd : Z; pf_events : Z; pf_revents : Z }.

(** [poll] fails, interrupted by a signal or for another reason, or returns the
    number of descriptors with events and fills in [revents]. *)
Inductive poll_answer : Type :=
  | PollFailed (interrupted : bool)
  | Polled (n : Z) (revents : list Z).

Section eventloop.
Context {T S : Type} `{RuleSet T S}.

Definition add_rule (rules : list T) (t : T) : list T := rules ++ [t].

Definition service_count (t : T) (s : S) : Z :=
  match rule_direction t with
  | In => fd_read_count (rule_fd t s)
  | Out => fd_write_count (rule_fd t s)
  end.

(** Whether the set-up drops a rule. *)
Definition rule_over (t : T) (s : S) : bool :=
  bool_decide (rule_direction t = In) && fd_eof (rule_fd t s) || fd_closed (rule_fd t s).

(** The loop that sets up a [pollfd] for each rule: the rules left, their
    [pollfd]s and whether there is something to poll. *)
Fixpoint setup (rules : list T) (s : S) : result (list T * list pollfd * bool * S) :=
  match rules with
  | [] => Ok ([], [], false, s)
  | t :: rules =>
      if rule_over t s then
        let* s := rule_cancel t s in
        setup rules s
      else
        let interested := rule_interest t s in
        let p := mkPollfd (fd_num (rule_fd t s)) (if interested then direction_events (rule_direction t) else 0) 0 in
        let* (x, s) := setup rules s in
        let '(rules, pollfds, something_to_poll) := x in
        Ok (t :: rules, p :: pollfds, interested || something_to_poll, s)
  end.

Definition set_revents (pollfds : list pollfd) (revents : list Z) : list pollfd :=
  zip_with (fun p r => mkPollfd (pf_fd p) (pf_events p) r) pollfds revents.

(** The loop through the results of [poll]; the index never passes the end of
    the vector, see [setup_length]. *)
Fixpoint scan (rules : list T) (pollfds : list pollfd) (s : S) : result (list T * S) :=
  match rules, pollfds with
  | [], _ => Ok ([], s)
  | _ :: _, [] => Err undefined_behaviour
  | t :: rules, p :: pollfds =>
      if negb (Z.land (pf_revents p) (Z.lor POLLERR POLLNVAL) =? 0) then Err runtime_error
      else
        let poll_ready := negb (Z.land (pf_revents p) (pf_events p) =? 0) in
        let poll_hup := negb (Z.land (pf_revents p) POLLHUP =? 0) in
        if poll_hup && negb (pf_events p =? 0) && negb poll_ready then
          let* s := rule_cancel t s in
          scan rules pollfds s
        else
          let* s :=
            if poll_ready then
              let count_before := service_count t s in
              let* s := rule_callback t s in
              if (count_before =? service_count t s) && rule_interest t s then Err runtime_error else Ok s
            else Ok s in
          let* (rules, s) := scan rules pollfds s in
          Ok (t :: rules, s)
  end.

Definition wait_next_event (rules : list T) (s : S) (poll : S -> list pollfd -> poll_answer)
    : result (LoopResult * list T * S) :=
  let* (x, s) := setup rules s in
  let '(rules, pollfds, something_to_poll) := x in
  if negb something_to_poll then Ok (Exit, rules, s)
  else
    match poll s pollfds with
    | PollFailed true => Ok (Exit, rules, s)
    | PollFailed false => let* (rules, s) := scan rules pollfds s in Ok (Success, rules, s)
    | Polled n revents =>
        if n =? 0 then Ok (Timeout, rules, s)
        else let* (rules, s) := scan rules (set_revents pollfds revents) s in Ok (Success, rules, s)
    end.

(** ** What a client has to provide *)

(** How a client is seen.  [v_inv] is an invariant of its state.  [v_wanted t] is
    what the interest of [t] says, [v_ready t] what the kernel says when the
    descriptor of [t] is ready, [v_hung_up t] what a hang-up there means, and
    [v_gone t] what holds once [t] was cancelled.  [v_fails t s e] says that the
    callback of [t] may throw [e] in the state [s]. *)
Record view : Type := mkView {
  v_inv : S -> Prop;
  v_wanted : T -> S -> Prop;
  v_ready : T -> S -> Prop;
  v_hung_up : T -> S -> Prop;
  v_gone : T -> S -> Prop;
  v_fails : T -> S -> failure -> Prop }.

(** What holds between a state and a later one. *)
Definition keeps (V : view) (s s' : S) : Prop :=
  (forall t, v_gone V t s -> v_gone V t s') /\ (forall t, v_hung_up V t s -> v_hung_up V t s').

(** What is known of [t] in a state is still known in a later one. *)
Definition stands (V : view) (t : T) (s s' : S) : Prop :=
  (v_wanted V t s -> v_wanted V t s') /\ (v_ready V t s -> v_ready V t s').

(** The callbacks do what the documentation of the loop asks of them: they read
    or write their descriptor or end their interest. *)
Record contract (V : view) : Prop := {
  ct_wanted t s : v_inv V s -> rule_interest t s = true -> v_wanted V t s;
  ct_cancel t s : v_inv V s -> rule_over t s = true \/ v_hung_up V t s ->
    exists s', rule_cancel t s = Ok s' /\ v_inv V s' /\ v_gone V t s' /\ keeps V s s' /\
      (forall t', stands V t' s s');
  ct_callback t s : v_inv V s -> v_wanted V t s -> v_ready V t s ->
    match rule_callback t s with
    | Ok s' => v_inv V s' /\ (service_count t s' <> service_count t s \/ rule_interest t s' = false) /\
        keeps V s s' /\ (forall t', t' <> t -> stands V t' s s')
    | Err e => v_fails V t s e
    end }.

(** The kernel reports an event for each descriptor, no errors, a ready
    descriptor only when it is and a hang-up only when there is one. *)
Definition poll_reports (V : view) (rules : list T) (pollfds : list pollfd) (s : S) : Prop :=
  Forall2 (fun t p => Z.land (pf_revents p) (Z.lor POLLERR POLLNVAL) = 0 /\
    (Z.land (pf_revents p) (pf_events p) <> 0 -> v_ready V t s) /\
    (Z.land (pf_revents p) POLLHUP <> 0 -> pf_events p <> 0 -> Z.land (pf_revents p) (pf_events p) = 0 ->
       v_hung_up V t s)) rules pollfds.

(** The callbacks that the loop through the results calls: [scan_calls rules
    pollfds s t s'] says that the loop, started in [s], calls the callback of
    [t] in the state [s'], whatever comes of it. *)
Inductive scan_calls : list T -> list pollfd -> S -> T -> S -> Prop :=
  | sc_here t rules p pollfds s :
      Z.land (pf_revents p) (Z.lor POLLERR POLLNVAL) = 0 -> Z.land (pf_revents p) (pf_events p) <> 0 ->
      scan_calls (t :: rules) (p :: pollfds) s t s
  | sc_called t rules p pollfds s s1 t' s' :
      Z.land (pf_revents p) (Z.lor POLLERR POLLNVAL) = 0 -> Z.land (pf_revents p) (pf_events p) <> 0 ->
      rule_callback t s = Ok s1 -> scan_calls rules pollfds s1 t' s' ->
      scan_calls (t :: rules) (p :: pollfds) s t' s'
  | sc_cancelled t rules p pollfds s s1 t' s' :
      Z.land (pf_revents p) (Z.lor POLLERR POLLNVAL) = 0 -> Z.land (pf_revents p) (pf_events p) = 0 ->
      Z.land (pf_revents p) POLLHUP <> 0 -> pf_events p <> 0 ->
      rule_cancel t s = Ok s1 -> scan_calls rules pollfds s1 t' s' ->
      scan_calls (t :: rules) (p :: pollfds) s t' s'
  | sc_passed t rules p pollfds s t' s' :
      Z.land (pf_revents p) (Z.lor POLLERR POLLNVAL) = 0 -> Z.land (pf_revents p) (pf_events p) = 0 ->
      Z.land (pf_revents p) POLLHUP = 0 \/ pf_events p = 0 ->
      scan_calls rules pollfds s t' s' ->
      scan_calls (t :: rules) (p :: pollfds) s t' s'.

(** The callbacks that [wait_next_event] calls: the set-up left something to
    poll, [poll] reported events, and the loop through them makes the call. *)
Definition wait_calls (rules : list T) (s : S) (poll : S -> list pollfd -> poll_answer) (t : T) (s' : S) : Prop :=
  exists rules' pollfds s1 n revents, setup rules s = Ok (rules', pollfds, true, s1) /\
    poll s1 pollfds = Polled n revents /\ n <> 0 /\ scan_calls rules' (set_revents pollfds revents) s1 t s'.

(** A computation that throws only what a callback it calls throws, where the
    client says that it may. *)
Definition yields_or_fails {A} (V : view) (calls : T -> S -> Prop) (m : result A) (Q : A -> Prop) : Prop :=
  match m with
  | Ok x => Q x
  | Err e => exists t s, calls t s /\ v_inv V s /\ v_fails V t s e /\ rule_callback t s = Err e
  end.

Lemma yields_or_fails_bind {A B} (V : view) calls1 calls2 (m : result A) (k : A -> result B) Q R :
  yields_or_fails V calls1 m Q -> (forall t s, calls1 t s -> calls2 t s) ->
  (forall x, m = Ok x -> Q x -> yields_or_fails V calls2 (k x) R) ->
  yields_or_fails V calls2 (let* x := m in k x) R.
Proof. destruct m; cbn; [auto|]. intros (t & s & H1 & H2) Hc _. exists t, s. auto. Qed.

Lemma setup_length rules : forall s rules' pollfds b s',
  setup rules s = Ok (rules', pollfds, b, s') -> length pollfds = length rules'.
Proof.
  induction rules as [|t rules IH]; intros s rules' pollfds b s'; cbn [setup]; [by intros [= <- <- _ _]|].
  destruct (rule_over t s).
  - intros E. apply rbind_ok in E as (s1 & _ & E). eauto.
  - intros E. apply rbind_ok in E as ([[[r p] b'] s1] & E & [= <- <- _ _]). cbn. f_equal. eauto.
Qed.

(** A rule is polled for its direction or for nothing. *)
Lemma setup_events rules : forall s rules' pollfds b s',
  setup rules s = Ok (rules', pollfds, b, s') ->
  Forall2 (fun t p => pf_events p = 0 \/ pf_events p = direction_events (rule_direction t)) rules' pollfds.
Proof.
  induction rules as [|t rules IH]; intros s rules' pollfds b s'; cbn [setup]; [intros [= <- <- _ _]; constructor|].
  destruct (rule_over t s); intros E.
  - apply rbind_ok in E as (s1 & _ & E). eauto.
  - apply rbind_ok in E as ([[[r p] b'] s1] & E & [= <- <- _ _]). constructor; [|by eapply IH].
    cbn [pf_events]. destruct (rule_interest t s); auto.
Qed.

Section contract.
Context (V : view) (Hct : contract V).

Lemma keeps_refl s : keeps V s s.
Proof. by split. Qed.
Lemma keeps_trans s1 s2 s3 : keeps V s1 s2 -> keeps V s2 s3 -> keeps V s1 s3.
Proof. intros [H1 H2] [H3 H4]. split; auto. Qed.
Lemma stands_trans t s1 s2 s3 : stands V t s1 s2 -> stands V t s2 s3 -> stands V t s1 s3.
Proof. intros [H1 H2] [H3 H4]. split; auto. Qed.

(** The rules left, and what is known of those that are not. *)
Definition accounted (rules rules' : list T) (s : S) : Prop :=
  rules' `sublist_of` rules /\ forall t, t ∈ rules -> t ∈ rules' \/ v_gone V t s.

Lemma accounted_nil s : accounted [] [] s.
Proof. split; [constructor|]. intros t Ht. by apply elem_of_nil in Ht. Qed.
Lemma accounted_skip t rules rules' s s' :
  accounted rules rules' s' -> v_gone V t s -> keeps V s s' -> accounted (t :: rules) rules' s'.
Proof.
  intros [Hs Ha] Hg [Hk _]. split; [by constructor|]. intros t' Ht. apply elem_of_cons in Ht as [->|Ht]; auto.
Qed.
Lemma accounted_cons t rules rules' s :
  accounted rules rules' s -> accounted (t :: rules) (t :: rules') s.
Proof.
  intros [Hs Ha]. split; [by constructor|]. intros t' Ht. apply elem_of_cons in Ht as [->|Ht]; [left; by left|].
  destruct (Ha t' Ht); [left; by right|by right].
Qed.
Lemma accounted_trans r1 r2 r3 s s' :
  accounted r1 r2 s -> accounted r2 r3 s' -> keeps V s s' -> accounted r1 r3 s'.
Proof.
  intros [H1 H2] [H3 H4] [Hk _]. split; [by transitivity r2|]. intros t Ht. destruct (H2 t Ht); auto.
Qed.

(** A rule with events was interested when the set-up looked at it. *)
Definition wanting (rules : list T) (pollfds : list pollfd) (s : S) : Prop :=
  Forall2 (fun t p => pf_events p <> 0 -> v_wanted V t s) rules pollfds.

Lemma setup_spec rules : forall s, v_inv V s ->
  exists rules' pollfds b s', setup rules s = Ok (rules', pollfds, b, s') /\ v_inv V s' /\ keeps V s s' /\
    (forall t, stands V t s s') /\ wanting rules' pollfds s' /\
    accounted rules rules' s' /\ Forall (fun p => pf_revents p = 0) pollfds.
Proof.
  induction rules as [|t rules IH]; intros s Hs; cbn [setup].
  { exists [], [], false, s. split; [done|]. split; [done|]. split; [apply keeps_refl|].
    split; [done|]. split; [constructor|]. split; [apply accounted_nil|constructor]. }
  destruct (rule_over t s) eqn:Eo.
  - destruct (ct_cancel _ Hct t s Hs (or_introl Eo)) as (s1 & -> & Hs1 & Hg & Hk & Hst). cbn [rbind].
    destruct (IH s1 Hs1) as (r & p & b & s2 & -> & Hs2 & Hk2 & Hst2 & Hw & Ha & Hp).
    exists r, p, b, s2. split; [done|]. split; [done|]. split; [by eapply keeps_trans|].
    split; [intros t'; by eapply stands_trans|]. split; [done|]. split; [by eapply accounted_skip|done].
  - destruct (IH s Hs) as (r & p & b & s2 & -> & Hs2 & Hk2 & Hst & Hw & Ha & Hp). cbn [rbind].
    eexists _, _, _, s2. split; [done|]. split; [done|]. split; [done|]. split; [done|].
    split; [|split; [by apply accounted_cons|by constructor]]. constructor; [|done]. cbn [pf_events].
    destruct (rule_interest t s) eqn:Ei; [|done]. intros _. by apply Hst, (ct_wanted _ Hct).
Qed.

Lemma poll_reports_cancel rules pollfds s s' :
  poll_reports V rules pollfds s -> keeps V s s' -> (forall t, stands V t s s') -> poll_reports V rules pollfds s'.
Proof.
  intros Hp [_ Hk] Hst. eapply Forall2_impl; [exact Hp|]. intros t p (H1 & H2 & H3). split; [done|].
  split; [|auto]. intros E. by apply Hst, H2.
Qed.

Lemma wanting_cancel rules pollfds s s' :
  wanting rules pollfds s -> (forall t, stands V t s s') -> wanting rules pollfds s'.
Proof. intros Hw Hst. eapply Forall2_impl; [exact Hw|]. intros t p H1 E. by apply Hst, H1. Qed.

(** After the callback of [t] both hold of the rules other than [t]. *)
Lemma reports_callback t rules pollfds s s' :
  poll_reports V rules pollfds s -> wanting rules pollfds s -> t ∉ rules -> keeps V s s' ->
  (forall t', t' <> t -> stands V t' s s') ->
  poll_reports V rules pollfds s' /\ wanting rules pollfds s'.
Proof.
  intros Hp Hw Ht [_ Hk] Hst. revert Hw Ht. induction Hp as [|t' p rules pollfds (H1 & H2 & H3) Hp IH]; intros Hw Ht.
  { split; constructor. }
  inversion Hw; subst. apply not_elem_of_cons in Ht as [Hne Ht]. destruct IH as [IH1 IH2]; [done|done|].
  assert (Hne' : t' <> t) by congruence. specialize (Hst t' Hne') as [Hst1 Hst2].
  split; constructor; auto 6.
Qed.

Lemma scan_spec rules : forall pollfds s, NoDup rules -> v_inv V s ->
  poll_reports V rules pollfds s -> wanting rules pollfds s ->
  yields_or_fails V (scan_calls rules pollfds s) (scan rules pollfds s)
    (fun x => v_inv V x.2 /\ keeps V s x.2 /\ accounted rules x.1 x.2).
Proof.
  induction rules as [|t rules IH]; intros pollfds s Hnd Hs Hp Hw.
  { split; [done|]. split; [apply keeps_refl|apply accounted_nil]. }
  inversion Hp as [|? p ? pollfds' (He & Hr & Hh) Hp']; subst. inversion Hw as [|? ? ? ? Hwt Hw']; subst.
  apply NoDup_cons in Hnd as [Hnt Hnd]. cbn [scan]. rewrite He, Z.eqb_refl. cbn [negb].
  destruct (Z.eqb_spec (Z.land (pf_revents p) (pf_events p)) 0) as [Ez|Ez]; cbn [negb]; rewrite ?andb_false_r, ?andb_true_r.
  - destruct (negb (Z.land (pf_revents p) POLLHUP =? 0) && negb (pf_events p =? 0)) eqn:Eh.
    + apply andb_true_iff in Eh as [E1 E2]. apply negb_true_iff, Z.eqb_neq in E1, E2.
      destruct (ct_cancel _ Hct t s Hs (or_intror (Hh E1 E2 Ez))) as (s1 & Ec & Hs1 & Hg & Hk & Hst). rewrite Ec. cbn [rbind].
      assert (HI := IH pollfds' s1 Hnd Hs1 (poll_reports_cancel _ _ _ _ Hp' Hk Hst) (wanting_cancel _ _ _ _ Hw' Hst)).
      destruct (scan rules pollfds' s1) as [[r s2]|]; cbn in *.
      * destruct HI as (Hs2 & Hk2 & Ha). split; [done|]. split; [by eapply keeps_trans|by eapply accounted_skip].
      * destruct HI as (t' & s' & Hc & HI). exists t', s'. split; [by eapply sc_cancelled|done].
    + assert (Hpass : Z.land (pf_revents p) POLLHUP = 0 \/ pf_events p = 0)
        by (apply andb_false_iff in Eh as [Eh|Eh]; apply negb_false_iff, Z.eqb_eq in Eh; auto).
      cbn [rbind]. eapply yields_or_fails_bind; [exact (IH pollfds' s Hnd Hs Hp' Hw')|by intros; apply sc_passed|].
      intros [r s2] _ (Hs2 & Hk2 & Ha). split; [done|]. split; [done|by apply accounted_cons].
  - assert (Hne : pf_events p <> 0) by (intros Ep; rewrite Ep, Z.land_0_r in Ez; done).
    pose proof (ct_callback _ Hct t s Hs (Hwt Hne) (Hr Ez)) as Hc.
    destruct (rule_callback t s) as [s1|e] eqn:Ec; cbn [rbind].
    2:{ exists t, s. split; [by apply sc_here|done]. }
    destruct Hc as (Hs1 & Hbusy & Hk & Hst).
    destruct ((service_count t s =? service_count t s1) && rule_interest t s1) eqn:Eb; cbn [rbind].
    { exfalso. apply andb_true_iff in Eb as [Eb1 Eb2]. apply Z.eqb_eq in Eb1. destruct Hbusy; congruence. }
    destruct (reports_callback t _ _ _ _ Hp' Hw' Hnt Hk Hst) as [Hp1 Hw1].
    eapply yields_or_fails_bind; [exact (IH pollfds' s1 Hnd Hs1 Hp1 Hw1)|by intros; eapply sc_called|].
    intros [r s2] _ (Hs2 & Hk2 & Ha). split; [done|]. split; [by eapply keeps_trans|by apply accounted_cons].
Qed.

(** Nothing is called when there are no events. *)
Lemma scan_silent rules : forall pollfds s, Forall (fun p => pf_revents p = 0) pollfds ->
  length pollfds = length rules -> scan rules pollfds s = Ok (rules, s).
Proof.
  induction rules as [|t r IH]; intros [|p pollfds] s Hp Hl; try done.
  inversion Hp as [|? ? E Hp']; subst. cbn [scan]. rewrite E, !Z.land_0_l, Z.eqb_refl.
  cbn [negb andb rbind]. rewrite IH by (done || by injection Hl). done.
Qed.

(** The kernel keeps its side of [poll]. *)
Definition poll_honest (rules : list T) (s : S) (poll : S -> list pollfd -> poll_answer) : Prop :=
  forall rules' pollfds s', setup rules s = Ok (rules', pollfds, true, s') ->
    match poll s' pollfds with
    | PollFailed _ => True
    | Polled n revents => n = 0 \/ poll_reports V rules' (set_revents pollfds revents) s'
    end.

Lemma wanting_revents rules pollfds s : forall revents,
  wanting rules pollfds s -> length rules = length (set_revents pollfds revents) ->
  wanting rules (set_revents pollfds revents) s.
Proof.
  intros revents Hw. revert revents. induction Hw as [|t p rules pollfds H1 Hw IH]; intros [|r revents] Hl; try done;
    try by constructor.
  constructor; [done|]. apply IH. by injection Hl.
Qed.

Lemma wait_spec rules s poll : NoDup rules -> v_inv V s -> poll_honest rules s poll ->
  yields_or_fails V (wait_calls rules s poll) (wait_next_event rules s poll)
    (fun x => v_inv V x.2 /\ keeps V s x.2 /\ accounted rules x.1.2 x.2).
Proof.
  intros Hnd Hs Hpoll. unfold wait_next_event.
  destruct (setup_spec rules s Hs) as (r & p & b & s1 & E & Hs1 & Hk & _ & Hw & Ha & Hp).
  specialize (Hpoll r p s1 ). rewrite E in *. cbn [rbind]. destruct b; cbn [negb]; [|done].
  specialize (Hpoll eq_refl). pose proof (setup_length _ _ _ _ _ _ E) as Hlen.
  assert (Hnd' : NoDup r) by (eapply sublist_NoDup; [exact Hnd|apply Ha]).
  destruct (poll s1 p) as [[]|n revents] eqn:Ep; [done|rewrite (scan_silent _ _ _ Hp Hlen); done|].
  destruct (Z.eqb_spec n 0); [done|]. destruct Hpoll as [|Hpoll]; [done|].
  eapply yields_or_fails_bind.
  - apply (scan_spec r (set_revents p revents) s1 Hnd' Hs1 Hpoll).
    apply wanting_revents; [done|]. by apply Forall2_length in Hpoll.
  - intros t s' Hc. by exists r, p, s1, n, revents.
  - intros [r2 s2] _ (Hs2 & Hk2 & Ha2). split; [done|]. split; [by eapply keeps_trans|by eapply accounted_trans].
Qed.
End contract.

(** The rules left are rules there were. *)
Lemma setup_sublist rules : forall s rules' pollfds b s',
  setup rules s = Ok (rules', pollfds, b, s') -> rules' `sublist_of` rules.
Proof.
  induction rules as [|t rules IH]; intros s rules' pollfds b s'; cbn [setup]; [by intros [= <- _ _ _]|].
  destruct (rule_over t s); intros E.
  - apply rbind_ok in E as (s1 & _ & E). constructor. eauto.
  - apply rbind_ok in E as ([[[r p] b'] s1] & E & [= <- _ _ _]). constructor. eauto.
Qed.

Lemma scan_sublist rules : forall pollfds s rules' s',
  scan rules pollfds s = Ok (rules', s') -> rules' `sublist_of` rules.
Proof.
  induction rules as [|t rules IH]; intros [|p pollfds] s rules' s'; cbn [scan]; try by intros [= <- _].
  destruct (negb _); [done|]. destruct (_ && _ && _); intros E.
  - apply rbind_ok in E as (s1 & _ & E). constructor. eauto.
  - apply rbind_ok in E as (s1 & _ & E). apply rbind_ok in E as ([r s2] & E & [= <- _]). constructor. eauto.
Qed.

Lemma wait_sublist rules s poll res rules' s' :
  wait_next_event rules s poll = Ok (res, rules', s') -> rules' `sublist_of` rules.
Proof.
  unfold wait_next_event. intros E. apply rbind_ok in E as ([[[r p] b] s1] & E1 & E).
  apply setup_sublist in E1. destruct (negb b); [by injection E as _ <- _|].
  assert (Hscan : forall pollfds, (let* (rules, s) := scan r pollfds s1 in Ok (Success, rules, s)) = Ok (res, rules', s') ->
    rules' `sublist_of` rules).
  { intros q Eq. apply rbind_ok in Eq as ([r2 s2] & Es & [= _ <- _]). apply scan_sublist in Es. by transitivity r. }
  destruct (poll s1 p) as [[]|n revents]; [by injection E as _ <- _|by eapply Hscan|].
  destruct (n =? 0); [by injection E as _ <- _|by eapply Hscan].
Qed.

(** ** When the loop ends *)

(** A property that the cancellations of [rules] keep is kept by the set-up. *)
Lemma setup_keeps (Q : S -> Prop) rules : forall s rules' pollfds b s',
  (forall t s s', t ∈ rules -> rule_cancel t s = Ok s' -> Q s -> Q s') ->
  setup rules s = Ok (rules', pollfds, b, s') -> Q s -> Q s'.
Proof.
  induction rules as [|t rules IH]; intros s rules' pollfds b s' HQ; cbn [setup]; [by intros [= _ _ _ <-]|].
  assert (HQ' : forall t s s', t ∈ rules -> rule_cancel t s = Ok s' -> Q s -> Q s')
    by (intros t' s1 s2 Ht; apply HQ; by right).
  destruct (rule_over t s); intros E Hs.
  - apply rbind_ok in E as (s1 & Ec & E). apply (IH _ _ _ _ _ HQ' E). apply (HQ t s s1); [by left|done..].
  - apply rbind_ok in E as ([[[r p] b'] s1] & E & [= _ _ _ <-]). by apply (IH _ _ _ _ _ HQ' E).
Qed.

(** No cancellation wakes up a rule that comes before. *)
Definition quiet (rules : list T) : Prop :=
  forall t t' s s', [t; t'] `sublist_of` rules -> rule_cancel t' s = Ok s' ->
    rule_interest t s = false -> rule_interest t s' = false.

Lemma quiet_cons t rules : quiet (t :: rules) -> quiet rules.
Proof. intros Hq t1 t2 s s' Hs. apply Hq. by constructor. Qed.

Lemma setup_quiet rules : forall s rules' pollfds s',
  quiet rules -> setup rules s = Ok (rules', pollfds, false, s') ->
  forall t, t ∈ rules' -> rule_interest t s' = false.
Proof.
  induction rules as [|t rules IH]; intros s rules' pollfds s' Hq; cbn [setup].
  { intros [= <- _ _] t Ht. by apply elem_of_nil in Ht. }
  pose proof (quiet_cons _ _ Hq) as Hq'. destruct (rule_over t s); intros E.
  - apply rbind_ok in E as (s1 & _ & E). eauto.
  - apply rbind_ok in E as ([[[r p] b'] s1] & E & E'). injection E' as <- _ Eb <-.
    apply orb_false_iff in Eb as [Ei ->]. intros t' Ht. apply elem_of_cons in Ht as [->|Ht]; [|by eapply IH].
    apply (setup_keeps (fun s => rule_interest t s = false) _ _ _ _ _ _) in E; [done| |done].
    intros t' s2 s3 Ht Ec. apply (Hq t t' s2 s3); [|done]. constructor.
    apply sublist_cons_l. apply list_elem_of_split in Ht as (l1 & l2 & ->).
    exists l1, l2. split; [done|]. apply sublist_nil_l.
Qed.

Lemma wait_exit rules s poll rules' s' :
  wait_next_event rules s poll = Ok (Exit, rules', s') ->
  exists pollfds b, setup rules s = Ok (rules', pollfds, b, s') /\
    (b = false \/ poll s' pollfds = PollFailed true).
Proof.
  unfold wait_next_event. intros E. apply rbind_ok in E as ([[[r p] b] s1] & E & E').
  destruct b; cbn [negb] in E'; [|injection E' as <- <-; by exists p, false; auto].
  destruct (poll s1 p) as [[]|n revents] eqn:Ep.
  - injection E' as <- <-. exists p, true. auto.
  - by apply rbind_ok in E' as ([? ?] & _ & ?).
  - destruct (n =? 0); [done|]. by apply rbind_ok in E' as ([? ?] & _ & ?).
Qed.
End eventloop.
Arguments view : clear implicits.

(** C34: The event loop keeps its contract.  When the closures of the client keep
    an invariant and each callback reads or writes its descriptor or ends its
    interest, [wait_next_event] does not throw, whatever the kernel reports short
    of an error, unless it calls a callback that throws, in a state where the
    client says it may; the invariant is kept, the rules that are left are in order, and every
    other rule was cancelled because its descriptor was at its end, closed or
    hung up. *)
Theorem eventloop_correct {T S : Type} {RS : RuleSet T S} (V : view T S) (rules : list T) s poll :
  contract V -> NoDup rules -> v_inv V s -> poll_honest V rules s poll ->
  match wait_next_event rules s poll with
  | Ok (res, rules', s') => v_inv V s' /\ rules' `sublist_of` rules /\
      (forall t, t ∈ rules -> t ∈ rules' \/ v_gone V t s')
  | Err e => exists t s', wait_calls rules s poll t s' /\ v_inv V s' /\ v_fails V t s' e /\
      rule_callback t s' = Err e
  end.
Proof.
  intros Hct Hnd Hs Hp. pose proof (wait_spec V Hct rules s poll Hnd Hs Hp) as H.
  destruct (wait_next_event rules s poll) as [[[res r] s']|]; [|done]. destruct H as (Hs' & _ & Ha).
  split; [done|]. exact Ha.
Qed.

(** The loop tells its client to stop only when a signal interrupted it or no
    rule that is left is interested. *)
Theorem eventloop_exit {T S : Type} {RS : RuleSet T S} (rules rules' : list T) (s s' : S) poll :
  quiet rules -> wait_next_event rules s poll = Ok (Exit, rules', s') ->
  (exists pollfds, poll s' pollfds = PollFailed true) \/ (forall t, t ∈ rules' -> rule_interest t s' = false).
Proof.
  intros Hq E. apply wait_exit in E as (p & b & E & [->|Ep]); [right|left; by exists p].
  by eapply setup_quiet.
Qed.

(** The documentation says that an error of [poll] makes the function throw;
    the handler drops every error but an interruption, and the function
    reports success without having called anything. *)
Theorem eventloop_ignores_poll_errors {T S : Type} {RS : RuleSet T S} (rules rules' : list T) pollfds (s s' : S) :
  setup rules s = Ok (rules', pollfds, true, s') ->
  Forall (fun p => pf_revents p = 0) pollfds ->
  wait_next_event rules s (fun _ _ => PollFailed false) = Ok (Success, rules', s').
Proof.
  intros E Hp. unfold wait_next_event. rewrite E. cbn [rbind negb].
  by rewrite (scan_silent _ _ _ Hp (setup_length _ _ _ _ _ _ E)).
Qed.
