(* ===== verification/StreamCopy.v ===== *)
(** * Copying between a socket and the terminal

    [apps/bidirectional_stream_copy.cc]: four rules of an event loop move bytes
    from the standard input to a socket and from the socket to the standard
    output, through two byte streams. *)
From S2P Require Import Prelude Buffer ByteStream FileDescriptor Socket EventLoop.

Definition max_copy_length : Z := 65536.
Definition copy_buffer_size : Z := 1048576.

(** The local variables of the function, and the kernel's side of the three
    descriptors: what can still be read from the standard input and from the
    peer, what was written to the peer and to the standard output, and the
    kernel's answers to the coming calls. *)
Record copy_state : Type := mkCopyState {
  cs_input : FDWrapper;
  cs_output : FDWrapper;
  cs_socket : FDWrapper;
  cs_outbound : ByteStream;
  cs_inbound : ByteStream;
  cs_outbound_shutdown : bool;
  cs_inbound_shutdown : bool;
  k_stdin : bytes;
  k_from_peer : bytes;
  k_to_peer : bytes;
  k_stdout : bytes;
  k_amounts : list Z }.

(** The rules, by their numbers in the comments. *)
Inductive copy_rule : Type := rule1 | rule2 | rule3 | rule4.
#[global] Instance copy_rule_eq_dec : EqDecision copy_rule.
Proof. solve_decision. Defined.

Definition callback1 (s : copy_state) : result copy_state :=
  let limit := remaining_capacity (cs_outbound s) in
  let* (input, data) := fd_read (cs_input s) limit (kernel_read (k_amounts s) (k_stdin s) limit) in
  let outbound := (write (cs_outbound s) data).1 in
  let outbound := if fd_eof input then end_input outbound else outbound in
  Ok (mkCopyState input (cs_output s) (cs_socket s) outbound (cs_inbound s) (cs_outbound_shutdown s)
        (cs_inbound_shutdown s) (zdrop (zlen data) (k_stdin s)) (k_from_peer s) (k_to_peer s) (k_stdout s)
        (tl (k_amounts s))).

Definition callback2 (s : copy_state) : result copy_state :=
  let bytes_to_write := Z.min max_copy_length (buffer_size (cs_outbound s)) in
  let data := peek_output (cs_outbound s) bytes_to_write in
  let* (socket, bytes_written) := write_some (k_amounts s) (cs_socket s) data in
  let outbound := pop_output (cs_outbound s) bytes_written in
  let over := eof outbound in
  let* socket := if over then Socket_shutdown socket SHUT_WR (negb (refuses 1 (tl (k_amounts s)))) else Ok socket in
  Ok (mkCopyState (cs_input s) (cs_output s) socket outbound (cs_inbound s)
        (if over then true else cs_outbound_shutdown s) (cs_inbound_shutdown s)
        (k_stdin s) (k_from_peer s) (k_to_peer s ++ ztake bytes_written data) (k_stdout s)
        (drop (if over then 2 else 1) (k_amounts s))).

Definition callback3 (s : copy_state) : result copy_state :=
  let limit := remaining_capacity (cs_inbound s) in
  let* (socket, data) := fd_read (cs_socket s) limit (kernel_read (k_amounts s) (k_from_peer s) limit) in
  let inbound := (write (cs_inbound s) data).1 in
  let inbound := if fd_eof socket then end_input inbound else inbound in
  Ok (mkCopyState (cs_input s) (cs_output s) socket (cs_outbound s) inbound (cs_outbound_shutdown s)
        (cs_inbound_shutdown s) (k_stdin s) (zdrop (zlen data) (k_from_peer s)) (k_to_peer s) (k_stdout s)
        (tl (k_amounts s))).

Definition callback4 (s : copy_state) : result copy_state :=
  let bytes_to_write := Z.min max_copy_length (buffer_size (cs_inbound s)) in
  let data := peek_output (cs_inbound s) bytes_to_write in
  let* (output, bytes_written) := write_some (k_amounts s) (cs_output s) data in
  let inbound := pop_output (cs_inbound s) bytes_written in
  let over := eof inbound in
  let* output := if over then try_close output (negb (refuses 1 (tl (k_amounts s)))) else Ok output in
  Ok (mkCopyState (cs_input s) output (cs_socket s) (cs_outbound s) inbound
        (cs_outbound_shutdown s) (if over then true else cs_inbound_shutdown s)
        (k_stdin s) (k_from_peer s) (k_to_peer s) (k_stdout s ++ ztake bytes_written data)
        (drop (if over then 2 else 1) (k_amounts s))).

Definition end_outbound (s : copy_state) : copy_state :=
  mkCopyState (cs_input s) (cs_output s) (cs_socket s) (end_input (cs_outbound s)) (cs_inbound s)
    (cs_outbound_shutdown s) (cs_inbound_shutdown s) (k_stdin s) (k_from_peer s) (k_to_peer s) (k_stdout s)
    (k_amounts s).
Definition end_inbound (s : copy_state) : copy_state :=
  mkCopyState (cs_input s) (cs_output s) (cs_socket s) (cs_outbound s) (end_input (cs_inbound s))
    (cs_outbound_shutdown s) (cs_inbound_shutdown s) (k_stdin s) (k_from_peer s) (k_to_peer s) (k_stdout s)
    (k_amounts s).

Definition reading_interest (mine other : ByteStream) : bool :=
  negb (stream_error mine) && (0 <? remaining_capacity mine) && negb (stream_error other).
Definition writing_interest (mine : ByteStream) (shutdown : bool) : bool :=
  negb (buffer_empty mine) || (eof mine && negb shutdown).

(** The socket is polled in both directions through one wrapper. *)
#[global] Instance copy_rules : RuleSet copy_rule copy_state := {
  rule_fd r s := match r with rule1 => cs_input s | rule2 | rule3 => cs_socket s | rule4 => cs_output s end;
  rule_direction r := match r with rule1 | rule3 => In | rule2 | rule4 => Out end;
  rule_callback r := match r with rule1 => callback1 | rule2 => callback2 | rule3 => callback3 | rule4 => callback4 end;
  rule_interest r s :=
    match r with
    | rule1 => reading_interest (cs_outbound s) (cs_inbound s)
    | rule2 => writing_interest (cs_outbound s) (cs_outbound_shutdown s)
    | rule3 => reading_interest (cs_inbound s) (cs_outbound s)
    | rule4 => writing_interest (cs_inbound s) (cs_inbound_shutdown s)
    end;
  rule_cancel r s := Ok match r with rule1 | rule2 => end_outbound s | rule3 | rule4 => end_inbound s end }.

Definition all_rules : list copy_rule := [rule1; rule2; rule3; rule4].

Definition copy_start (input output socket : FDWrapper) (stdin from_peer : bytes) (amounts : list Z) : copy_state :=
  mkCopyState input output socket (new_ByteStream copy_buffer_size) (new_ByteStream copy_buffer_size)
    false false stdin from_peer [] [] amounts.

(** [while (true)], along the answers of [poll]: whether the function has
    returned, the rules and the state. *)
Fixpoint copy_loop (polls : list (copy_state -> list pollfd -> poll_answer)) (rules : list copy_rule)
    (s : copy_state) : result (bool * list copy_rule * copy_state) :=
  match polls with
  | [] => Ok (false, rules, s)
  | poll :: polls =>
      let* (x, s) := wait_next_event rules s poll in
      match x with
      | (Exit, rules) => Ok (true, rules, s)
      | (_, rules) => copy_loop polls rules s
      end
  end.

Definition bidirectional_stream_copy (polls : list (copy_state -> list pollfd -> poll_answer)) (s : copy_state)
    : result (bool * list copy_rule * copy_state) :=
  copy_loop polls all_rules s.

(** ** One direction *)

(** [data] is what there was to copy: [sent] has arrived, the stream holds what
    follows, and [left] is not read yet; the stream has no error and ends only
    when nothing is left. *)
Record lane (data sent : bytes) (st : ByteStream) (left : bytes) : Prop := {
  ln_data : sent ++ bs_buffer st ++ left = data;
  ln_ok : bs_ok st;
  ln_capacity : bs_capacity st = copy_buffer_size;
  ln_error : bs_error st = false;
  ln_end : bs_is_ended st = true -> left = [] }.

Lemma lane_new data : lane data [] (new_ByteStream copy_buffer_size) data.
Proof. by constructor. Qed.

(** Reading: the kernel's bytes all fit in the stream. *)
Lemma lane_read amounts w data sent st left got :
  lane data sent st left -> counts_ok w -> (fd_eof w = true -> left = []) ->
  kernel_read amounts left (remaining_capacity st) = Some got ->
  exists w', fd_read w (remaining_capacity st) (Some got) = Ok (w', got) /\ counts_ok w' /\
    fd_closed w' = fd_closed w /\ fd_read_count w' <> fd_read_count w /\ fd_write_count w' = fd_write_count w /\
    (fd_eof w = true -> fd_eof w' = true) /\
    (fd_eof w' = true -> zdrop (zlen got) left = []) /\
    lane data sent (if fd_eof w' then end_input (write st got).1 else (write st got).1) (zdrop (zlen got) left).
Proof.
  intros [Hd Ho Hc He Hend] Hw Heof Ek. pose proof (remaining_capacity_eq st Ho) as Hrem.
  pose proof Ho as (Ho1 & Ho2 & Ho3).
  destruct (fd_read_some amounts w (remaining_capacity st) left got ltac:(lia) Hw Heof Ek)
    as (w' & E & C1 & C2 & C3 & C4 & C5 & C6 & Hgot & Hsplit).
  assert (Hdrop : left = [] -> zdrop (zlen got) left = []) by (intros El; rewrite El; apply drop_nil).
  exists w'. split_and!; try done; [auto|].
  pose proof (write_ok st got Ho) as Hwok. rewrite write_eq in * by done. cbn [fst] in *.
  rewrite write_fits in * by (done || lia).
  assert (Hlane : lane data sent (mkByteStream (bs_buffer st ++ got) (bs_capacity st) (bs_is_ended st)
    (bs_written_length st +! zlen got) (bs_error st)) (zdrop (zlen got) left)).
  { constructor; cbn; try done; [by rewrite <- app_assoc, Hsplit|]. auto. }
  destruct (fd_eof w') eqn:Ee; [|done]. destruct Hlane. constructor; try done. cbn. auto.
Qed.

(** Writing: what the kernel accepted leaves the stream. *)
Lemma lane_write amounts w data sent st left :
  lane data sent st left ->
  let out := peek_output st (Z.min max_copy_length (buffer_size st)) in
  if refuses 1 amounts then write_some amounts w out = Err runtime_error
  else exists n, write_some amounts w out = Ok (register_write w, n) /\
    lane data (sent ++ ztake n out) (pop_output st n) left /\ bs_is_ended (pop_output st n) = bs_is_ended st.
Proof.
  intros [Hd Ho Hc He Hend] out. pose proof (buffer_size_nonneg st) as Hb.
  set (m := Z.min max_copy_length (buffer_size st)) in *. assert (Hm : 0 <= m <= buffer_size st) by (unfold m, max_copy_length; lia).
  assert (Hout : out = ztake m (bs_buffer st)) by (unfold out, peek_output; zcase; [lia|done]).
  assert (Hlen : zlen out = m) by (rewrite Hout; unfold buffer_size in *; zl).
  pose proof Ho as (Ho1 & Ho2 & Ho3).
  pose proof (write_some_ok amounts w out ltac:(lia)) as Hw. destruct (refuses 1 amounts); [done|].
  destruct Hw as (n & E & Hn & _). exists n. split; [done|].
  assert (Hpop : pop_output st n = mkByteStream (zdrop n (bs_buffer st)) (bs_capacity st) (bs_is_ended st)
    (bs_written_length st) (bs_error st)) by (unfold pop_output; zcase; [lia|done]).
  pose proof (pop_output_ok st n ltac:(lia) Ho) as Hpok. rewrite Hpop in *. split; [|done].
  constructor; cbn; try done. rewrite <- app_assoc. rewrite Hout. rewrite <- Hd. f_equal.
  rewrite app_assoc. f_equal. unfold ztake, zdrop. rewrite take_take.
  replace (Z.to_nat n `min` Z.to_nat m)%nat with (Z.to_nat n) by lia. apply take_drop.
Qed.

(** ** The whole state *)

Record copy_inv (to_peer to_stdout : bytes) (s : copy_state) : Prop := {
  ci_outbound : lane to_peer (k_to_peer s) (cs_outbound s) (k_stdin s);
  ci_inbound : lane to_stdout (k_stdout s) (cs_inbound s) (k_from_peer s);
  ci_input_eof : fd_eof (cs_input s) = true -> k_stdin s = [];
  ci_socket_eof : fd_eof (cs_socket s) = true -> k_from_peer s = [];
  ci_open : fd_closed (cs_input s) = false /\ fd_closed (cs_socket s) = false;
  ci_closed : fd_closed (cs_output s) = true ->
    bs_is_ended (cs_inbound s) = true /\ bs_buffer (cs_inbound s) = [];
  ci_shutdown : cs_inbound_shutdown s = true -> fd_closed (cs_output s) = true;
  ci_counts : counts_ok (cs_input s) /\ counts_ok (cs_output s) /\ counts_ok (cs_socket s) }.

(** A hang-up on a descriptor that is read means that nothing is left; the
    descriptors that are written do not hang up. *)
Definition copy_hung_up (r : copy_rule) (s : copy_state) : Prop :=
  match r with
  | rule1 => k_stdin s = []
  | rule3 => k_from_peer s = []
  | rule2 | rule4 => False
  end.

Definition copy_gone (r : copy_rule) (s : copy_state) : Prop :=
  match r with
  | rule1 => k_stdin s = [] /\ bs_is_ended (cs_outbound s) = true
  | rule2 => False
  | rule3 => k_from_peer s = [] /\ bs_is_ended (cs_inbound s) = true
  | rule4 => fd_closed (cs_output s) = true
  end.

Lemma lane_end data sent st left : lane data sent st left -> left = [] -> lane data sent (end_input st) left.
Proof. intros [] ->. by constructor. Qed.

(** The kernel refuses a call that the callback makes: the transfer, or the
    shutting down or closing after it. *)
Definition copy_fails (r : copy_rule) (s : copy_state) (e : failure) : Prop :=
  e = runtime_error /\
  refuses match r with rule1 | rule3 => 1 | rule2 | rule4 => 2 end (k_amounts s) = true.

(** What a callback does: it keeps the invariant and uses its descriptor, or the
    kernel refuses a call. *)
Definition copied (D1 D2 : bytes) (r : copy_rule) (s : copy_state) (m : result copy_state) : Prop :=
  match m with
  | Ok s' => copy_inv D1 D2 s' /\ service_count r s' <> service_count r s /\
      (forall r, copy_gone r s -> copy_gone r s') /\ (forall r, copy_hung_up r s -> copy_hung_up r s')
  | Err e => copy_fails r s e
  end.

Lemma callback1_ok D1 D2 s : copy_inv D1 D2 s -> copied D1 D2 rule1 s (callback1 s).
Proof.
  intros [H1 H2 H3 H4 [H5 H5'] H6 H7 (H8 & H9 & H10)]. unfold callback1. cbn zeta.
  destruct (kernel_read _ _ _) as [got|] eqn:Ek.
  2:{ destruct (fd_read_refused _ (cs_input s) _ _ Ek) as [Hr E]. rewrite Ek in E. rewrite E. done. }
  destruct (lane_read (k_amounts s) (cs_input s) D1 _ _ _ got H1 H8 H3 Ek) as (w & E & C1 & C2 & C3 & C4 & C5 & C6 & C7).
  rewrite E. cbn [rbind]. split.
  { constructor; cbn; try done. by rewrite C2. }
  split; [done|]. split.
  - intros [] Hg; cbn in *; try done. destruct Hg as [Hg1 Hg2]. rewrite Hg1. split; [apply drop_nil|].
    destruct (fd_eof w); cbn; [done|]. by rewrite write_eq by apply H1.
  - intros [] Hg; cbn in *; try done. rewrite Hg. apply drop_nil.
Qed.

Lemma callback3_ok D1 D2 s : copy_inv D1 D2 s -> copied D1 D2 rule3 s (callback3 s).
Proof.
  intros [H1 H2 H3 H4 [H5 H5'] H6 H7 (H8 & H9 & H10)]. unfold callback3. cbn zeta.
  destruct (kernel_read _ _ _) as [got|] eqn:Ek.
  2:{ destruct (fd_read_refused _ (cs_socket s) _ _ Ek) as [Hr E]. rewrite Ek in E. rewrite E. done. }
  destruct (lane_read (k_amounts s) (cs_socket s) D2 _ _ _ got H2 H10 H4 Ek) as (w & E & C1 & C2 & C3 & C4 & C5 & C6 & C7).
  rewrite E. cbn [rbind]. split.
  { constructor; cbn; try done; [by rewrite C2|]. intros Hcl. destruct (H6 Hcl) as [Hend Hbuf].
    pose proof (ln_end _ _ _ _ H2 Hend) as Hleft.
    assert (Hgot : got = []) by (unfold kernel_read in Ek; destruct (refuses _ _); [done|]; injection Ek as <-;
      rewrite Hleft; apply take_nil).
    rewrite Hgot, write_eq by apply H2. unfold accepted, ztake. rewrite take_nil, app_nil_r.
    destruct (fd_eof w); done. }
  split; [done|]. split.
  - intros [] Hg; cbn in *; try done. destruct Hg as [Hg1 Hg2]. rewrite Hg1. split; [apply drop_nil|].
    destruct (fd_eof w); cbn; [done|]. by rewrite write_eq by apply H2.
  - intros [] Hg; cbn in *; try done. rewrite Hg. apply drop_nil.
Qed.

Lemma callback2_ok D1 D2 s : copy_inv D1 D2 s -> copied D1 D2 rule2 s (callback2 s).
Proof.
  intros [H1 H2 H3 H4 [H5 H5'] H6 H7 (H8 & H9 & H10)]. unfold callback2. cbn zeta.
  pose proof (lane_write (k_amounts s) (cs_socket s) D1 _ _ _ H1) as Hl. cbn zeta in Hl.
  destruct (refuses 1 (k_amounts s)) eqn:Er.
  { rewrite Hl. split; [done|]. apply (refuses_more 1); [lia|done]. }
  destruct Hl as (n & E & C1 & C2). rewrite E. cbn [rbind].
  destruct (eof (pop_output (cs_outbound s) n)) eqn:Ee.
  - destruct (refuses 1 (tl (k_amounts s))) eqn:Er'; [by split; [|apply refuses_later]|]. cbn [negb].
    change (Socket_shutdown (register_write (cs_socket s)) SHUT_WR true)
      with (Ok (register_write (register_write (cs_socket s)))). cbn [rbind]. split.
    { constructor; cbn; try done. split; [done|]. split; [done|]. repeat apply register_write_counts; done. }
    split. { cbn. apply count_changes2, H10. }
    split; intros [] Hg; cbn in *; try done. by rewrite C2.
  - cbn [rbind]. split.
    { constructor; cbn; try done. split; [done|]. split; [done|]. apply register_write_counts; done. }
    split. { cbn. apply count_changes, H10. }
    split; intros [] Hg; cbn in *; try done. by rewrite C2.
Qed.

Lemma eof_true st : eof st = true -> bs_is_ended st = true /\ bs_buffer st = [].
Proof.
  unfold eof, input_ended, buffer_empty. intros Ee. apply andb_true_iff in Ee as [-> Ee].
  split; [done|]. by destruct (bs_buffer st).
Qed.

Lemma callback4_ok D1 D2 s : copy_inv D1 D2 s -> copied D1 D2 rule4 s (callback4 s).
Proof.
  intros [H1 H2 H3 H4 [H5 H5'] H6 H7 (H8 & H9 & H10)]. unfold callback4. cbn zeta.
  pose proof (lane_write (k_amounts s) (cs_output s) D2 _ _ _ H2) as Hl. cbn zeta in Hl.
  destruct (refuses 1 (k_amounts s)) eqn:Er.
  { rewrite Hl. split; [done|]. apply (refuses_more 1); [lia|done]. }
  destruct Hl as (n & E & C1 & C2). rewrite E. cbn [rbind].
  set (st := pop_output (cs_inbound s) n) in *. pose proof (eof_true st) as Heof.
  destruct (eof st) eqn:Ee.
  - destruct (refuses 1 (tl (k_amounts s))) eqn:Er'; [by split; [|apply refuses_later]|]. cbn [negb try_close rbind].
    split.
    { pose proof (register_write_counts _ H9) as Hrw. constructor; cbn; auto. }
    split. { cbn. apply count_changes, H9. }
    split; intros [] Hg; cbn in *; try done. by rewrite C2.
  - cbn [rbind]. split.
    { pose proof (register_write_counts _ H9) as Hrw. constructor; cbn; auto.
      - intros Hcl. destruct (H6 Hcl) as [Hend Hbuf].
        exfalso. rewrite <- C2 in Hend. unfold eof, input_ended, buffer_empty in Ee. rewrite Hend in Ee.
        assert (Hsub : bs_buffer st = []).
        { unfold st, pop_output, buffer_size. rewrite Hbuf. zcase; [by cbn|]. cbn. apply drop_nil. }
        by rewrite Hsub in Ee. }
    split. { cbn. apply count_changes, H9. }
    split; intros [] Hg; cbn in *; try done. by rewrite C2.
Qed.

(** Whatever a callback does it may do at any time. *)
Definition copy_view (D1 D2 : bytes) : view copy_rule copy_state :=
  mkView (copy_inv D1 D2) (fun _ _ => True) (fun _ _ => True) copy_hung_up copy_gone copy_fails.

Lemma copy_contract D1 D2 : contract (copy_view D1 D2).
Proof.
  split; [done| |].
  - intros r s Hs Hover. eexists. split; [done|]. destruct Hs as [H1 H2 H3 H4 [H5 H5'] H6 H7 H8].
    assert (Hcase : match r with rule1 => k_stdin s = [] | rule2 => False
      | rule3 => k_from_peer s = [] | rule4 => fd_closed (cs_output s) = true end).
    { destruct Hover as [Hover|Hover]; [|by destruct r]. unfold rule_over in Hover. destruct r; cbn in Hover.
      - rewrite H5, orb_false_r in Hover. auto.
      - by rewrite H5' in Hover.
      - rewrite H5', orb_false_r in Hover. auto.
      - done. }
    destruct r; try done.
    + split; [constructor; cbn; try done; by apply lane_end|]. split; [done|].
      split; [|done]. split; intros [] Hg; cbn in *; tauto.
    + split; [constructor; cbn; try done; [by apply lane_end|]; intros Hc; by destruct (H6 Hc)|].
      split; [done|]. split; [|done]. split; intros [] Hg; cbn in *; tauto.
    + destruct (H6 Hcase) as [Hend Hbuf]. pose proof (ln_end _ _ _ _ H2 Hend).
      split; [constructor; cbn; try done; by apply lane_end|].
      split; [done|]. split; [|done]. split; intros [] Hg; cbn in *; tauto.
  - intros r s Hs _ _. unfold keeps, stands.
    assert (Hc : copied D1 D2 r s (rule_callback r s))
      by (destruct r; [apply callback1_ok|apply callback2_ok|apply callback3_ok|apply callback4_ok]; done).
    destruct (rule_callback r s) as [s'|e]; [|done]. destruct Hc as (Hi & Hc & Hg & Hh). by auto 10.
Qed.

Definition rule_index (r : copy_rule) : nat :=
  match r with rule1 => 1 | rule2 => 2 | rule3 => 3 | rule4 => 4 end.

Lemma all_rules_order t t' : [t; t'] `sublist_of` all_rules -> (rule_index t < rule_index t')%nat.
Proof.
  intros Hs. unfold all_rules in Hs.
  repeat match goal with
    | H : _ :: _ `sublist_of` _ |- _ => inversion H; clear H; subst
    | H : _ :: _ `sublist_of` [] |- _ => inversion H
    end; cbn; lia.
Qed.

Lemma all_rules_nodup : NoDup all_rules.
Proof. unfold all_rules. repeat (constructor; [set_solver|]). constructor. Qed.

Lemma copy_quiet rules : rules `sublist_of` all_rules -> quiet rules.
Proof.
  intros Hr t t' s s' Hs [= <-] Hi. assert (Hlt : (rule_index t < rule_index t')%nat)
    by (apply all_rules_order; by transitivity rules).
  destruct t, t'; cbn in *; try lia; done.
Qed.

(** The kernel answers honestly in every round. *)
Fixpoint polls_honest (D1 D2 : bytes) (polls : list (copy_state -> list pollfd -> poll_answer)) (rules : list copy_rule)
    (s : copy_state) : Prop :=
  match polls with
  | [] => True
  | poll :: polls =>
      poll_honest (copy_view D1 D2) rules s poll /\
      forall res rules' s', wait_next_event rules s poll = Ok (res, rules', s') -> polls_honest D1 D2 polls rules' s'
  end.

(** What holds when the function returned for want of anything to do. *)
Definition all_copied (D1 D2 : bytes) (s : copy_state) : Prop :=
  k_to_peer s = D1 /\ k_stdout s = D2 /\ cs_outbound_shutdown s = true /\ fd_closed (cs_output s) = true.

Lemma reading_idle st other : bs_ok st -> bs_error st = false -> bs_error other = false ->
  bs_capacity st = copy_buffer_size -> reading_interest st other = false -> buffer_size st = copy_buffer_size.
Proof.
  intros Ho He He' Hc Hi. unfold reading_interest, stream_error in Hi. rewrite He, He' in Hi.
  rewrite andb_true_r in Hi. cbn [negb andb] in Hi. rewrite remaining_capacity_eq in Hi by done.
  destruct Ho as (_ & Ho & _). zb. lia.
Qed.

Lemma writing_idle st b : writing_interest st b = false ->
  bs_buffer st = [] /\ (bs_is_ended st = true -> b = true).
Proof.
  unfold writing_interest, eof, input_ended, buffer_empty. destruct (bs_buffer st); [|done].
  cbn [negb orb]. rewrite andb_true_r. destruct (bs_is_ended st), b; done.
Qed.

(** Nothing is interested: everything was copied. *)
Lemma copy_idle D1 D2 rules s :
  copy_inv D1 D2 s -> accounted (copy_view D1 D2) all_rules rules s ->
  (forall t, t ∈ rules -> rule_interest t s = false) -> all_copied D1 D2 s.
Proof.
  intros [H1 H2 H3 H4 H5 H6 H7 H8] [_ Ha] Hi.
  assert (Hr2 : rule2 ∈ rules) by (destruct (Ha rule2) as [|[]]; [|done]; unfold all_rules; set_solver).
  destruct (writing_idle _ _ (Hi rule2 Hr2)) as [Hb2 Hs2].
  assert (Hin : bs_buffer (cs_inbound s) = [] /\
    (bs_is_ended (cs_inbound s) = true -> fd_closed (cs_output s) = true)).
  { destruct (Ha rule4) as [Hr|Hg]; [unfold all_rules; set_solver| |].
    - destruct (writing_idle _ _ (Hi rule4 Hr)) as [Hb Hs]. split; [done|]. auto.
    - split; [by apply H6|done]. }
  destruct Hin as [Hb4 Hs4].
  assert (Hg1 : copy_gone rule1 s).
  { destruct (Ha rule1) as [Hr|Hg]; [unfold all_rules; set_solver| |done].
    pose proof (reading_idle _ _ (ln_ok _ _ _ _ H1) (ln_error _ _ _ _ H1) (ln_error _ _ _ _ H2)
      (ln_capacity _ _ _ _ H1) (Hi rule1 Hr)) as Hfull. unfold buffer_size in Hfull. by rewrite Hb2 in Hfull. }
  assert (Hg3 : copy_gone rule3 s).
  { destruct (Ha rule3) as [Hr|Hg]; [unfold all_rules; set_solver| |done].
    pose proof (reading_idle _ _ (ln_ok _ _ _ _ H2) (ln_error _ _ _ _ H2) (ln_error _ _ _ _ H1)
      (ln_capacity _ _ _ _ H2) (Hi rule3 Hr)) as Hfull. unfold buffer_size in Hfull. by rewrite Hb4 in Hfull. }
  destruct Hg1 as [E1 E1']. destruct Hg3 as [E3 E3'].
  pose proof (ln_data _ _ _ _ H1) as D1'. pose proof (ln_data _ _ _ _ H2) as D2'.
  rewrite Hb2, E1, !app_nil_r in D1'. rewrite Hb4, E3, !app_nil_r in D2'.
  split; [done|]. split; [done|]. split; auto.
Qed.

(** The rounds of the loop, as steps between what is left of the answers of
    [poll], the rules and the state. *)
Definition copy_config : Type := list (copy_state -> list pollfd -> poll_answer) * list copy_rule * copy_state.
Inductive copy_step : copy_config -> copy_config -> Prop :=
  | copy_round poll polls rules s res rules' s' :
      wait_next_event rules s poll = Ok (res, rules', s') -> res <> Exit ->
      copy_step (poll :: polls, rules, s) (polls, rules', s').

(** The copying throws [e] because, in a round it reaches, the kernel refuses a
    call of a callback it calls; [sofar] holds of the state at that call. *)
Definition copy_throws (sofar : copy_state -> Prop) (polls : list (copy_state -> list pollfd -> poll_answer))
    (rules : list copy_rule) (s : copy_state) (e : failure) : Prop :=
  exists poll polls' rules' s' r s1, rtc copy_step (polls, rules, s) (poll :: polls', rules', s') /\
    wait_calls rules' s' poll r s1 /\ rule_callback r s1 = Err e /\ copy_fails r s1 e /\ sofar s1.

Lemma copy_loop_spec D1 D2 polls : forall rules s,
  copy_inv D1 D2 s -> accounted (copy_view D1 D2) all_rules rules s -> polls_honest D1 D2 polls rules s ->
  match copy_loop polls rules s with
  | Ok (over, rules', s') => copy_inv D1 D2 s' /\
      (over = true -> (forall poll s p, poll ∈ polls -> poll s p <> PollFailed true) -> all_copied D1 D2 s')
  | Err e => copy_throws (copy_inv D1 D2) polls rules s e
  end.
Proof.
  induction polls as [|poll polls IH]; intros rules s Hs Ha Hp; cbn [copy_loop]; [done|].
  destruct Hp as [Hp Hp'].
  assert (Hnd : NoDup rules) by (eapply sublist_NoDup; [apply all_rules_nodup|apply Ha]).
  pose proof (wait_spec (copy_view D1 D2) (copy_contract D1 D2) rules s poll Hnd Hs Hp) as Hw.
  destruct (wait_next_event rules s poll) as [[[res r] s1]|e] eqn:E; cbn [rbind].
  2:{ destruct Hw as (r & s1 & Hc & Hi & Hf & Er). exists poll, polls, rules, s, r, s1. by split. }
  destruct Hw as (Hs1 & Hk & Ha1). cbn [fst snd] in *. pose proof (accounted_trans _ _ _ _ _ _ Ha Ha1 Hk) as Ha2.
  specialize (IH r s1 Hs1 Ha2 (Hp' _ _ _ eq_refl)).
  assert (Hnext : res <> Exit -> match copy_loop polls r s1 with
    | Ok (over, rules', s') => copy_inv D1 D2 s' /\
        (over = true -> (forall q s p, q ∈ poll :: polls -> q s p <> PollFailed true) -> all_copied D1 D2 s')
    | Err e => copy_throws (copy_inv D1 D2) (poll :: polls) rules s e
    end).
  { intros Hne. destruct (copy_loop polls r s1) as [[[over r'] s']|e].
    - destruct IH as [Hs' Hover]. split; [done|]. intros Ho Hint. apply Hover; [done|].
      intros q s2 p Hq. apply Hint. by right.
    - destruct IH as (q & polls' & r' & s' & t & s2 & Hst & H). exists q, polls', r', s', t, s2. split; [|done].
      eapply rtc_l; [by eapply copy_round|done]. }
  destruct res; [by apply Hnext|by apply Hnext|]. split; [done|]. intros _ Hint.
  apply wait_exit in E as (p & b & E & [->|Ei]); [|exfalso; eapply Hint; [by left|exact Ei]].
  eapply copy_idle; [done|done|]. eapply setup_quiet; [|exact E]. apply copy_quiet. apply Ha.
Qed.

Definition open_fd (n : Z) : FDWrapper := mkFDWrapper n false false 0 0.

Lemma copy_start_inv input output socket D1 D2 amounts :
  copy_inv D1 D2 (copy_start (open_fd input) (open_fd output) (open_fd socket) D1 D2 amounts).
Proof. constructor; cbn; try done; apply lane_new. Qed.

Lemma accounted_all D1 D2 s : accounted (copy_view D1 D2) all_rules all_rules s.
Proof. split; [done|]. auto. Qed.

(** What was copied so far is a prefix, and nothing is lost. *)
Definition copied_prefix (stdin from_peer : bytes) (s : copy_state) : Prop :=
  k_to_peer s `prefix_of` stdin /\ k_stdout s `prefix_of` from_peer /\
  k_to_peer s ++ bs_buffer (cs_outbound s) ++ k_stdin s = stdin /\
  k_stdout s ++ bs_buffer (cs_inbound s) ++ k_from_peer s = from_peer.

Lemma copy_inv_prefix stdin from_peer s : copy_inv stdin from_peer s -> copied_prefix stdin from_peer s.
Proof.
  intros [[D1 _ _ _ _] [D2 _ _ _ _] _ _ _ _ _ _]. split; [by eexists|]. split; [by eexists|]. done.
Qed.

(** Copying is faithful.  Whatever amounts the kernel transfers, and however
    often it interrupts or times out, no busy wait is ever detected, and the
    function throws only in a callback that it calls and for which the kernel
    refuses a call; at each moment the peer has received a prefix of the
    standard input and the standard output a prefix of what the peer sent. *)
Theorem stream_copy_safe input output socket stdin from_peer amounts polls :
  let s0 := copy_start (open_fd input) (open_fd output) (open_fd socket) stdin from_peer amounts in
  polls_honest stdin from_peer polls all_rules s0 ->
  match bidirectional_stream_copy polls s0 with
  | Ok (over, rules, s) => copied_prefix stdin from_peer s
  | Err e => copy_throws (copied_prefix stdin from_peer) polls all_rules s0 e
  end.
Proof.
  intros s0 Hp. unfold bidirectional_stream_copy.
  pose proof (copy_loop_spec stdin from_peer polls all_rules s0 (copy_start_inv _ _ _ _ _ _) (accounted_all _ _ s0) Hp) as H.
  destruct (copy_loop polls all_rules s0) as [[[over rules] s]|e]; [by apply copy_inv_prefix, H|].
  destruct H as (q & polls' & r' & s' & t & s2 & H1 & H2 & H3 & H4 & H5). exists q, polls', r', s', t, s2.
  split_and!; try done. by apply copy_inv_prefix.
Qed.

Lemma copy_complete input output socket stdin from_peer amounts polls rules s :
  let s0 := copy_start (open_fd input) (open_fd output) (open_fd socket) stdin from_peer amounts in
  polls_honest stdin from_peer polls all_rules s0 ->
  (forall poll s p, poll ∈ polls -> poll s p <> PollFailed true) ->
  bidirectional_stream_copy polls s0 = Ok (true, rules, s) ->
  k_to_peer s = stdin /\ k_stdout s = from_peer /\
  cs_outbound_shutdown s = true /\ fd_closed (cs_output s) = true.
Proof.
  intros s0 Hp Hint E.
  pose proof (copy_loop_spec stdin from_peer polls all_rules s0 (copy_start_inv _ _ _ _ _ _) (accounted_all _ _ s0) Hp) as H.
  unfold bidirectional_stream_copy in E. rewrite E in H. by apply H.
Qed.

(** Copying is complete.  When the function returns, and no signal made it
    return, all of the standard input has reached the peer and everything the
    peer sent has been printed; the socket was shut down for writing and the
    standard output closed. *)
Theorem stream_copy_complete input output socket stdin from_peer amounts polls rules s :
  let s0 := copy_start (open_fd input) (open_fd output) (open_fd socket) stdin from_peer amounts in
  polls_honest stdin from_peer polls all_rules s0 ->
  (forall poll s p, poll ∈ polls -> poll s p <> PollFailed true) ->
  bidirectional_stream_copy polls s0 = Ok (true, rules, s) ->
  k_to_peer s = stdin /\ k_stdout s = from_peer /\
  cs_outbound_shutdown s = true /\ fd_closed (cs_output s) = true.
Proof. apply copy_complete. Qed.

(** ** Witnesses *)

(** A kernel for which everything asked for is ready. *)
Definition all_ready (s : copy_state) (pollfds : list pollfd) : poll_answer := Polled 1 (map pf_events pollfds).

Lemma all_ready_honest D1 D2 rules s : poll_honest (copy_view D1 D2) rules s all_ready.
Proof.
  intros rules' pollfds s' E. right. pose proof (setup_events _ _ _ _ _ _ E) as He. clear E.
  induction He as [|t p r pollfds Hp He IH]; constructor; [|exact IH]. cbn.
  destruct Hp as [-> | ->]; [done|]. by destruct t.
Qed.

Lemma all_ready_polls D1 D2 n : forall rules s, polls_honest D1 D2 (repeat all_ready n) rules s.
Proof. induction n as [|n IH]; intros rules s; cbn; [done|]. split; [apply all_ready_honest|auto]. Qed.

Definition small_copy : copy_state := copy_start (open_fd 0) (open_fd 1) (open_fd 3) [x61; x62] [x63] [].

(** The second call fails: nothing has been copied, and the exception is that of
    the rule that was called. *)
Lemma stream_copy_safe_witness :
  let s0 := copy_start (open_fd 0) (open_fd 1) (open_fd 3) [x61; x62] [x63] [2; -1] in
  bidirectional_stream_copy (repeat all_ready 2) s0 = Err runtime_error /\
  copy_throws (copied_prefix [x61; x62] [x63]) (repeat all_ready 2) all_rules s0 runtime_error.
Proof.
  intros s0. assert (E : bidirectional_stream_copy (repeat all_ready 2) s0 = Err runtime_error) by (vm_compute; reflexivity).
  split; [exact E|]. pose proof (stream_copy_safe 0 1 3 [x61; x62] [x63] [2; -1] (repeat all_ready 2)) as H.
  cbn zeta in H. fold s0 in H. rewrite E in H. apply H. apply all_ready_polls.
Defined.

Lemma stream_copy_complete_witness :
  exists rules s, bidirectional_stream_copy (repeat all_ready 4) small_copy = Ok (true, rules, s) /\
    k_to_peer s = [x61; x62] /\ k_stdout s = [x63].
Proof.
  destruct (bidirectional_stream_copy (repeat all_ready 4) small_copy) as [[[[] rules] s]|] eqn:E;
    try (vm_compute in E; discriminate).
  destruct (stream_copy_complete 0 1 3 [x61; x62] [x63] [] (repeat all_ready 4) rules s) as (H1 & H2 & _).
  - apply all_ready_polls.
  - intros poll s' p Hp. apply list_elem_of_In, repeat_spec in Hp as ->. discriminate.
  - exact E.
  - exists rules, s. split; [reflexivity|]. split; [exact H1|exact H2].
Defined.

Lemma first_round : exists rules s, wait_next_event all_rules small_copy all_ready = Ok (Success, rules, s).
Proof. do 2 eexists. vm_compute. reflexivity. Qed.

Lemma eventloop_correct_witness :
  exists rules s, wait_next_event all_rules small_copy all_ready = Ok (Success, rules, s) /\
    copy_inv [x61; x62] [x63] s /\ rules `sublist_of` all_rules.
Proof.
  destruct first_round as (rules & s & E). exists rules, s. split; [exact E|].
  pose proof (eventloop_correct (copy_view [x61; x62] [x63]) all_rules small_copy all_ready (copy_contract _ _)
    all_rules_nodup (copy_start_inv _ _ _ _ _ _) (all_ready_honest _ _ _ _)) as H.
  rewrite E in H. destruct H as (H1 & H2 & _). split; [exact H1|exact H2].
Defined.

Lemma eventloop_exit_witness :
  exists rules s, wait_next_event [rule2] small_copy all_ready = Ok (Exit, rules, s) /\
    forall t, t ∈ rules -> rule_interest t s = false.
Proof.
  destruct (eventloop_exit [rule2] [rule2] small_copy small_copy all_ready) as [(p & E)|H].
  - apply copy_quiet. unfold all_rules. do 2 constructor. apply sublist_nil_l.
  - reflexivity.
  - discriminate.
  - exists [rule2], small_copy. split; [reflexivity|exact H].
Defined.

Lemma eventloop_ignores_poll_errors_witness :
  wait_next_event [rule1] small_copy (fun _ _ => PollFailed false) = Ok (Success, [rule1], small_copy).
Proof.
  apply (eventloop_ignores_poll_errors [rule1] [rule1] [mkPollfd 0 POLLIN 0]); [reflexivity|by repeat constructor].
Defined.
