(* ===== verification/SpongeSocket.v ===== *)
(** * A TCP socket in user space

    [libsponge/tcp_helpers/tcp_sponge_socket.hh] and [.cc]: a connection whose
    bytes go to and come from its owner through a local socket and whose segments
    go through a datagram adapter, driven by four rules of an event loop.

    The template parameter is an adapter of the class [FdAdapter].  The state
    [sponge] has the members of the object and the kernel's side of its
    descriptors: what the owner writes before it shuts its end down, what was
    written to the owner, what the device delivers and what was put on it, and
    the kernel's answers to the coming calls. *)
From S2P Require Import Prelude WrappingIntegers ByteStream StreamReassembler Buffer Parser Checksum TCPSegment IPv4 Ethernet TCPReceiver TCPSender TCPConnection Outgoing Duplex Address NetworkInterface Adapters FileDescriptor AdapterSafety Socket EventLoop.

(** [C] is the type of [_tcp]: an option for the object, the connection itself
    while the rules run. *)
Record sponge (A I O C : Type) : Type := mkSponge {
  ss_owner : FDWrapper;
  ss_thread_data : FDWrapper;
  ss_adapter_fd : FDWrapper;
  ss_adapter : A;
  ss_tcp : C;
  ss_inbound_shutdown : bool;
  ss_outbound_shutdown : bool;
  ss_fully_acked : bool;
  k_from_owner : bytes;
  k_to_owner : bytes;
  k_owner_shut : bool;
  k_device : list I;
  k_wire : list O;
  k_amounts : list Z }.
Arguments mkSponge {A I O C}.
Arguments ss_owner {A I O C}.
Arguments ss_thread_data {A I O C}.
Arguments ss_adapter_fd {A I O C}.
Arguments ss_adapter {A I O C}.
Arguments ss_tcp {A I O C}.
Arguments ss_inbound_shutdown {A I O C}.
Arguments ss_outbound_shutdown {A I O C}.
Arguments ss_fully_acked {A I O C}.
Arguments k_from_owner {A I O C}.
Arguments k_to_owner {A I O C}.
Arguments k_owner_shut {A I O C}.
Arguments k_device {A I O C}.
Arguments k_wire {A I O C}.
Arguments k_amounts {A I O C}.

(** The rules, by their numbers in the comments: incoming datagrams, bytes of the
    owner, bytes for the owner, outgoing segments. *)
Inductive sponge_rule : Type := datagram_in | bytes_out | bytes_in | segments_out.
#[global] Instance sponge_rule_eq_dec : EqDecision sponge_rule.
Proof. solve_decision. Defined.

Definition sponge_rules : list sponge_rule := [datagram_in; bytes_out; bytes_in; segments_out].

Section socket.
Context {A I O : Type} {FA : FdAdapter A I O}.
Abbreviation running := (sponge A I O TCPConnection).

Definition with_tcp {C C'} (c : C') (s : sponge A I O C) : sponge A I O C' :=
  mkSponge (ss_owner s) (ss_thread_data s) (ss_adapter_fd s) (ss_adapter s) c (ss_inbound_shutdown s)
    (ss_outbound_shutdown s) (ss_fully_acked s) (k_from_owner s) (k_to_owner s) (k_owner_shut s) (k_device s)
    (k_wire s) (k_amounts s).

(** The adapter was used: each datagram it put on the device counts as a write. *)
Definition with_adapter {C} (fd : FDWrapper) (a : A) (device : list I) (out : list O) (s : sponge A I O C)
    : sponge A I O C :=
  mkSponge (ss_owner s) (ss_thread_data s) (Nat.iter (length out) register_write fd) a (ss_tcp s)
    (ss_inbound_shutdown s) (ss_outbound_shutdown s) (ss_fully_acked s) (k_from_owner s) (k_to_owner s)
    (k_owner_shut s) device (k_wire s ++ out) (k_amounts s).

(** The kernel has answered some calls. *)
Definition with_amounts {C} (amounts : list Z) (s : sponge A I O C) : sponge A I O C :=
  mkSponge (ss_owner s) (ss_thread_data s) (ss_adapter_fd s) (ss_adapter s) (ss_tcp s)
    (ss_inbound_shutdown s) (ss_outbound_shutdown s) (ss_fully_acked s) (k_from_owner s) (k_to_owner s)
    (k_owner_shut s) (k_device s) (k_wire s) amounts.

Definition set_fully_acked (s : running) : running :=
  mkSponge (ss_owner s) (ss_thread_data s) (ss_adapter_fd s) (ss_adapter s) (ss_tcp s) (ss_inbound_shutdown s)
    (ss_outbound_shutdown s) true (k_from_owner s) (k_to_owner s) (k_owner_shut s) (k_device s) (k_wire s)
    (k_amounts s).

(** [_outbound_shutdown = true]. *)
Definition set_outbound_shutdown (s : running) : running :=
  mkSponge (ss_owner s) (ss_thread_data s) (ss_adapter_fd s) (ss_adapter s) (ss_tcp s) (ss_inbound_shutdown s)
    true (ss_fully_acked s) (k_from_owner s) (k_to_owner s) (k_owner_shut s) (k_device s) (k_wire s)
    (k_amounts s).

(** ** The rules *)

(** [_datagram_adapter.read()]; it does not return while the device has nothing
    to deliver.  The read, and each datagram that is written, is a call. *)
Definition read_adapter (s : running) : result (running * option TCPSegment) :=
  match k_device s with
  | [] => Err undefined_behaviour
  | i :: device =>
      let* amounts := kernel_calls 1 (k_amounts s) in
      let* (x, out) := adapter_read (ss_adapter s) i in
      let (a, seg) := (x : A * option TCPSegment) in
      let* amounts := kernel_calls (length out) amounts in
      let fd := register_read (if adapter_eof (A := A) (O := O) i then set_eof (ss_adapter_fd s) else ss_adapter_fd s) in
      Ok (with_amounts amounts (with_adapter fd a device out s), seg)
  end.

Definition on_datagram (s : running) : result running :=
  let* (s, seg) := read_adapter s in
  let* s :=
    match seg with
    | Some seg => let* c := tc_segment_received (ss_tcp s) seg in Ok (with_tcp c s)
    | None => Ok s
    end in
  Ok (if fd_eof (ss_thread_data s) && (tc_bytes_in_flight (ss_tcp s) =? 0) && negb (ss_fully_acked s)
      then set_fully_acked s else s).

Definition on_owner_bytes (s : running) : result running :=
  let limit := tc_remaining_outbound_capacity (ss_tcp s) in
  let* (fd, data) := fd_read (ss_thread_data s) limit (kernel_read (k_amounts s) (k_from_owner s) limit) in
  let len := zlen data in
  let (c, amount_written) := tc_write (ss_tcp s) data in
  if negb (amount_written =? len) then Err runtime_error
  else
    let s := mkSponge (ss_owner s) fd (ss_adapter_fd s) (ss_adapter s) c (ss_inbound_shutdown s)
               (ss_outbound_shutdown s) (ss_fully_acked s) (zdrop len (k_from_owner s)) (k_to_owner s)
               (k_owner_shut s) (k_device s) (k_wire s) (tl (k_amounts s)) in
    Ok (if fd_eof fd then set_outbound_shutdown (with_tcp (tc_end_input_stream c) s) else s).

(** Writing after the direction was shut down fails. *)
Definition on_bytes_for_owner (s : running) : result running :=
  let inbound := inbound_stream (ss_tcp s) in
  let amount_to_write := Z.min 65536 (buffer_size inbound) in
  let buffer := peek_output inbound amount_to_write in
  if k_owner_shut s then Err runtime_error
  else
    let* (fd, bytes_written) := write_some (k_amounts s) (ss_thread_data s) buffer in
    let inbound := pop_output inbound bytes_written in
    let c := tc_with_receiver (ss_tcp s) (rx_with_stream_out (tc_receiver (ss_tcp s)) inbound) in
    let over := eof inbound || stream_error inbound in
    let* fd := if over then Socket_shutdown fd SHUT_WR (negb (refuses 1 (tl (k_amounts s)))) else Ok fd in
    Ok (mkSponge (ss_owner s) fd (ss_adapter_fd s) (ss_adapter s) c
          (if over then true else ss_inbound_shutdown s) (ss_outbound_shutdown s) (ss_fully_acked s)
          (k_from_owner s) (k_to_owner s ++ ztake bytes_written buffer) (if over then true else k_owner_shut s)
          (k_device s) (k_wire s) (drop (if over then 2 else 1) (k_amounts s))).

(** The loop over the queue: the adapter and what it put on the device. *)
Fixpoint send_queue (a : A) (queue : list TCPSegment) : result (A * list O) :=
  match queue with
  | [] => Ok (a, [])
  | seg :: queue =>
      let* (x, out) := adapter_write a seg in
      let* (a, out') := send_queue (fst x) queue in
      Ok (a, out ++ out')
  end.

Definition on_segments (s : running) : result running :=
  let* (a, out) := send_queue (ss_adapter s) (tc_segments_out (ss_tcp s)) in
  let* amounts := kernel_calls (length out) (k_amounts s) in
  Ok (with_amounts amounts
        (with_adapter (ss_adapter_fd s) a (k_device s) out (with_tcp (tc_with_out (ss_tcp s) []) s))).

Definition end_outbound_stream (s : running) : running :=
  set_outbound_shutdown (with_tcp (tc_end_input_stream (ss_tcp s)) s).

#[global] Instance sponge_RuleSet : RuleSet sponge_rule running := {
  rule_fd r s := match r with datagram_in | segments_out => ss_adapter_fd s | bytes_out | bytes_in => ss_thread_data s end;
  rule_direction r := match r with datagram_in | bytes_out => In | bytes_in | segments_out => Out end;
  rule_callback r :=
    match r with
    | datagram_in => on_datagram
    | bytes_out => on_owner_bytes
    | bytes_in => on_bytes_for_owner
    | segments_out => on_segments
    end;
  rule_interest r s :=
    match r with
    | datagram_in => tc_active (ss_tcp s)
    | bytes_out => tc_active (ss_tcp s) && negb (ss_outbound_shutdown s) && (0 <? tc_remaining_outbound_capacity (ss_tcp s))
    | bytes_in => negb (buffer_empty (inbound_stream (ss_tcp s))) ||
        ((eof (inbound_stream (ss_tcp s)) || stream_error (inbound_stream (ss_tcp s))) && negb (ss_inbound_shutdown s))
    | segments_out => negb (bool_decide (tc_segments_out (ss_tcp s) = []))
    end;
  rule_cancel r s := Ok match r with bytes_out => end_outbound_stream s | _ => s end }.

(** ** The loop *)

(** One round of the loop: what [poll] answers, whether the owner has asked to
    abort, and the time after the events were handled. *)
Record round : Type := mkRound {
  ro_poll : running -> list pollfd -> poll_answer;
  ro_abort : bool;
  ro_time : Z }.

(** The clock ticks for the connection and the adapter while it is active. *)
Definition tick_both (ms : Z) (s : running) : result running :=
  let* c := tc_tick (ss_tcp s) ms in
  let (a, out) := adapter_tick (ss_adapter s) ms in
  let* amounts := kernel_calls (length out) (k_amounts s) in
  Ok (with_amounts amounts (with_adapter (ss_adapter_fd s) a (k_device s) out (with_tcp c s))).

(** Along the rounds: whether the loop has ended, the time of the last tick, the
    rules left and the state. *)
Fixpoint tcp_loop (condition : running -> bool) (base_time : Z) (rounds : list round) (rules : list sponge_rule)
    (s : running) : result (bool * Z * list sponge_rule * running) :=
  if condition s then
    match rounds with
    | [] => Ok (false, base_time, rules, s)
    | r :: rounds =>
        let* (x, s) := wait_next_event rules s (ro_poll r) in
        let (ret, rules) := (x : LoopResult * list sponge_rule) in
        if (match ret with Exit => true | _ => false end) || ro_abort r then Ok (true, base_time, rules, s)
        else if tc_active (ss_tcp s) then
          let* s := tick_both (ro_time r -! base_time) s in
          tcp_loop condition (ro_time r) rounds rules s
        else tcp_loop condition base_time rounds rules s
    end
  else Ok (true, base_time, rules, s).

(** ** The object *)

(** The event loop's rules, and whether the thread was started and not joined. *)
Record TCPSpongeSocket : Type := mkTCPSpongeSocket {
  so_state : sponge A I O (option TCPConnection);
  so_rules : list sponge_rule;
  so_joinable : bool }.

(** The constructor: [fcntl] answers [flags] and accepts the new flags if
    [setfl]. *)
Definition new_TCPSpongeSocket (first second adapter_fd : FDWrapper) (datagram_interface : A)
    (so_domain so_type : option (Z * Z)) (flags : option Z) (setfl : Z -> bool)
    (from_owner : bytes) (device : list I) (amounts : list Z) : result TCPSpongeSocket :=
  let* first := LocalStreamSocket_of_fd first so_domain so_type in
  let* second := LocalStreamSocket_of_fd second so_domain so_type in
  let* _ := set_blocking false flags setfl in
  Ok (mkTCPSpongeSocket
        (mkSponge first second adapter_fd datagram_interface None false false false from_owner [] false device []
           amounts) [] false).

Definition initialize_TCP (config : TCPConfig) (so : TCPSpongeSocket) : running * list sponge_rule :=
  (with_tcp (new_TCPConnection config) (so_state so), fold_left add_rule sponge_rules (so_rules so)).

(** [_datagram_adapter.config_mut() = c_ad]. *)
Definition set_config (c_ad : FdAdapterConfig) (listening : bool) (s : running) : running :=
  let base := adapter_base (ss_adapter s) in
  let a := adapter_set_base (ss_adapter s) (mkFdAdapterBase c_ad (if listening then true else fa_listen base)) in
  with_adapter (ss_adapter_fd s) a (k_device s) [] s.

Definition in_state (st : State) (s : running) : bool := bool_decide (tc_state (ss_tcp s) = TCPState_of st).

(** What the thread runs next: the loop of [connect] or [listen_and_accept] has
    ended, or not yet. *)
Definition start_thread (x : bool * Z * list sponge_rule * running) : bool * Z * TCPSpongeSocket :=
  let '(over, t, rules, s) := x in (over, t, mkTCPSpongeSocket (with_tcp (Some (ss_tcp s)) s) rules over).

Definition connect (so : TCPSpongeSocket) (c_tcp : TCPConfig) (c_ad : FdAdapterConfig) (base_time : Z)
    (rounds : list round) : result (bool * Z * TCPSpongeSocket) :=
  match ss_tcp (so_state so) with
  | Some _ => Err runtime_error
  | None =>
      let (s, rules) := initialize_TCP c_tcp so in
      let s := set_config c_ad false s in
      let s := with_tcp (tc_connect (ss_tcp s)) s in
      if negb (in_state SYN_SENT s) then Err runtime_error
      else
        let* x := tcp_loop (in_state SYN_SENT) base_time rounds rules s in
        Ok (start_thread x)
  end.

Definition listen_and_accept (so : TCPSpongeSocket) (c_tcp : TCPConfig) (c_ad : FdAdapterConfig) (base_time : Z)
    (rounds : list round) : result (bool * Z * TCPSpongeSocket) :=
  match ss_tcp (so_state so) with
  | Some _ => Err runtime_error
  | None =>
      let (s, rules) := initialize_TCP c_tcp so in
      let s := set_config c_ad true s in
      let* x := tcp_loop (fun s => in_state LISTEN s || in_state SYN_RCVD s || in_state SYN_SENT s)
                  base_time rounds rules s in
      Ok (start_thread x)
  end.

(** The thread: [shutdown] is that of the owner's socket, and what the destructor
    of the connection queues goes with it. *)
Definition tcp_main (so : TCPSpongeSocket) (base_time : Z) (rounds : list round) : result (bool * TCPSpongeSocket) :=
  match ss_tcp (so_state so) with
  | None => Err runtime_error
  | Some c =>
      let* (x, s) := tcp_loop (fun _ => true) base_time rounds (so_rules so) (with_tcp c (so_state so)) in
      let '(over, _, rules) := (x : bool * Z * list sponge_rule) in
      if over then
        let* owner := Socket_shutdown (ss_owner s) SHUT_RDWR (negb (refuses 1 (k_amounts s))) in
        let _ := tc_destroy (ss_tcp s) in
        Ok (true, mkTCPSpongeSocket
          (mkSponge owner (ss_thread_data s) (ss_adapter_fd s) (ss_adapter s) None (ss_inbound_shutdown s)
             (ss_outbound_shutdown s) (ss_fully_acked s) (k_from_owner s) (k_to_owner s) (k_owner_shut s)
             (k_device s) (k_wire s) (tl (k_amounts s))) rules (so_joinable so))
      else Ok (false, mkTCPSpongeSocket (with_tcp (Some (ss_tcp s)) s) rules (so_joinable so))
  end.

(** [_tcp_thread.join()]. *)
Definition join (so : TCPSpongeSocket) (base_time : Z) (rounds : list round) : result (bool * TCPSpongeSocket) :=
  let* (over, so) := tcp_main so base_time rounds in
  Ok (over, mkTCPSpongeSocket (so_state so) (so_rules so) (if over then false else so_joinable so)).

(** The owner gives up both directions, so that nothing can be written to it. *)
Definition owner_shutdown (so : TCPSpongeSocket) : result TCPSpongeSocket :=
  let s := so_state so in
  let* owner := Socket_shutdown (ss_owner s) SHUT_RDWR (negb (refuses 1 (k_amounts s))) in
  Ok (mkTCPSpongeSocket
    (mkSponge owner (ss_thread_data s) (ss_adapter_fd s) (ss_adapter s) (ss_tcp s) (ss_inbound_shutdown s)
       (ss_outbound_shutdown s) (ss_fully_acked s) (k_from_owner s) (k_to_owner s) true
       (k_device s) (k_wire s) (tl (k_amounts s))) (so_rules so) (so_joinable so)).

Definition wait_until_closed (so : TCPSpongeSocket) (base_time : Z) (rounds : list round)
    : result (bool * TCPSpongeSocket) :=
  let* so := owner_shutdown so in
  if so_joinable so then join so base_time rounds else Ok (true, so).

(** The destructor: from now on the thread sees the request to abort. *)
Definition aborting (r : round) : round := mkRound (ro_poll r) true (ro_time r).
Definition socket_destroy (so : TCPSpongeSocket) (base_time : Z) (rounds : list round)
    : result (bool * TCPSpongeSocket) :=
  if so_joinable so then join so base_time (map aborting rounds) else Ok (true, so).
End socket.

(** ** The sockets for TUN and TAP devices *)

(** A default configuration but for the timeout, and a random source port. *)
Definition fast_TCPConfig (isn : WrappingInt32) : TCPConfig := mkTCPConfig 100 64000 64000 isn.
Definition multiplexer_config (source_ip random : Z) (destination : Address) : FdAdapterConfig :=
  mkFdAdapterConfig (Address_numeric source_ip (u16 random)) destination 0 0.

(** 169.254.144.9 *)
Definition CS144_IP_ADDRESS : Z := 2852032521.
(** 169.254.10.9 and 169.254.10.1 *)
Definition LOCAL_TAP_IP_ADDRESS : Z := 2851998217.
Definition LOCAL_TAP_NEXT_HOP_ADDRESS : Z := 2851998209.

Definition CS144TCPSocket_connect (so : TCPSpongeSocket (A := TCPOverIPv4OverTunFdAdapter) (I := bytes) (O := bytes))
    (address : Address) (random : Z) (isn : WrappingInt32) (base_time : Z) (rounds : list round) :=
  connect so (fast_TCPConfig isn) (multiplexer_config CS144_IP_ADDRESS random address) base_time rounds.

Definition FullStackSocket_connect (so : TCPSpongeSocket (A := TCPOverIPv4OverEthernetAdapter) (I := bytes) (O := bytes))
    (address : Address) (random : Z) (isn : WrappingInt32) (base_time : Z) (rounds : list round) :=
  connect so (fast_TCPConfig isn) (multiplexer_config LOCAL_TAP_IP_ADDRESS random address) base_time rounds.

(** [random] is what the random device returns for each of the six bytes. *)
Definition random_private_ethernet_address (random : list Z) : EthernetAddress :=
  match map u8 random with
  | [] => []
  | b :: addr => Z.land (Z.lor b 2) 254 :: addr
  end.

(** The adapter of [FullStackSocket]. *)
Definition FullStackSocket_adapter (random : list Z) : TCPOverIPv4OverEthernetAdapter * list bytes :=
  new_EthernetAdapter (random_private_ethernet_address random) (Address_numeric LOCAL_TAP_IP_ADDRESS 0)
    (Address_numeric LOCAL_TAP_NEXT_HOP_ADDRESS 0).

(** The random address is an Ethernet address of the private range: locally
    administered, and of one station. *)
Theorem random_address_private random : length random = 6%nat ->
  ea_ok (random_private_ethernet_address random) /\
  exists b addr, random_private_ethernet_address random = b :: addr /\ Z.testbit b 1 = true /\ Z.testbit b 0 = false.
Proof.
  intros Hl. destruct random as [|r random]; [done|]. unfold random_private_ethernet_address. cbn [map].
  set (b := Z.land (Z.lor (u8 r) 2) 254). assert (Hb : 0 <= b < W8).
  { assert (Hlor : 0 <= Z.lor (u8 r) 2) by (apply Z.lor_nonneg; split; [apply u8_range|lia]).
    split; [apply Z.land_nonneg; by right|]. unfold b. rewrite <- (Z2N.id (Z.lor (u8 r) 2)) by done.
    change 254 with (Z.of_N 254). rewrite <- N2Z.inj_land. pose proof (N.land_le_r (Z.to_N (Z.lor (u8 r) 2)) 254). lia. }
  split.
  - split; [cbn in *; by rewrite length_map|]. constructor; [done|]. apply Forall_fmap, Forall_true. intros x. apply u8_range.
  - exists b, (map u8 random). split; [done|]. unfold b. rewrite !Z.land_spec, !Z.lor_spec. cbn. split; [|by rewrite andb_false_r].
    by rewrite orb_true_r.
Qed.

Lemma random_address_private_witness : ea_ok (random_private_ethernet_address [255; 1; 2; 3; 4; 511]).
Proof. apply (random_address_private [255; 1; 2; 3; 4; 511]). reflexivity. Defined.
