(* ===== verification/SpongeSafety.v ===== *)
(** * The socket is faithful to its owner and its connection

    Whatever the device delivers and however the kernel splits the transfers, the
    rules of [TCPSpongeSocket] do nothing but drive the connection through its
    operations: the bytes of the owner are written to it in order and none is
    lost, and the owner gets what is read from it. *)
From S2P Require Import Prelude WrappingIntegers ByteStream StreamReassembler Buffer Parser Checksum TCPSegment IPv4 Ethernet TCPReceiver TCPSender Transfer TCPConnection Outgoing Duplex Address NetworkInterface Adapters FileDescriptor AdapterSafety Socket EventLoop SpongeSocket.

(** ** Runs of a connection *)

(** What a run of operations writes to the connection and reads from it. *)
Definition op_written (o : tc_op) : bytes := match o with CWrite d => d | _ => [] end.
Definition written (os : list tc_op) : bytes := concat (map op_written os).

Fixpoint reads_of (c : TCPConnection) (os : list tc_op) : bytes :=
  match os with
  | [] => []
  | o :: os =>
      (match o with CRead n => (read (inbound_stream c) n).2 | _ => [] end) ++
      match tc_step c o with Ok c => reads_of c os | Err _ => [] end
  end.

Lemma tc_run_app os : forall c c1 os' c2,
  tc_run c os = Ok c1 -> tc_run c1 os' = Ok c2 ->
  tc_run c (os ++ os') = Ok c2 /\ reads_of c (os ++ os') = reads_of c os ++ reads_of c1 os'.
Proof.
  induction os as [|o os IH]; intros c c1 os' c2 E1 E2; cbn [tc_run app reads_of] in *.
  { injection E1 as <-. done. }
  destruct (tc_step c o) as [c'|]; [|done]. cbn [rbind] in *. destruct (IH _ _ _ _ E1 E2) as [-> ->].
  by rewrite app_assoc.
Qed.

Lemma written_app os os' : written (os ++ os') = written os ++ written os'.
Proof. unfold written. by rewrite map_app, concat_app. Qed.

(** [c] was reached from [c0] by operations that wrote [D] but for [left] and
    read [got]. *)
Definition driven (c0 : TCPConnection) (D left got : bytes) (c : TCPConnection) : Prop :=
  exists os, tc_run c0 os = Ok c /\ written os ++ left = D /\ reads_of c0 os = got.

Lemma driven_run c0 D left got c os c' w left' got' :
  driven c0 D left got c -> tc_run c os = Ok c' -> written os = w -> left = w ++ left' ->
  got' = got ++ reads_of c os -> driven c0 D left' got' c'.
Proof.
  intros (os0 & E & Hw & Hr) E' <- -> ->. destruct (tc_run_app _ _ _ _ _ E E') as [E2 Hr2].
  exists (os0 ++ os). split; [done|]. rewrite written_app, <- app_assoc. split; [done|]. by rewrite Hr2, Hr.
Qed.

(** An operation that neither writes nor reads. *)
Lemma driven_op c0 D left got c o c' :
  driven c0 D left got c -> tc_step c o = Ok c' ->
  match o with CWrite _ | CRead _ => False | _ => True end -> driven c0 D left got c'.
Proof.
  intros Hd E Ho. eapply (driven_run _ _ _ _ _ [o] c' []); [exact Hd|cbn; by rewrite E| |done|].
  - by destruct o.
  - cbn. rewrite E. destruct o; by rewrite ?app_nil_r.
Qed.

(** ** The connection of a socket *)

(** [D] is what the owner writes, of which [left] is still to come, and [got]
    what the owner received. *)
Record conn_ok (cfg : TCPConfig) (D left got : bytes) (c : TCPConnection) : Prop := {
  cn_inv : exists S, tc_inv c S (got ++ bs_buffer (inbound_stream c)) /\ S ++ left = D;
  cn_sendable : tc_sendable c;
  cn_room : zlen D + 4 * W32 < W64;
  cn_ended : tc_ended c = true -> left = [];
  cn_capacity : rx_capacity (tc_receiver c) = cfg_recv_capacity cfg;
  cn_trace : driven (new_TCPConnection cfg) D left got c }.

(** The operations that made the connection; once its output has ended, all of
    [D] was written. *)
Lemma conn_driven cfg D left got c : conn_ok cfg D left got c ->
  exists os, tc_run (new_TCPConnection cfg) os = Ok c /\ written os ++ left = D /\
    (tc_ended c = true -> written os = D) /\ reads_of (new_TCPConnection cfg) os = got.
Proof.
  intros [_ _ _ He _ (os & E1 & E2 & E3)]. exists os. split; [done|]. split; [done|]. split; [|done].
  intros H. rewrite (He H), app_nil_r in E2. done.
Qed.

(** What an operation other than reading leaves of the inbound stream. *)
Definition inbound_grows (c c' : TCPConnection) (w : bytes) : Prop :=
  bs_buffer (inbound_stream c') = bs_buffer (inbound_stream c) ++ w /\
  (bs_is_ended (inbound_stream c) = true -> bs_is_ended (inbound_stream c') = true) /\
  (bs_error (inbound_stream c) = true -> bs_error (inbound_stream c') = true).

Lemma inbound_same c c' : tc_receiver c' = tc_receiver c -> inbound_grows c c' [].
Proof. unfold inbound_grows, inbound_stream. intros ->. by rewrite app_nil_r. Qed.
Lemma inbound_failed c c' : tc_receiver c' = rx_failed (tc_receiver c) -> inbound_grows c c' [].
Proof. unfold inbound_grows, inbound_stream. intros ->. rewrite app_nil_r. by cbn. Qed.

Lemma write_nil st : bs_ok st -> 0 <= bs_written_length st < W64 -> (write st []).1 = st.
Proof.
  intros Ho Hw. rewrite write_eq by done. unfold accepted, ztake. rewrite take_nil, app_nil_r.
  change (zlen []) with 0. rewrite Z.add_0_r, u64_id by done. by destruct st.
Qed.

(** Reading no more than there is. *)
Lemma read_pop st n : 0 <= n <= buffer_size st -> read st n = (pop_output st n, ztake n (bs_buffer st)).
Proof. intros Hn. unfold read, peek_output. repeat zcase; try lia. done. Qed.

Section connection.
Context (cfg : TCPConfig) (Hcfg : TCPConnection.cfg_ok cfg) (D : bytes).

Lemma conn_new : zlen D + 4 * W32 < W64 -> conn_ok cfg D D [] (new_TCPConnection cfg).
Proof.
  intros Hr. destruct Hcfg as (H1 & H2 & H3). constructor; try done.
  - exists []. split; [by apply new_TCPConnection_inv|done].
  - by exists [].
Qed.

Lemma conn_step left got c o c' :
  conn_ok cfg D left got c -> tc_step c o = Ok c' ->
  match o with CWrite _ | CRead _ => False | _ => True end ->
  (exists S, tc_inv c' S (got ++ bs_buffer (inbound_stream c')) /\ S ++ left = D) ->
  (tc_ended c' = true -> left = []) -> rx_capacity (tc_receiver c') = rx_capacity (tc_receiver c) ->
  conn_ok cfg D left got c'.
Proof.
  intros [Hi Hs Hr He Hc Ht] E Ho Hi' He' Hc'. constructor; try done.
  - by eapply tc_step_sendable.
  - congruence.
  - by eapply driven_op.
Qed.

Lemma conn_connect left got c : conn_ok cfg D left got c -> conn_ok cfg D left got (tc_connect c).
Proof.
  intros Hc. pose proof Hc as [(S & Hi & HS) _ _ He _ _].
  eapply (conn_step left got c CConnect); [done|done|done| |by rewrite connect_ended|done].
  exists S. split; [|done]. by apply connect_inv in Hi.
Qed.

Lemma conn_end got c : conn_ok cfg D [] got c ->
  conn_ok cfg D [] got (tc_end_input_stream c) /\ tc_ended (tc_end_input_stream c) = true.
Proof.
  intros Hc. pose proof Hc as [(S & [Ht Hr] & HS) _ _ _ _ _]. split.
  - eapply (conn_step [] got c CEnd); [done|done|done| |done|done].
    exists S. split; [|done]. apply connect_inv. constructor; [by apply tx_end_input_inv|done].
  - unfold tc_end_input_stream. by rewrite connect_ended.
Qed.

Lemma conn_tick left got c ms : conn_ok cfg D left got c -> 0 <= ms ->
  exists c', tc_tick c ms = Ok c' /\ conn_ok cfg D left got c' /\ inbound_grows c c' [].
Proof.
  intros Hc Hms. pose proof Hc as [(S & Hi & HS) _ _ He _ _].
  assert (Hi' : exists c', tc_tick c ms = Ok c' /\ tc_inv c' S (got ++ bs_buffer (inbound_stream c))).
  { destruct Hi as [Ht Hr]. destruct (tx_tick_spec _ _ ms Ht Hms) as (t & E & Ht' & _). unfold tc_tick. rewrite E.
    cbn [rbind]. set (c1 := if _ && _ then _ else _).
    assert (H1 : tc_inv c1 S (got ++ bs_buffer (inbound_stream c))) by (unfold c1; destruct (_ && _); by constructor).
    clearbody c1. case_match; (eexists; split; [reflexivity|]); by auto with sponge. }
  destruct Hi' as (c' & E & Hi'). exists c'. split; [done|].
  assert (Hg : inbound_grows c c' []).
  { destruct (tick_receiver c ms c' E); [by apply inbound_same|by apply inbound_failed]. }
  split; [|done]. destruct Hg as (Hb & _). rewrite app_nil_r in Hb.
  eapply (conn_step left got c (CTick ms)); [done|done|done| |by rewrite (tick_ended _ _ _ E)|].
  - exists S. by rewrite Hb.
  - by destruct (tick_receiver c ms c' E) as [-> | ->].
Qed.

Lemma conn_segment left got c seg :
  conn_ok cfg D left got c -> seg_in_ok seg ->
  zlen (got ++ bs_buffer (inbound_stream c)) + cfg_recv_capacity cfg + 4 * W32 < W64 ->
  exists c' w, tc_segment_received c seg = Ok c' /\ conn_ok cfg D left got c' /\ inbound_grows c c' w /\
    zlen w <= cfg_recv_capacity cfg /\ tc_ended c' = tc_ended c.
Proof.
  intros Hc Hs Hroom. pose proof Hc as [(S & [Ht Hr] & HS) _ _ He Hcap _]. pose proof Hs as (Hq & _ & _ & Hp).
  destruct (rx_segment_wf (tc_receiver c) _ seg Hr) as (r & w & E & Hr' & _ & Hg); [|done|lia|].
  { unfold rx_room. by rewrite Hcap. }
  destruct Hg as (G1 & G2 & G3 & G4). unfold tc_segment_received. cbn [tc_receiver tc_with_time]. rewrite E.
  cbn [rbind]. set (c1 := tc_with_receiver (tc_with_time c 0) r). exists (tc_after_receiver c1 seg), w.
  split; [done|]. pose proof (after_receiver_receiver c1 seg) as Hrec. change (tc_receiver c1) with r in Hrec.
  assert (Hgrow : inbound_grows c (tc_after_receiver c1 seg) w).
  { unfold inbound_grows, inbound_stream. rewrite Hrec. destruct (th_rst (header seg)); cbn; split_and!; try done.
    by rewrite G3. }
  assert (Hend : tc_ended (tc_after_receiver c1 seg) = tc_ended c) by (by rewrite after_receiver_ended).
  assert (Hi' : tc_inv (tc_after_receiver c1 seg) S ((got ++ bs_buffer (inbound_stream c)) ++ w)).
  { apply tc_after_receiver_inv; [|done]. by constructor. }
  split; [|split; [done|split; [|done]]].
  - eapply (conn_step left got c (CSegment seg)); [done| |done| |by rewrite Hend|].
    + cbn [tc_step]. unfold tc_segment_received. cbn [tc_receiver tc_with_time]. by rewrite E.
    + exists S. destruct Hgrow as (-> & _). by rewrite app_assoc.
    + rewrite Hrec. by destruct (th_rst (header seg)).
  - destruct Hr' as [Hra Hcap' _]. destruct (ri_out _ _ Hra) as (_ & Hb & _).
    unfold rx_stream_out, stream_out in G2. rewrite (ri_cap _ _ Hra), <- Hcap', G1, Hcap in Hb.
    unfold buffer_size in Hb. rewrite G2, zlen_app in Hb. zpos. lia.
Qed.

Lemma conn_write data left got c :
  conn_ok cfg D (data ++ left) got c -> zlen data <= tc_remaining_outbound_capacity c ->
  exists c', tc_write c data = (c', zlen data) /\ conn_ok cfg D left got c' /\ tc_receiver c' = tc_receiver c /\
    tc_ended c' = tc_ended c.
Proof.
  intros Hc Hl. pose proof Hc as [(S & [Ht Hr] & HS) Hse Hroom He Hcap Htr].
  pose proof (so_ok _ _ (ti_stream _ _ Ht)) as Hok. set (st := tx_stream (tc_sender c)) in *.
  change (zlen data <= remaining_capacity st) in Hl. rewrite (remaining_capacity_eq st Hok) in Hl.
  assert (Hacc : accepted st data = data) by (apply write_fits; [done|lia]).
  assert (Hw : write st data = ((write st data).1, zlen data)) by (rewrite write_eq by done; by rewrite Hacc).
  exists (tc_write c data).1. assert (Ew : tc_write c data = ((tc_write c data).1, zlen data)).
  { unfold tc_write. fold st. rewrite Hw. done. }
  assert (Hend : tc_ended (tc_write c data).1 = tc_ended c).
  { unfold tc_write. fold st. rewrite Hw. cbn [fst]. rewrite connect_ended. unfold tc_ended. cbn.
    by rewrite write_eq by done. }
  assert (Hrc : tc_receiver (tc_write c data).1 = tc_receiver c).
  { unfold tc_write. fold st. by rewrite Hw. }
  split; [done|]. split; [|done]. constructor; try done.
  - unfold inbound_stream. rewrite Hrc. fold (inbound_stream c). exists (S ++ data). rewrite <- app_assoc.
    split; [|done]. unfold tc_write. fold st. rewrite Hw. cbn [fst]. apply connect_inv. constructor; [|done].
    destruct (tc_ended c) eqn:Ee.
    + specialize (He eq_refl). apply app_eq_nil in He as [-> _]. rewrite app_nil_r.
      assert (Hst : (write st []).1 = st).
      { apply write_nil; [done|]. unfold st; rewrite (so_written _ _ (ti_stream _ _ Ht)). pose proof (ti_room _ _ Ht). zpos. lia. }
      rewrite Hst. unfold st. by destruct (tc_sender c).
    + assert (Hlen : zlen D = zlen S + zlen data + zlen left) by (rewrite <- HS, !zlen_app; lia). zpos.
      destruct (tx_write_inv _ S data Ht Ee ltac:(lia)) as (w & A & B & C). fold st in A, C. rewrite Hw in C.
      cbn [snd] in C. rewrite C, ztake_all in B by lia. by subst w.
  - eapply (tc_step_sendable c (CWrite data)); [done|]. done.
  - intros Ee. rewrite Hend in Ee. specialize (He Ee). by apply app_eq_nil in He as [_ ?].
  - eapply (driven_run _ _ _ _ _ [CWrite data]); [exact Htr|reflexivity|done| |].
    + cbn. by rewrite app_nil_r.
    + cbn. by rewrite app_nil_r.
Qed.

Lemma conn_read left got c n :
  conn_ok cfg D left got c -> 0 <= n <= buffer_size (inbound_stream c) ->
  let c' := tc_with_receiver c (rx_with_stream_out (tc_receiver c) (pop_output (inbound_stream c) n)) in
  conn_ok cfg D left (got ++ ztake n (bs_buffer (inbound_stream c))) c'.
Proof.
  intros Hc Hn c'. pose proof Hc as [(S & [Ht Hr] & HS) Hse Hroom He Hcap Htr].
  pose proof (read_pop (inbound_stream c) n Hn) as Hread.
  constructor; try done.
  - exists S. split; [|done]. constructor; [done|].
    change (inbound_stream c') with (pop_output (inbound_stream c) n).
    pose proof (read_moves (inbound_stream c) n got _ eq_refl) as Hm. rewrite Hread in Hm. cbn [fst snd] in Hm.
    rewrite Hm. destruct Hr as [A B C]. constructor; try done. cbn.
    pose proof (read_inv _ _ n ltac:(lia) A) as A'.
    change (read (ra_output (rx_reassembler (tc_receiver c))) n) with (read (inbound_stream c) n) in A'.
    rewrite Hread in A'. exact A'.
  - by destruct Hse.
  - eapply (driven_run _ _ _ _ _ [CRead n]); [exact Htr| |done|done|].
    + cbn [tc_run tc_step]. by rewrite Hread.
    + cbn [reads_of tc_step]. rewrite Hread. cbn [snd]. by rewrite app_nil_r.
Qed.

Lemma conn_dequeue left got c : conn_ok cfg D left got c -> conn_ok cfg D left got (tc_with_out c []).
Proof.
  remember (tc_segments_out c) as q eqn:Hq. revert c Hq.
  induction q as [|s q IH]; intros c Hq Hc.
  { replace (tc_with_out c []) with c; [done|]. destruct c. cbn in *. by subst. }
  change (tc_with_out c []) with (tc_with_out (tc_with_out c q) []). apply IH; [done|].
  pose proof Hc as [(S & [Ht Hr] & HS) _ _ He _ _].
  eapply (conn_step left got c CDequeue); [done| |done| |done|done].
  - cbn [tc_step]. by rewrite <- Hq.
  - exists S. split; [by constructor|done].
Qed.
End connection.

(** ** The state of a socket *)

Lemma iter_writes n w :
  let w' := Nat.iter n register_write w in
  fd_eof w' = fd_eof w /\ fd_closed w' = fd_closed w /\ fd_read_count w' = fd_read_count w /\
  (counts_ok w -> counts_ok w').
Proof.
  induction n as [|n IH]; cbn; [done|]. destruct IH as (H1 & H2 & H3 & H4). split; [done|]. split; [done|].
  split; [done|]. intros H. by apply register_write_counts, H4.
Qed.

Section safety.
Context {A I O : Type} {FA : FdAdapter A I O} {FS : FdAdapterSafe A I O}.
Context (cfg : TCPConfig) (Hcfg : TCPConnection.cfg_ok cfg) (D : bytes).
Abbreviation running := (sponge A I O TCPConnection).
Abbreviation cap := (cfg_recv_capacity cfg).
Implicit Types s : running.

(** The bytes waiting for the owner. *)
Definition waiting s : bytes := bs_buffer (inbound_stream (ss_tcp s)).

(** Each datagram adds at most the capacity to the inbound stream, whose length
    is a 64-bit number. *)
Record sponge_inv (t : Z) s : Prop := {
  si_conn : conn_ok cfg D (k_from_owner s) (k_to_owner s) (ss_tcp s);
  si_room : zlen (k_to_owner s ++ waiting s) + cap * (zlen (k_device s) + 1) + 4 * W32 < W64;
  si_adapter : adapter_ok t (ss_adapter s);
  si_device : Forall adapter_input_ok (k_device s);
  si_eof : fd_eof (ss_thread_data s) = true -> k_from_owner s = [];
  si_open : fd_closed (ss_thread_data s) = false /\ fd_closed (ss_adapter_fd s) = false;
  si_counts : counts_ok (ss_thread_data s) /\ counts_ok (ss_adapter_fd s);
  si_outbound : ss_outbound_shutdown s = true -> tc_ended (ss_tcp s) = true;
  si_inbound : ss_inbound_shutdown s = true ->
    bs_is_ended (inbound_stream (ss_tcp s)) = true \/ bs_error (inbound_stream (ss_tcp s)) = true;
  si_shut : k_owner_shut s = ss_inbound_shutdown s }.

(** How many calls of the kernel a callback makes at most: a datagram is read and
    what the adapter answers is written; the owner's bytes are read; bytes are
    written to the owner and its direction may be shut down; what the queued
    segments become is written. *)
Definition callback_calls (r : sponge_rule) s : nat :=
  match r with
  | datagram_in =>
      match k_device s with
      | [] => 0
      | i :: _ => match adapter_read (ss_adapter s) i with Ok (_, out) => S (length out) | Err _ => 1 end
      end
  | bytes_out => 1
  | bytes_in => 2
  | segments_out =>
      match send_queue (ss_adapter s) (tc_segments_out (ss_tcp s)) with Ok (_, out) => length out | Err _ => 0 end
  end.

(** Why a callback throws: the kernel refuses one of its calls, or bytes are
    waiting for an owner whose direction was shut down. *)
Definition callback_fails (r : sponge_rule) s (e : failure) : Prop :=
  e = runtime_error /\
  (refuses (callback_calls r s) (k_amounts s) = true \/
   (r = bytes_in /\ k_owner_shut s = true /\ waiting s <> [])).

(** The rule for the owner's bytes hangs up only when the owner has written
    everything; the others do not hang up. *)
Definition sponge_view (t : Z) : view sponge_rule running := mkView
  (sponge_inv t)
  (fun r s => match r with bytes_in => ss_inbound_shutdown s = true -> waiting s <> [] | _ => True end)
  (fun r s => match r with datagram_in => k_device s <> [] | _ => True end)
  (fun r s => match r with bytes_out => k_from_owner s = [] | _ => False end)
  (fun r s =>
     match r with
     | datagram_in => fd_eof (ss_adapter_fd s) = true
     | bytes_out => k_from_owner s = [] /\ tc_ended (ss_tcp s) = true
     | _ => False
     end)
  callback_fails.

(** What a callback promises, its own descriptor apart. *)
Definition callback_ok (t : Z) (r : sponge_rule) s s' : Prop :=
  sponge_inv t s' /\ keeps (sponge_view t) s s' /\ (forall r', r' <> r -> stands (sponge_view t) r' s s').

(** Changes that only the connection and the adapter see. *)
Lemma sponge_change t t' s c w fd a device out amounts :
  sponge_inv t s -> conn_ok cfg D (k_from_owner s) (k_to_owner s) c -> inbound_grows (ss_tcp s) c w ->
  (tc_ended (ss_tcp s) = true -> tc_ended c = true) -> adapter_ok t' a -> device `suffix_of` k_device s ->
  zlen w <= cap * (zlen (k_device s) - zlen device) ->
  (fd_eof (ss_adapter_fd s) = true -> fd_eof fd = true) -> fd_closed fd = false -> counts_ok fd ->
  let s' := with_amounts amounts (with_tcp c (with_adapter fd a device out s)) in
  sponge_inv t' s' /\ keeps (sponge_view t) s s' /\
  (forall r, r <> datagram_in \/ device = k_device s -> stands (sponge_view t) r s s').
Proof.
  intros [H1 H2 H3 H4 H5 [H6 H6'] [H7 H7'] H8 H9 H10] Hc (G1 & G2 & G3) He Ha [dv Hd] Hw Ef Cf Nf s'.
  destruct (iter_writes (length out) fd) as (W1 & W2 & W3 & W4).
  assert (Hwait : waiting s' = waiting s ++ w) by exact G1.
  split; [|split].
  - constructor; try done; [| | | | |].
    + change (zlen (k_to_owner s ++ waiting s') + cap * (zlen device + 1) + 4 * W32 < W64).
      rewrite Hwait, app_assoc, zlen_app. nia.
    + cbn. rewrite Hd in H4. by apply Forall_app in H4 as [_ ?].
    + split; [done|]. cbn [ss_adapter_fd s' with_amounts with_tcp with_adapter]. by rewrite W2.
    + split; [done|]. by apply W4.
    + cbn. auto.
    + cbn. intros Hs. destruct (H9 Hs); auto.
  - split; intros [] Hg; cbn in *; try done; [by rewrite W1; auto|]. destruct Hg. auto.
  - intros r Hr. split.
    + destruct r; try done. cbn [v_wanted sponge_view]. intros Hi Hs. rewrite Hwait. intros E.
      apply app_eq_nil in E as [E _]. by apply Hi.
    + destruct r; try done. destruct Hr as [|Hr]; [done|]. cbn. by rewrite Hr.
Qed.

Lemma on_datagram_ok t s : sponge_inv t s -> k_device s <> [] ->
  match on_datagram s with
  | Ok s' => callback_ok t datagram_in s s' /\ fd_read_count (ss_adapter_fd s') <> fd_read_count (ss_adapter_fd s)
  | Err e => callback_fails datagram_in s e
  end.
Proof.
  intros Hs Hne. destruct (k_device s) as [|i device] eqn:Ed; [done|]. clear Hne.
  pose proof Hs as [H1 H2 H3 H4 H5 [H6 H6'] [H7 H7'] H8 H9 H10]. rewrite Ed in H2, H4. inversion H4 as [|? ? Hi Hi']; subst.
  rewrite zlen_cons in H2. pose proof Hcfg as (_ & Hcap & _).
  destruct (adapter_read_safe t _ i H3 Hi) as (a & o & out & Er & Ha & Ho).
  assert (Hcalls : callback_calls datagram_in s = S (length out)) by (cbn; by rewrite Ed, Er).
  unfold on_datagram, read_adapter, kernel_calls. rewrite Ed.
  destruct (refuses 1 (k_amounts s)) eqn:E1.
  { split; [done|]. left. rewrite Hcalls. apply (refuses_more 1); [lia|done]. }
  cbn [rbind]. rewrite Er. cbn [rbind]. destruct (refuses (length out) (drop 1 (k_amounts s))) eqn:E2.
  { split; [done|]. left. rewrite Hcalls. by apply refuses_next. }
  cbn [rbind]. clear Hcalls. set (am := drop (length out) (drop 1 (k_amounts s))).
  set (fd := register_read _).
  assert (Hfd : (fd_eof (ss_adapter_fd s) = true -> fd_eof fd = true) /\ fd_closed fd = false /\ counts_ok fd /\
    fd_read_count fd <> fd_read_count (ss_adapter_fd s)).
  { unfold fd. destruct (adapter_eof i); (split; [done|]; split; [done|]; split; [by apply register_read_counts|]);
      cbn; apply count_changes, H7'. }
  destruct Hfd as (F1 & F2 & F3 & F4).
  set (s0 := with_amounts am (with_adapter fd a device out s)).
  assert (Hstep : exists c w, match o with
      | Some seg => let* c := tc_segment_received (ss_tcp s0) seg in Ok (with_tcp c s0)
      | None => Ok s0 end = Ok (with_tcp c s0) /\
    conn_ok cfg D (k_from_owner s) (k_to_owner s) c /\ inbound_grows (ss_tcp s) c w /\ zlen w <= cap /\
    tc_ended c = tc_ended (ss_tcp s)).
  { destruct o as [seg|].
    - destruct (conn_segment cfg D _ _ (ss_tcp s) seg H1 (Ho seg eq_refl)) as (c & w & E & C1 & C2 & C3 & C4).
      { unfold waiting in H2. zpos. nia. }
      exists c, w. change (ss_tcp s0) with (ss_tcp s). by rewrite E.
    - exists (ss_tcp s), []. split; [done|]. split; [done|]. split; [by apply inbound_same|]. split; [change (0 <= cap); lia|done]. }
  destruct Hstep as (c & w & -> & C1 & C2 & C3 & C4). cbn [rbind].
  destruct (sponge_change t t s c w fd a device out am Hs C1 C2) as (K1 & K2 & K3); try done.
  { by rewrite C4. } { rewrite Ed. by exists [i]. } { rewrite Ed, zlen_cons. lia. }
  change (with_amounts am (with_tcp c (with_adapter fd a device out s))) with (with_tcp c s0) in *.
  set (s1 := with_tcp c s0) in *.
  set (s2 := if _ && _ then _ else s1).
  assert (Hs2 : s2 = s1 \/ s2 = set_fully_acked s1) by (unfold s2; destruct (_ && _); auto).
  assert (Hcount : fd_read_count (ss_adapter_fd s1) <> fd_read_count (ss_adapter_fd s)).
  { destruct (iter_writes (length out) fd) as (_ & _ & W3 & _). cbn. by rewrite W3. }
  assert (Hcb : callback_ok t datagram_in s s1) by (split; [done|]; split; [done|]; intros r Hr; apply K3; by left).
  destruct Hs2 as [-> | ->]; [done|]. split; [|done]. destruct Hcb as (B1 & B2 & B3). split; [|split].
  - by destruct B1.
  - exact B2.
  - exact B3.
Qed.

Lemma conn_outbound_capacity left got c : conn_ok cfg D left got c -> 0 <= tc_remaining_outbound_capacity c.
Proof.
  intros [(S & [Ht _] & _) _ _ _ _ _]. pose proof (so_ok _ _ (ti_stream _ _ Ht)) as Hok.
  change (0 <= remaining_capacity (tx_stream (tc_sender c))). rewrite remaining_capacity_eq by done.
  destruct Hok as (_ & ? & _). lia.
Qed.

Lemma on_owner_bytes_ok t s : sponge_inv t s ->
  match on_owner_bytes s with
  | Ok s' => callback_ok t bytes_out s s' /\ fd_read_count (ss_thread_data s') <> fd_read_count (ss_thread_data s)
  | Err e => callback_fails bytes_out s e
  end.
Proof.
  intros [H1 H2 H3 H4 H5 [H6 H6'] [H7 H7'] H8 H9 H10]. unfold on_owner_bytes.
  set (limit := tc_remaining_outbound_capacity (ss_tcp s)).
  destruct (kernel_read (k_amounts s) (k_from_owner s) limit) as [data|] eqn:Ek.
  2:{ destruct (fd_read_refused _ (ss_thread_data s) _ _ Ek) as [Hr E]. rewrite Ek in E. rewrite E. split; [done|by left]. }
  destruct (fd_read_some (k_amounts s) (ss_thread_data s) limit (k_from_owner s) data
    (conn_outbound_capacity _ _ _ H1) H7 H5 Ek) as (fd & E & F1 & F2 & F3 & F4 & F5 & F6 & F7 & F8).
  rewrite E. cbn [rbind].
  set (left := zdrop (zlen data) (k_from_owner s)) in *. rewrite <- F8 in H1.
  destruct (conn_write cfg D data left (k_to_owner s) (ss_tcp s) H1 F7) as (c & -> & C1 & C2 & C3).
  rewrite Z.eqb_refl. cbn [negb]. set (s1 := mkSponge _ _ _ _ _ _ _ _ _ _ _ _ _ _).
  assert (Hin : forall c', tc_receiver c' = tc_receiver c ->
    inbound_stream c' = inbound_stream (ss_tcp s)) by (intros c' Ec; unfold inbound_stream; by rewrite Ec, C2).
  assert (Hleft : k_from_owner s = [] -> left = []) by (intros El; unfold left; rewrite El; apply drop_nil).
  assert (Hcb : forall c' b, conn_ok cfg D left (k_to_owner s) c' -> tc_receiver c' = tc_receiver c ->
    (tc_ended (ss_tcp s) = true -> tc_ended c' = true) -> (b = true -> tc_ended c' = true) ->
    callback_ok t bytes_out s (mkSponge (ss_owner s) fd (ss_adapter_fd s) (ss_adapter s) c' (ss_inbound_shutdown s)
      b (ss_fully_acked s) left (k_to_owner s) (k_owner_shut s) (k_device s) (k_wire s) (tl (k_amounts s)))).
  { intros c' b K1 K2 K3 K4. assert (Hst := Hin c' K2). split; [|split].
    - constructor; cbn; try done.
      + unfold waiting. cbn. rewrite Hst. exact H2.
      + auto.
      + by rewrite F2.
      + by rewrite Hst.
    - split; intros [] Hg; cbn in *; try done; [destruct Hg; auto|auto].
    - intros [] Hr; (split; [|done]); try done. cbn. unfold waiting. cbn. by rewrite Hst. }
  destruct (fd_eof fd) eqn:Ee.
  - specialize (F6 eq_refl). rewrite Hleft in C1 by done.
    destruct (conn_end cfg D (k_to_owner s) c C1) as [N1 N2]. split; [|done].
    apply (Hcb (tc_end_input_stream c) true); [by rewrite Hleft|done|done|done].
  - split; [|done]. apply (Hcb c); [done|done|by rewrite C3|]. intros Hb.
    rewrite C3. auto.
Qed.

(** Writing to the owner fails only when the direction was shut down or the kernel
    refuses a call. *)
Lemma on_bytes_for_owner_ok t s :
  sponge_inv t s -> (ss_inbound_shutdown s = true -> waiting s <> []) ->
  match on_bytes_for_owner s with
  | Ok s' => callback_ok t bytes_in s s' /\ fd_write_count (ss_thread_data s') <> fd_write_count (ss_thread_data s)
  | Err e => callback_fails bytes_in s e
  end.
Proof.
  intros [H1 H2 H3 H4 H5 [H6 H6'] [H7 H7'] H8 H9 H10] Hwant. unfold on_bytes_for_owner, callback_fails. rewrite H10.
  destruct (ss_inbound_shutdown s) eqn:Es; [by auto 7|]. clear Hwant.
  set (st := inbound_stream (ss_tcp s)). pose proof (buffer_size_nonneg st) as Hb.
  set (m := Z.min 65536 (buffer_size st)). assert (Hm : 0 <= m <= buffer_size st) by (unfold m; lia).
  set (out := peek_output st m). assert (Hout : out = ztake m (bs_buffer st)) by (unfold out, peek_output; zcase; [lia|done]).
  assert (Hlen : zlen out = m) by (rewrite Hout; unfold buffer_size in *; zl).
  pose proof (write_some_ok (k_amounts s) (ss_thread_data s) out ltac:(unfold m in Hlen; lia)) as Hws.
  destruct (refuses 1 (k_amounts s)) eqn:Er.
  { rewrite Hws. split; [done|]. left. apply (refuses_more 1); [cbn; lia|done]. }
  destruct Hws as (n & -> & Hn & _). cbn [rbind]. pose proof (conn_read cfg D _ _ (ss_tcp s) n H1 ltac:(fold st; lia)) as Hc. cbn zeta in Hc. fold st in Hc.
  set (c := tc_with_receiver _ _) in *.
  assert (Hz : ztake n out = ztake n (bs_buffer st)).
  { rewrite Hout. unfold ztake. rewrite take_take. f_equal. lia. }
  assert (Hpop : pop_output st n = mkByteStream (zdrop n (bs_buffer st)) (bs_capacity st) (bs_is_ended st)
    (bs_written_length st) (bs_error st)) by (unfold pop_output; zcase; [lia|done]).
  assert (Hin : inbound_stream c = pop_output st n) by done.
  set (over := eof (pop_output st n) || stream_error (pop_output st n)).
  assert (Hover : over = true -> bs_is_ended st = true \/ bs_error st = true).
  { unfold over, eof, input_ended, stream_error. rewrite Hpop. cbn. intros E. apply orb_true_iff in E as [E|E]; [|auto].
    apply andb_true_iff in E as [E _]. by left. }
  destruct (over && refuses 1 (tl (k_amounts s))) eqn:Er'.
  { apply andb_true_iff in Er' as [-> Er']. rewrite Er'. split; [done|]. left. by apply refuses_later. }
  assert (Hfd : exists fd, (if over then Socket_shutdown (register_write (ss_thread_data s)) SHUT_WR
      (negb (refuses 1 (tl (k_amounts s)))) else Ok (register_write (ss_thread_data s))) = Ok fd /\ counts_ok fd /\ fd_eof fd = fd_eof (ss_thread_data s) /\
    fd_closed fd = false /\ fd_write_count fd <> fd_write_count (ss_thread_data s)).
  { destruct over; [cbn [andb] in Er'; rewrite Er'|]; eexists; (split; [reflexivity|]); (split; [by repeat apply register_write_counts|]);
      (split; [done|]); (split; [done|]); cbn; [apply count_changes2|apply count_changes]; apply H7. }
  destruct Hfd as (fd & -> & F1 & F2 & F3 & F4). cbn [rbind]. split; [|done]. rewrite Hz. split; [|split].
  - constructor; try done.
    + change (zlen ((k_to_owner s ++ ztake n (bs_buffer st)) ++ bs_buffer (pop_output st n))
        + cap * (zlen (k_device s) + 1) + 4 * W32 < W64).
      rewrite Hpop. cbn [bs_buffer]. rewrite <- app_assoc, ztake_zdrop. exact H2.
    + cbn. by rewrite F2.
    + change ((if over then true else false) = true ->
        bs_is_ended (pop_output st n) = true \/ bs_error (pop_output st n) = true).
      rewrite Hpop. cbn. destruct over; auto.
  - split; intros [] Hg; cbn in *; done.
  - intros [] Hr; split; done.
Qed.

Lemma send_queue_ok t queue : forall a, adapter_ok t a -> Forall sendable queue ->
  exists a' out, send_queue a queue = Ok (a', out) /\ adapter_ok t a'.
Proof.
  induction queue as [|seg queue IH]; intros a Ha Hq; cbn [send_queue]; [by eexists _, _|].
  inversion Hq; subst. destruct (adapter_write_safe t a seg Ha) as (a1 & seg' & out & -> & Ha1); [done|]. cbn [rbind fst].
  destruct (IH a1 Ha1) as (a2 & out' & -> & Ha2); [done|]. by eexists _, _.
Qed.

Lemma on_segments_ok t s : sponge_inv t s ->
  match on_segments s with
  | Ok s' => callback_ok t segments_out s s' /\ tc_segments_out (ss_tcp s') = []
  | Err e => callback_fails segments_out s e
  end.
Proof.
  intros Hs. pose proof Hs as [H1 H2 H3 H4 H5 [H6 H6'] [H7 H7'] H8 H9 H10]. unfold on_segments.
  destruct (send_queue_ok t _ _ H3 (cs_out _ (cn_sendable _ _ _ _ _ H1))) as (a & out & Eq & Ha).
  assert (Hcalls : callback_calls segments_out s = length out) by (cbn; by rewrite Eq).
  rewrite Eq. cbn [rbind]. unfold kernel_calls. destruct (refuses (length out) (k_amounts s)) eqn:Er.
  { split; [done|]. left. by rewrite Hcalls. }
  cbn [rbind]. split; [|done].
  destruct (sponge_change t t s (tc_with_out (ss_tcp s) []) [] (ss_adapter_fd s) a (k_device s) out
    (drop (length out) (k_amounts s)) Hs) as (K1 & K2 & K3);
    try done.
  { by apply conn_dequeue. } { by apply inbound_same. } { change (0 <= cap * (zlen (k_device s) - zlen (k_device s))). lia. }
Qed.

Lemma sponge_contract t : contract (sponge_view t).
Proof.
  split.
  - intros [] s Hs Hi; try done. cbn in *. intros Hsh. unfold waiting. rewrite Hsh in Hi.
    unfold buffer_empty in Hi. rewrite andb_false_r, orb_false_r in Hi. by destruct (bs_buffer _).
  - intros r s Hs Hover. pose proof Hs as [H1 H2 H3 H4 H5 [H6 H6'] [H7 H7'] H8 H9 H10].
    assert (Hcase : match r with datagram_in => fd_eof (ss_adapter_fd s) = true | bytes_out => k_from_owner s = []
      | _ => False end).
    { destruct Hover as [Hover|Hover]; [|by destruct r]. unfold rule_over in Hover. destruct r; cbn in Hover;
        rewrite ?H6, ?H6', ?orb_false_r in Hover; auto; done. }
    destruct r; try done.
    + exists s. split; [done|]. split; [done|]. split; [done|]. split; [by split|]. by split.
    + eexists. split; [reflexivity|]. cbn in *. rewrite Hcase in H1.
      destruct (conn_end cfg D (k_to_owner s) _ H1) as [N1 N2]. split.
      { constructor; cbn; try done. by rewrite Hcase. }
      split; [done|]. split; [split; intros [] Hg; cbn in *; try done; tauto|]. intros [] ; split; done.
  - intros r s Hs Hw Hr. unfold service_count. destruct r; cbn [rule_callback sponge_RuleSet rule_direction rule_fd].
    + pose proof (on_datagram_ok t s Hs Hr) as H. destruct (on_datagram s) as [s'|]; [|done].
      destruct H as ((K1 & K2 & K3) & Hc). by auto.
    + pose proof (on_owner_bytes_ok t s Hs) as H. destruct (on_owner_bytes s) as [s'|]; [|done].
      destruct H as ((K1 & K2 & K3) & Hc). by auto.
    + pose proof (on_bytes_for_owner_ok t s Hs Hw) as H. destruct (on_bytes_for_owner s) as [s'|]; [|done].
      destruct H as ((K1 & K2 & K3) & Hc). by auto.
    + pose proof (on_segments_ok t s Hs) as H. destruct (on_segments s) as [s'|]; [|done].
      destruct H as ((K1 & K2 & K3) & Hc). split; [done|]. split; [|done]. right. cbn. by rewrite Hc.
Qed.

(** ** The loop *)

(** The ticking throws because the kernel refuses a datagram that the adapter
    writes then. *)
Definition tick_fails (ms : Z) s (e : failure) : Prop :=
  e = runtime_error /\ refuses (length (adapter_tick (ss_adapter s) ms).2) (k_amounts s) = true.

Lemma tick_both_ok t s ms : sponge_inv t s -> 0 <= ms -> t + ms < W64 - W32 ->
  match tick_both ms s with
  | Ok s' => sponge_inv (t + ms) s' /\ keeps (sponge_view t) s s'
  | Err e => tick_fails ms s e
  end.
Proof.
  intros Hs Hms Hb. pose proof Hs as [H1 H2 H3 H4 H5 [H6 H6'] [H7 H7'] H8 H9 H10]. unfold tick_both.
  destruct (conn_tick cfg D _ _ _ ms H1 Hms) as (c & E & C1 & C2). rewrite E. cbn [rbind].
  pose proof (adapter_tick_safe t _ ms H3 Hms Hb) as Ha. unfold tick_fails.
  destruct (adapter_tick (ss_adapter s) ms) as [a out]. unfold kernel_calls.
  destruct (refuses (length out) (k_amounts s)) eqn:Er; cbn [rbind]; [done|].
  destruct (sponge_change t (t + ms) s c [] (ss_adapter_fd s) a (k_device s) out
    (drop (length out) (k_amounts s)) Hs C1 C2) as (K1 & K2 & _); try done.
  { by rewrite (tick_ended _ _ _ E). }
  change (0 <= cap * (zlen (k_device s) - zlen (k_device s))). lia.
Qed.

Lemma sponge_rules_nodup : NoDup sponge_rules.
Proof. unfold sponge_rules. repeat (constructor; [set_solver|]). constructor. Qed.

Lemma sponge_quiet rules : rules `sublist_of` sponge_rules -> quiet (S := running) rules.
Proof.
  intros Hr r r' s s' Hs E Hi. assert (Hl : [r; r'] `sublist_of` sponge_rules) by (by transitivity rules).
  destruct r'; injection E as <-; try done. destruct r; try done; exfalso; unfold sponge_rules in Hl;
    repeat match goal with
      | H : _ :: _ `sublist_of` _ |- _ => inversion H; clear H; subst
      end.
Qed.

(** Time passes, the kernel answers honestly and the clock does not go back. *)
Fixpoint rounds_honest (t : Z) (rounds : list round) (rules : list sponge_rule) s : Prop :=
  match rounds with
  | [] => True
  | r :: rounds =>
      t <= ro_time r < W64 - W32 /\ poll_honest (sponge_view t) rules s (ro_poll r) /\
      forall res rules' s1, wait_next_event rules s (ro_poll r) = Ok (res, rules', s1) ->
        if tc_active (ss_tcp s1)
        then forall s2, tick_both (ro_time r -! t) s1 = Ok s2 -> rounds_honest (ro_time r) rounds rules' s2
        else rounds_honest t rounds rules' s1
  end.

(** The owner does not ask to abort, and no signal interrupts the loop. *)
Definition undisturbed (rounds : list round) : Prop :=
  Forall (fun r => ro_abort r = false /\ forall s p, ro_poll (A := A) (I := I) (O := O) r s p <> PollFailed true) rounds.

Definition idle (rules : list sponge_rule) s : Prop := forall r, r ∈ rules -> rule_interest r s = false.

(** The rounds of the loop, as steps between the time of the last tick, the rounds
    to come, the rules and the state. *)
Definition loop_config : Type := Z * list (round (A := A) (I := I) (O := O)) * list sponge_rule * running.
Inductive loop_step (condition : running -> bool) : loop_config -> loop_config -> Prop :=
  | loop_ticks t r rounds rules s res rules' s1 s2 :
      condition s = true -> wait_next_event rules s (ro_poll r) = Ok (res, rules', s1) ->
      res <> Exit -> ro_abort r = false -> tc_active (ss_tcp s1) = true ->
      tick_both (ro_time r -! t) s1 = Ok s2 ->
      loop_step condition (t, r :: rounds, rules, s) (ro_time r, rounds, rules', s2)
  | loop_idles t r rounds rules s res rules' s1 :
      condition s = true -> wait_next_event rules s (ro_poll r) = Ok (res, rules', s1) ->
      res <> Exit -> ro_abort r = false -> tc_active (ss_tcp s1) = false ->
      loop_step condition (t, r :: rounds, rules, s) (t, rounds, rules', s1).

(** A round throws because a callback that it calls does, or its tick. *)
Definition round_throws (t : Z) (r : round) (rules : list sponge_rule) s (e : failure) : Prop :=
  (exists rl s1, wait_calls rules s (ro_poll r) rl s1 /\ rule_callback rl s1 = Err e /\ callback_fails rl s1 e) \/
  (exists res rules' s1, wait_next_event rules s (ro_poll r) = Ok (res, rules', s1) /\
     tick_both (ro_time r -! t) s1 = Err e /\ tick_fails (ro_time r -! t) s1 e).

(** The loop throws in a round that it reaches. *)
Definition loop_throws (condition : running -> bool) (t : Z) (rounds : list round) (rules : list sponge_rule) s
    (e : failure) : Prop :=
  exists t' r rounds' rules' s', rtc (loop_step condition) (t, rounds, rules, s) (t', r :: rounds', rules', s') /\
    condition s' = true /\ round_throws t' r rules' s' e.

Lemma loop_throws_step condition t rounds rules s t1 rounds1 rules1 s1 e :
  loop_step condition (t, rounds, rules, s) (t1, rounds1, rules1, s1) ->
  loop_throws condition t1 rounds1 rules1 s1 e -> loop_throws condition t rounds rules s e.
Proof. intros Hst (t' & r & rs & ru & s' & Hr & H). exists t', r, rs, ru, s'. split; [by eapply rtc_l|done]. Qed.

(** With one round to go, it is this one. *)
Lemma loop_throws_one condition t r rules s e :
  loop_throws condition t [r] rules s e -> condition s = true /\ round_throws t r rules s e.
Proof.
  intros (t' & r' & rounds' & rules' & s' & Hst & Hc & Hr). apply rtc_inv in Hst as [[= <- <- <- <- <-]|(x & Hx & Hst)]; [done|].
  exfalso. inversion Hx; subst; (apply rtc_inv in Hst as [[=]|(y & Hy & _)]; inversion Hy).
Qed.

Lemma tcp_loop_ok condition rounds : forall t rules s,
  0 <= t -> sponge_inv t s -> accounted (sponge_view t) sponge_rules rules s -> rounds_honest t rounds rules s ->
  match tcp_loop condition t rounds rules s with
  | Ok (over, t', rules', s') => 0 <= t' /\ sponge_inv t' s' /\ accounted (sponge_view t') sponge_rules rules' s' /\
      (over = true -> undisturbed rounds -> condition s' = false \/ idle rules' s')
  | Err e => loop_throws condition t rounds rules s e
  end.
Proof.
  induction rounds as [|r rounds IH]; intros t rules s Ht Hs Ha Hh; cbn [tcp_loop].
  { destruct (condition s) eqn:Ec; split_and!; by auto. }
  destruct (condition s) eqn:Ec; [|by auto].
  destruct Hh as (Htime & Hp & Hnext).
  assert (Hnd : NoDup rules) by (eapply sublist_NoDup; [apply sponge_rules_nodup|apply Ha]).
  pose proof (wait_spec (sponge_view t) (sponge_contract t) rules s (ro_poll r) Hnd Hs Hp) as Hw.
  destruct (wait_next_event rules s (ro_poll r)) as [[[res rules1] s1]|e] eqn:Ew.
  2:{ destruct Hw as (rl & s1 & Hc & Hi & Hf & Er). exists t, r, rounds, rules, s. split; [done|]. split; [done|].
      left. by exists rl, s1. }
  destruct Hw as (Hs1 & Hk & Ha1). cbn [rbind fst snd] in *.
  pose proof (accounted_trans _ _ _ _ _ _ Ha Ha1 Hk) as Ha2. specialize (Hnext _ _ _ eq_refl).
  destruct ((match res with Exit => true | _ => false end) || ro_abort r) eqn:Eex.
  { split; [done|]. split; [done|]. split; [done|]. intros _ Hu. right. inversion Hu as [|? ? [Hab Hsig] _]; subst.
    rewrite Hab, orb_false_r in Eex. destruct res; try done.
    apply wait_exit in Ew as (p & b & E & [->|Ei]); [|by apply Hsig in Ei].
    intros r'. eapply setup_quiet; [|exact E]. apply sponge_quiet, Ha. }
  assert (Hund : undisturbed (r :: rounds) -> undisturbed rounds) by (intros Hu; by inversion Hu).
  apply orb_false_iff in Eex as [Eex Eab]. assert (Hne : res <> Exit) by (by intros ->).
  destruct (tc_active (ss_tcp s1)) eqn:Eact.
  - assert (Hms : ro_time r -! t = ro_time r - t) by (apply u64_id; lia).
    pose proof (tick_both_ok t s1 (ro_time r -! t) Hs1 ltac:(lia) ltac:(lia)) as Htick.
    destruct (tick_both (ro_time r -! t) s1) as [s2|e] eqn:E2; cbn [rbind].
    2:{ exists t, r, rounds, rules, s. split; [done|]. split; [done|]. right. by exists res, rules1, s1. }
    destruct Htick as [Hs2 Hk2]. specialize (Hnext s2 eq_refl). rewrite Hms in Hs2. replace (t + (ro_time r - t)) with (ro_time r) in Hs2 by lia.
    assert (Ha3 : accounted (sponge_view (ro_time r)) sponge_rules rules1 s2).
    { destruct Ha2 as [A1 A2]. split; [done|]. intros r' Hr'. destruct (A2 r' Hr'); [by left|right]. by apply Hk2. }
    pose proof (IH (ro_time r) rules1 s2 ltac:(lia) Hs2 Ha3 Hnext) as H.
    destruct (tcp_loop condition (ro_time r) rounds rules1 s2) as [[[[over t'] rules'] s']|e];
      [|eapply loop_throws_step; [by eapply loop_ticks|done]].
    destruct H as (B1 & B2 & B3 & B4). split; [done|]. split; [done|]. split; [done|]. auto.
  - pose proof (IH t rules1 s1 Ht Hs1 Ha2 Hnext) as H.
    destruct (tcp_loop condition t rounds rules1 s1) as [[[[over t'] rules'] s']|e];
      [|eapply loop_throws_step; [by eapply loop_idles|done]].
    destruct H as (B1 & B2 & B3 & B4). split; [done|]. split; [done|]. split; [done|]. auto.
Qed.

(** ** The object *)

(** A socket with a connection [c]. *)
Definition session (t : Z) (so : TCPSpongeSocket (A := A) (I := I) (O := O)) (c : TCPConnection) : Prop :=
  0 <= t /\ ss_tcp (so_state so) = Some c /\ sponge_inv t (with_tcp c (so_state so)) /\
  accounted (sponge_view t) sponge_rules (so_rules so) (with_tcp c (so_state so)).

(** A socket as the constructor leaves it, whose adapter will be in good order
    once it is configured. *)
Record fresh (t : Z) (base : FdAdapterBase) (so : TCPSpongeSocket (A := A) (I := I) (O := O)) : Prop := {
  fr_tcp : ss_tcp (so_state so) = None;
  fr_rules : so_rules so = [];
  fr_flags : ss_inbound_shutdown (so_state so) = false /\ ss_outbound_shutdown (so_state so) = false;
  fr_owner : k_from_owner (so_state so) = D /\ k_to_owner (so_state so) = [] /\ k_owner_shut (so_state so) = false;
  fr_fds : fd_eof (ss_thread_data (so_state so)) = false /\ fd_closed (ss_thread_data (so_state so)) = false /\
    fd_closed (ss_adapter_fd (so_state so)) = false;
  fr_counts : counts_ok (ss_thread_data (so_state so)) /\ counts_ok (ss_adapter_fd (so_state so));
  fr_device : Forall adapter_input_ok (k_device (so_state so));
  fr_room : zlen D + 4 * W32 < W64 /\ cap * (zlen (k_device (so_state so)) + 1) + 4 * W32 < W64;
  fr_adapter : adapter_ok t (adapter_set_base (ss_adapter (so_state so)) base) }.

(** What [connect] and [listen_and_accept] run the loop on. *)
Definition start_state (so : TCPSpongeSocket) (c_ad : FdAdapterConfig) (listening : bool) : running :=
  let s := set_config c_ad listening (initialize_TCP cfg so).1 in
  if listening then s else with_tcp (tc_connect (ss_tcp s)) s.

Lemma start_inv t so c_ad (listening : bool) :
  fresh t (mkFdAdapterBase c_ad (if listening then true else fa_listen (adapter_base (ss_adapter (so_state so))))) so ->
  sponge_inv t (start_state so c_ad listening).
Proof.
  intros [H1 H2 [H3 H3'] (H4 & H4' & H4'') (H5 & H5' & H5'') [H6 H6'] H7 [H8 H8'] H9].
  assert (Hc : conn_ok cfg D D [] (if listening then new_TCPConnection cfg else tc_connect (new_TCPConnection cfg))).
  { pose proof (conn_new cfg Hcfg D H8). destruct listening; [done|by apply conn_connect]. }
  unfold start_state. destruct listening; constructor; cbn; rewrite ?H3, ?H3', ?H4, ?H4', ?H4'', ?H5; try done.
Qed.

Lemma connected_syn_sent (s : running) : ss_tcp s = tc_connect (new_TCPConnection cfg) -> in_state SYN_SENT s = true.
Proof. intros E. unfold in_state. rewrite E. apply bool_decide_eq_true_2. reflexivity. Qed.

Lemma all_accounted t s : accounted (sponge_view t) sponge_rules sponge_rules s.
Proof. split; [done|]. auto. Qed.

Lemma start_thread_session t rules s over :
  0 <= t -> sponge_inv t s -> accounted (sponge_view t) sponge_rules rules s ->
  session t (mkTCPSpongeSocket (with_tcp (Some (ss_tcp s)) s) rules over) (ss_tcp s).
Proof. intros Ht Hs Ha. split; [done|]. split; [done|]. by destruct s. Qed.
End safety.

(** ** Correctness *)

(** While [listen_and_accept] waits. *)
Definition opening {A I O} (s : sponge A I O TCPConnection) : bool :=
  in_state LISTEN s || in_state SYN_RCVD s || in_state SYN_SENT s.

(** The thread throws because its loop does, in a round that it reaches, or because
    the kernel refuses to shut the owner's socket down afterwards. *)
Definition thread_throws {A I O} {FA : FdAdapter A I O} {FS : FdAdapterSafe A I O}
    (so : TCPSpongeSocket) (c : TCPConnection) (t : Z) (rounds : list round) (e : failure) : Prop :=
  loop_throws (fun _ => true) t rounds (so_rules so) (with_tcp c (so_state so)) e \/
  (exists t' rules' s', tcp_loop (fun _ => true) t rounds (so_rules so) (with_tcp c (so_state so)) = Ok (true, t', rules', s') /\
     e = runtime_error /\ refuses 1 (k_amounts s') = true).

Lemma connect_ok {A I O} {FA : FdAdapter A I O} {FS : FdAdapterSafe A I O} cfg D so c_ad t rounds :
  TCPConnection.cfg_ok cfg -> 0 <= t ->
  fresh cfg D t (mkFdAdapterBase c_ad (fa_listen (adapter_base (ss_adapter (so_state so))))) so ->
  rounds_honest cfg D t rounds sponge_rules (start_state cfg so c_ad false) ->
  match connect so cfg c_ad t rounds with
  | Ok (over, t', so') => exists c, session cfg D t' so' c /\ so_joinable so' = over /\
      (over = true -> undisturbed rounds ->
         tc_state c <> TCPState_of SYN_SENT \/ idle (so_rules so') (with_tcp c (so_state so')))
  | Err e => loop_throws (in_state SYN_SENT) t rounds sponge_rules (start_state cfg so c_ad false) e
  end.
Proof.
  intros Hcfg Ht Hf Hh. pose proof (start_inv cfg Hcfg D t so c_ad false Hf) as Hs. unfold connect.
  rewrite (fr_tcp _ _ _ _ _ Hf). unfold initialize_TCP. rewrite (fr_rules _ _ _ _ _ Hf).
  change (fold_left add_rule sponge_rules []) with sponge_rules. cbn zeta.
  set (s := with_tcp _ (set_config _ _ _)). change (start_state cfg so c_ad false) with s in Hs, Hh |- *.
  rewrite (connected_syn_sent cfg s eq_refl). cbn [negb].
  pose proof (tcp_loop_ok cfg Hcfg D (in_state SYN_SENT) rounds t sponge_rules s Ht Hs (all_accounted _ _ _ _) Hh) as H.
  destruct (tcp_loop (in_state SYN_SENT) t rounds sponge_rules s) as [[[[over t'] rules'] s']|]; [|done].
  destruct H as (H1 & H2 & H3 & H4). cbn [rbind start_thread]. exists (ss_tcp s').
  split; [by apply start_thread_session|]. split; [done|]. intros Ho Hu.
  destruct (H4 Ho Hu) as [Hst|Hi]; [left|right; by destruct s'].
  unfold in_state in Hst. by apply bool_decide_eq_false in Hst.
Qed.

Lemma listen_ok {A I O} {FA : FdAdapter A I O} {FS : FdAdapterSafe A I O} cfg D so c_ad t rounds :
  TCPConnection.cfg_ok cfg -> 0 <= t -> fresh cfg D t (mkFdAdapterBase c_ad true) so ->
  rounds_honest cfg D t rounds sponge_rules (start_state cfg so c_ad true) ->
  match listen_and_accept so cfg c_ad t rounds with
  | Ok (over, t', so') => exists c, session cfg D t' so' c /\ so_joinable so' = over
  | Err e => loop_throws opening t rounds sponge_rules (start_state cfg so c_ad true) e
  end.
Proof.
  intros Hcfg Ht Hf Hh. pose proof (start_inv cfg Hcfg D t so c_ad true Hf) as Hs. unfold listen_and_accept.
  rewrite (fr_tcp _ _ _ _ _ Hf). unfold initialize_TCP. rewrite (fr_rules _ _ _ _ _ Hf).
  change (fold_left add_rule sponge_rules []) with sponge_rules. cbn zeta.
  set (s := set_config _ _ _). change (start_state cfg so c_ad true) with s in Hs, Hh |- *.
  change (fun s => in_state LISTEN s || in_state SYN_RCVD s || in_state SYN_SENT s) with (opening (A := A) (I := I) (O := O)).
  pose proof (tcp_loop_ok cfg Hcfg D opening rounds t sponge_rules s Ht Hs (all_accounted _ _ _ _) Hh) as H.
  destruct (tcp_loop opening t rounds sponge_rules s) as [[[[over t'] rules'] s']|]; [|done].
  destruct H as (H1 & H2 & H3 & _). cbn [rbind start_thread]. exists (ss_tcp s').
  split; [by apply start_thread_session|done].
Qed.

(** Opening.  A fresh socket that connects never finds the connection in an
    unexpected state; whatever arrives while it waits, [connect] returns with a
    session, in which the connection has left [SYN_SENT] unless nothing was left
    to wait for, and the thread is started.  It throws only in a round that it
    reaches, because the kernel refuses a call there or bytes wait for an owner
    whose direction was already shut down. *)
Theorem socket_connects {A I O} {FA : FdAdapter A I O} {FS : FdAdapterSafe A I O} cfg D so c_ad t rounds :
  TCPConnection.cfg_ok cfg -> 0 <= t ->
  fresh cfg D t (mkFdAdapterBase c_ad (fa_listen (adapter_base (ss_adapter (so_state so))))) so ->
  rounds_honest cfg D t rounds sponge_rules (start_state cfg so c_ad false) ->
  match connect so cfg c_ad t rounds with
  | Ok (over, t', so') => exists c, session cfg D t' so' c /\ so_joinable so' = over /\
      (over = true -> undisturbed rounds ->
         tc_state c <> TCPState_of SYN_SENT \/ idle (so_rules so') (with_tcp c (so_state so')))
  | Err e => loop_throws (in_state SYN_SENT) t rounds sponge_rules (start_state cfg so c_ad false) e
  end.
Proof. apply connect_ok. Qed.

(** Listening, in the same way. *)
Theorem socket_listens {A I O} {FA : FdAdapter A I O} {FS : FdAdapterSafe A I O} cfg D so c_ad t rounds :
  TCPConnection.cfg_ok cfg -> 0 <= t -> fresh cfg D t (mkFdAdapterBase c_ad true) so ->
  rounds_honest cfg D t rounds sponge_rules (start_state cfg so c_ad true) ->
  match listen_and_accept so cfg c_ad t rounds with
  | Ok (over, t', so') => exists c, session cfg D t' so' c /\ so_joinable so' = over
  | Err e => loop_throws opening t rounds sponge_rules (start_state cfg so c_ad true) e
  end.
Proof. apply listen_ok. Qed.

Lemma tcp_main_faithful {A I O} {FA : FdAdapter A I O} {FS : FdAdapterSafe A I O} cfg D so c t rounds :
  TCPConnection.cfg_ok cfg -> session cfg D t so c ->
  rounds_honest cfg D t rounds (so_rules so) (with_tcp c (so_state so)) ->
  match tcp_main so t rounds with
  | Ok (over, so') => exists c' os, tc_run (new_TCPConnection cfg) os = Ok c' /\
      written os ++ k_from_owner (so_state so') = D /\
      (tc_ended c' = true -> written os = D) /\
      reads_of (new_TCPConnection cfg) os = k_to_owner (so_state so') /\
      ss_tcp (so_state so') = (if over then None else Some c')
  | Err e => thread_throws so c t rounds e
  end.
Proof.
  intros Hcfg (Ht & Ec & Hs & Ha) Hh. unfold tcp_main. rewrite Ec.
  pose proof (tcp_loop_ok cfg Hcfg D (fun _ => true) rounds t (so_rules so) _ Ht Hs Ha Hh) as H.
  unfold thread_throws.
  destruct (tcp_loop _ t rounds (so_rules so) (with_tcp c (so_state so))) as [[[[over t'] rules'] s']|]; [|by left].
  destruct H as (_ & H2 & _). cbn [rbind]. destruct (conn_driven _ _ _ _ _ (si_conn _ _ _ _ H2)) as (os & E1 & E2 & E3 & E4).
  destruct over.
  { destruct (refuses 1 (k_amounts s')) eqn:Er; [right; by exists t', rules', s'|]. cbn.
    by exists (ss_tcp s'), os. }
  by exists (ss_tcp s'), os.
Qed.

(** C7: The thread drives the connection and nothing else.  Whatever datagrams
    arrive, however the kernel splits the transfers and whenever it reports what,
    the connection is at each moment what a sequence of its operations makes of a
    new one: exactly the bytes that the owner has handed over were written to it,
    in order, all of them once its output has ended, and exactly what was read
    from it has reached the owner.  The write to the connection is never short, so its exception is never thrown, nor is a
    busy wait detected.  The thread throws only because, in a round that it
    reaches, a callback that it calls, or the tick, makes a call that the kernel
    refuses, or the callback that writes to the owner finds bytes waiting although
    the owner's direction was shut down before; or because the kernel refuses the
    final shutdown. *)
Theorem socket_faithful {A I O} {FA : FdAdapter A I O} {FS : FdAdapterSafe A I O} cfg D so c t rounds :
  TCPConnection.cfg_ok cfg -> session cfg D t so c ->
  rounds_honest cfg D t rounds (so_rules so) (with_tcp c (so_state so)) ->
  match tcp_main so t rounds with
  | Ok (over, so') => exists c' os, tc_run (new_TCPConnection cfg) os = Ok c' /\
      written os ++ k_from_owner (so_state so') = D /\
      (tc_ended c' = true -> written os = D) /\
      reads_of (new_TCPConnection cfg) os = k_to_owner (so_state so') /\
      ss_tcp (so_state so') = (if over then None else Some c')
  | Err e => thread_throws so c t rounds e
  end.
Proof. apply tcp_main_faithful. Qed.

