(* ===== verification/SpongeRuns.v ===== *)
(** * Sockets at work

    Concrete runs of [TCPSpongeSocket] over UDP: a whole connection from the
    first SYN to the end, what destroying an open socket puts on the wire, and a
    reset while bytes are waiting for the owner. *)
From S2P Require Import Prelude WrappingIntegers ByteStream StreamReassembler Buffer Parser Checksum TCPSegment IPv4 Ethernet TCPReceiver TCPSender Transfer TCPConnection Outgoing Duplex Address NetworkInterface Adapters FileDescriptor AdapterSafety Socket EventLoop SpongeSocket SpongeSafety.

Section eager.
Context {A I O : Type} {FA : FdAdapter A I O} {FS : FdAdapterSafe A I O}.
Abbreviation running := (sponge A I O TCPConnection).

(** A kernel for which what is asked for is ready where [ready] says so, the
    device only when it has something to deliver; its rule comes first. *)
Definition answering (ready : Z -> bool) (s : running) (pollfds : list pollfd) : poll_answer :=
  Polled 1
    match pollfds with
    | [] => []
    | p :: pollfds =>
        (if bool_decide (zlen (k_device s) = 0) && (pf_events p =? POLLIN) then 0 else pf_events p) ::
          map (fun p => if ready (pf_events p) then pf_events p else 0) pollfds
    end.

(** Everything is ready, or everything but the owner's bytes. *)
Definition eager : running -> list pollfd -> poll_answer := answering (fun _ => true).
Definition patient : running -> list pollfd -> poll_answer := answering (fun events => negb (events =? POLLIN)).

Lemma answering_honest cfg D t ready rules s :
  rules `sublist_of` sponge_rules -> poll_honest (sponge_view cfg D t) rules s (answering ready).
Proof.
  intros Hr rules' pollfds s' E. right. pose proof (setup_events _ _ _ _ _ _ E) as He.
  assert (Hr' : rules' `sublist_of` sponge_rules) by (transitivity rules; [by eapply setup_sublist|done]). clear E Hr.
  destruct He as [|r p rules' pollfds Hp He]; [constructor|]. cbn [set_revents zip_with]. constructor.
  - cbn [pf_revents pf_events]. destruct (bool_decide_reflect (zlen (k_device s') = 0)) as [Hd|Hd]; cbn [andb].
    + destruct Hp as [-> | ->]; [by destruct r|]. by destruct r.
    + assert (k_device s' <> []) by (intros Ed; by rewrite Ed in Hd).
      destruct Hp as [-> | ->]; [by destruct r|]. by destruct r.
  - assert (Htail : datagram_in ∉ rules').
    { intros Hin. assert (Hl : [r; datagram_in] `sublist_of` sponge_rules).
      { transitivity (r :: rules'); [|done]. constructor. apply sublist_cons_l.
        apply list_elem_of_split in Hin as (l1 & l2 & ->). exists l1, l2. split; [done|]. apply sublist_nil_l. }
      unfold sponge_rules in Hl.
      repeat match goal with H : _ :: _ `sublist_of` _ |- _ => inversion H; clear H; subst end. }
    clear Hr' Hp. induction He as [|r' p' rules' pollfds Hp He IH]; [constructor|]. apply not_elem_of_cons in Htail as [Hne Ht].
    constructor; [|by apply IH]. cbn [pf_revents pf_events].
    destruct Hp as [-> | ->]; destruct (ready _); by destruct r'.
Qed.

Lemma eager_honest cfg D t rules s : rules `sublist_of` sponge_rules -> poll_honest (sponge_view cfg D t) rules s eager.
Proof. apply answering_honest. Qed.

Definition eager_rounds (times : list Z) : list (round (A := A) (I := I) (O := O)) :=
  map (mkRound eager false) times.

Fixpoint rising (t : Z) (times : list Z) : Prop :=
  match times with
  | [] => True
  | t' :: times => t <= t' < W64 - W32 /\ rising t' times
  end.

Lemma rising_weaken t t' times : t <= t' -> rising t' times -> rising t times.
Proof. intros Hle. destruct times; [done|]. cbn. intros [? ?]. split; [lia|done]. Qed.

Lemma eager_rounds_honest cfg D times : forall t rules s,
  rising t times -> rules `sublist_of` sponge_rules -> rounds_honest cfg D t (eager_rounds times) rules s.
Proof.
  induction times as [|t' times IH]; intros t rules s Ht Hr; cbn; [done|]. destruct Ht as [Ht Hrest].
  split; [done|]. split; [by apply eager_honest|]. intros res rules' s1 E. apply wait_sublist in E.
  assert (Hr' : rules' `sublist_of` sponge_rules) by (by transitivity rules).
  destruct (tc_active (ss_tcp s1)); [intros s2 _; by apply IH|]. apply IH; [|done]. eapply rising_weaken; [|done]. lia.
Qed.

Lemma eager_undisturbed times : undisturbed (eager_rounds times).
Proof. apply Forall_map, Forall_true. intros t. by split. Qed.
End eager.

(** ** A connection over UDP *)

Definition peer_address : Address := Address_numeric 16909060 9.
Definition run_config : FdAdapterConfig := mkFdAdapterConfig (Address_numeric 0 5000) peer_address 0 0.
Definition run_cfg : TCPConfig := small_cfg 0.
Abbreviation udp_rounds := (eager_rounds (A := TCPOverUDPSocketAdapter) (I := received_datagram) (O := Address * bytes)).

Definition from_peer (seg : TCPSegment) : received_datagram :=
  mkReceivedDatagram peer_address
    match TCPSegment_serialize seg 0 with Ok l => bl_concatenate l | Err _ => [] end.

(** A segment of the peer, whose initial sequence number is 1000. *)
Definition peer_segment (syn fin rst : bool) (seqno ackno : Z) (d : bytes) : TCPSegment :=
  let h := set_win 1000 (set_ackno (mkW32 ackno) (set_ack true (set_seqno (mkW32 seqno) default_TCPHeader))) in
  mkTCPSegment (set_rst rst (set_fin fin (set_syn syn h))) (Buffer_of d).

Definition new_udp_socket (from_owner : bytes) (device : list received_datagram) (amounts : list Z)
    : TCPSpongeSocket (A := TCPOverUDPSocketAdapter) (I := received_datagram) (O := Address * bytes) :=
  mkTCPSpongeSocket
    (mkSponge (mkFDWrapper 3 false false 0 0) (mkFDWrapper 4 false false 0 0) (mkFDWrapper 5 false false 0 0)
       (mkUDPAdapter new_FdAdapterBase) None false false false from_owner [] false device [] amounts) [] false.

(** The peer accepts, acknowledges what the owner wrote, sends two bytes and
    ends its stream. *)
Definition whole_run := new_udp_socket [x61; x62]
  [from_peer (peer_segment true false false 1000 1 []);
   from_peer (peer_segment false true false 1001 3 [x63; x64]);
   from_peer (peer_segment false false false 1004 4 [])] [2; 2; 2; 2; 2].

(** The whole connection: [connect] returns once the peer's SYN was received, and
    the thread ends by itself with everything delivered in both directions. *)
Theorem whole_run_ends :
  exists t so rules so', connect whole_run run_cfg run_config 0 (udp_rounds [10; 20]) = Ok (true, t, so) /\
    so_joinable so = true /\
    tcp_main so t (udp_rounds [30; 40; 50; 60; 70; 20000; 20010]) = Ok (true, mkTCPSpongeSocket so' rules true) /\
    k_from_owner so' = [] /\ k_to_owner so' = [x63; x64] /\ k_owner_shut so' = true /\ ss_tcp so' = None /\
    length (k_wire so') = 4%nat.
Proof. do 4 eexists. split; [vm_compute; reflexivity|]. split; [reflexivity|]. split; [vm_compute; reflexivity|]. done. Qed.

Lemma peer_input_ok seg : zlen (rd_payload (from_peer seg)) <= 65536 -> udp_input_ok (from_peer seg).
Proof. intros H. split; [|done]. exists 16909060, 9. split; [done|]. lia. Qed.

Lemma whole_run_fresh base : base_ok base -> fresh run_cfg [x61; x62] 0 base whole_run.
Proof.
  intros Hb. constructor; [reflexivity|reflexivity|split; reflexivity|split_and!; reflexivity|split_and!; reflexivity| | | |].
  - by split.
  - repeat apply Forall_cons_2; [apply peer_input_ok; vm_compute; discriminate..|apply Forall_nil_2].
  - split; reflexivity.
  - exact Hb.
Qed.

Lemma run_config_ok l : base_ok (mkFdAdapterBase run_config l).
Proof. exists 0, 5000, 16909060, 9. constructor; done || lia. Qed.

Lemma run_cfg_ok : TCPConnection.cfg_ok run_cfg.
Proof. apply small_cfg_ok. lia. Qed.

Lemma socket_connects_witness :
  exists t so c, connect whole_run run_cfg run_config 0 (udp_rounds [10; 20]) = Ok (true, t, so) /\
    session run_cfg [x61; x62] t so c.
Proof.
  assert (Hr : rising 0 [10; 20]) by (vm_compute; repeat split; congruence).
  pose proof (socket_connects run_cfg [x61; x62] whole_run run_config 0 (udp_rounds [10; 20]) run_cfg_ok ltac:(lia)
    (whole_run_fresh _ (run_config_ok _)) (eager_rounds_honest _ _ _ _ _ _ Hr (reflexivity _))) as H.
  assert (E : exists t so, connect whole_run run_cfg run_config 0 (udp_rounds [10; 20]) = Ok (true, t, so))
    by (do 2 eexists; vm_compute; reflexivity).
  destruct E as (t & so & E). rewrite E in H. destruct H as (c & Hs & _). exists t, so, c. split; [exact E|exact Hs].
Defined.

(** The sessions of the remaining examples come from [connect]. *)
Lemma run_session so D rounds t so' : 
  fresh run_cfg D 0 (mkFdAdapterBase run_config false) so -> ss_adapter (so_state so) = mkUDPAdapter new_FdAdapterBase ->
  rising 0 rounds -> connect so run_cfg run_config 0 (udp_rounds rounds) = Ok (true, t, so') ->
  exists c, session run_cfg D t so' c.
Proof.
  intros Hf Ha Hr E. unfold connect in E. rewrite (fr_tcp _ _ _ _ _ Hf) in E. unfold initialize_TCP in E.
  rewrite (fr_rules _ _ _ _ _ Hf) in E. change (fold_left add_rule sponge_rules []) with sponge_rules in E.
  cbn zeta in E. set (s := with_tcp _ (set_config _ _ _)) in E. rewrite (connected_syn_sent run_cfg s eq_refl) in E.
  cbn [negb] in E. assert (Hs : sponge_inv run_cfg D 0 s).
  { apply (start_inv run_cfg run_cfg_ok D 0 so run_config false). rewrite Ha. exact Hf. }
  pose proof (tcp_loop_ok run_cfg run_cfg_ok D (in_state SYN_SENT) (udp_rounds rounds) 0 sponge_rules s ltac:(lia) Hs
    (all_accounted _ _ _ _) (eager_rounds_honest _ _ _ _ _ _ Hr (reflexivity _))) as H.
  destruct (tcp_loop _ _ _ _ _) as [[[[over t1] rules'] s']|]; [|done]. cbn [rbind start_thread] in E.
  injection E as -> -> <-. destruct H as (H1 & H2 & H3 & _). exists (ss_tcp s'). by apply start_thread_session.
Qed.

(** The whole run after [connect] has returned. *)
Definition connected_socket : TCPSpongeSocket :=
  match connect whole_run run_cfg run_config 0 (udp_rounds [10; 20]) with Ok (_, _, so) => so | Err _ => whole_run end.
Definition connected_tcp : TCPConnection :=
  match ss_tcp (so_state connected_socket) with Some c => c | None => new_TCPConnection run_cfg end.

Lemma connected_session : session run_cfg [x61; x62] 10 connected_socket connected_tcp.
Proof.
  assert (E : exists so, connect whole_run run_cfg run_config 0 (udp_rounds [10; 20]) = Ok (true, 10, so))
    by (eexists; vm_compute; reflexivity).
  destruct E as (so & E). assert (Es : connected_socket = so) by (unfold connected_socket; by rewrite E).
  destruct (run_session whole_run [x61; x62] [10; 20] 10 so) as (c & Hc).
  - apply whole_run_fresh, run_config_ok.
  - reflexivity.
  - vm_compute; repeat split; congruence.
  - exact E.
  - assert (Ec : connected_tcp = c).
    { unfold connected_tcp. rewrite Es. destruct Hc as (_ & Hc & _). by rewrite Hc. }
    rewrite Es, Ec. exact Hc.
Qed.

Lemma socket_faithful_witness :
  match tcp_main connected_socket 10 (udp_rounds [30; 40]) with
  | Ok (over, so') => exists c' os, tc_run (new_TCPConnection run_cfg) os = Ok c' /\
      written os ++ k_from_owner (so_state so') = [x61; x62]
  | Err _ => False
  end.
Proof.
  assert (Hr : rising 10 [30; 40]) by (vm_compute; repeat split; congruence).
  pose proof (socket_faithful run_cfg [x61; x62] connected_socket connected_tcp 10 (udp_rounds [30; 40]) run_cfg_ok
    connected_session (eager_rounds_honest _ _ _ _ _ _ Hr (proj1 (proj2 (proj2 (proj2 connected_session)))))) as H.
  assert (E : exists over so', tcp_main connected_socket 10 (udp_rounds [30; 40]) = Ok (over, so'))
    by (do 2 eexists; vm_compute; reflexivity).
  destruct E as (over & so' & E). rewrite E in *.
  destruct H as (c' & os & H1 & H2 & _). exists c', os. split; [exact H1|exact H2].
Defined.


(** ** Destroying an open socket *)

(** The documentation says that an open connection is terminated with a RST when
    the socket is destroyed.  The destructor makes the thread leave its loop
    after the events of the current round; the RST is queued after that, by the
    destructor of the connection, and the queue is destroyed with it: what is on
    the wire is what was there after the round. *)
Theorem socket_destroy_no_rst {A I O} {FA : FdAdapter A I O} (so : TCPSpongeSocket (A := A) (I := I) (O := O)) c t r rounds so' :
  so_joinable so = true -> ss_tcp (so_state so) = Some c ->
  socket_destroy so t (r :: rounds) = Ok (true, so') ->
  exists ret rules s, wait_next_event (so_rules so) (with_tcp c (so_state so)) (ro_poll r) = Ok (ret, rules, s) /\
    k_wire (so_state so') = k_wire s /\ ss_tcp (so_state so') = None /\
    (tc_active (ss_tcp s) = true ->
       tc_segments_out (tc_destroy (ss_tcp s)) = tc_segments_out (ss_tcp s) ++ [rst_segment]).
Proof.
  intros Hj Hc. unfold socket_destroy, join, tcp_main. rewrite Hj, Hc. cbn [map aborting tcp_loop ro_poll ro_abort].
  intros E. apply rbind_ok in E as ([over so1] & E & E').
  apply rbind_ok in E as ([x s] & E & E2). apply rbind_ok in E as ([[ret rules] s1] & Ew & E).
  rewrite orb_true_r in E. injection E as <- <-. cbn [rbind] in E2.
  destruct (Socket_shutdown (ss_owner s1) SHUT_RDWR _) as [owner|]; [|done]. cbn [rbind] in E2.
  injection E2 as <- <-. injection E' as <-. exists ret, rules, s1. split; [done|]. split; [done|]. split; [done|].
  intros Ha. unfold tc_destroy. by rewrite Ha.
Qed.

Lemma socket_destroy_no_rst_witness :
  exists so' ret rules s, socket_destroy connected_socket 10 (udp_rounds [30]) = Ok (true, so') /\
    wait_next_event (so_rules connected_socket) (with_tcp connected_tcp (so_state connected_socket)) eager = Ok (ret, rules, s) /\
    k_wire (so_state so') = k_wire s /\ tc_active (ss_tcp s) = true.
Proof.
  assert (E : exists so', socket_destroy connected_socket 10 (udp_rounds [30]) = Ok (true, so'))
    by (eexists; vm_compute; reflexivity).
  destruct E as (so' & E).
  destruct (socket_destroy_no_rst connected_socket connected_tcp 10 (mkRound eager false 30) [] so')
    as (ret & rules & s & Ew & Hw & _).
  - vm_compute. reflexivity.
  - vm_compute. reflexivity.
  - exact E.
  - exists so', ret, rules, s. split; [exact E|]. split; [exact Ew|]. split; [exact Hw|].
    assert (Ha : match wait_next_event (so_rules connected_socket)
        (with_tcp connected_tcp (so_state connected_socket)) eager with
      | Ok (_, _, s) => tc_active (ss_tcp s) | Err _ => false end = true) by (vm_compute; reflexivity).
    cbn [ro_poll] in Ew. rewrite Ew in Ha. exact Ha.
Defined.

(** ** A reset while bytes are waiting *)

(** The owner takes one byte at a time; the peer sends four and resets the
    connection.  The first write after the reset shuts the owner's direction down
    although three bytes are left, the rule stays interested because of them, and
    writing them fails: the thread throws. *)
Definition reset_run := new_udp_socket []
  [from_peer (peer_segment true false false 1000 1 []);
   from_peer (peer_segment false false false 1001 1 [x63; x64; x65; x66]);
   from_peer (peer_segment false false true 1005 1 [])] [].

Theorem socket_reset_throws :
  exists t so, connect reset_run run_cfg run_config 0 (udp_rounds [10; 20]) = Ok (true, t, so) /\
    tcp_main so t (udp_rounds [30; 40; 50]) = Err runtime_error /\
    exists so', tcp_main so t (udp_rounds [30; 40]) = Ok (false, so') /\
      k_to_owner (so_state so') = [x63] /\ k_owner_shut (so_state so') = true.
Proof.
  do 2 eexists. split; [vm_compute; reflexivity|]. split; [vm_compute; reflexivity|].
  eexists. split; [vm_compute; reflexivity|]. done.
Qed.
