(* ===== verification/EndToEnd.v ===== *)
(** * Two sockets and a network

    Two hosts, each with the thread of a [TCPSpongeSocket] over an adapter, and
    between them a network that loses, repeats, reorders, delays and damages
    datagrams.  Each owner gets a prefix of what the other owner wrote. *)
From S2P Require Import Prelude WrappingIntegers ByteStream StreamReassembler Buffer Parser Checksum TCPSegment IPv4 Ethernet TCPReceiver TCPSender Transfer TCPConnection Outgoing Duplex Address NetworkInterface Adapters FileDescriptor AdapterSafety Links Socket EventLoop SpongeSocket SpongeSafety SpongeRuns.

(** The segments that [e] has put on the wire. *)
Definition has_sent (e : endpoint) (s : TCPSegment) : Prop := exists a, (s, a) ∈ ep_wire e.

(** ** Steps of an endpoint *)

Section endpoint_steps.
Context (ce cp : TCPConfig).
Hypothesis Hce : TCPConnection.cfg_ok ce.
Hypothesis Hcp : TCPConnection.cfg_ok cp.
Hypothesis Hcape : cfg_recv_capacity ce + 4 * W32 < W64.
Hypothesis Hcapp : cfg_recv_capacity cp + 4 * W32 < W64.
Context (p : endpoint).

(** Everything that is queued goes on the wire. *)
Lemma transmit_queue e : dx_reachable ce cp e p ->
  exists e', dx_reachable ce cp e' p /\ ep_conn e' = tc_with_out (ep_conn e) [] /\ ep_written e' = ep_written e /\
    ep_read e' = ep_read e /\ (forall s, has_sent e s -> has_sent e' s) /\
    (forall s, s ∈ tc_segments_out (ep_conn e) -> has_sent e' s).
Proof.
  remember (tc_segments_out (ep_conn e)) as q eqn:Hq. revert e Hq. induction q as [|s q IH]; intros e Hq He.
  { exists e. split; [done|]. split; [destruct (ep_conn e); cbn in *; by subst|]. split; [done|]. split; [done|].
    split; [done|]. by intros s Hs%elem_of_nil. }
  destruct (dx_reachable_inv ce cp Hce Hcp Hcape Hcapp e p He) as (hl & hr & [I1 _]).
  destruct (hf_outbound _ _ _ _ _ I1) as [_ O2 O3]. rewrite <- Hq in O3. inversion O3 as [|? ? (a & Ha) _]; subst.
  set (e1 := mkEndpoint (tc_with_out (ep_conn e) q) (ep_written e) (ep_read e) ((s, a) :: ep_wire e)).
  assert (He1 : dx_reachable ce cp e1 p).
  { eapply dx_left; [exact He|]. apply es_transmit; [done|]. unfold ep_isn, ep_ended. by rewrite O2. }
  destruct (IH e1 eq_refl He1) as (e' & H1 & H2 & H3 & H4 & H5 & H6). exists e'. split; [done|].
  split; [by rewrite H2|]. split; [done|]. split; [done|]. split.
  - intros x (b & Hb). apply H5. exists b. by right.
  - intros x Hx. apply elem_of_cons in Hx as [->|Hx]; [|by apply H6]. apply H5. exists a. by left.
Qed.

(** A segment of the peer arrives, the port numbers and the checksum apart. *)
Lemma deliver_content e s s' c' :
  dx_reachable ce cp e p -> zlen (ep_written p) + 2 < W31 -> has_sent p s -> same_content s s' ->
  tc_segment_received (ep_conn e) s' = Ok c' ->
  dx_reachable ce cp (mkEndpoint c' (ep_written e) (ep_read e) (ep_wire e)) p.
Proof.
  intros He Hp (a & Ha) Hs E. rewrite (received_content _ _ _ Hs) in E. eapply dx_left; [exact He|].
  apply (es_deliver _ p e s a); [done| |done].
  apply (dx_deliver cp ce Hcp Hce Hcapp Hcape p e s a); [by apply dx_swap|done|done].
Qed.

(** Writing what the stream has room for; nothing is written once it has ended. *)
Lemma write_some_bytes e d :
  dx_reachable ce cp e p -> (ep_ended e = true -> d = []) -> zlen (ep_written e) + zlen d + cfg_recv_capacity cp + 4 * W32 < W64 ->
  (tc_write (ep_conn e) d).2 = zlen d ->
  dx_reachable ce cp (mkEndpoint (tc_write (ep_conn e) d).1 (ep_written e ++ d) (ep_read e) (ep_wire e)) p.
Proof.
  intros He Hend Hd Hn. eapply dx_left; [exact He|]. destruct (ep_ended e) eqn:Ee.
  - rewrite Hend by done. rewrite app_nil_r. 
    destruct (dx_reachable_inv ce cp Hce Hcp Hcape Hcapp e p He) as (hl & hr & [I1 _]).
    destruct (hf_outbound _ _ _ _ _ I1) as [O1 _ _].
    assert (Hw : (write (tx_stream (tc_sender (ep_conn e))) []).1 = tx_stream (tc_sender (ep_conn e))).
    { apply write_nil; [apply (so_ok _ _ (ti_stream _ _ O1))|].
      rewrite (so_written _ _ (ti_stream _ _ O1)). pose proof (ti_room _ _ O1). zpos. lia. }
    assert (Ec : (tc_write (ep_conn e) []).1 = tc_connect (ep_conn e)).
    { unfold tc_write. destruct (write (tx_stream (tc_sender (ep_conn e))) []) as [b n]. cbn [fst] in *. subst b.
      f_equal. destruct (ep_conn e) as []. cbn. f_equal. by destruct tc_sender. }
    rewrite Ec. apply es_connect.
  - pose proof (es_write (cfg_recv_capacity cp) p e d Ee Hd) as Hs. rewrite Hn, ztake_all in Hs by lia. exact Hs.
Qed.

(** What is popped from the stream counts as read. *)
Lemma read_some_bytes e n :
  dx_reachable ce cp e p -> 0 <= n <= buffer_size (inbound_stream (ep_conn e)) ->
  dx_reachable ce cp (mkEndpoint (tc_with_receiver (ep_conn e)
      (rx_with_stream_out (tc_receiver (ep_conn e)) (pop_output (inbound_stream (ep_conn e)) n)))
    (ep_written e) (ep_read e ++ ztake n (bs_buffer (inbound_stream (ep_conn e)))) (ep_wire e)) p.
Proof.
  intros He Hn. pose proof (es_read (cfg_recv_capacity cp) p e n ltac:(lia)) as Hs.
  rewrite read_pop in Hs by done. cbn [fst snd] in Hs. eapply dx_left; [exact He|exact Hs].
Qed.
End endpoint_steps.

(** ** A thread and its endpoint *)

Section host.
Context {A I O : Type} {FA : FdAdapter A I O} {FS : FdAdapterSafe A I O} {FM : FdMedium A I O} {FL : FdLink A I O}.
Context (ce cp : TCPConfig) (D : bytes).
Hypothesis Hce : TCPConnection.cfg_ok ce.
Hypothesis Hcp : TCPConnection.cfg_ok cp.
Hypothesis Hcape : cfg_recv_capacity ce + 5 * W32 < W64.
Hypothesis Hcapp : cfg_recv_capacity cp + 5 * W32 < W64.
Hypothesis HD : zlen D + 2 < W31.
(** The endpoint of the peer, and that of the thread at the beginning. *)
Context (p e0 : endpoint).
Hypothesis Hp : zlen (ep_written p) + 2 < W31.
Abbreviation running := (sponge A I O TCPConnection).
Implicit Types s : running.

(** The endpoint [e] has the connection of the thread; what was written to it is
    what the owner has handed over, and what was read from it has reached the
    owner.  Everything on the device, and everything the adapter keeps back, are
    segments that [e] has sent; what waits on the device are segments of [p]. *)
Record linked (e : endpoint) s : Prop := {
  lk_conn : ep_conn e = ss_tcp s;
  lk_written : ep_written e ++ k_from_owner s = D;
  lk_read : ep_read e = k_to_owner s;
  lk_holds : adapter_holds (I := I) (O := O) (has_sent e) (ss_adapter s);
  lk_wire : Forall (says (A := A) (I := I) (has_sent e)) (k_wire s);
  lk_device : Forall (comes_from (A := A) (O := O) (has_sent p)) (k_device s) }.

(** Since then, the thread has done nothing but steps of its endpoint. *)
Definition in_step s : Prop :=
  exists e, dx_reachable ce cp e p /\ (forall x, has_sent e0 x -> has_sent e x) /\ linked e s.

(** The connection takes steps of its own, and the adapter is used. *)
Lemma linked_change e e' s fd a device out am :
  linked e s -> ep_written e' = ep_written e -> ep_read e' = ep_read e -> (forall x, has_sent e x -> has_sent e' x) ->
  adapter_holds (I := I) (O := O) (has_sent e') a -> Forall (says (A := A) (I := I) (has_sent e')) out ->
  device `suffix_of` k_device s -> linked e' (with_amounts am (with_tcp (ep_conn e') (with_adapter fd a device out s))).
Proof.
  intros [H1 H2 H3 H4 H5 H6] Ew Er Hs Ha Ho [dv Hd]. constructor; cbn; try done; [by rewrite Ew|by rewrite Er| |].
  - apply Forall_app. split; [|done]. eapply Forall_impl; [exact H5|]. intros x. by apply says_mono.
  - rewrite Hd in H6. by apply Forall_app in H6 as [_ ?].
Qed.

Lemma on_datagram_in_step t s s' : sponge_inv ce D t s -> in_step s -> on_datagram s = Ok s' -> in_step s'.
Proof.
  intros Hs (e & He & H0 & Hl) E. unfold on_datagram, read_adapter in E. apply rbind_ok in E as ([s1 seg] & E1 & E).
  destruct (k_device s) as [|i device] eqn:Ed; [done|]. apply rbind_ok in E1 as (am1 & _ & E1).
  apply rbind_ok in E1 as ([[a o] out] & Er & E1). apply rbind_ok in E1 as (am & _ & [= <- <-]).
  pose proof Hl as [L1 L2 L3 L4 L5 L6]. rewrite Ed in L6. inversion L6 as [|? ? Hi Hdev]; subst.
  pose proof (si_device _ _ _ _ Hs) as Hok. rewrite Ed in Hok. inversion Hok as [|? ? Hin _]; subst.
  destruct (link_read (has_sent e) t _ i a o out (si_adapter _ _ _ _ Hs) Hin L4 Er) as [Ha Hout].
  set (fd := register_read _) in E. apply rbind_ok in E as (s2 & E2 & [= <-]).
  assert (Hsuf : device `suffix_of` k_device s) by (rewrite Ed; by exists [i]).
  assert (H2 : in_step s2).
  { destruct o as [seg|].
    - apply rbind_ok in E2 as (c & Ec & [= <-]). cbn [ss_tcp with_amounts with_adapter] in Ec. rewrite <- L1 in Ec.
      destruct (Hi seg (link_reads _ _ _ _ _ Er)) as (s0 & Hs0 & Hsame).
      eexists. split; [exact (deliver_content ce cp Hce Hcp ltac:(lia) ltac:(lia) p e s0 seg c He Hp Hs0 Hsame Ec)|]. split; [exact H0|].
      by apply (linked_change e (mkEndpoint c (ep_written e) (ep_read e) (ep_wire e)) s fd a device out am).
    - injection E2 as <-. exists e. split; [done|]. split; [done|].
      pose proof (linked_change e e s fd a device out am Hl eq_refl eq_refl (fun x H => H) Ha Hout Hsuf) as H. by destruct H. }
  destruct (_ && _); [|done]. destruct H2 as (e2 & ? & ? & [? ? ? ? ? ?]). by exists e2.
Qed.

Lemma on_owner_bytes_in_step t s s' : sponge_inv ce D t s -> in_step s -> on_owner_bytes s = Ok s' -> in_step s'.
Proof.
  intros Hs (e & He & H0 & [L1 L2 L3 L4 L5 L6]) E. pose proof Hs as [H1 _ _ _ H5 _ [H7 _] _ _ _].
  unfold on_owner_bytes in E. set (limit := tc_remaining_outbound_capacity (ss_tcp s)) in E.
  destruct (kernel_read (k_amounts s) (k_from_owner s) limit) as [data|] eqn:Ek; [|done].
  destruct (fd_read_some (k_amounts s) (ss_thread_data s) limit (k_from_owner s) data
    (conn_outbound_capacity _ _ _ _ _ H1) H7 H5 Ek) as (fd & Ef & _ & _ & _ & _ & _ & _ & _ & F8).
  rewrite Ef in E. cbn [rbind] in E.
  set (rest := zdrop (zlen data) (k_from_owner s)) in *.
  destruct (tc_write (ss_tcp s) data) as [c n] eqn:Ew. destruct (Z.eqb_spec n (zlen data)) as [->|]; [|done]. cbn [negb] in E.
  assert (Hlen : zlen (ep_written e) + zlen data <= zlen D).
  { rewrite <- L2, <- F8, !zlen_app. zpos. lia. }
  assert (Hend : ep_ended e = true -> data = []).
  { unfold ep_ended. rewrite L1. intros Hc. pose proof (cn_ended _ _ _ _ _ H1 Hc) as Hn. rewrite Hn in F8.
    by apply app_eq_nil in F8 as [? _]. }
  pose proof (write_some_bytes ce cp Hce Hcp ltac:(lia) ltac:(lia) p e data He Hend ltac:(lia)) as Hw.
  rewrite L1, Ew in Hw. cbn [fst snd] in Hw. specialize (Hw eq_refl).
  set (e1 := mkEndpoint c (ep_written e ++ data) (ep_read e) (ep_wire e)) in *.
  assert (Hw1 : ep_written e1 ++ rest = D) by (cbn; by rewrite <- app_assoc, F8).
  destruct (fd_eof fd).
  - injection E as <-. exists (mkEndpoint (tc_end_input_stream c) (ep_written e1) (ep_read e1) (ep_wire e1)). split.
    + eapply dx_left; [exact Hw|]. apply es_end.
    + split; [done|]. by constructor.
  - injection E as <-. exists e1. split; [done|]. split; [done|]. by constructor.
Qed.

Lemma on_bytes_for_owner_in_step s s' : in_step s -> on_bytes_for_owner s = Ok s' -> in_step s'.
Proof.
  intros (e & He & H0 & [L1 L2 L3 L4 L5 L6]) E. unfold on_bytes_for_owner in E. destruct (k_owner_shut s); [done|].
  set (st := inbound_stream (ss_tcp s)) in *. pose proof (buffer_size_nonneg st) as Hb.
  set (m := Z.min 65536 (buffer_size st)) in E. assert (Hm : 0 <= m <= buffer_size st) by (unfold m; lia).
  set (out := peek_output st m) in E.
  assert (Hout : out = ztake m (bs_buffer st)) by (unfold out, peek_output; zcase; [lia|done]).
  assert (Hlen : zlen out = m) by (rewrite Hout; unfold buffer_size in *; zl).
  pose proof (write_some_ok (k_amounts s) (ss_thread_data s) out ltac:(unfold m in Hlen; lia)) as Hw.
  destruct (refuses 1 (k_amounts s)); [by rewrite Hw in E|]. destruct Hw as (n & En & Hn & _). rewrite En in E. cbn [rbind] in E. apply rbind_ok in E as (fd & _ & [= <-]).
  assert (Hz : ztake n out = ztake n (bs_buffer st)).
  { rewrite Hout. unfold ztake. rewrite take_take. f_equal. lia. }
  eexists. split.
  - apply (read_some_bytes ce cp p e n He). rewrite L1. fold st. lia.
  - split; [done|]. rewrite L1. fold st. constructor; cbn; try done. by rewrite L3, Hz.
Qed.

Lemma send_queue_says (W : TCPSegment -> Prop) t queue : forall (a a' : A) out,
  adapter_ok t a -> Forall sendable queue -> (forall x, x ∈ queue -> W x) -> adapter_holds (I := I) (O := O) W a ->
  send_queue a queue = Ok (a', out) -> adapter_holds (I := I) (O := O) W a' /\ Forall (says (A := A) (I := I) W) out.
Proof.
  induction queue as [|seg queue IH]; intros a a' out Ha Hq HW Hh E; cbn [send_queue] in E; [by injection E as <- <-|].
  inversion Hq as [|? ? Hs Hq']; subst. apply rbind_ok in E as ([[a1 seg'] out1] & E1 & E).
  apply rbind_ok in E as ([a2 out2] & E2 & [= <- <-]).
  destruct (link_write W t a seg a1 seg' out1 Ha Hs (HW seg ltac:(by left)) Hh E1) as [H1 H2].
  destruct (adapter_write_safe t a seg Ha Hs) as (a3 & seg3 & out3 & E3 & Ha1). rewrite E1 in E3. injection E3 as <- _ _.
  destruct (IH a1 a2 out2 Ha1 Hq') as [H3 H4]; [intros x Hx; apply HW; by right|done|done|]. split; [done|by apply Forall_app_2].
Qed.

Lemma on_segments_in_step t s s' : sponge_inv ce D t s -> in_step s -> on_segments s = Ok s' -> in_step s'.
Proof.
  intros Hs (e & He & H0 & Hl) E. pose proof Hl as [L1 _ _ L4 _ _]. unfold on_segments in E.
  apply rbind_ok in E as ([a out] & Eq & E). apply rbind_ok in E as (am & _ & [= <-]).
  destruct (transmit_queue ce cp Hce Hcp ltac:(lia) ltac:(lia) p e He) as (e' & H1 & H2 & H3 & H4 & H5 & H6).
  destruct (send_queue_says (has_sent e') t (tc_segments_out (ss_tcp s)) (ss_adapter s) a out) as [K1 K2]; try done.
  { apply Hs. } { apply (cn_sendable _ _ _ _ _ (si_conn _ _ _ _ Hs)). } { by rewrite <- L1. } { by eapply link_mono. }
  exists e'. split; [done|]. split; [auto|].
  pose proof (linked_change e e' s (ss_adapter_fd s) a (k_device s) out am Hl H3 H4 H5 K1 K2 (reflexivity _)) as H.
  rewrite H2, L1 in H. by destruct H.
Qed.

Lemma end_outbound_stream_in_step s : in_step s -> in_step (end_outbound_stream s).
Proof.
  intros (e & He & H0 & [L1 L2 L3 L4 L5 L6]).
  exists (mkEndpoint (tc_end_input_stream (ep_conn e)) (ep_written e) (ep_read e) (ep_wire e)). split.
  - eapply dx_left; [exact He|]. apply es_end.
  - split; [done|]. constructor; try done. cbn. by rewrite L1.
Qed.

Lemma tick_both_in_step s ms s' : 0 <= ms -> in_step s -> tick_both ms s = Ok s' -> in_step s'.
Proof.
  intros Hms (e & He & H0 & Hl) E. pose proof Hl as [L1 _ _ L4 _ _]. unfold tick_both in E. apply rbind_ok in E as (c & Ec & E).
  destruct (adapter_tick (ss_adapter s) ms) as [a out] eqn:Ea. apply rbind_ok in E as (am & _ & [= <-]).
  destruct (link_tick (has_sent e) _ a ms out L4 Ea) as [H1 H2].
  set (e' := mkEndpoint c (ep_written e) (ep_read e) (ep_wire e)). exists e'. split.
  - eapply dx_left; [exact He|]. apply (es_tick _ p e ms c Hms). by rewrite L1.
  - split; [done|]. by apply (linked_change e e' s (ss_adapter_fd s) a (k_device s) out am).
Qed.

(** ** A round of the loop *)

(** The thread as its event loop sees it, with the endpoint beside it. *)
Definition step_view (t : Z) : view sponge_rule running :=
  let V := sponge_view ce D t in
  mkView (fun s => v_inv V s /\ in_step s) (v_wanted V) (v_ready V) (v_hung_up V) (v_gone V) (v_fails V).

Lemma callback_in_step t r s s' : sponge_inv ce D t s -> in_step s -> rule_callback r s = Ok s' -> in_step s'.
Proof.
  intros Hs Hi E. destruct r; [exact (on_datagram_in_step t s s' Hs Hi E)|exact (on_owner_bytes_in_step t s s' Hs Hi E)|
    exact (on_bytes_for_owner_in_step s s' Hi E)|exact (on_segments_in_step t s s' Hs Hi E)].
Qed.

Lemma step_contract t : contract (step_view t).
Proof.
  destruct (sponge_contract ce Hce D t) as [C1 C2 C3]. split.
  - intros r s [Hs _]. by apply C1.
  - intros r s [Hs Hi] Ho. destruct (C2 r s Hs Ho) as (s' & E & Hs' & H). exists s'. split; [done|]. split; [|done].
    split; [done|]. destruct r; injection E as <-; [done|by apply end_outbound_stream_in_step|done|done].
  - intros r s [Hs Hi] Hw Hr. specialize (C3 r s Hs Hw Hr). destruct (rule_callback r s) as [s'|] eqn:E; [|done].
    destruct C3 as (Hs' & H). split; [|done]. split; [done|]. exact (callback_in_step t r s s' Hs Hi E).
Qed.

Lemma round_in_step condition t r rules s over t' rules' s' :
  0 <= t -> sponge_inv ce D t s -> accounted (sponge_view ce D t) sponge_rules rules s -> in_step s ->
  t <= ro_time r < W64 - W32 -> poll_honest (sponge_view ce D t) rules s (ro_poll r) ->
  tcp_loop condition t [r] rules s = Ok (over, t', rules', s') -> in_step s'.
Proof.
  intros Ht Hs Ha Hi Htime Hpoll E. cbn [tcp_loop] in E. destruct (condition s); [|by injection E as _ _ _ <-].
  assert (Hnd : NoDup rules) by (eapply sublist_NoDup; [apply (sponge_rules_nodup ce Hce)|apply Ha]).
  pose proof (wait_spec (step_view t) (step_contract t) rules s (ro_poll r) Hnd (conj Hs Hi) Hpoll) as Hw.
  apply rbind_ok in E as ([[res rules1] s1] & Ew & E). rewrite Ew in Hw. destruct Hw as ((_ & Hi1) & _). cbn [snd] in Hi1.
  destruct (_ || _); [by injection E as _ _ _ <-|]. destruct (tc_active (ss_tcp s1)).
  - apply rbind_ok in E as (s2 & E2 & E). apply tick_both_in_step in E2; [|rewrite u64_id; lia|done].
    destruct (condition s2); by injection E as _ _ _ <-.
  - destruct (condition s1); by injection E as _ _ _ <-.
Qed.
End host.

(** ** The system *)

(** The thread of a host: the time of its last tick, the rules left and its state. *)
Record host (A I O : Type) : Type := mkHost {
  h_time : Z;
  h_rules : list sponge_rule;
  h_state : sponge A I O TCPConnection }.
Arguments mkHost {A I O}.
Arguments h_time {A I O}.
Arguments h_rules {A I O}.
Arguments h_state {A I O}.

Section system.
Context {A I O : Type} {FA : FdAdapter A I O} {FS : FdAdapterSafe A I O} {FM : FdMedium A I O} {FL : FdLink A I O}.
Implicit Types h k : host A I O.

(** One round of the loop of [connect], [listen_and_accept] or [tcp_main], with
    an honest kernel and a clock that does not go back. *)
Definition host_runs (c : TCPConfig) (D : bytes) h h' : Prop :=
  exists condition r over,
    h_time h <= ro_time r < W64 - W32 /\
    poll_honest (sponge_view c D (h_time h)) (h_rules h) (h_state h) (ro_poll r) /\
    tcp_loop condition (h_time h) [r] (h_rules h) (h_state h) = Ok (over, h_time h', h_rules h', h_state h').

(** The network takes any datagram that [k] has put on its device, however often
    and however late, or makes one up that no adapter reads as a segment, as when
    it has damaged one. *)
Definition arrives k (i : I) : Prop :=
  adapter_input_ok i /\
  ((exists o, o ∈ k_wire (h_state k) /\ carries (A := A) o i) \/ forall s, ~ reads_as (A := A) (O := O) i s).

Definition with_device (device : list I) (s : sponge A I O TCPConnection) : sponge A I O TCPConnection :=
  mkSponge (ss_owner s) (ss_thread_data s) (ss_adapter_fd s) (ss_adapter s) (ss_tcp s) (ss_inbound_shutdown s)
    (ss_outbound_shutdown s) (ss_fully_acked s) (k_from_owner s) (k_to_owner s) (k_owner_shut s) device (k_wire s)
    (k_amounts s).

Definition handed (i : I) h : host A I O :=
  mkHost (h_time h) (h_rules h) (with_device (k_device (h_state h) ++ [i]) (h_state h)).

(** [queue] bounds what a device holds. *)
Inductive net_step (cl cr : TCPConfig) (Dl Dr : bytes) (queue : Z) : host A I O * host A I O -> host A I O * host A I O -> Prop :=
  | ns_left h h' k : host_runs cl Dl h h' -> net_step cl cr Dl Dr queue (h, k) (h', k)
  | ns_right h k k' : host_runs cr Dr k k' -> net_step cl cr Dl Dr queue (h, k) (h, k')
  | ns_to_left i h k :
      arrives k i -> zlen (k_device (h_state h)) < queue -> net_step cl cr Dl Dr queue (h, k) (handed i h, k)
  | ns_to_right i h k :
      arrives h i -> zlen (k_device (h_state k)) < queue -> net_step cl cr Dl Dr queue (h, k) (h, handed i k).

(** A host that has just begun to connect or to listen: nothing has arrived, and
    its adapter keeps nothing back. *)
Definition begins (c : TCPConfig) (D : bytes) h : Prop :=
  0 <= h_time h /\ exists so c_ad listening,
    fresh c D (h_time h) (mkFdAdapterBase c_ad
      (if (listening : bool) then true else fa_listen (adapter_base (ss_adapter (so_state so))))) so /\
    k_device (so_state so) = [] /\ k_wire (so_state so) = [] /\ h_rules h = sponge_rules /\
    h_state h = start_state c so c_ad listening /\
    adapter_holds (I := I) (O := O) (fun _ => False) (ss_adapter (h_state h)).

(** ** The invariant *)

Record host_inv (c : TCPConfig) (D : bytes) (p e : endpoint) h : Prop := {
  hi_time : 0 <= h_time h;
  hi_sponge : sponge_inv c D (h_time h) (h_state h);
  hi_rules : accounted (sponge_view c D (h_time h)) sponge_rules (h_rules h) (h_state h);
  hi_linked : linked D p e (h_state h) }.

Lemma linked_peer D p p' e (s : sponge A I O TCPConnection) :
  (forall x, has_sent p x -> has_sent p' x) -> linked D p e s -> linked D p' e s.
Proof.
  intros H [L1 L2 L3 L4 L5 L6]. constructor; try done. eapply Forall_impl; [exact L6|]. intros i. by apply comes_from_mono.
Qed.

Lemma host_inv_peer c D p p' e h : (forall x, has_sent p x -> has_sent p' x) -> host_inv c D p e h -> host_inv c D p' e h.
Proof. intros H [H1 H2 H3 H4]. constructor; try done. by eapply linked_peer. Qed.

Lemma linked_written D p e (s : sponge A I O TCPConnection) : linked D p e s -> zlen (ep_written e) <= zlen D.
Proof. intros [_ L2 _ _ _ _]. rewrite <- L2, zlen_app. zpos. lia. Qed.

Section step.
Context (ce cp : TCPConfig) (De Dp : bytes) (queue : Z).
Hypothesis Hce : TCPConnection.cfg_ok ce.
Hypothesis Hcp : TCPConnection.cfg_ok cp.
Hypothesis Hcape : cfg_recv_capacity ce * (queue + 2) + 5 * W32 < W64.
Hypothesis Hcapp : cfg_recv_capacity cp * (queue + 2) + 5 * W32 < W64.
Hypothesis Hq : 0 <= queue.
Hypothesis HDe : zlen De + 2 < W31.
Hypothesis HDp : zlen Dp + 2 < W31.

Lemma cap_room (c : TCPConfig) : TCPConnection.cfg_ok c ->
  cfg_recv_capacity c * (queue + 2) + 5 * W32 < W64 -> cfg_recv_capacity c + 5 * W32 < W64.
Proof. intros (_ & H & _) Hc. nia. Qed.

Lemma host_runs_inv p e h h' k :
  dx_reachable ce cp e p -> host_inv ce De p e h -> host_inv cp Dp e p k -> host_runs ce De h h' ->
  exists e', dx_reachable ce cp e' p /\ host_inv ce De p e' h' /\ host_inv cp Dp e' p k.
Proof.
  intros He [H1 H2 H3 H4] Hk (condition & r & over & Htime & Hpoll & E).
  pose proof (linked_written _ _ _ _ (hi_linked _ _ _ _ _ Hk)) as Hw.
  assert (Hi : in_step ce cp De p e (h_state h)) by (by exists e).
  destruct (round_in_step ce cp De Hce Hcp (cap_room _ Hce Hcape) (cap_room _ Hcp Hcapp) HDe p e ltac:(lia)
    condition _ r _ _ _ _ _ _ H1 H2 H3 Hi Htime Hpoll E) as (e' & He' & Hsent & Hl').
  assert (Hr : rounds_honest ce De (h_time h) [r] (h_rules h) (h_state h)).
  { split; [done|]. split; [done|]. intros res rules s1 _. by destruct (tc_active (ss_tcp s1)). }
  pose proof (tcp_loop_ok ce Hce De condition [r] _ _ _ H1 H2 H3 Hr) as Hok. rewrite E in Hok.
  destruct Hok as (A1 & A2 & A3 & _). exists e'. split; [done|]. split; [by constructor|]. by eapply host_inv_peer.
Qed.

Lemma handed_inv p e h k i :
  dx_reachable ce cp e p -> host_inv ce De p e h -> host_inv cp Dp e p k -> arrives k i ->
  zlen (k_device (h_state h)) < queue -> host_inv ce De p e (handed i h).
Proof.
  intros He [H1 H2 H3 H4] Hk [Hin Harr] Hlt. pose proof (linked_written _ _ _ _ (hi_linked _ _ _ _ _ Hk)) as Hw.
  assert (Hle : zlen (k_to_owner (h_state h) ++ waiting (h_state h)) <= zlen (ep_written p)).
  { destruct H4 as [L1 _ L3 _ _ _]. unfold waiting. rewrite <- L1, <- L3.
    pose proof (cap_room _ Hce Hcape). pose proof (cap_room _ Hcp Hcapp).
    pose proof (dx_arrived cp ce Hcp Hce ltac:(lia) ltac:(lia) p e (dx_swap _ _ _ _ He)) as (x & ->).
    rewrite (zlen_app _ x). zpos. lia. }
  assert (Hfrom : comes_from (A := A) (O := O) (has_sent p) i).
  { destruct Harr as [(o & Ho & Hc)|Hn]; [|by intros s Hs%Hn].
    pose proof (lk_wire _ _ _ _ (hi_linked _ _ _ _ _ Hk)) as Hwire. rewrite Forall_forall in Hwire. by apply (Hwire o Ho). }
  constructor; [done| |done|].
  - destruct H2 as [S1 S2 S3 S4 S5 S6 S7 S8 S9 S10]. constructor; try done; cbn.
    + change (waiting (with_device _ _)) with (waiting (h_state h)). rewrite (zlen_app _ [i]), zlen_cons.
      change (zlen []) with 0. destruct Hce as (_ & Hc & _). zpos. nia.
    + apply Forall_app. split; [done|]. by constructor.
  - destruct H4 as [L1 L2 L3 L4 L5 L6]. constructor; try done. cbn. apply Forall_app. split; [done|]. by constructor.
Qed.

Lemma begins_inv h e :
  begins ce De h -> ep_conn e = ss_tcp (h_state h) -> ep_written e = [] -> ep_read e = [] ->
  forall p, host_inv ce De p e h.
Proof.
  intros (Ht & so & c_ad & listening & Hf & Hdev & Hwire & Hrules & Hst & Hh) Ec Ew Er p.
  pose proof Hf as [_ _ _ (O1 & O2 & _) _ _ _ _ _]. constructor; [done| | |].
  - rewrite Hst. by apply start_inv.
  - rewrite Hrules. apply all_accounted.
  - rewrite Hst in *. constructor; try done.
    + rewrite Ew. destruct listening; exact O1.
    + rewrite Er. destruct listening; symmetry; exact O2.
    + eapply link_mono; [|exact Hh]. by intros x [].
    + destruct listening; cbn; rewrite Hwire; constructor.
    + destruct listening; cbn; rewrite Hdev; constructor.
Qed.
End step.

(** A host starts as a new endpoint, or as one that has asked to connect. *)
Lemma begins_endpoint c D h : begins c D h ->
  exists e, (forall p cp, dx_reachable c cp (ep_new c) p -> dx_reachable c cp e p) /\
    ep_conn e = ss_tcp (h_state h) /\ ep_written e = [] /\ ep_read e = [].
Proof.
  intros (_ & so & c_ad & listening & _ & _ & _ & _ & Hst & _).
  exists (if listening then ep_new c else mkEndpoint (tc_connect (ep_conn (ep_new c))) [] [] []).
  split; [|rewrite Hst; by destruct listening]. intros p cp He. destruct listening; [done|].
  eapply dx_left; [exact He|]. apply (es_connect _ p (ep_new c)).
Qed.

Section both.
Context (cl cr : TCPConfig) (Dl Dr : bytes) (queue : Z).
Hypothesis Hcl : TCPConnection.cfg_ok cl.
Hypothesis Hcr : TCPConnection.cfg_ok cr.
Hypothesis Hroom : Z.max (cfg_recv_capacity cl) (cfg_recv_capacity cr) * (queue + 2) + 5 * W32 < W64.
Hypothesis Hq : 0 <= queue.
Hypothesis HDl : zlen Dl + 2 < W31.
Hypothesis HDr : zlen Dr + 2 < W31.

Lemma rooms : cfg_recv_capacity cl * (queue + 2) + 5 * W32 < W64 /\ cfg_recv_capacity cr * (queue + 2) + 5 * W32 < W64.
Proof. nia. Qed.

Record net_inv (l r : endpoint) h k : Prop := {
  nv_reachable : dx_reachable cl cr l r;
  nv_left : host_inv cl Dl r l h;
  nv_right : host_inv cr Dr l r k }.

Lemma net_inv_begins h k : begins cl Dl h -> begins cr Dr k -> exists l r, net_inv l r h k.
Proof.
  intros Hh Hk. destruct (begins_endpoint _ _ _ Hh) as (l & Hl & L1 & L2 & L3).
  destruct (begins_endpoint _ _ _ Hk) as (r & Hr & R1 & R2 & R3). exists l, r. constructor.
  - apply Hl, dx_swap, Hr, dx_start.
  - by apply begins_inv.
  - by apply begins_inv.
Qed.

Lemma net_inv_step x y l r : net_step cl cr Dl Dr queue x y -> net_inv l r x.1 x.2 -> exists l' r', net_inv l' r' y.1 y.2.
Proof.
  destruct rooms as [Rl Rr]. intros Hs [Hd Hh Hk]. pose proof (dx_swap _ _ _ _ Hd) as Hd'.
  destruct Hs as [h h' k Hs|h k k' Hs|i h k Ha Hlt|i h k Ha Hlt]; cbn [fst snd] in *.
  - destruct (host_runs_inv cl cr Dl Dr queue Hcl Hcr Rl Rr Hq HDl HDr r l h h' k Hd Hh Hk Hs) as (l' & H1 & H2 & H3).
    exists l', r. by constructor.
  - destruct (host_runs_inv cr cl Dr Dl queue Hcr Hcl Rr Rl Hq HDr HDl l r k k' h Hd' Hk Hh Hs) as (r' & H1 & H2 & H3).
    exists l, r'. constructor; [by apply dx_swap|done|done].
  - exists l, r. constructor; [done| |done]. by eapply (handed_inv cl cr Dl Dr queue).
  - exists l, r. constructor; [done|done|]. by eapply (handed_inv cr cl Dr Dl queue).
Qed.

Lemma net_inv_reachable x y l r :
  rtc (net_step cl cr Dl Dr queue) x y -> net_inv l r x.1 x.2 -> exists l' r', net_inv l' r' y.1 y.2.
Proof.
  intros H. revert l r. induction H as [x|x y z Hxy _ IH]; intros l r Hi; [by exists l, r|].
  destruct (net_inv_step x y l r Hxy Hi) as (l' & r' & Hy). by eapply IH.
Qed.

(** What has reached the left owner, and what waits for it. *)
Lemma net_inv_prefix l r h k : net_inv l r h k ->
  k_to_owner (h_state h) ++ waiting (h_state h) `prefix_of` Dr /\
  k_to_owner (h_state k) ++ waiting (h_state k) `prefix_of` Dl.
Proof.
  destruct rooms as [Rl Rr]. intros [Hd [_ _ _ [L1 L2 L3 _ _ _]] [_ _ _ [R1 R2 R3 _ _ _]]].
  pose proof (cap_room queue Hq _ Hcl Rl). pose proof (cap_room queue Hq _ Hcr Rr). unfold waiting. rewrite <- L1, <- L3, <- R1, <- R3. split.
  - transitivity (ep_written r); [|by exists (k_from_owner (h_state k))].
    by apply (dx_arrived cr cl Hcr Hcl ltac:(lia) ltac:(lia)), dx_swap.
  - transitivity (ep_written l); [|by exists (k_from_owner (h_state h))].
    by apply (dx_arrived cl cr Hcl Hcr ltac:(lia) ltac:(lia)).
Qed.

(** No round throws but for a reason: a call that the kernel refuses to a callback
    that the round calls or to its tick, or bytes waiting for an owner whose
    direction was shut down before. *)
Definition rounds_safely (c : TCPConfig) (D : bytes) h : Prop :=
  forall condition r, h_time h <= ro_time r < W64 - W32 ->
    poll_honest (sponge_view c D (h_time h)) (h_rules h) (h_state h) (ro_poll r) ->
    match tcp_loop condition (h_time h) [r] (h_rules h) (h_state h) with
    | Ok _ => True
    | Err e => round_throws (h_time h) r (h_rules h) (h_state h) e
    end.

Lemma host_inv_safe c D p e h : TCPConnection.cfg_ok c -> host_inv c D p e h -> rounds_safely c D h.
Proof.
  intros Hc [H1 H2 H3 H4] condition r Htime Hpoll.
  pose proof (tcp_loop_ok c Hc D condition [r] _ _ _ H1 H2 H3) as H. cbn [rounds_honest] in H.
  destruct (tcp_loop _ _ _ _ _) as [[[[? ?] ?] ?]|]; [done|]. eapply loop_throws_one, H. split; [done|]. split; [done|].
  intros res rules s1 _. by destruct (tc_active (ss_tcp s1)).
Qed.
End both.
End system.

(** ** Schedules *)

(** Either side runs a round until a time, in which its owner has something to say
    or waits, or is handed the n-th datagram that the other has put on its device. *)
Inductive action : Type :=
  | left_waits (t : Z)
  | right_waits (t : Z)
  | left_runs (t : Z)
  | right_runs (t : Z)
  | to_left (n : nat)
  | to_right (n : nat).

Section schedule.
Context {A I O : Type} {FA : FdAdapter A I O} {FS : FdAdapterSafe A I O} {FM : FdMedium A I O}.
(** How the network hands a datagram to either side, and which it can carry. *)
Context (for_left for_right : O -> I) (small : O -> bool) (queue : Z).
Hypothesis Hleft : forall o, small o = true -> carries (A := A) o (for_left o) /\ adapter_input_ok (for_left o).
Hypothesis Hright : forall o, small o = true -> carries (A := A) o (for_right o) /\ adapter_input_ok (for_right o).
Implicit Types h k : host A I O.

Definition run_host (poll : sponge A I O TCPConnection -> list pollfd -> poll_answer) (t : Z) h : option (host A I O) :=
  if bool_decide (h_time h <= t < W64 - W32) then
    match tcp_loop (fun _ => true) (h_time h) [mkRound poll false t] (h_rules h) (h_state h) with
    | Ok (_, t, rules, s) => Some (mkHost t rules s)
    | Err _ => None
    end
  else None.

Definition hand_over (as_input : O -> I) (n : nat) (from to : host A I O) : option (host A I O) :=
  match k_wire (h_state from) !! n with
  | Some o =>
      if small o && (zlen (k_device (h_state to)) <? queue) then Some (handed (as_input o) to) else None
  | None => None
  end.

Definition perform (a : action) (x : host A I O * host A I O) : option (host A I O * host A I O) :=
  match a with
  | left_waits t => h ← run_host patient t x.1; Some (h, x.2)
  | right_waits t => k ← run_host patient t x.2; Some (x.1, k)
  | left_runs t => h ← run_host eager t x.1; Some (h, x.2)
  | right_runs t => k ← run_host eager t x.2; Some (x.1, k)
  | to_left n => h ← hand_over for_left n x.2 x.1; Some (h, x.2)
  | to_right n => k ← hand_over for_right n x.1 x.2; Some (x.1, k)
  end.

Fixpoint performs (acts : list action) (x : host A I O * host A I O) : option (host A I O * host A I O) :=
  match acts with
  | [] => Some x
  | a :: acts => y ← perform a x; performs acts y
  end.

Lemma run_host_runs c D ready t h h' : h_rules h `sublist_of` sponge_rules -> run_host (answering ready) t h = Some h' ->
  host_runs c D h h' /\ h_rules h' `sublist_of` sponge_rules.
Proof.
  unfold run_host. intros Hr E. case_bool_decide as Ht; [|done].
  destruct (tcp_loop _ _ _ _ _) as [[[[over t'] rules] s]|] eqn:El; [|done]. injection E as <-. split.
  - exists (fun _ => true), (mkRound (answering ready) false t), over. split; [done|]. split; [by apply answering_honest|exact El].
  - cbn [tcp_loop] in El. apply rbind_ok in El as ([[res rules1] s1] & Ew & El). apply wait_sublist in Ew. cbn [h_rules].
    assert (rules = rules1) as ->; [|by transitivity (h_rules h)].
    destruct (_ || _); [by injection El as _ _ <- _|]. destruct (tc_active _); [|by injection El as _ _ <- _].
    apply rbind_ok in El as (s2 & _ & El). by injection El as _ _ <- _.
Qed.

Lemma hand_over_arrives as_input n from to to' :
  (forall o, small o = true -> carries (A := A) o (as_input o) /\ adapter_input_ok (as_input o)) ->
  hand_over as_input n from to = Some to' ->
  exists i, arrives from i /\ zlen (k_device (h_state to)) < queue /\ to' = handed i to.
Proof.
  unfold hand_over. intros Hin E. destruct (k_wire (h_state from) !! n) as [o|] eqn:Eo; [|done].
  destruct (small o && _) eqn:Es; [|done]. apply andb_true_iff in Es as [Hs Hq%Z.ltb_lt]. injection E as <-.
  destruct (Hin o Hs) as [Hc Hok]. exists (as_input o). split; [|done]. split; [done|]. left. exists o.
  split; [by eapply list_elem_of_lookup_2|done].
Qed.

Lemma performs_steps cl cr Dl Dr acts : forall x y,
  h_rules x.1 `sublist_of` sponge_rules -> h_rules x.2 `sublist_of` sponge_rules ->
  performs acts x = Some y -> rtc (net_step cl cr Dl Dr queue) x y.
Proof.
  induction acts as [|a acts IH]; intros [h k] y Hh Hk E; cbn [performs] in E; [by injection E as ->|].
  cbn [fst snd] in Hh, Hk. apply bind_Some in E as (z & Ez & E). destruct a as [t|t|t|t|n|n]; cbn [perform fst snd] in Ez;
    apply bind_Some in Ez as (h' & Eh & [= <-]).
  - destruct (run_host_runs cl Dl _ _ _ _ Hh Eh) as [Hs Hr]. eapply rtc_l; [by apply ns_left|]. by apply IH.
  - destruct (run_host_runs cr Dr _ _ _ _ Hk Eh) as [Hs Hr]. eapply rtc_l; [by apply ns_right|]. by apply IH.
  - destruct (run_host_runs cl Dl _ _ _ _ Hh Eh) as [Hs Hr]. eapply rtc_l; [by apply ns_left|]. by apply IH.
  - destruct (run_host_runs cr Dr _ _ _ _ Hk Eh) as [Hs Hr]. eapply rtc_l; [by apply ns_right|]. by apply IH.
  - apply hand_over_arrives in Eh as (i & Hi & Hlt & ->); [|done]. eapply rtc_l; [by apply ns_to_left|]. by apply IH.
  - apply hand_over_arrives in Eh as (i & Hi & Hlt & ->); [|done]. eapply rtc_l; [by apply ns_to_right|]. by apply IH.
Qed.
End schedule.

(** ** Over UDP *)

Abbreviation udp_host := (host TCPOverUDPSocketAdapter received_datagram (Address * bytes)).

Definition client_address : Address := Address_numeric 84281096 5000.
Definition udp_from (source : Address) (o : Address * bytes) : received_datagram := mkReceivedDatagram source o.2.
Abbreviation udp_performs := (performs (udp_from peer_address) (udp_from client_address) (fun o => zlen o.2 <=? 65536) 100).

Lemma udp_carried ip port (o : Address * bytes) : 0 <= ip < W32 -> 0 <= port < W16 -> (zlen o.2 <=? 65536) = true ->
  carries (A := TCPOverUDPSocketAdapter) o (udp_from (Address_numeric ip port) o) /\
  adapter_input_ok (udp_from (Address_numeric ip port) o).
Proof. intros Hip Hport Hl%Z.leb_le. split; [done|]. split; [by exists ip, port|done]. Qed.

(** The left side connects, the right side listens. *)
Definition server_cfg : TCPConfig := small_cfg 1000.
Definition server_config : FdAdapterConfig := mkFdAdapterConfig (Address_numeric 0 9) (Address_numeric 0 0) 0 0.
Definition client_host (D : bytes) : udp_host :=
  mkHost 0 sponge_rules (start_state run_cfg (new_udp_socket D [] []) run_config false).
Definition server_host (D : bytes) : udp_host :=
  mkHost 0 sponge_rules (start_state server_cfg (new_udp_socket D [] []) server_config true).

Lemma new_udp_socket_fresh cfg D base :
  base_ok base -> zlen D + 4 * W32 < W64 -> cfg_recv_capacity cfg + 4 * W32 < W64 ->
  fresh cfg D 0 base (new_udp_socket D [] []).
Proof.
  intros Hb HD Hc. constructor; try done. split; [done|].
  change (zlen (k_device _)) with 0. lia.
Qed.

Lemma client_begins D : zlen D + 4 * W32 < W64 -> begins run_cfg D (client_host D).
Proof.
  intros HD. split; [done|]. exists (new_udp_socket D [] []), run_config, false. split; [|done].
  by apply new_udp_socket_fresh; [apply run_config_ok| |].
Qed.

Lemma server_begins D : zlen D + 4 * W32 < W64 -> begins server_cfg D (server_host D).
Proof.
  intros HD. split; [done|]. exists (new_udp_socket D [] []), server_config, true. split; [|done].
  apply new_udp_socket_fresh; [|done|done]. exists 0, 9, 0, 0. constructor; done || lia.
Qed.

Definition hosts (Dl Dr : bytes) : udp_host * udp_host := (client_host Dl, server_host Dr).

Lemma hosts_steps Dl Dr acts y :
  udp_performs acts (hosts Dl Dr) = Some y -> rtc (net_step run_cfg server_cfg Dl Dr 100) (hosts Dl Dr) y.
Proof. apply performs_steps; try done; intros o; by apply udp_carried. Qed.

(** The handshake; then three segments of one byte and a FIN leave the client. *)
Definition client_sends : list action :=
  [left_waits 10; to_right 0; right_waits 20; right_waits 21; to_left 0; left_waits 30; left_waits 31; to_right 1;
   right_waits 35; left_runs 40; left_runs 45; left_runs 50; left_runs 55; left_runs 60].

(** The bytes arrive in another order and one arrives twice, then the FIN; the same
    in the other direction; then nothing arrives for a long time. *)
Definition whole_schedule : list action := client_sends ++
  [to_right 4; right_runs 65; to_right 3; right_runs 70; to_right 2; right_runs 80; to_right 3; right_runs 90;
   right_runs 91; right_runs 92; to_right 5; right_runs 93; right_runs 94;
   to_left 3; left_runs 100; to_left 2; left_runs 101; left_runs 102; to_left 5; left_runs 103; left_runs 104;
   to_left 6; left_runs 105; left_runs 106; to_right 7; right_runs 110; right_runs 111; left_runs 20200; right_runs 20200].

Definition after (acts : list action) (x : udp_host * udp_host) : udp_host * udp_host := default x (udp_performs acts x).
Definition exchanged : udp_host * udp_host := after whole_schedule (hosts [x61; x62; x63] [x64; x65]).

(** Both owners get everything and then the end of the stream, and both
    connections end. *)
Theorem whole_exchange :
  rtc (net_step run_cfg server_cfg [x61; x62; x63] [x64; x65] 100) (hosts [x61; x62; x63] [x64; x65]) exchanged /\
  (k_to_owner (h_state exchanged.1) = [x64; x65] /\ k_owner_shut (h_state exchanged.1) = true /\
     tc_active (ss_tcp (h_state exchanged.1)) = false) /\
  (k_to_owner (h_state exchanged.2) = [x61; x62; x63] /\ k_owner_shut (h_state exchanged.2) = true /\
     tc_active (ss_tcp (h_state exchanged.2)) = false).
Proof.
  split; [apply (hosts_steps _ _ whole_schedule); vm_compute; reflexivity|].
  split; split_and!; vm_compute; reflexivity.
Qed.

(** The FIN arrives before the second and the third byte. *)
Definition overtaking : list action :=
  client_sends ++ [to_right 2; right_runs 62; to_right 5; right_runs 65; right_runs 66].
Definition overtaken : udp_host * udp_host := after overtaking (hosts [x61; x62; x63] [x64; x65]).

(** A network that only changes the order of two datagrams makes the owner see
    the end of the stream after one of three bytes, and when the missing bytes
    arrive the thread throws. *)
Theorem reordering_truncates :
  rtc (net_step run_cfg server_cfg [x61; x62; x63] [x64; x65] 100) (hosts [x61; x62; x63] [x64; x65]) overtaken /\
  k_to_owner (h_state overtaken.2) = [x61] /\ k_owner_shut (h_state overtaken.2) = true /\
  bs_error (inbound_stream (ss_tcp (h_state overtaken.2))) = false /\
  exists k, udp_performs [to_right 3; right_runs 67] overtaken = Some (overtaken.1, k) /\
    tcp_loop (fun _ => true) 67 [mkRound eager false 68] (h_rules k) (h_state k) = Err runtime_error.
Proof.
  split; [apply (hosts_steps _ _ overtaking); vm_compute; reflexivity|].
  do 3 (split; [vm_compute; reflexivity|]).
  exists (after [to_right 3; right_runs 67] overtaken).2. split; vm_compute; reflexivity.
Qed.

(** C1: From owner to owner.  Two sockets over adapters, one of which connects and
    the other listens or both connect, with honest kernels and a network that
    loses, repeats, reorders, delays and damages datagrams as it likes: in every
    state they reach, what the owner of either side was given, with what waits for
    it, is a prefix of what the owner of the other side wrote; and a round of
    either thread throws only because a callback that it calls, or its tick, makes
    a call that the kernel refuses, or because the callback that writes to the owner
    finds bytes waiting although the owner's direction was shut down before.  The
    streams are shorter than half the sequence space, and a device holds at most
    [queue] datagrams. *)
Theorem end_to_end {A I O} {FA : FdAdapter A I O} {FS : FdAdapterSafe A I O} {FM : FdMedium A I O} {FL : FdLink A I O}
    cl cr Dl Dr queue (h k h' k' : host A I O) :
  TCPConnection.cfg_ok cl -> TCPConnection.cfg_ok cr -> 0 <= queue ->
  Z.max (cfg_recv_capacity cl) (cfg_recv_capacity cr) * (queue + 2) + 5 * W32 < W64 ->
  zlen Dl + 2 < W31 -> zlen Dr + 2 < W31 -> begins cl Dl h -> begins cr Dr k ->
  rtc (net_step cl cr Dl Dr queue) (h, k) (h', k') ->
  k_to_owner (h_state h') ++ waiting (h_state h') `prefix_of` Dr /\
  k_to_owner (h_state k') ++ waiting (h_state k') `prefix_of` Dl /\
  rounds_safely cl Dl h' /\ rounds_safely cr Dr k'.
Proof.
  intros Hcl Hcr Hq Hroom HDl HDr Hh Hk Hsteps. destruct (net_inv_begins cl cr Dl Dr Hcl Hcr h k Hh Hk) as (l & r & Hi).
  destruct (net_inv_reachable cl cr Dl Dr queue Hcl Hcr Hroom Hq HDl HDr _ _ l r Hsteps Hi) as (l' & r' & Hi').
  destruct (net_inv_prefix cl cr Dl Dr queue Hcl Hcr Hroom Hq HDr l' r' h' k' Hi') as [H1 H2].
  split; [done|]. split; [done|]. destruct Hi' as [_ Hl Hr]. split; by eapply host_inv_safe.
Qed.

Lemma end_to_end_witness :
  k_to_owner (h_state exchanged.2) = [x61; x62; x63] /\
  k_to_owner (h_state exchanged.2) ++ waiting (h_state exchanged.2) `prefix_of` [x61; x62; x63].
Proof.
  destruct (end_to_end run_cfg server_cfg [x61; x62; x63] [x64; x65] 100 (client_host [x61; x62; x63])
    (server_host [x64; x65]) exchanged.1 exchanged.2) as (_ & Hp & _).
  - apply run_cfg_ok.
  - apply small_cfg_ok. lia.
  - lia.
  - reflexivity.
  - reflexivity.
  - reflexivity.
  - apply client_begins. reflexivity.
  - apply server_begins. reflexivity.
  - rewrite <- (surjective_pairing exchanged). apply whole_exchange.
  - split; [exact (proj1 (proj2 (proj2 whole_exchange)))|exact Hp].
Defined.

(** ** Over Ethernet *)

Abbreviation tap_host := (host TCPOverIPv4OverEthernetAdapter bytes bytes).
Abbreviation tap_performs := (performs (fun o : bytes => o) (fun o : bytes => o) (fun o => zlen o <=? BUFFER_SIZE) 100).

Lemma tap_carried (o : bytes) : (zlen o <=? BUFFER_SIZE) = true ->
  carries (A := TCPOverIPv4OverEthernetAdapter) o o /\ adapter_input_ok (A := TCPOverIPv4OverEthernetAdapter) (O := bytes) o.
Proof. intros Hl%Z.leb_le. by split. Qed.

Definition new_tap_socket (n : NetworkInterface) (hop : Z) (D : bytes)
    : TCPSpongeSocket (A := TCPOverIPv4OverEthernetAdapter) (I := bytes) (O := bytes) :=
  mkTCPSpongeSocket
    (mkSponge (mkFDWrapper 3 false false 0 0) (mkFDWrapper 4 false false 0 0) (mkFDWrapper 5 false false 0 0)
       (mkEthernetAdapter new_FdAdapterBase n (inet hop)) None false false false D [] false [] [] []) [] false.

(** The hosts of [NetworkInterface.v], which do not know each other's address. *)
Definition tap_client_config : FdAdapterConfig :=
  mkFdAdapterConfig (Address_numeric 167772161 40000) (Address_numeric 167772162 80) 0 0.
Definition tap_server_config : FdAdapterConfig :=
  mkFdAdapterConfig (Address_numeric 167772162 80) (Address_numeric 0 0) 0 0.
Definition tap_hosts (Dl Dr : bytes) : tap_host * tap_host :=
  (mkHost 0 sponge_rules (start_state run_cfg (new_tap_socket host_a 167772162 Dl) tap_client_config false),
   mkHost 0 sponge_rules (start_state server_cfg (new_tap_socket host_b 167772161 Dr) tap_server_config true)).

(** The same exchange over Ethernet: the client asks for the server's address, and
    its SYN leaves when the answer has come. *)
Definition tap_schedule : list action :=
  [left_waits 10; to_right 0; right_waits 12; to_left 0; left_waits 14; to_right 1; right_waits 20; right_waits 21;
   to_left 1; left_waits 30; left_waits 31; to_right 2; right_waits 35; left_runs 40; left_runs 45; left_runs 50;
   left_runs 55; left_runs 60; to_right 5; right_runs 65; to_right 4; right_runs 70; to_right 3; right_runs 80;
   to_right 4; right_runs 90; right_runs 91; right_runs 92; to_right 6; right_runs 93; right_runs 94; to_left 4;
   left_runs 100; to_left 3; left_runs 101; left_runs 102; to_left 6; left_runs 103; left_runs 104; to_left 7;
   left_runs 105; left_runs 106].
Definition tap_exchanged : tap_host * tap_host :=
  default (tap_hosts [x61; x62; x63] [x64; x65]) (tap_performs tap_schedule (tap_hosts [x61; x62; x63] [x64; x65])).

Theorem tap_exchange :
  rtc (net_step run_cfg server_cfg [x61; x62; x63] [x64; x65] 100) (tap_hosts [x61; x62; x63] [x64; x65]) tap_exchanged /\
  (k_to_owner (h_state tap_exchanged.1) = [x64; x65] /\ k_owner_shut (h_state tap_exchanged.1) = true) /\
  (k_to_owner (h_state tap_exchanged.2) = [x61; x62; x63] /\ k_owner_shut (h_state tap_exchanged.2) = true).
Proof.
  split; [|split; split; vm_compute; reflexivity].
  apply (performs_steps (fun o : bytes => o) (fun o : bytes => o) (fun o => zlen o <=? BUFFER_SIZE) 100) with (acts := tap_schedule);
    [exact tap_carried|exact tap_carried|done|done|vm_compute; reflexivity].
Qed.
