(* ===== verification/Bouncer.v ===== *)
(** * The bouncer

    [apps/bouncer.cc]: pairs of UDP sockets on consecutive ports.  What one socket
    of a pair receives goes out of the other, to the address that socket last
    received from.  The kernel's queues of datagrams are part of the state, and so
    is the record of what was received and sent.  What is printed is left out, but
    not that making the text of an address may throw. *)
From S2P Require Import Prelude Buffer Parser Address Texts Resolver FileDescriptor Adapters Socket EventLoop.
Open Scope list_scope.
Open Scope Z_scope.

(** ** The sockets *)

(** The ports that the loop of [program_body] binds, two in a round; [lower_port]
    is a [uint16_t].  It runs for at most as many rounds as there are ports. *)
Fixpoint open_ports (fuel : nat) (lower_port : Z) : list Z :=
  match fuel with
  | O => []
  | S fuel =>
      if lower_port <=? 64000
      then lower_port :: u16 (lower_port + 1) :: open_ports fuel (u16 (lower_port + 2))
      else []
  end.

Definition ports : list Z := open_ports (Z.to_nat 65536) 1024.
(** [sockets.reserve] and [peers.reserve]. *)
Definition reserved : Z := 66000.

(** What the kernel hands over for a datagram: the bytes, the source and its
    size. *)
Definition datagram : Type := bytes * sockaddr * Z.

(** An element of [sockets], the element of [peers] at the same index, and the
    kernel's queue. *)
Record endpoint : Type := mkEndpoint {
  e_socket : FDWrapper;
  e_peer : option Address;
  e_inbox : list datagram }.

Inductive event : Type :=
  | heard (i : nat) (from : Address) (payload : bytes)
  | relayed (i : nat) (to : Address) (payload : bytes).

Record bouncer : Type := mkBouncer {
  b_endpoints : list endpoint;
  b_log : list event }.

(** [fds] are the descriptors that [socket(2)] returns, [bind_ok] whether
    [bind(2)] succeeds for a port. *)
Fixpoint open_endpoints (fds : nat -> Z) (bind_ok : Z -> bool) (k : nat) (ports : list Z) : result (list endpoint) :=
  match ports with
  | [] => Ok []
  | port :: ports =>
      let* w := Socket_new (fds k) 1 in
      let* w := Socket_bind w (Address_numeric 0 port) (bind_ok port) in
      let* es := open_endpoints fds bind_ok (S k) ports in
      Ok (mkEndpoint w None [] :: es)
  end.

(** The other socket of a pair. *)
Definition partner (i : nat) : nat := if Nat.even i then S i else pred i.

(** Whether [recvfrom(2)] hands over the datagram that waits first at a socket; what
    [sendmsg(2)], [getsockname(2)] for a socket and [getnameinfo(3)] answer. *)
Record bouncer_kernel : Type := mkBouncerKernel {
  bk_received : nat -> datagram -> bool;
  bk_sent : Address -> bytes -> option Z;
  bk_getsockname : nat -> option (sockaddr * Z);
  bk_getnameinfo : Address -> Z + (bytes * bytes) }.

Section Bouncer.
Variable kernel : bouncer_kernel.

(** What is printed when socket [i] learns the address of its peer. *)
Definition learned_text (i : nat) (x_peer : Address) : result bytes :=
  let* local_address := get_address (bk_getsockname kernel i) in
  let* local := Address_to_string (bk_getnameinfo kernel) local_address in
  let* peer := Address_to_string (bk_getnameinfo kernel) x_peer in
  Ok (str "Learned new address for " ++ str (if Nat.even i then "X" else "Y") ++ str " ( " ++ local ++ str " at "
        ++ peer ++ [x0a]).

(** [not x_peer.has_value() or x_peer.value() != rec.source_address]. *)
Definition is_new (x_peer : option Address) (source_address : Address) : bool :=
  match x_peer with
  | None => true
  | Some p => negb (Address_eqb p source_address)
  end.

(** [x.recv()] and the learning of the peer. *)
Definition receive_at (i : nat) (s : bouncer) : result (bouncer * received_datagram) :=
  match b_endpoints s !! i with
  | None => Err out_of_range
  | Some x =>
      let answer := match e_inbox x with d :: _ => if bk_received kernel i d then Some d else None | [] => None end in
      let* (w, rec) := UDPSocket_recv_new (e_socket x) 65536 answer in
      let* x_peer :=
        if is_new (e_peer x) (rd_source_address rec) then
          let x_peer := rd_source_address rec in
          let* _ := learned_text i x_peer in
          Ok (Some x_peer)
        else Ok (e_peer x) in
      Ok (mkBouncer (<[i := mkEndpoint w x_peer (tail (e_inbox x))]> (b_endpoints s))
            (b_log s ++ [heard i (rd_source_address rec) (rd_payload rec)]), rec)
  end.

(** [y.sendto(y_peer.value(), rec.payload)]. *)
Definition send_from (j : nat) (payload : bytes) (s : bouncer) : result bouncer :=
  match b_endpoints s !! j with
  | None => Err out_of_range
  | Some y =>
      match e_peer y with
      | Some to =>
          if bool_decide (payload = []) then Ok s
          else
            let* (w, _) := UDPSocket_sendto (e_socket y) to [payload] (bk_sent kernel to payload) in
            Ok (mkBouncer (<[j := mkEndpoint w (e_peer y) (e_inbox y)]> (b_endpoints s)) (b_log s ++ [relayed j to payload]))
      | None => Ok s
      end
  end.

(** The two callbacks of a pair, which are the same but for the roles of the
    sockets. *)
Definition bounce (i : nat) (s : bouncer) : result bouncer :=
  let* (s, rec) := receive_at i s in
  send_from (partner i) (rd_payload rec) s.

Definition no_socket : FDWrapper := mkFDWrapper 0 true true 0 0.
Definition socket_at (i : nat) (s : bouncer) : FDWrapper :=
  match b_endpoints s !! i with Some e => e_socket e | None => no_socket end.

(** The rules: one for each socket, always interested. *)
#[global] Instance bouncer_rules : RuleSet nat bouncer := {
  rule_fd := socket_at;
  rule_direction _ := In;
  rule_callback := bounce;
  rule_interest _ _ := true;
  rule_cancel _ s := Ok s }.

End Bouncer.

(** ** The ports *)

Lemma open_ports_eq n : forall fuel p, (n < fuel)%nat -> p = 64002 - 2 * Z.of_nat n -> 0 <= p ->
  open_ports fuel p = seqZ p (2 * Z.of_nat n).
Proof.
  induction n as [|n IH]; intros [|fuel] p Hf Hp H0; try lia; cbn [open_ports].
  { destruct (Z.leb_spec p 64000); [lia|]. by rewrite seqZ_nil. }
  destruct (Z.leb_spec p 64000); [|lia]. rewrite !u16_id, (IH fuel) by lia.
  rewrite (seqZ_cons p), (seqZ_cons (Z.succ p)) by lia. repeat f_equal; lia.
Qed.

Lemma seqZ_facts a n : 0 <= n ->
  NoDup (seqZ a n) /\ zlen (seqZ a n) = n /\ Forall (fun p => a <= p < a + n) (seqZ a n).
Proof.
  intros Hn. split; [apply NoDup_seqZ|]. split; [unfold zlen; rewrite length_seqZ; lia|].
  apply Forall_forall. intros p Hp. by apply elem_of_seqZ in Hp.
Qed.

(** The loop ends without its counter wrapping around: it binds each port from
    1024 to 64001 once, in pairs that start at an even port, and the sockets fit
    what was reserved, so that no reference into the vectors is invalidated by
    their growth. *)
Theorem bouncer_ports :
  ports = seqZ 1024 62978 /\ NoDup ports /\ zlen ports <= reserved /\ Forall (fun p => 1024 <= p < 64002) ports.
Proof.
  assert (E : ports = seqZ 1024 62978).
  { unfold ports. rewrite (open_ports_eq (Z.to_nat 31489)); [f_equal; lia|lia..]. }
  rewrite E. destruct (seqZ_facts 1024 62978) as (H1 & H2 & H3); [lia|]. change (1024 + 62978) with 64002 in H3.
  rewrite H2. split; [reflexivity|]. split; [exact H1|]. split; [unfold reserved; lia|exact H3].
Qed.

Lemma ports_even : Nat.even (length ports) = true.
Proof.
  unfold ports. rewrite (open_ports_eq (Z.to_nat 31489)) by lia. rewrite length_seqZ.
  replace (Z.to_nat (2 * Z.of_nat (Z.to_nat 31489))) with (2 * Z.to_nat 31489)%nat by lia.
  by rewrite Nat.even_mul.
Qed.

Lemma five_ports : (5 < length ports)%nat.
Proof. unfold ports. rewrite (open_ports_eq (Z.to_nat 31489)), length_seqZ by lia. lia. Qed.

(** ** What the bouncer does *)

Definition source_of (d : datagram) : Address :=
  let '(_, source, fromlen) := d in
  mkAddress fromlen (mkSockaddr (sa_family source) (ztake (fromlen - 2) (sa_data source))).
Definition payload_of (d : datagram) : bytes := d.1.1.

(** It fits the buffer of [recv], and so does its address. *)
Definition datagram_ok (d : datagram) : Prop := zlen (payload_of d) <= 65536 /\ 0 <= d.2 <= sizeof_sockaddr_storage.

(** A reception: at which socket, from where, and what. *)
Definition reception : Type := nat * Address * bytes.

(** The address that socket [j] last received from; [past] has the newest
    reception first. *)
Fixpoint last_heard (j : nat) (past : list reception) : option Address :=
  match past with
  | [] => None
  | (i, a, _) :: past => if decide (i = j) then Some a else last_heard j past
  end.

(** What is to happen for a reception after [past]. *)
Definition answer (past : list reception) (r : reception) : list event :=
  let '(i, a, p) := r in
  heard i a p ::
  match last_heard (partner i) past with
  | Some to => if bool_decide (p = []) then [] else [relayed (partner i) to p]
  | None => []
  end.

Fixpoint answers (past rs : list reception) : list event :=
  match rs with
  | [] => []
  | r :: rs => answer past r ++ answers (r :: past) rs
  end.

(** The datagrams received at [i], in order. *)
Fixpoint heard_at (i : nat) (rs : list reception) : list (Address * bytes) :=
  match rs with
  | [] => []
  | (k, a, p) :: rs => if decide (k = i) then (a, p) :: heard_at i rs else heard_at i rs
  end.

Definition delivered (d : datagram) : Address * bytes := (source_of d, payload_of d).

Lemma answers_snoc rs r : forall past, answers past (rs ++ [r]) = answers past rs ++ answer (rev rs ++ past) r.
Proof.
  induction rs as [|r' rs IH]; intros past; cbn [answers app rev]; [by rewrite app_nil_r|].
  by rewrite IH, <- !app_assoc.
Qed.

Lemma heard_at_snoc i k a p rs :
  heard_at i (rs ++ [(k, a, p)]) = heard_at i rs ++ if decide (k = i) then [(a, p)] else [].
Proof.
  induction rs as [|[[k' a'] p'] rs IH]; cbn [heard_at app]; [by destruct (decide _)|].
  rewrite IH. by destruct (decide (k' = i)).
Qed.

Lemma partner_ne i : partner i <> i.
Proof. unfold partner. destruct (Nat.even i) eqn:E; [lia|]. destruct i; [done|cbn; lia]. Qed.
Lemma partner_lt i n : Nat.even n = true -> (i < n)%nat -> (partner i < n)%nat.
Proof.
  intros Hn Hi. unfold partner. destruct (Nat.even i) eqn:Ei; [|lia].
  destruct (decide (S i = n)) as [<-|]; [|lia]. rewrite Nat.even_succ, <- Nat.negb_even, Ei in Hn. done.
Qed.

Lemma Address_eqb_eq a b : Address_eqb a b = true <-> a = b.
Proof.
  unfold Address_eqb. destruct a as [n x], b as [m y]; cbn [ad_size ad_address].
  destruct (Z.eqb_spec n m) as [->|Hn]; cbn [negb]; [|split; [done|congruence]].
  rewrite bool_decide_eq_true. split; congruence.
Qed.

(** ** The invariant *)

Definition socket_live (w : FDWrapper) : Prop := fd_eof w = false /\ fd_closed w = false /\ counts_ok w.

(** After the receptions [rs], when [arrived] are the datagrams that came for each
    socket. *)
Record relaying (arrived : nat -> list datagram) (rs : list reception) (s : bouncer) : Prop := {
  re_even : Nat.even (length (b_endpoints s)) = true;
  re_log : b_log s = answers [] rs;
  re_endpoint : forall i e, b_endpoints s !! i = Some e ->
    socket_live (e_socket e) /\ Forall datagram_ok (e_inbox e) /\ e_peer e = last_heard i (rev rs) /\
    heard_at i rs ++ map delivered (e_inbox e) = map delivered (arrived i) }.

Lemma recv_eq w data source fromlen : datagram_ok (data, source, fromlen) ->
  UDPSocket_recv_new w 65536 (Some (data, source, fromlen)) =
    Ok (register_read w, mkReceivedDatagram (source_of (data, source, fromlen)) data).
Proof.
  intros [Hd Hf]. cbn in Hd, Hf. unfold UDPSocket_recv_new. rewrite UDPSocket_recv_eq by lia.
  by destruct (Z.leb_spec (zlen data) 65536); [|lia].
Qed.

Lemma register_read_live w : socket_live w -> socket_live (register_read w).
Proof. intros (H1 & H2 & H3 & H4). split; [done|]. split; [done|]. split; [apply u32_range|done]. Qed.
Lemma register_write_live w : socket_live w -> socket_live (register_write w).
Proof. intros (H1 & H2 & H3 & H4). split; [done|]. split; [done|]. split; [done|apply u32_range]. Qed.

Lemma read_count_changes w : counts_ok w -> fd_read_count (register_read w) <> fd_read_count w.
Proof. intros [H _]. by apply count_changes. Qed.

Section Relaying.
Context (kernel : bouncer_kernel) (arrived : nat -> list datagram).

(** Why the callback of socket [i] throws: the kernel does not hand over what waits,
    the text of the address it has learned cannot be made, or the kernel refuses
    the datagram that goes out of the other socket, or takes a part of it. *)
Definition bounce_fails (i : nat) (s : bouncer) (e : failure) : Prop :=
  exists x d rest, b_endpoints s !! i = Some x /\ e_inbox x = d :: rest /\
    ((bk_received kernel i d = false /\ e = runtime_error) \/
     (e_peer x <> Some (source_of d) /\ learned_text kernel i (source_of d) = Err e) \/
     (e = runtime_error /\ exists y to, b_endpoints s !! partner i = Some y /\ e_peer y = Some to /\
        payload_of d <> [] /\ bk_sent kernel to (payload_of d) <> Some (zlen (payload_of d)))).

Lemma is_new_true x_peer a : is_new x_peer a = true <-> x_peer <> Some a.
Proof.
  destruct x_peer as [p|]; cbn; [|done]. rewrite negb_true_iff. destruct (Address_eqb p a) eqn:E.
  - apply Address_eqb_eq in E as ->. done.
  - split; [|done]. intros _ [= ->]. assert (Address_eqb a a = true) by by apply Address_eqb_eq. congruence.
Qed.

Lemma receive_at_spec rs s i e d rest :
  relaying arrived rs s -> b_endpoints s !! i = Some e -> e_inbox e = d :: rest ->
  match receive_at kernel i s with
  | Ok x => x = (mkBouncer (<[i := mkEndpoint (register_read (e_socket e)) (Some (source_of d)) rest]> (b_endpoints s))
       (b_log s ++ [heard i (source_of d) (payload_of d)]), mkReceivedDatagram (source_of d) (payload_of d))
  | Err f => (bk_received kernel i d = false /\ f = runtime_error) \/
      (e_peer e <> Some (source_of d) /\ learned_text kernel i (source_of d) = Err f)
  end.
Proof.
  intros Hs Hi He. destruct (re_endpoint _ _ _ Hs i e Hi) as (_ & Hok & _ & _). rewrite He in Hok.
  apply Forall_cons in Hok as [Hd _]. unfold receive_at. rewrite Hi, He.
  destruct (bk_received kernel i d) eqn:Ek; [|by left]. destruct d as [[data source] fromlen]. cbn zeta.
  rewrite recv_eq by done. cbn [rbind rd_source_address rd_payload tail payload_of fst].
  destruct (is_new (e_peer e) _) eqn:En.
  - apply is_new_true in En. destruct (learned_text kernel i _) eqn:El; [done|by right].
  - cbn [rbind]. assert (Ep : e_peer e = Some (source_of (data, source, fromlen))); [|by rewrite Ep].
    destruct (e_peer e) as [p|]; [|done]. cbn in En. apply negb_false_iff, Address_eqb_eq in En. by subst.
Qed.

(** The state after a reception, before anything is sent on. *)
Lemma heard_relaying rs s i e d rest :
  relaying arrived rs s -> b_endpoints s !! i = Some e -> e_inbox e = d :: rest ->
  let r := (i, source_of d, payload_of d) in
  forall k e', (<[i := mkEndpoint (register_read (e_socket e)) (Some (source_of d)) rest]> (b_endpoints s)) !! k = Some e' ->
    socket_live (e_socket e') /\ Forall datagram_ok (e_inbox e') /\ e_peer e' = last_heard k (rev (rs ++ [r])) /\
    heard_at k (rs ++ [r]) ++ map delivered (e_inbox e') = map delivered (arrived k).
Proof.
  intros Hs Hi He r k e' Hk. pose proof (lookup_lt_Some _ _ _ Hi) as Hlt. unfold r.
  rewrite rev_app_distr, heard_at_snoc. cbn [rev app last_heard].
  destruct (decide (i = k)) as [<-|Hne].
  - rewrite list_lookup_insert_eq in Hk by done. injection Hk as <-. cbn [e_socket e_inbox e_peer].
    destruct (re_endpoint _ _ _ Hs i e Hi) as (Hl & Hok & _ & Ha). rewrite He in Hok, Ha. apply Forall_cons in Hok as [_ Hok].
    split; [by apply register_read_live|]. split; [done|]. split; [done|]. rewrite <- Ha, <- app_assoc. done.
  - rewrite list_lookup_insert_ne in Hk by done. rewrite app_nil_r. by apply (re_endpoint _ _ _ Hs).
Qed.

(** The endpoint [e'] is [e], but that something may have been sent from it. *)
Definition sent_from (e e' : endpoint) : Prop :=
  e_inbox e' = e_inbox e /\ e_peer e' = e_peer e /\ fd_read_count (e_socket e') = fd_read_count (e_socket e) /\
  (socket_live (e_socket e) -> socket_live (e_socket e')).

(** What one callback achieves from [s] on. *)
Definition answered (rs : list reception) (s : bouncer) (i : nat) (d : datagram) (s' : bouncer) : Prop :=
  relaying arrived (rs ++ [(i, source_of d, payload_of d)]) s' /\
  fd_read_count (socket_at i s') <> fd_read_count (socket_at i s) /\
  length (b_endpoints s') = length (b_endpoints s) /\
  (forall k, k <> i -> e_inbox <$> b_endpoints s' !! k = e_inbox <$> b_endpoints s !! k).

Lemma answered_intro rs s i e d rest es' extra :
  relaying arrived rs s -> b_endpoints s !! i = Some e -> e_inbox e = d :: rest ->
  Forall2 sent_from (<[i := mkEndpoint (register_read (e_socket e)) (Some (source_of d)) rest]> (b_endpoints s)) es' ->
  answer (rev rs) (i, source_of d, payload_of d) = heard i (source_of d) (payload_of d) :: extra ->
  answered rs s i d (mkBouncer es' ((b_log s ++ [heard i (source_of d) (payload_of d)]) ++ extra)).
Proof.
  intros Hs Hi He Hes Hx. pose proof (heard_relaying rs s i e d rest Hs Hi He) as Hall. cbv zeta in Hall.
  pose proof (lookup_lt_Some _ _ _ Hi) as Hlt. pose proof (Forall2_length _ _ _ Hes) as Hlen. rewrite length_insert in Hlen.
  set (es := <[i := _]> (b_endpoints s)) in *.
  assert (Hback : forall k e', es' !! k = Some e' -> exists e0, es !! k = Some e0 /\ sent_from e0 e')
    by (intros k e' Hk; by eapply Forall2_lookup_r).
  split; [split; cbn [b_endpoints b_log]|split; [|split; [done|]]].
  - rewrite <- Hlen. apply Hs.
  - by rewrite answers_snoc, app_nil_r, Hx, <- app_assoc, (re_log _ _ _ Hs).
  - intros k e' Hk. destruct (Hback k e' Hk) as (e0 & He0 & Hib & Hpe & _ & Hl).
    destruct (Hall k e0 He0) as (H1 & H2 & H3 & H4). rewrite Hib, Hpe. auto.
  - unfold socket_at. cbn [b_endpoints]. rewrite Hi.
    assert (Hes_i : es !! i = Some (mkEndpoint (register_read (e_socket e)) (Some (source_of d)) rest))
      by by apply list_lookup_insert_eq.
    destruct (Forall2_lookup_l _ _ _ _ _ Hes Hes_i) as (e' & -> & _ & _ & -> & _).
    apply read_count_changes, (re_endpoint _ _ _ Hs i e Hi).
  - intros k Hk. cbn [b_endpoints].
    assert (E : es !! k = b_endpoints s !! k) by (unfold es; by rewrite list_lookup_insert_ne by congruence).
    rewrite <- E. destruct (es' !! k) as [e'|] eqn:Ek.
    + destruct (Hback k e' Ek) as (e0 & -> & Hib & _). cbn. by rewrite Hib.
    + apply lookup_ge_None in Ek. rewrite <- Hlen in Ek. by rewrite E, (proj2 (lookup_ge_None (b_endpoints s) k)).
Qed.

Lemma sent_from_refl es : Forall2 sent_from es es.
Proof. induction es; constructor; [done|done]. Qed.

Lemma sent_from_insert es j y w : es !! j = Some y -> fd_read_count w = fd_read_count (e_socket y) ->
  (socket_live (e_socket y) -> socket_live w) ->
  Forall2 sent_from es (<[j := mkEndpoint w (e_peer y) (e_inbox y)]> es).
Proof.
  intros Hj Hc Hl. rewrite <- (list_insert_id es j y Hj) at 1. apply Forall2_insert; [apply sent_from_refl|]. done.
Qed.

(** One callback: what is received is answered, and only the queue of this socket
    changes. *)
Lemma bounce_spec rs s i e d rest :
  relaying arrived rs s -> b_endpoints s !! i = Some e -> e_inbox e = d :: rest ->
  match bounce kernel i s with
  | Ok s' => answered rs s i d s'
  | Err f => bounce_fails i s f
  end.
Proof.
  intros Hs Hi He. unfold bounce. pose proof (receive_at_spec rs s i e d rest Hs Hi He) as Hrec.
  destruct (receive_at kernel i s) as [x|f]; cbn [rbind]; [subst x|exists e, d, rest; split; [done|]; split; [done|]; tauto]. cbn [rd_payload].
  pose proof (lookup_lt_Some _ _ _ Hi) as Hlt. pose proof (partner_ne i) as Hne.
  assert (Hfin := fun es' extra => answered_intro rs s i e d rest es' extra Hs Hi He).
  destruct (re_endpoint _ _ _ Hs i e Hi) as (_ & Hok & _ & _). rewrite He in Hok. apply Forall_cons in Hok as [[Hp _] _].
  destruct (lookup_lt_is_Some_2 (b_endpoints s) (partner i)) as [y Hy]; [by apply partner_lt; [apply Hs|]|].
  assert (Hpeer : e_peer y = last_heard (partner i) (rev rs)) by apply (re_endpoint _ _ _ Hs _ _ Hy).
  set (es := <[i := _]> (b_endpoints s)) in *. set (p := payload_of d) in *.
  assert (Hesy : es !! partner i = Some y) by (unfold es; by rewrite list_lookup_insert_ne by congruence).
  unfold send_from. cbn [b_endpoints b_log]. rewrite Hesy. unfold answer in Hfin. rewrite <- Hpeer in Hfin.
  destruct (e_peer y) as [to|] eqn:Ey.
  2:{ specialize (Hfin es [] (sent_from_refl es) eq_refl). by rewrite app_nil_r in Hfin. }
  destruct (bool_decide_reflect (p = [])) as [Ep|Ep].
  { specialize (Hfin es [] (sent_from_refl es) eq_refl). by rewrite app_nil_r in Hfin. }
  assert (Hfail : bk_sent kernel to p <> Some (zlen p) -> bounce_fails i s runtime_error).
  { intros Hx. exists e, d, rest. split; [done|]. split; [done|]. right; right. split; [done|]. by exists y, to. }
  unfold UDPSocket_sendto, sendmsg_helper. destruct (bk_sent kernel to p) as [n|] eqn:Esent; [|by apply Hfail].
  destruct (Z.eqb_spec (u64 n) (bvl_size [p])) as [En|En]; cbn [negb rbind].
  - rewrite <- Ey. apply Hfin; [|done]. apply sent_from_insert; [done|done|apply register_write_live].
  - apply Hfail. intros [= ->]. apply En. unfold bvl_size. cbn. by rewrite Z.add_0_l.
Qed.

(** ** The loop *)

Definition bouncer_view (n : nat) : view nat bouncer := {|
  v_inv s := length (b_endpoints s) = n /\ exists rs, relaying arrived rs s;
  v_wanted _ _ := True;
  v_ready i s := exists e, b_endpoints s !! i = Some e /\ e_inbox e <> [];
  v_hung_up _ _ := False;
  v_gone i s := (length (b_endpoints s) <= i)%nat;
  v_fails := bounce_fails |}.

Lemma bouncer_contract n : contract (H := bouncer_rules kernel) (bouncer_view n).
Proof.
  split; [done| |].
  - intros i s [Hn [rs Hs]] [Ho|[]]. exists s. split; [done|]. split; [by split; [|exists rs]|]. split; [|by split].
    cbn in Ho |- *. unfold rule_over in Ho. cbn in Ho. unfold socket_at in Ho.
    destruct (b_endpoints s !! i) as [e|] eqn:Ei; [|by apply lookup_ge_None].
    destruct (re_endpoint _ _ _ Hs i e Ei) as ((H1 & H2 & _) & _). by rewrite H1, H2 in Ho.
  - intros i s [Hn [rs Hs]] _ (e & Hi & He). destruct (e_inbox e) as [|d rest] eqn:Ee; [done|].
    pose proof (bounce_spec rs s i e d rest Hs Hi Ee) as H. cbn [rule_callback bouncer_rules].
    destruct (bounce kernel i s) as [s'|]; [|done]. destruct H as (H1 & H2 & H3 & H4).
    split; [split; [congruence|by eexists]|]. split; [by left|]. split; [split; [cbn; intros t; by rewrite H3|done]|].
    intros k Hk. split; [done|]. intros (e1 & Hk1 & Hb). specialize (H4 k Hk). rewrite Hk1 in H4.
    cbn. destruct (b_endpoints s' !! k) as [e2|]; [|done]. exists e2. split; [done|]. by injection H4 as ->.
Qed.
End Relaying.

(** A run with sockets bound to [bound], which are [ports] in the program: the
    datagrams that have arrived for each socket, the rules and the state.
    Datagrams arrive at any time between the rounds of the loop, which goes on
    until a round exits. *)
Inductive bouncer_run (kernel : bouncer_kernel) (bound : list Z) (n : nat)
    : (nat -> list datagram) -> list nat -> bouncer -> Prop :=
  | run_start fds bind_ok es :
      open_endpoints fds bind_ok 0 bound = Ok es -> n = length es ->
      bouncer_run kernel bound n (fun _ => []) (seq 0 n) (mkBouncer es [])
  | run_arrival arrived rules s i e d :
      bouncer_run kernel bound n arrived rules s -> datagram_ok d -> b_endpoints s !! i = Some e ->
      bouncer_run kernel bound n (fun k => if decide (k = i) then arrived i ++ [d] else arrived k) rules
        (mkBouncer (<[i := mkEndpoint (e_socket e) (e_peer e) (e_inbox e ++ [d])]> (b_endpoints s)) (b_log s))
  | run_round arrived rules s poll res rules' s' :
      bouncer_run kernel bound n arrived rules s ->
      poll_honest (H := bouncer_rules kernel) (bouncer_view kernel arrived n) rules s poll ->
      wait_next_event (H := bouncer_rules kernel) rules s poll = Ok (res, rules', s') -> res <> Exit ->
      bouncer_run kernel bound n arrived rules' s'.

Lemma open_endpoints_spec fds bind_ok ports : forall k es, open_endpoints fds bind_ok k ports = Ok es ->
  length es = length ports /\
  Forall (fun e => socket_live (e_socket e) /\ e_inbox e = [] /\ e_peer e = None) es.
Proof.
  induction ports as [|port ports IH]; intros k es; cbn [open_endpoints]; [by intros [= <-]|].
  intros E. apply rbind_ok in E as (w & Ew & E). apply rbind_ok in E as (w' & Ew' & E).
  apply rbind_ok in E as (es' & Ees & [= <-]). destruct (IH _ _ Ees) as [Hl Hf].
  split; [cbn; by rewrite Hl|]. constructor; [|done]. cbn [e_socket e_inbox e_peer]. split; [|done].
  unfold Socket_bind in Ew'. apply rbind_ok in Ew' as (u & _ & [= <-]).
  unfold Socket_new in Ew. apply rbind_ok in Ew as (fd & _ & Ew). unfold new_FDWrapper in Ew.
  destruct (fd <? 0); [done|]. injection Ew as <-. by repeat split.
Qed.

(** A datagram that arrives only waits. *)
Lemma arrival_relaying arrived rs s i e d :
  relaying arrived rs s -> datagram_ok d -> b_endpoints s !! i = Some e ->
  relaying (fun k => if decide (k = i) then arrived i ++ [d] else arrived k) rs
    (mkBouncer (<[i := mkEndpoint (e_socket e) (e_peer e) (e_inbox e ++ [d])]> (b_endpoints s)) (b_log s)).
Proof.
  intros Hs Hd Hi. pose proof (lookup_lt_Some _ _ _ Hi) as Hlt.
  split; cbn [b_endpoints b_log]; [rewrite length_insert; apply Hs|apply Hs|]. intros k e' Hk.
  destruct (decide (k = i)) as [->|Hne].
  - rewrite list_lookup_insert_eq in Hk by done. injection Hk as <-. cbn [e_socket e_inbox e_peer].
    destruct (re_endpoint _ _ _ Hs i e Hi) as (H1 & H2 & H3 & H4). split; [done|]. split; [by apply Forall_app_2; [|by constructor]|].
    split; [done|]. by rewrite !map_app, app_assoc, H4.
  - rewrite list_lookup_insert_ne in Hk by done. by apply (re_endpoint _ _ _ Hs).
Qed.

Section Runs.
Context (kernel : bouncer_kernel) (bound : list Z) (n : nat).
Hypothesis Heven : Nat.even (length bound) = true.

(** The state of a run: every socket still has its rule. *)
Definition run_inv (arrived : nat -> list datagram) (rules : list nat) (s : bouncer) : Prop :=
  (exists rs, relaying arrived rs s) /\ length (b_endpoints s) = n /\ NoDup rules /\ (forall i, (i < n)%nat -> i ∈ rules).

Lemma round_inv arrived rules s poll res rules' s' :
  run_inv arrived rules s -> poll_honest (H := bouncer_rules kernel) (bouncer_view kernel arrived n) rules s poll ->
  wait_next_event (H := bouncer_rules kernel) rules s poll = Ok (res, rules', s') -> run_inv arrived rules' s'.
Proof.
  intros (Hs & Hlen & Hnd & Hall) Hp E.
  pose proof (wait_spec _ (bouncer_contract kernel arrived n) rules s poll Hnd (conj Hlen Hs) Hp) as H. rewrite E in H.
  destruct H as ([Hlen' Hs'] & _ & Hsub & Hacc). cbn in Hsub, Hacc.
  split; [done|]. split; [done|]. split; [by eapply sublist_NoDup|].
  intros i Hi. destruct (Hacc i (Hall i Hi)) as [|Hg]; [done|]. cbn in Hg, Hlen'. lia.
Qed.

Lemma run_keeps_inv arrived rules s : bouncer_run kernel bound n arrived rules s -> run_inv arrived rules s.
Proof.
  induction 1 as [fds bind_ok es E ->|arrived rules s i e d _ IH Hd Hi|arrived rules s poll res rules' s' _ IH Hp E _].
  - destruct (open_endpoints_spec _ _ _ _ _ E) as [Hl Hf]. split.
    { exists []. split; cbn [b_endpoints b_log]; [by rewrite Hl|done|]. intros i e Hi.
      destruct (Forall_lookup_1 _ _ _ _ Hf Hi) as (H1 & -> & ->). done. }
    split; [done|]. split; [apply NoDup_seq|]. intros i Hi. apply elem_of_seq. lia.
  - destruct IH as ([rs Hs] & Hlen & Hnd & Hall). split; [exists rs; by apply arrival_relaying|].
    split; [cbn; by rewrite length_insert|]. done.
  - by eapply round_inv.
Qed.

(** A round exits only when [poll] was interrupted: some rule is always
    interested. *)
Lemma round_exit arrived rules s poll rules' s' :
  (0 < n)%nat -> run_inv arrived rules s -> poll_honest (H := bouncer_rules kernel) (bouncer_view kernel arrived n) rules s poll ->
  wait_next_event (H := bouncer_rules kernel) rules s poll = Ok (Exit, rules', s') ->
  exists pollfds, poll s' pollfds = PollFailed true.
Proof.
  intros Hn Hs Hp E. pose proof (round_inv _ _ _ _ _ _ _ Hs Hp E) as (_ & _ & _ & Hall).
  destruct (wait_exit _ _ _ _ _ E) as (pollfds & b & Es & [->|Hf]); [|by eexists].
  exfalso. assert (Hq : quiet (H := bouncer_rules kernel) rules) by (intros t t' s1 s2 _ _ Hi; done).
  discriminate (setup_quiet _ _ _ _ _ Hq Es 0%nat (Hall 0%nat Hn)).
Qed.
End Runs.

Lemma run_size kernel bound n arrived rules s : bouncer_run kernel bound n arrived rules s -> n = length bound.
Proof. induction 1 as [fds bind_ok es E ->| |]; [|done..]. by apply open_endpoints_spec in E as [-> _]. Qed.

(** The program's ports are an instance of what follows. *)
Lemma ports_paired : Nat.even (length ports) = true /\ ports <> [].
Proof. split; [apply ports_even|]. pose proof five_ports as H. by intros E; rewrite E in H; cbn in H; lia. Qed.

(** C37: The bouncer relays.  For sockets in pairs, as the program has them, whatever
    arrives and in whichever order the kernel reports it, what was received and
    sent is a sequence of receptions, each followed by what it calls for: a
    payload that is not empty leaves the other socket of the pair at once and
    unchanged, to the address that socket last received from, if there is one;
    nothing else is ever sent.  For each socket the receptions are the datagrams
    that arrived there, in order, up to those that still wait.  The loop is left
    on a signal, or when a round throws: because, in a callback that the round
    calls, the kernel does not hand over the datagram that waits, the text of an
    address that was just learned cannot be made, or the kernel does not take the
    datagram to be relayed. *)
Theorem bouncer_relays kernel bound n arrived rules s :
  Nat.even (length bound) = true -> bound <> [] -> bouncer_run kernel bound n arrived rules s ->
  (exists rs, b_log s = answers [] rs /\
     forall i, (i < n)%nat -> exists e, b_endpoints s !! i = Some e /\
       heard_at i rs ++ map delivered (e_inbox e) = map delivered (arrived i)) /\
  (forall poll, poll_honest (H := bouncer_rules kernel) (bouncer_view kernel arrived n) rules s poll ->
     match wait_next_event (H := bouncer_rules kernel) rules s poll with
     | Ok (Exit, _, s') => exists pollfds, poll s' pollfds = PollFailed true
     | Ok _ => True
     | Err e => exists i s', wait_calls (H := bouncer_rules kernel) rules s poll i s' /\
         bounce kernel i s' = Err e /\ bounce_fails kernel i s' e
     end).
Proof.
  intros Heven Hne Hrun. pose proof (run_keeps_inv kernel bound n Heven _ _ _ Hrun) as Hs.
  pose proof Hs as ([rs Hr] & Hlen & Hnd & _). split.
  - exists rs. split; [apply Hr|]. intros i Hi. rewrite <- Hlen in Hi.
    destruct (lookup_lt_is_Some_2 _ _ Hi) as [e He]. exists e. split; [done|]. apply (re_endpoint _ _ _ Hr i e He).
  - intros poll Hp.
    pose proof (wait_spec _ (bouncer_contract kernel arrived n) rules s poll Hnd (conj Hlen (ex_intro _ rs Hr)) Hp) as H.
    destruct (wait_next_event rules s poll) as [[[[| |] rules'] s']|] eqn:E; [done|done| |].
    + eapply round_exit; [|exact Hs|exact Hp|exact E]. rewrite (run_size _ _ _ _ _ _ Hrun).
      destruct bound; [done|cbn; lia].
    + destruct H as (i & s' & Hc & _ & Hf & Eb). by exists i, s'.
Qed.

(** ** Examples *)

Definition live (fd : Z) : FDWrapper := mkFDWrapper fd false false 0 0.
Definition from_port (port : Z) (payload : bytes) : datagram := (payload, mkSockaddr AF_INET (be2 port), 16).

(** A kernel that takes every datagram and has the same text for each address. *)
Definition willing : bouncer_kernel :=
  mkBouncerKernel (fun _ _ => true) (fun _ p => Some (zlen p)) (fun _ => Some (mkSockaddr AF_INET (be2 1024), 16))
    (fun _ => inr (str "10.0.0.1", str "80")).

(** Two sockets: an empty datagram from the second peer makes its address known,
    and the next from the first goes there. *)
Example bounce_pair :
  let s := mkBouncer [mkEndpoint (live 3) None [from_port 7 [x61]]; mkEndpoint (live 4) None [from_port 8 []]] [] in
  (let* s := bounce willing 1 s in
   let* s := bounce willing 0 s in Ok (b_log s)) =
  Ok [heard 1 (source_of (from_port 8 [])) []; heard 0 (source_of (from_port 7 [])) [x61];
      relayed 1 (source_of (from_port 8 [])) [x61]].
Proof. reflexivity. Qed.

(** The text of the address of a new peer cannot be made: the program ends although
    the datagram could be relayed. *)
Example bounce_throws :
  let s := mkBouncer [mkEndpoint (live 3) None [from_port 7 [x61]]; mkEndpoint (live 4) (Some (source_of (from_port 8 []))) []] [] in
  bounce (mkBouncerKernel (bk_received willing) (bk_sent willing) (bk_getsockname willing) (fun _ => inl (-2))) 0 s = Err runtime_error.
Proof. reflexivity. Qed.

(** A round in which both sockets of a pair have something to receive: the first
    learns its peer, the second relays. *)
Definition pair_waiting : bouncer :=
  mkBouncer [mkEndpoint (live 3) None [from_port 7 []]; mkEndpoint (live 4) None [from_port 8 [x61]]] [].
Definition both_readable (s : bouncer) (pollfds : list pollfd) : poll_answer := Polled 2 (map (fun _ => POLLIN) pollfds).
Lemma pair_waits : exists arrived,
  bouncer_run willing [1024; 1025] 2 arrived [0; 1]%nat pair_waiting /\
  arrived 0%nat = [from_port 7 []] /\ arrived 1%nat = [from_port 8 [x61]].
Proof.
  assert (Hok : forall port p, zlen p <= 65536 -> datagram_ok (from_port port p)) by (by split).
  eexists. split; [|split].
  - eapply (run_arrival willing [1024; 1025] 2 _ [0; 1]%nat
      (mkBouncer [mkEndpoint (live 3) None [from_port 7 []]; mkEndpoint (live 4) None []] [])
      1 (mkEndpoint (live 4) None []) (from_port 8 [x61])); [|by apply Hok|reflexivity].
    eapply (run_arrival willing [1024; 1025] 2 _ [0; 1]%nat
      (mkBouncer [mkEndpoint (live 3) None []; mkEndpoint (live 4) None []] [])
      0 (mkEndpoint (live 3) None []) (from_port 7 [])); [|by apply Hok|reflexivity].
    by apply (run_start willing [1024; 1025] 2 (fun k => 3 + Z.of_nat k) (fun _ => true)).
  - reflexivity.
  - reflexivity.
Qed.

Lemma pair_honest arrived :
  poll_honest (H := bouncer_rules willing) (bouncer_view willing arrived 2) [0; 1]%nat pair_waiting both_readable.
Proof.
  intros rules' pollfds s' E. vm_compute in E. injection E as <- <- <-. right. cbn.
  constructor; [|constructor; [|constructor]]; (split; [reflexivity|]; split; [|done]); intros _.
  - exists (mkEndpoint (live 3) None [from_port 7 []]). by split.
  - exists (mkEndpoint (live 4) None [from_port 8 [x61]]). by split.
Qed.

Lemma pair_round : exists s', wait_next_event (H := bouncer_rules willing) [0; 1]%nat pair_waiting both_readable
    = Ok (Success, [0; 1]%nat, s') /\
  b_log s' = [heard 0 (source_of (from_port 7 [])) []; heard 1 (source_of (from_port 8 [])) [x61];
              relayed 0 (source_of (from_port 7 [])) [x61]].
Proof. eexists. split; [vm_compute; reflexivity|reflexivity]. Qed.

Lemma bouncer_relays_witness : exists arrived s' rs,
  bouncer_run willing [1024; 1025] 2 arrived [0; 1]%nat s' /\ b_log s' = answers [] rs /\
  relayed 0 (source_of (from_port 7 [])) [x61] ∈ answers [] rs.
Proof.
  destruct pair_waits as (arrived & Hrun & _). destruct pair_round as (s' & E & Hlog).
  pose proof (run_round willing [1024; 1025] 2 arrived _ _ both_readable Success [0; 1]%nat s' Hrun
    (pair_honest arrived) E ltac:(discriminate)) as Hrun'.
  destruct (bouncer_relays willing [1024; 1025] 2 arrived [0; 1]%nat s') as [(rs & H & _) _];
    [reflexivity|discriminate|exact Hrun'|].
  exists arrived, s', rs. split; [exact Hrun'|]. split; [exact H|]. rewrite <- H, Hlog.
  rewrite !elem_of_cons. right. right. left. reflexivity.
Defined.
