(* ===== verification/Options.v ===== *)
(** * Options of the TCP programs

    [get_config] of [apps/tcp_udp.cc], [apps/tcp_ipv4.cc] and
    [apps/tcp_ip_ethernet.cc].  The arguments are the list of strings behind the
    name of the program.  The conversions of the C library and the resolution of
    names are arguments of the functions; usage messages are left out. *)
From S2P Require Import Prelude WrappingIntegers TCPSender TCPConnection Address Adapters.
From Stdlib Require String.
Open Scope string_scope.
Open Scope list_scope.
Open Scope Z_scope.

(** [strncmp(a, b, n) == 0], of strings without null characters. *)
Definition strncmp_eq (n : nat) (a b : string) : bool :=
  String.eqb (String.substring 0 n a) (String.substring 0 n b).

(** What the loops over the arguments change. *)
Record options : Type := mkOptions {
  op_listen : bool;
  op_recv_capacity : Z;
  op_rt_timeout : Z;
  op_loss_rate_up : Z;
  op_loss_rate_dn : Z;
  op_source_address : string;
  op_source_port : string;
  op_next_hop : string;
  op_dev : string }.

Definition set_listen o := mkOptions true (op_recv_capacity o) (op_rt_timeout o) (op_loss_rate_up o) (op_loss_rate_dn o)
  (op_source_address o) (op_source_port o) (op_next_hop o) (op_dev o).
Definition set_recv_capacity v o := mkOptions (op_listen o) v (op_rt_timeout o) (op_loss_rate_up o) (op_loss_rate_dn o)
  (op_source_address o) (op_source_port o) (op_next_hop o) (op_dev o).
Definition set_rt_timeout v o := mkOptions (op_listen o) (op_recv_capacity o) v (op_loss_rate_up o) (op_loss_rate_dn o)
  (op_source_address o) (op_source_port o) (op_next_hop o) (op_dev o).
Definition set_loss_rate_up v o := mkOptions (op_listen o) (op_recv_capacity o) (op_rt_timeout o) v (op_loss_rate_dn o)
  (op_source_address o) (op_source_port o) (op_next_hop o) (op_dev o).
Definition set_loss_rate_dn v o := mkOptions (op_listen o) (op_recv_capacity o) (op_rt_timeout o) (op_loss_rate_up o) v
  (op_source_address o) (op_source_port o) (op_next_hop o) (op_dev o).
Definition set_source_address v o := mkOptions (op_listen o) (op_recv_capacity o) (op_rt_timeout o) (op_loss_rate_up o)
  (op_loss_rate_dn o) v (op_source_port o) (op_next_hop o) (op_dev o).
Definition set_source_port v o := mkOptions (op_listen o) (op_recv_capacity o) (op_rt_timeout o) (op_loss_rate_up o)
  (op_loss_rate_dn o) (op_source_address o) v (op_next_hop o) (op_dev o).
Definition set_next_hop v o := mkOptions (op_listen o) (op_recv_capacity o) (op_rt_timeout o) (op_loss_rate_up o)
  (op_loss_rate_dn o) (op_source_address o) (op_source_port o) v (op_dev o).
Definition set_dev v o := mkOptions (op_listen o) (op_recv_capacity o) (op_rt_timeout o) (op_loss_rate_up o)
  (op_loss_rate_dn o) (op_source_address o) (op_source_port o) (op_next_hop o) v.

(** A branch of such a loop: what it does with the option, alone or with the
    argument behind it. *)
Inductive action : Type :=
  | flag (f : options -> options)
  | valued (f : string -> options -> options)
  | help.

Inductive parsed : Type :=
  | exits (code : Z)
  | positional (o : options) (argv : list string).

(** The first branch whose option the argument is, compared over [n] characters. *)
Fixpoint branch (table : list (string * action)) (arg : string) : option action :=
  match table with
  | [] => None
  | (name, a) :: table => if strncmp_eq 3 name arg then Some a else branch table arg
  end.

(** The loop, from the current argument on: it runs while more than two arguments
    are left; [check_argc] asks for three behind an option with a value. *)
Fixpoint parse_options (table : list (string * action)) (argv : list string) (o : options) : parsed :=
  match argv with
  | arg :: argv' =>
      if (length argv <=? 2)%nat then positional o argv
      else
        match branch table arg with
        | Some (flag f) => parse_options table argv' (f o)
        | Some (valued f) =>
            if (length argv <=? 3)%nat then exits 1
            else
              match argv' with
              | value :: argv'' => parse_options table argv'' (f value o)
              | [] => exits 1
              end
        | Some help => exits 0
        | None => exits 1
        end
  | [] => positional o []
  end.

(** ** The three programs *)

Section Programs.
(** [strtol] with base zero; the product of the largest rate and [strtof], cut to
    sixteen bits; the resolution of a host and a service. *)
Variables (strtol : string -> Z) (lossrate : string -> Z) (resolve : string -> string -> result Address).
(** A random port, printed; the initial sequence number. *)
Variables (random_port : string) (isn : WrappingInt32).

Definition window_option : string * action := ("-w", valued (fun v => set_recv_capacity (u64 (strtol v)))).
Definition timeout_option : string * action := ("-t", valued (fun v => set_rt_timeout (u16 (strtol v)))).
Definition loss_options : list (string * action) :=
  [("-Lu", valued (fun v => set_loss_rate_up (u16 (lossrate v)))); ("-Ld", valued (fun v => set_loss_rate_dn (u16 (lossrate v))))].

Definition tcp_udp_table : list (string * action) :=
  ("-l", flag set_listen) :: window_option :: timeout_option :: loss_options ++ [("-h", help)].
Definition tcp_ipv4_table : list (string * action) :=
  ("-l", flag set_listen) :: ("-a", valued set_source_address) :: ("-s", valued set_source_port) ::
  window_option :: timeout_option :: ("-d", valued set_dev) :: loss_options ++ [("-h", help)].
Definition tcp_ip_ethernet_table : list (string * action) :=
  [("-a", valued set_source_address); ("-s", valued set_source_port); ("-n", valued set_next_hop);
   window_option; timeout_option; ("-d", valued set_dev); ("-h", help)].

Definition DEFAULT_CAPACITY : Z := 64000.
Definition TIMEOUT_DFLT : Z := 1000.

Definition initial_options (local_address gateway dev : string) : options :=
  mkOptions false DEFAULT_CAPACITY TIMEOUT_DFLT 0 0 local_address random_port gateway dev.

Definition c_fsm (o : options) : TCPConfig :=
  mkTCPConfig (op_rt_timeout o) (op_recv_capacity o) DEFAULT_CAPACITY isn.
Definition c_filt (o : options) (source destination : Address) : FdAdapterConfig :=
  mkFdAdapterConfig source destination (op_loss_rate_dn o) (op_loss_rate_up o).

(** A configuration, or the code the program exits with. *)
Definition configured (A : Type) : Type := Z + A.

Definition tcp_udp_get_config (argv : list string) : result (configured (TCPConfig * FdAdapterConfig * bool)) :=
  match parse_options tcp_udp_table argv (initial_options "" "" "") with
  | exits code => Ok (inl code)
  | positional o [host; port] =>
      if op_listen o then
        let* source := resolve "0" port in
        Ok (inr (c_fsm o, c_filt o source (Address_numeric 0 0), true))
      else
        let* destination := resolve host port in
        Ok (inr (c_fsm o, c_filt o (Address_numeric 0 0) destination, false))
  | positional _ _ => Err undefined_behaviour
  end.

(** [main] gives [TUN_DFLT] when no device was given. *)
Definition tcp_ipv4_get_config (argv : list string) : result (configured (TCPConfig * FdAdapterConfig * bool * string)) :=
  match parse_options tcp_ipv4_table argv (initial_options "169.254.144.9" "" "tun144") with
  | exits code => Ok (inl code)
  | positional o [host; port] =>
      if op_listen o then
        let* source := resolve "0" port in
        let* port := Address_port source in
        if port =? 0 then Ok (inl 1)
        else Ok (inr (c_fsm o, c_filt o source (Address_numeric 0 0), true, op_dev o))
      else
        let* destination := resolve host port in
        let* source := resolve (op_source_address o) (op_source_port o) in
        Ok (inr (c_fsm o, c_filt o source destination, false, op_dev o))
  | positional _ _ => Err undefined_behaviour
  end.

Definition tcp_ip_ethernet_get_config (argv : list string)
    : result (configured (TCPConfig * FdAdapterConfig * Address * string)) :=
  match parse_options tcp_ip_ethernet_table argv (initial_options "169.254.10.9" "169.254.10.1" "tap10") with
  | exits code => Ok (inl code)
  | positional o [host; port] =>
      let* destination := resolve host port in
      let* source := resolve (op_source_address o) (op_source_port o) in
      let* next_hop := resolve (op_next_hop o) "0" in
      Ok (inr (c_fsm o, c_filt o source destination, next_hop, op_dev o))
  | positional _ _ => Err undefined_behaviour
  end.

(** [main] up to the configuration: without two arguments the program exits. *)
Definition with_arguments {A} (get_config : list string -> result (configured A)) (argv : list string)
    : result (configured A) :=
  if (length argv <? 2)%nat then Ok (inl 1) else get_config argv.

End Programs.

(** ** What is accepted *)

(** [l] is a sequence of options that turns [o] into [o']. *)
Inductive accepts (table : list (string * action)) : list string -> options -> options -> Prop :=
  | accepts_nil o : accepts table [] o o
  | accepts_flag arg f l o o' :
      branch table arg = Some (flag f) -> accepts table l (f o) o' -> accepts table (arg :: l) o o'
  | accepts_valued arg f value l o o' :
      branch table arg = Some (valued f) -> accepts table l (f value o) o' -> accepts table (arg :: value :: l) o o'.

Lemma parse_options_accepts table l o o' : accepts table l o o' ->
  forall host port, parse_options table (l ++ [host; port]) o = positional o' [host; port].
Proof.
  induction 1 as [o|arg f l o o' Hb _ IH|arg f value l o o' Hb _ IH]; intros host port; cbn [app parse_options]; [done|..].
  - rewrite Hb. destruct (Nat.leb_spec (length (arg :: l ++ [host; port])) 2) as [Hl|_]; [|apply IH].
    exfalso. cbn in Hl. rewrite length_app in Hl. cbn in Hl. lia.
  - rewrite Hb. destruct (Nat.leb_spec (length (arg :: value :: l ++ [host; port])) 2) as [Hl|_].
    { exfalso. cbn in Hl. rewrite length_app in Hl. cbn in Hl. lia. }
    destruct (Nat.leb_spec (length (arg :: value :: l ++ [host; port])) 3) as [Hl|_]; [|apply IH].
    exfalso. cbn in Hl. rewrite length_app in Hl. cbn in Hl. lia.
Qed.

Lemma parse_options_positional table n : forall argv o o' rest,
  (length argv <= n)%nat -> (2 <= length argv)%nat -> parse_options table argv o = positional o' rest ->
  exists l host port, argv = l ++ [host; port] /\ rest = [host; port] /\ accepts table l o o'.
Proof.
  induction n as [|n IH]; intros argv o o' rest Hn H2 E; [lia|].
  destruct argv as [|arg argv]; [cbn in H2; lia|]. cbn [parse_options] in E.
  destruct (Nat.leb_spec (length (arg :: argv)) 2) as [Hl|Hl].
  { injection E as <- <-. destruct argv as [|port [|]]; cbn in H2, Hl; [lia| |lia]. exists [], arg, port. by repeat constructor. }
  cbn [length] in *. destruct (branch table arg) as [[f|f|]|] eqn:Hb; [| |done|done].
  - destruct (IH argv _ _ _ ltac:(lia) ltac:(lia) E) as (l & host & port & -> & -> & Ha).
    exists (arg :: l), host, port. split; [done|]. split; [done|]. by econstructor.
  - destruct (Nat.leb_spec (S (length argv)) 3) as [Hs|Hs]; [done|]. destruct argv as [|value argv]; [done|].
    cbn [length] in *. destruct (IH argv _ _ _ ltac:(lia) ltac:(lia) E) as (l & host & port & -> & -> & Ha).
    exists (arg :: value :: l), host, port. split; [done|]. split; [done|]. by econstructor.
Qed.

(** The arguments are understood exactly when they are options of the table, each
    with its value where it takes one, followed by two more: then those two are
    the host and the port, whatever they look like, the options take effect in
    their order, and no argument past the last is looked at. *)
Theorem options_exact table argv o o' rest :
  (2 <= length argv)%nat ->
  parse_options table argv o = positional o' rest <->
  exists l host port, argv = l ++ [host; port] /\ rest = [host; port] /\ accepts table l o o'.
Proof.
  intros H2. split; [by apply (parse_options_positional table (length argv))|].
  intros (l & host & port & -> & -> & Ha). by apply parse_options_accepts.
Qed.

Lemma options_exact_witness :
  parse_options (tcp_udp_table (fun _ => 5) (fun _ => 0)) ["-l"; "-w"; "-l"; "-h"; "80"] (initial_options "7" "" "" "") =
    positional (mkOptions true 5 1000 0 0 "" "7" "" "") ["-h"; "80"].
Proof.
  apply options_exact; [cbn; lia|]. exists ["-l"; "-w"; "-l"], "-h", "80".
  split; [reflexivity|]. split; [reflexivity|].
  eapply accepts_flag; [reflexivity|]. eapply accepts_valued; [reflexivity|]. apply accepts_nil.
Defined.

Lemma rbind_defined {A B} (m : result A) (k : A -> result B) :
  m <> Err undefined_behaviour -> (forall a, k a <> Err undefined_behaviour) -> rbind m k <> Err undefined_behaviour.
Proof. destruct m as [a|e]; cbn [rbind]; [by intros _ H|]. intros H _ [= ->]. done. Qed.

Section Configurations.
Context (strtol : string -> Z) (lossrate : string -> Z) (resolve : string -> string -> result Address)
  (random_port : string) (isn : WrappingInt32).

(** With two arguments or more, the three functions end with a configuration, an
    exit code, or the failure to resolve a name: no argument is read that is not
    there. *)
Theorem get_config_in_bounds argv :
  (forall host port, resolve host port <> Err undefined_behaviour) ->
  with_arguments (tcp_udp_get_config strtol lossrate resolve random_port isn) argv <> Err undefined_behaviour /\
  with_arguments (tcp_ipv4_get_config strtol lossrate resolve random_port isn) argv <> Err undefined_behaviour /\
  with_arguments (tcp_ip_ethernet_get_config strtol resolve random_port isn) argv <> Err undefined_behaviour.
Proof.
  intros Hr. unfold with_arguments. destruct (Nat.ltb_spec (length argv) 2) as [|H2]; [done|].
  assert (Htwo : forall table o o' rest, parse_options table argv o = positional o' rest -> exists host port, rest = [host; port]).
  { intros table o o' rest E.
    destruct (parse_options_positional table _ _ _ _ _ (le_n _) H2 E) as (l & host & port & _ & -> & _). by eexists _, _. }
  unfold tcp_udp_get_config, tcp_ipv4_get_config, tcp_ip_ethernet_get_config.
  split; [|split]; (destruct (parse_options _ _ _) as [|o rest] eqn:E; [done|]);
    destruct (Htwo _ _ _ _ E) as (host & port & ->).
  - destruct (op_listen o); by apply rbind_defined.
  - destruct (op_listen o); apply rbind_defined; [done| |done|].
    + intros source. apply rbind_defined; [unfold Address_port; by destruct (_ || _)|].
      intros p. by destruct (p =? 0).
    + intros destination. by apply rbind_defined.
  - apply rbind_defined; [done|]. intros destination. apply rbind_defined; [done|]. intros source. by apply rbind_defined.
Qed.

(** The usage message says that a server binds the given host; the host is not
    looked at. *)
Theorem server_ignores_host l o host host' port :
  accepts (tcp_udp_table strtol lossrate) l (initial_options random_port "" "" "") o -> op_listen o = true ->
  tcp_udp_get_config strtol lossrate resolve random_port isn (l ++ [host; port]) =
  tcp_udp_get_config strtol lossrate resolve random_port isn (l ++ [host'; port]).
Proof.
  intros Ha Hl. unfold tcp_udp_get_config. rewrite !(parse_options_accepts _ _ _ _ Ha), Hl. done.
Qed.

(** The usage message gives 1000 bytes, the maximum payload of a segment, as the
    default window; it is 64000. *)
Theorem default_window_differs host port c_tcp c_ad listen :
  tcp_udp_get_config strtol lossrate resolve random_port isn [host; port] = Ok (inr (c_tcp, c_ad, listen)) ->
  cfg_recv_capacity c_tcp = 64000 /\ MAX_PAYLOAD_SIZE = 1000.
Proof.
  unfold tcp_udp_get_config. cbn [parse_options length Nat.leb]. cbn [op_listen initial_options].
  destruct (resolve host port); [|done]. by intros [= <- _ _].
Qed.

End Configurations.
