(* ===== verification/UdpTcpdump.v ===== *)
(** * udp_tcpdump

    [apps/udp_tcpdump.cc]: the TCP segments that captured UDP packets carry.  A
    captured packet is the list of its bytes; reading a byte past its end is
    undefined behaviour.  Opening the capture and compiling the filter are calls
    of libpcap and are left out; [inet_ntop] is an argument. *)
From S2P Require Import Prelude WrappingIntegers Buffer Parser Checksum TCPSegment Hexdump Options.
From Stdlib Require String.
Open Scope string_scope.
Open Scope list_scope.
Open Scope Z_scope.
Open Scope sponge_scope.

(** ** The arguments *)

Inductive arguments : Type :=
  | usage (code : Z)
  | expression_at (curr : nat) (dev : option string).

(** [argv] are the arguments from [curr] on. *)
Fixpoint parse_arguments (argv : list string) (curr : nat) (dev : option string) : arguments :=
  match argv with
  | [] => expression_at curr dev
  | arg :: argv =>
      if strncmp_eq 3 "-i" arg then
        match argv with
        | [] => usage 1
        | value :: argv => parse_arguments argv (curr + 2) (Some value)
        end
      else if strncmp_eq 3 "-h" arg || strncmp_eq 7 "--help" arg then usage 0
      else expression_at curr dev
  end.

(** ** IP headers *)

(** [data[i]]. *)
Definition at_byte (data : bytes) (i : Z) : result Z :=
  match znth data i with Some b => Ok (b2z b) | None => Err undefined_behaviour end.
(** The [n] bytes at [data + i]. *)
Definition at_bytes (data : bytes) (i n : Z) : result bytes :=
  if zlen data <? i + n then Err undefined_behaviour else Ok (ztake n (zdrop i data)).

Section Tcpdump.
(** [inet_ntop] for addresses of four and of sixteen bytes. *)
Variable inet_ntop : bytes -> option string.

Definition inet_addr (n : Z) (data : bytes) (i : Z) : result string :=
  let* addr := at_bytes data i n in
  Ok (match inet_ntop addr with Some s => s | None => "unknown" end).
Definition inet4_addr : bytes -> Z -> result string := inet_addr 4.
Definition inet6_addr : bytes -> Z -> result string := inet_addr 16.

(** The loop over the extension headers: the offset of the UDP header, or none.
    Each round advances by eight bytes at least, so that [fuel] is enough when it
    is more than an eighth of the length. *)
Fixpoint skip_extensions (fuel : nat) (len : Z) (data : bytes) (nxt data_offset : Z) : result (option Z) :=
  if nxt =? 17 then Ok (Some data_offset)
  else if negb (nxt =? 0) && negb (nxt =? 43) && negb (nxt =? 60) then Ok None
  else
    match fuel with
    | O => Ok None
    | S fuel =>
        let* nxt := at_byte data data_offset in
        let* ext_len := at_byte data (data_offset + 1) in
        let data_offset := data_offset + 8 * (1 + ext_len) in
        if len <? data_offset + 2 then Ok None else skip_extensions fuel len data nxt data_offset
    end.

(** The offset of the payload with the two addresses, or none, which the source
    returns as [-1]. *)
Definition process_ipv4_ipv6 (len : Z) (data : bytes) : result (option (Z * string * string)) :=
  if len <? 1 then Ok None
  else
    let* b := at_byte data 0 in
    let pt := Z.land b 240 in
    if pt =? 64 then
      let data_offset := Z.land b 15 * 4 in
      if len <? data_offset then Ok None
      else
        let* proto := at_byte data 9 in
        if negb (proto =? 17) then Ok None
        else
          let* src_addr := inet4_addr data 12 in
          let* dst_addr := inet4_addr data 16 in
          Ok (Some (data_offset + 8, src_addr, dst_addr))
    else if pt =? 96 then
      if len <? 42 then Ok None
      else
        let* nxt := at_byte data 6 in
        let* data_offset := skip_extensions (Z.to_nat len) len data nxt 40 in
        match data_offset with
        | None => Ok None
        | Some data_offset =>
            let* src_addr := inet6_addr data 8 in
            let* dst_addr := inet6_addr data 24 in
            Ok (Some (data_offset + 8, src_addr, dst_addr))
        end
    else Ok None.

(** ** Link headers *)

Inductive datalink : Type :=
  | DLT_RAW | DLT_NULL | DLT_EN10MB | DLT_LINUX_SLL | DLT_LINUX_SLL2 | DLT_other.

Inductive link : Type :=
  | malformed
  | non_ip
  | mysterious
  | ip_at (hdr_off : Z).

Definition ethertype (data : bytes) (i : Z) : result Z :=
  let* hi := at_byte data i in
  let* lo := at_byte data (i + 1) in
  Ok (Z.lor (Z.shiftl hi 8) lo).

(** A link header of [n] bytes with the type of the packet at [i]. *)
Definition typed_link (n i : Z) (pkt : bytes) : result link :=
  if zlen pkt <? n then Ok malformed
  else
    let* pt := ethertype pkt i in
    Ok (if negb (pt =? 2048) && negb (pt =? 34525) then non_ip else ip_at n).

Definition link_header (dl_type : datalink) (pkt : bytes) : result link :=
  match dl_type with
  | DLT_NULL =>
      if zlen pkt <? 4 then Ok malformed
      else
        let* pt := at_byte pkt 3 in
        Ok (if negb (pt =? 2) && negb (pt =? 24) && negb (pt =? 28) && negb (pt =? 30) then non_ip else ip_at 4)
  | DLT_EN10MB => typed_link 14 12 pkt
  | DLT_LINUX_SLL => typed_link 16 14 pkt
  | DLT_LINUX_SLL2 => typed_link 20 0 pkt
  | DLT_RAW => Ok (ip_at 0)
  | DLT_other => Ok mysterious
  end.

(** ** Packets *)

(** What is printed of a segment. *)
Record summary : Type := mkSummary {
  su_src : string; su_sport : Z; su_dst : string; su_dport : Z;
  su_flags : string; su_cksum : Z; su_correct : bool;
  su_seqno : WrappingInt32; su_end : option WrappingInt32; su_ackno : WrappingInt32; su_win : Z; su_length : Z }.

Inductive output : Type :=
  | skipping (l : link)
  | error_parsing
  | not_recognised (src dst : string) (dump : bytes)
  | segment_shown (s : summary) (dump : bytes).

Definition flags_of (h : TCPHeader) : string :=
  (if th_urg h then "U" else "") ++ (if th_psh h then "P" else "") ++ (if th_rst h then "R" else "") ++
  (if th_syn h then "S" else "") ++ (if th_fin h then "F" else "") ++ (if th_ack h then "." else "").

Definition show_segment (src dst : string) (correct : bool) (seg : TCPSegment) (payload_len : Z) : summary :=
  let h := header seg in
  let seqlen := u32 (length_in_sequence_space seg) in
  mkSummary src (th_sport h) dst (th_dport h) (flags_of h) (th_cksum h) correct
    (th_seqno h) (if 0 <? seqlen then Some (w32_add (th_seqno h) seqlen) else None) (th_ackno h) (th_win h) payload_len.

(** One round of the loop of [main]. *)
Definition handle_packet (dl_type : datalink) (pkt : bytes) : result output :=
  let* l := link_header dl_type pkt in
  match l with
  | ip_at hdr_off =>
      let* p := process_ipv4_ipv6 (s32 (zlen pkt -! hdr_off)) (zdrop hdr_off pkt) in
      match p with
      | None => Ok error_parsing
      | Some (start_off, src, dst) =>
          let payload_off := hdr_off +! start_off in
          let payload_len := zlen pkt -! payload_off in
          let* payload := at_bytes pkt payload_off payload_len in
          let* (res, seg) := TCPSegment_parse new_TCPSegment (Buffer_of payload) 0 in
          let dump := hexdump payload 8 in
          if Nat.ltb (ParseResult_index BadChecksum) (ParseResult_index res)
          then Ok (not_recognised src dst dump)
          else Ok (segment_shown (show_segment src dst (pr_eqb res NoError) seg payload_len) dump)
      end
  | l => Ok (skipping l)
  end.

(** What [pcap_next_ex] answers while it does not fail. *)
Inductive captured : Type :=
  | timed_out
  | packet (pkt : bytes).

(** The loop of [main] over what is captured until [pcap_next_ex] answers
    [next_ret], which is negative: what is printed and the code of the program. *)
Fixpoint capture_loop (dl_type : datalink) (events : list captured) (next_ret : Z) : result (list output * Z) :=
  match events with
  | [] => Ok ([], if next_ret =? -1 then 1 else 0)
  | timed_out :: events => capture_loop dl_type events next_ret
  | packet pkt :: events =>
      let* o := handle_packet dl_type pkt in
      match o with
      | skipping mysterious => Ok ([o], 1)
      | _ =>
          let* (os, code) := capture_loop dl_type events next_ret in
          Ok (o :: os, code)
      end
  end.

End Tcpdump.

(** ** Where the payload starts *)

Lemma at_byte_ok data i : 0 <= i < zlen data -> exists b, at_byte data i = Ok b /\ 0 <= b < W8.
Proof.
  intros Hi. unfold at_byte. destruct (proj2 (znth_range data i) Hi) as [b ->]. exists (b2z b). split; [done|]. apply b2z_range.
Qed.

Lemma at_byte_Ok data i b : at_byte data i = Ok b -> 0 <= i < zlen data /\ 0 <= b < W8.
Proof.
  unfold at_byte. destruct (znth data i) as [x|] eqn:E; [|done]. intros [= <-].
  split; [by apply znth_Some in E|apply b2z_range].
Qed.

Lemma at_bytes_ok data i n : i + n <= zlen data -> at_bytes data i n = Ok (ztake n (zdrop i data)).
Proof. intros H. unfold at_bytes. destruct (Z.ltb_spec (zlen data) (i + n)); [lia|done]. Qed.

(** Hop-by-hop options, routing headers and destination options. *)
Definition extension (nxt : Z) : Prop := nxt = 0 \/ nxt = 43 \/ nxt = 60.

(** From a header of type [nxt] at [off], extension headers lead to a UDP header
    at [off']; each but the last lies within the data with the first two bytes of
    what follows it. *)
Inductive chain (data : bytes) : Z -> Z -> Z -> Prop :=
  | chain_udp off : chain data 17 off off
  | chain_extension nxt off nxt' ext_len off' :
      extension nxt -> at_byte data off = Ok nxt' -> at_byte data (off + 1) = Ok ext_len ->
      off + 8 * (1 + ext_len) + 2 <= zlen data ->
      chain data nxt' (off + 8 * (1 + ext_len)) off' -> chain data nxt off off'.

Lemma chain_inv data nxt off off' : chain data nxt off off' ->
  (nxt = 17 /\ off' = off) \/
  (extension nxt /\ exists nxt' ext_len, at_byte data off = Ok nxt' /\ at_byte data (off + 1) = Ok ext_len /\
     off + 8 * (1 + ext_len) + 2 <= zlen data /\ chain data nxt' (off + 8 * (1 + ext_len)) off').
Proof. intros []; [by left|right]. split; [done|]. by eexists _, _. Qed.

Lemma chain_ge data nxt off off' : chain data nxt off off' -> off <= off'.
Proof.
  induction 1 as [|nxt off nxt' l off' _ _ El _ _ IH]; [lia|]. apply at_byte_Ok in El. lia.
Qed.

Lemma skip_extensions_spec data fuel : forall nxt off,
  0 <= off -> off + 2 <= zlen data -> zlen data < off + 8 * Z.of_nat fuel ->
  exists r, skip_extensions fuel (zlen data) data nxt off = Ok r /\
    (forall off', r = Some off' <-> chain data nxt off off') /\ (forall off', r = Some off' -> off <= off' /\ off' + 2 <= zlen data).
Proof.
  induction fuel as [|fuel IH]; intros nxt off Ho Hd Hf; [lia|]. cbn [skip_extensions].
  destruct (Z.eqb_spec nxt 17) as [->|H17].
  { exists (Some off). split; [done|]. split; [|intros ? [= <-]; lia]. intros off'. split.
    - intros [= <-]. constructor.
    - intros H. apply chain_inv in H as [[_ ->]|[[|[|]] _]]; [done|lia..]. }
  destruct (decide (extension nxt)) as [He|He].
  2:{ assert (E : negb (nxt =? 0) && negb (nxt =? 43) && negb (nxt =? 60) = true) by (unfold extension in He; lia).
      rewrite E. exists None. split; [done|]. split; [|done]. intros off'. split; [done|].
      intros H. apply chain_inv in H as [[]|[]]; done. }
  assert (E : negb (nxt =? 0) && negb (nxt =? 43) && negb (nxt =? 60) = false) by (unfold extension in He; lia).
  rewrite E. destruct (at_byte_ok data off) as (nxt' & E1 & _); [lia|].
  destruct (at_byte_ok data (off + 1)) as (ext_len & E2 & Hl); [lia|]. rewrite E1, E2. cbn [rbind].
  destruct (Z.ltb_spec (zlen data) (off + 8 * (1 + ext_len) + 2)) as [Hs|Hs].
  - exists None. split; [done|]. split; [|done]. intros off'. split; [done|]. intros H.
    apply chain_inv in H as [[]|(_ & n & l & _ & El & Hb & _)]; [lia|]. rewrite E2 in El. injection El as <-. lia.
  - destruct (IH nxt' (off + 8 * (1 + ext_len))) as (r & -> & Hr & Hb); [lia..|]. exists r. split; [done|].
    split; [|intros off' Hoff; apply Hb in Hoff; lia]. intros off'. rewrite Hr. split.
    + intros H. by apply (chain_extension data nxt off nxt' ext_len off').
    + intros H. apply chain_inv in H as [[]|(_ & n & l & En & El & _ & H)]; [lia|].
      rewrite E1 in En. rewrite E2 in El. by injection En as <-; injection El as <-.
Qed.

Section Payload.
Context (inet_ntop : bytes -> option string).

Definition address_name (addr : bytes) : string :=
  match inet_ntop addr with Some s => s | None => "unknown" end.

(** A version 4 packet that carries UDP, its payload at [off]. *)
Definition ipv4_udp (data : bytes) (off : Z) (src dst : string) : Prop :=
  20 <= zlen data /\ at_byte data 9 = Ok 17 /\
  (exists b, at_byte data 0 = Ok b /\ b / 16 = 4 /\ 4 * (b mod 16) <= zlen data /\ off = 4 * (b mod 16) + 8) /\
  src = address_name (ztake 4 (zdrop 12 data)) /\ dst = address_name (ztake 4 (zdrop 16 data)).

(** A version 6 packet that carries UDP. *)
Definition ipv6_udp (data : bytes) (off : Z) (src dst : string) : Prop :=
  42 <= zlen data /\ (exists b, at_byte data 0 = Ok b /\ b / 16 = 6) /\
  (exists nxt, at_byte data 6 = Ok nxt /\ chain data nxt 40 (off - 8)) /\
  src = address_name (ztake 16 (zdrop 8 data)) /\ dst = address_name (ztake 16 (zdrop 24 data)).

Lemma version_land b : 0 <= b < W8 -> Z.land b 240 = 16 * (b / 16).
Proof.
  intros Hb. rewrite <- (u8_id b) by done. rewrite <- b2z_z2b. by destruct (z2b b).
Qed.

Lemma inet_addr_ok n data i : i + n <= zlen data ->
  inet_addr inet_ntop n data i = Ok (address_name (ztake n (zdrop i data))).
Proof. intros H. unfold inet_addr. by rewrite at_bytes_ok. Qed.

Lemma inet_addr_short n data i : zlen data < i + n -> inet_addr inet_ntop n data i = Err undefined_behaviour.
Proof. intros H. unfold inet_addr, at_bytes. by destruct (Z.ltb_spec (zlen data) (i + n)); [|lia]. Qed.

Lemma at_byte_short data i : zlen data <= i -> at_byte data i = Err undefined_behaviour.
Proof. intros H. unfold at_byte. rewrite (proj2 (znth_None data i)); [done|lia]. Qed.

Lemma process_ipv4 data b :
  at_byte data 0 = Ok b -> b / 16 = 4 ->
  match process_ipv4_ipv6 inet_ntop (zlen data) data with
  | Err e => e = undefined_behaviour /\ zlen data < 20
  | Ok None => forall off src dst, ~ ipv4_udp data off src dst
  | Ok (Some (off, src, dst)) => ipv4_udp data off src dst
  end.
Proof.
  intros Eb Hv. destruct (at_byte_Ok _ _ _ Eb) as [Hl Hb]. unfold process_ipv4_ipv6.
  destruct (Z.ltb_spec (zlen data) 1); [lia|]. rewrite Eb. cbn [rbind]. rewrite version_land, Hv by done.
  change (16 * 4 =? 64) with true. cbn iota. rewrite land_15.
  destruct (Z.ltb_spec (zlen data) (b mod 16 * 4)).
  { intros off src dst (_ & _ & (b' & Eb' & _ & Hs & _) & _). rewrite Eb in Eb'. injection Eb' as <-. lia. }
  destruct (decide (zlen data <= 9)); [rewrite at_byte_short by lia; split; [done|lia]|].
  destruct (at_byte_ok data 9) as (proto & E9 & _); [lia|]. rewrite E9. cbn [rbind].
  destruct (Z.eqb_spec proto 17) as [->|Hp]; cbn [negb].
  2:{ intros off src dst (_ & E & _). rewrite E9 in E. by injection E. }
  unfold inet4_addr. destruct (decide (zlen data < 16)); [rewrite inet_addr_short by lia; split; [done|lia]|].
  rewrite inet_addr_ok by lia. cbn [rbind].
  destruct (decide (zlen data < 20)); [rewrite inet_addr_short by lia; done|].
  rewrite inet_addr_ok by lia. cbn [rbind]. split; [lia|]. split; [done|]. split; [|done].
  exists b. split; [done|]. split; [done|]. split; lia.
Qed.

Lemma process_ipv6 data b :
  at_byte data 0 = Ok b -> b / 16 = 6 ->
  match process_ipv4_ipv6 inet_ntop (zlen data) data with
  | Err e => False
  | Ok None => forall off src dst, ~ ipv6_udp data off src dst
  | Ok (Some (off, src, dst)) => ipv6_udp data off src dst /\ off - 8 <= zlen data
  end.
Proof.
  intros Eb Hv. destruct (at_byte_Ok _ _ _ Eb) as [Hl Hb]. unfold process_ipv4_ipv6.
  destruct (Z.ltb_spec (zlen data) 1); [lia|]. rewrite Eb. cbn [rbind]. rewrite version_land, Hv by done.
  change (16 * 6 =? 64) with false. change (16 * 6 =? 96) with true. cbn iota.
  destruct (Z.ltb_spec (zlen data) 42); [intros off src dst (Hs & _); lia|].
  destruct (at_byte_ok data 6) as (nxt & E6 & _); [lia|]. rewrite E6. cbn [rbind].
  destruct (skip_extensions_spec data (Z.to_nat (zlen data)) nxt 40) as (r & -> & Hr & Hbd); [lia..|]. cbn [rbind].
  destruct r as [o|].
  - unfold inet6_addr. rewrite !inet_addr_ok by lia. cbn [rbind]. destruct (Hbd o eq_refl). split; [|lia].
    split; [lia|]. split; [by exists b|]. split; [|done]. exists nxt. split; [done|].
    replace (o + 8 - 8) with o by lia. by apply Hr.
  - intros off src dst (_ & _ & (n & En & Hc) & _). rewrite E6 in En. injection En as <-. by apply Hr in Hc.
Qed.

Lemma process_other data :
  zlen data = 0 \/ (exists b, at_byte data 0 = Ok b /\ b / 16 <> 4 /\ b / 16 <> 6) ->
  process_ipv4_ipv6 inet_ntop (zlen data) data = Ok None.
Proof.
  intros [H|(b & Eb & H4 & H6)]; unfold process_ipv4_ipv6; [by rewrite H|].
  destruct (at_byte_Ok _ _ _ Eb) as [Hl Hb]. destruct (Z.ltb_spec (zlen data) 1); [done|].
  rewrite Eb. cbn [rbind]. rewrite version_land by done.
  destruct (Z.eqb_spec (16 * (b / 16)) 64); [lia|]. destruct (Z.eqb_spec (16 * (b / 16)) 96); [lia|done].
Qed.

Lemma process_spec data :
  match process_ipv4_ipv6 inet_ntop (zlen data) data with
  | Err e => e = undefined_behaviour /\ zlen data < 20 /\ exists b, at_byte data 0 = Ok b /\ b / 16 = 4
  | Ok None => forall off src dst, ~ ipv4_udp data off src dst /\ ~ ipv6_udp data off src dst
  | Ok (Some (off, src, dst)) =>
      8 <= off /\ off - 8 <= zlen data /\ (ipv4_udp data off src dst \/ ipv6_udp data off src dst)
  end.
Proof.
  destruct (decide (zlen data = 0)) as [Hz|Hz].
  { rewrite process_other by auto. intros off src dst. split; intros [Hl _]; lia. }
  zpos. destruct (at_byte_ok data 0) as (b & Eb & Hb); [lia|].
  assert (Huniq : forall b', at_byte data 0 = Ok b' -> b' = b) by (intros b' E; rewrite Eb in E; by injection E).
  destruct (decide (b / 16 = 4)) as [H4|H4]; [|destruct (decide (b / 16 = 6)) as [H6|H6]].
  - pose proof (process_ipv4 data b Eb H4) as Hp. destruct (process_ipv4_ipv6 _ _ _) as [[[[off src] dst]|]|e].
    + pose proof Hp as (_ & _ & (b' & Eb' & _ & Hs & ->) & _). apply Huniq in Eb' as ->.
      pose proof (Z.mod_pos_bound b 16 ltac:(lia)). split; [lia|]. split; [lia|]. by left.
    + intros off src dst. split; [by apply Hp|]. intros (_ & (b' & Eb' & Hv) & _). apply Huniq in Eb' as ->. lia.
    + destruct Hp as [-> Hp]. split; [done|]. split; [done|]. by exists b.
  - pose proof (process_ipv6 data b Eb H6) as Hp. destruct (process_ipv4_ipv6 _ _ _) as [[[[off src] dst]|]|e]; [| |done].
    + destruct Hp as [Hp Hoff]. split; [|split; [done|by right]].
      destruct Hp as (Hl & _ & (nxt & _ & Hc) & _). apply chain_ge in Hc. lia.
    + intros off src dst. split; [|by apply Hp]. intros (_ & _ & (b' & Eb' & Hv & _) & _). apply Huniq in Eb' as ->. lia.
  - rewrite process_other by eauto. intros off src dst.
    split; [intros (_ & _ & (b' & Eb' & Hv & _) & _)|intros (_ & (b' & Eb' & Hv) & _)]; apply Huniq in Eb' as ->; lia.
Qed.

Lemma process_bounds_core data off src dst :
  process_ipv4_ipv6 inet_ntop (zlen data) data = Ok (Some (off, src, dst)) -> 8 <= off /\ off - 8 <= zlen data.
Proof. intros E. pose proof (process_spec data) as H. rewrite E in H. naive_solver. Qed.

(** C39: Where the payload starts.  On the bytes of any packet, the search for the UDP
    payload ends; it finds one exactly in a version 4 packet of protocol 17 and in
    a version 6 packet whose chain of extension headers leads to UDP, whatever
    their number; the UDP header then starts within the data.  It reads past the
    end of the data only in version 4 packets of fewer than twenty bytes, never
    in a version 6 packet. *)
Theorem process_bounds data :
  match process_ipv4_ipv6 inet_ntop (zlen data) data with
  | Err e => e = undefined_behaviour /\ zlen data < 20 /\ exists b, at_byte data 0 = Ok b /\ b / 16 = 4
  | Ok None => forall off src dst, ~ ipv4_udp data off src dst /\ ~ ipv6_udp data off src dst
  | Ok (Some (off, src, dst)) =>
      8 <= off /\ off - 8 <= zlen data /\ (ipv4_udp data off src dst \/ ipv6_udp data off src dst)
  end.
Proof. apply process_spec. Qed.

End Payload.

(** ** What is shown *)

Lemma typed_link_ok n i pkt : 0 <= i -> i + 2 <= n ->
  exists l, typed_link n i pkt = Ok l /\ forall h, l = ip_at h -> h = n /\ n <= zlen pkt.
Proof.
  intros Hi Hn. unfold typed_link, ethertype. destruct (Z.ltb_spec (zlen pkt) n); [by exists malformed|].
  destruct (at_byte_ok pkt i) as (hi & -> & _); [lia|]. destruct (at_byte_ok pkt (i + 1)) as (lo & -> & _); [lia|].
  cbn [rbind]. eexists. split; [done|]. intros h. destruct (_ && _); [done|]. by intros [= <-].
Qed.

(** The link header is read within the packet. *)
Lemma link_header_ok dl pkt :
  exists l, link_header dl pkt = Ok l /\ forall h, l = ip_at h -> 0 <= h <= zlen pkt.
Proof.
  zpos. destruct dl; cbn [link_header].
  - eexists. split; [done|]. intros h [= <-]. zpos. lia.
  - destruct (Z.ltb_spec (zlen pkt) 4); [by eexists|]. destruct (at_byte_ok pkt 3) as (b & -> & _); [lia|].
    cbn [rbind]. eexists. split; [done|]. intros h. destruct (_ && _); [done|]. intros [= <-]. lia.
  - destruct (typed_link_ok 14 12 pkt) as (l & -> & Hl); [lia..|]. exists l. split; [done|]. intros h E. apply Hl in E. lia.
  - destruct (typed_link_ok 16 14 pkt) as (l & -> & Hl); [lia..|]. exists l. split; [done|]. intros h E. apply Hl in E. lia.
  - destruct (typed_link_ok 20 0 pkt) as (l & -> & Hl); [lia..|]. exists l. split; [done|]. intros h E. apply Hl in E. lia.
  - by eexists.
Qed.

Section Shown.
Context (inet_ntop : bytes -> option string).

(** The packet is IP behind its link header, and a payload was found at [off]. *)
Definition found (dl : datalink) (pkt : bytes) (off : Z) (src dst : string) : Prop :=
  exists h start, link_header dl pkt = Ok (ip_at h) /\
    process_ipv4_ipv6 inet_ntop (zlen (zdrop h pkt)) (zdrop h pkt) = Ok (Some (start, src, dst)) /\ off = h + start.

Lemma handle_found dl pkt off src dst :
  zlen pkt < W31 -> found dl pkt off src dst ->
  0 <= off <= zlen pkt + 8 /\
  handle_packet inet_ntop dl pkt =
    if zlen pkt <? off then Err undefined_behaviour
    else
      let payload := zdrop off pkt in
      let* (res, seg) := TCPSegment_parse new_TCPSegment (Buffer_of payload) 0 in
      if Nat.ltb 1 (ParseResult_index res) then Ok (not_recognised src dst (hexdump payload 8))
      else Ok (segment_shown (show_segment src dst (pr_eqb res NoError) seg (zlen payload)) (hexdump payload 8)).
Proof.
  intros Hlen (h & start & El & Ep & ->). destruct (link_header_ok dl pkt) as (l & El' & Hh).
  rewrite El in El'. injection El' as <-. specialize (Hh h eq_refl).
  destruct (process_bounds_core inet_ntop _ _ _ _ Ep) as [Hb1 Hb2]. rewrite zlen_zdrop in Hb2 by lia.
  split; [lia|]. unfold handle_packet. rewrite El. cbn [rbind].
  rewrite (u64_id (zlen pkt - h)) by lia. assert (Hs : s32 (zlen pkt - h) = zlen (zdrop h pkt)).
  { rewrite zlen_zdrop by lia. unfold s32. rewrite u32_id by lia. destruct (Z.ltb_spec (zlen pkt - h) W31); lia. }
  rewrite Hs, Ep. cbn [rbind]. rewrite (u64_id (h + start)) by lia. unfold at_bytes.
  destruct (Z.ltb_spec (zlen pkt) (h + start)) as [Ho|Ho].
  - assert (Hw : zlen pkt -! (h + start) = zlen pkt - (h + start) + W64)
      by (unfold u64; symmetry; apply (Z.mod_unique _ _ (-1)); lia).
    rewrite Hw. destruct (Z.ltb_spec (zlen pkt) (h + start + (zlen pkt - (h + start) + W64))); [done|lia].
  - rewrite (u64_id (zlen pkt - (h + start))) by lia.
    destruct (Z.ltb_spec (zlen pkt) (h + start + (zlen pkt - (h + start)))); [lia|]. cbn [rbind].
    rewrite ztake_all by (rewrite zlen_zdrop; lia). rewrite zlen_zdrop by lia.
    replace (Z.max 0 (zlen pkt - (h + start))) with (zlen pkt - (h + start)) by lia. done.
Qed.

(** A segment sent over UDP is shown: when the payload of the captured packet is
    a serialised segment, what is printed are the ports, flags, sequence numbers
    and window of that segment, a correct checksum, the range of sequence numbers
    it occupies, and a dump of exactly its bytes. *)
Theorem tcpdump_shows dl pkt off src dst s wire :
  zlen pkt < W31 -> found dl pkt off src dst -> off <= zlen pkt ->
  TCPSegment_ok s -> TCPSegment_serialize s 0 = Ok wire -> zdrop off pkt = bl_concatenate wire ->
  exists cksum,
    handle_packet inet_ntop dl pkt = Ok (segment_shown
      (mkSummary src (th_sport (header s)) dst (th_dport (header s)) (flags_of (header s)) cksum true
         (th_seqno (header s))
         (let n := length_in_sequence_space s in if 0 <? n then Some (w32_add (th_seqno (header s)) n) else None)
         (th_ackno (header s)) (th_win (header s)) (4 * th_doff (header s) + zlen (buf_str (payload s))))
      (hexdump (bl_concatenate wire) 8)).
Proof.
  intros Hlen Hf Ho Hs Ew Ed. destruct (handle_found dl pkt off src dst Hlen Hf) as [_ E]. rewrite E.
  destruct (Z.ltb_spec (zlen pkt) off); [lia|]. cbv zeta. rewrite Ed.
  destruct (segment_wire s 0 Hs ltac:(lia)) as (l & El & Hl & _ & Hw). rewrite Ew in El. injection El as <-.
  pose proof Hs as (Hh & _ & Hp). pose proof (tho_doff _ Hh).
  destruct (Hw (Buffer_of (bl_concatenate wire)) new_TCPSegment) as (s' & Es & Hh' & Hp' & _); [apply Buffer_of_ok; lia|done|].
  rewrite Es. cbn [rbind]. exists (th_cksum (header s')).
  assert (Hn : length_in_sequence_space s' = length_in_sequence_space s)
    by (unfold length_in_sequence_space; by rewrite Hp', Hh').
  assert (0 <= length_in_sequence_space s < W32).
  { unfold length_in_sequence_space. zpos. destruct (th_syn _), (th_fin _); wz; lia. }
  change (Nat.ltb 1 (ParseResult_index NoError)) with false. cbn iota.
  unfold show_segment. rewrite Hn, u32_id, Hl, Hh' by done. done.
Qed.

(** When the checksum is wrong, nothing of the segment is shown: the ports, flags
    and numbers that are printed are those of an empty segment. *)
Theorem tcpdump_bad_checksum dl pkt off src dst :
  zlen pkt < W31 -> found dl pkt off src dst -> off <= zlen pkt ->
  ck_value (ck_add (new_InternetChecksum 0) (zdrop off pkt)) <> 0 ->
  handle_packet inet_ntop dl pkt = Ok (segment_shown
    (mkSummary src 0 dst 0 "" 0 false (mkW32 0) None (mkW32 0) 0 (zlen (zdrop off pkt))) (hexdump (zdrop off pkt) 8)).
Proof.
  intros Hlen Hf Ho Hc. destruct (handle_found dl pkt off src dst Hlen Hf) as [_ E]. rewrite E.
  destruct (Z.ltb_spec (zlen pkt) off); [lia|]. cbv zeta. unfold TCPSegment_parse. rewrite buf_str_of.
  destruct (Z.eqb_spec (ck_value (ck_add (new_InternetChecksum 0) (zdrop off pkt))) 0); [done|]. done.
Qed.

(** A packet that ends within the UDP header is not noticed: the length of the
    payload wraps around, and bytes past the packet are used. *)
Theorem tcpdump_truncated dl pkt off src dst :
  zlen pkt < W31 -> found dl pkt off src dst -> zlen pkt < off ->
  handle_packet inet_ntop dl pkt = Err undefined_behaviour.
Proof.
  intros Hlen Hf Ho. destruct (handle_found dl pkt off src dst Hlen Hf) as [_ E]. rewrite E.
  by destruct (Z.ltb_spec (zlen pkt) off); [|lia].
Qed.

End Shown.

(** The usage message documents [-F <file>]; it is taken as the start of the
    filter expression. *)
Theorem tcpdump_ignores_file_option file rest :
  parse_arguments ("-F" :: file :: rest) 1 None = expression_at 1 None.
Proof. done. Qed.

(** ** Examples *)

Definition example_segment : TCPSegment :=
  mkTCPSegment (set_syn true (set_win 5 (set_sport 1024 default_TCPHeader))) (Buffer_of [x61; x62; x63]).
Definition example_wire : BufferList :=
  match TCPSegment_serialize example_segment 0 with Ok l => l | Err _ => [] end.

(** Ethernet, a version 6 header, hop-by-hop options of sixteen bytes, UDP. *)
Definition example_packet : bytes :=
  repeat x00 12 ++ [x86; xdd] ++
  [x60] ++ repeat x00 5 ++ [x00; x40] ++ repeat x01 16 ++ repeat x02 16 ++
  [x11; x01] ++ repeat x00 14 ++ repeat x00 8 ++ bl_concatenate example_wire.

Lemma example_found : found (fun _ => None) DLT_EN10MB example_packet 78 "unknown" "unknown".
Proof. exists 14, 64. split; [reflexivity|]. split; reflexivity. Qed.

Lemma tcpdump_shows_witness :
  exists s d, handle_packet (fun _ => None) DLT_EN10MB example_packet = Ok (segment_shown s d) /\
    su_sport s = 1024 /\ su_flags s = "S" /\ su_correct s = true /\ su_end s = Some (mkW32 4).
Proof.
  destruct (tcpdump_shows (fun _ => None) DLT_EN10MB example_packet 78 "unknown" "unknown" example_segment example_wire)
    as (c & E).
  - reflexivity.
  - exact example_found.
  - discriminate.
  - split; [constructor; unfold w32_ok; simpl; try lia; done|]. split; [by apply Buffer_of_ok|done].
  - reflexivity.
  - reflexivity.
  - eexists _, _. split; [exact E|]. repeat split.
Defined.

(** A packet cut off after its IP header. *)
Lemma tcpdump_truncated_witness :
  handle_packet (fun _ => None) DLT_RAW ([x45] ++ repeat x00 8 ++ [x11] ++ repeat x00 10) = Err undefined_behaviour.
Proof.
  apply (tcpdump_truncated (fun _ => None) _ _ 28 "unknown" "unknown"); [reflexivity| |reflexivity].
  exists 0, 28. split; [reflexivity|]. split; reflexivity.
Defined.
