(* ===== verification/Programs.v ===== *)
(** * Two small programs

    [get_URL] of [apps/webget.cc], as the owner of the socket sees it, and the loop
    of [apps/tun.cc].  What the kernel answers is an argument. *)
From S2P Require Import Prelude Buffer Parser Checksum TCPSegment IPv4 FileDescriptor Hexdump.
From Stdlib Require String.
Open Scope string_scope.
Open Scope list_scope.
Open Scope Z_scope.

(** ** webget *)

Definition text_of (s : string) : bytes := String.list_byte_of_string s.
Definition crlf : bytes := [x0d; x0a].

Definition request (host path : bytes) : bytes :=
  let r := text_of "GET " ++ path ++ text_of " HTTP/1.1" ++ crlf in
  let r := r ++ text_of "Host: " ++ host ++ crlf in
  let r := r ++ text_of "Connection: close" ++ crlf in
  r ++ crlf.

Definition SIZE_MAX : Z := W64 - 1.

(** The loop that prints what the server sends, along the kernel's answers to
    [read]; without a further answer it has not returned. *)
Fixpoint print_all (w : FDWrapper) (reads : list (option bytes)) : option (result (FDWrapper * bytes)) :=
  if fd_eof w then Some (Ok (w, []))
  else
    match reads with
    | [] => None
    | answer :: reads =>
        match fd_read w SIZE_MAX answer with
        | Err e => Some (Err e)
        | Ok (w, str) =>
            match print_all w reads with
            | Some (Ok (w, out)) => Some (Ok (w, str ++ out))
            | r => r
            end
        end
    end.

(** From the connected socket on: what was sent, what was printed, and the socket
    once it is closed. *)
Definition get_URL (host path : bytes) (socket : FDWrapper) (writes : list (option Z)) (reads : list (option bytes))
    : option (result (FDWrapper * bytes * bytes)) :=
  match fd_write socket (BufferViewList_of_str (request host path)) true 0 writes with
  | None => None
  | Some (Err e) => Some (Err e)
  | Some (Ok (w, _)) =>
      match print_all w reads with
      | None => None
      | Some (Err e) => Some (Err e)
      | Some (Ok (w, out)) => Some (Ok (fd_close w, request host path, out))
      end
  end.

Definition chunk (c : bytes) : Prop := 0 < zlen c <= BUFFER_SIZE.

Lemma print_all_eq chunks : forall w rest, fd_eof w = false -> Forall chunk chunks ->
  exists w', print_all w (map Some chunks ++ Some [] :: rest) = Some (Ok (w', concat chunks)) /\ fd_eof w' = true.
Proof.
  induction chunks as [|c chunks IH]; intros w rest Hw Hc; cbn [map app print_all concat]; rewrite Hw.
  - rewrite fd_read_ok by done. cbn [rbind]. change ((0 <? SIZE_MAX) && (zlen (@nil byte) =? 0)) with true. cbn iota.
    exists (register_read (set_eof w)). split; [|done]. destruct rest; done.
  - apply Forall_cons in Hc as [Hc Hcs]. unfold chunk in Hc. rewrite fd_read_ok by (unfold SIZE_MAX, BUFFER_SIZE in *; lia).
    destruct (Z.eqb_spec (zlen c) 0); [lia|]. rewrite andb_false_r.
    destruct (IH (register_read w) rest Hw Hcs) as (w' & -> & Hw'). by exists w'.
Qed.

(** A page is fetched completely: in whichever pieces the kernel takes the
    request and hands over the answer, the whole request is written, the function
    returns when the answer ends, and exactly the answer was printed. *)
Theorem webget_complete host path socket writes chunks rest :
  zlen (request host path) < W64 -> fd_eof socket = false ->
  progressing (zlen (request host path)) writes -> zlen (request host path) <= zlen writes ->
  Forall chunk chunks ->
  exists w, get_URL host path socket writes (map Some chunks ++ Some [] :: rest) =
      Some (Ok (w, request host path, concat chunks)) /\ fd_closed w = true.
Proof.
  intros Hs He Hp Hl Hc. unfold get_URL.
  assert (Hpos : 0 < zlen (request host path)).
  { unfold request. rewrite !zlen_app. change (zlen crlf) with 2. zpos. lia. }
  assert (Hcat : concat (BufferViewList_of_str (request host path)) = request host path).
  { exact (app_nil_r (request host path)). }
  destruct (fd_write_all writes socket (BufferViewList_of_str (request host path)) 0) as (w & -> & _ & Hw & _);
    rewrite ?Hcat; try lia; [done|].
  destruct (print_all_eq chunks w rest) as (w' & -> & _); [by rewrite Hw|done|]. by exists (fd_close w').
Qed.

Definition one_byte_each (n : nat) : list (option Z) := repeat (Some 1) n.

Lemma progressing_ones n : forall size, Z.of_nat n <= size -> progressing size (one_byte_each n).
Proof.
  induction n as [|n IH]; intros size Hn; cbn; [done|]. split; [lia|]. split; [done|]. split; [lia|]. apply IH. lia.
Qed.

Lemma webget_complete_witness :
  exists w out, get_URL (text_of "a") (text_of "/") (mkFDWrapper 3 false false 0 0) (one_byte_each 46)
    [Some (text_of "he"); Some (text_of "llo"); Some []] = Some (Ok (w, request (text_of "a") (text_of "/"), out)) /\
    out = text_of "hello".
Proof.
  destruct (webget_complete (text_of "a") (text_of "/") (mkFDWrapper 3 false false 0 0) (one_byte_each 46)
    [text_of "he"; text_of "llo"] []) as (w & E & _).
  - reflexivity.
  - reflexivity.
  - apply progressing_ones. vm_compute. discriminate.
  - vm_compute. discriminate.
  - repeat constructor; vm_compute; congruence.
  - eexists w, _. split; [exact E|reflexivity].
Defined.

(** ** tun *)

(** What the program prints for a packet, after the dump. *)
Inductive tun_verdict : Type :=
  | ipv4_failed
  | not_tcp (h : IPv4Header)
  | tcp_failed (h : IPv4Header)
  | tcp_shown (h : IPv4Header) (payload_len : Z) (t : TCPHeader).

Definition show_packet (buffer : bytes) : result (bytes * tun_verdict) :=
  let dump := hexdump buffer 0 in
  let* (res, ip_dgram) := IPv4Datagram_parse new_IPv4Datagram (Buffer_of buffer) in
  if negb (pr_eqb res NoError) then Ok (dump, ipv4_failed)
  else
    let h := ip_header ip_dgram in
    if negb (ih_proto h =? PROTO_TCP) then Ok (dump, not_tcp h)
    else
      let* b := bl_to_Buffer (ip_payload ip_dgram) in
      let* (res, tcp_seg) := TCPSegment_parse new_TCPSegment b (pseudo_cksum h) in
      if negb (pr_eqb res NoError) then Ok (dump, tcp_failed h)
      else Ok (dump, tcp_shown h (buf_size (payload tcp_seg)) (header tcp_seg)).

(** The loop, over what the device yields; it ends only with a failure. *)
Fixpoint tun_loop (w : FDWrapper) (reads : list (option bytes)) : result (list (bytes * tun_verdict)) :=
  match reads with
  | [] => Ok []
  | answer :: reads =>
      let* (w, buffer) := fd_read w SIZE_MAX answer in
      let* shown := show_packet buffer in
      let* out := tun_loop w reads in
      Ok (shown :: out)
  end.

Lemma parsed_payload d b r d' : IPv4Datagram_parse d b = Ok (r, d') -> exists b', ip_payload d' = [b'].
Proof.
  unfold IPv4Datagram_parse. intros E. apply rbind_ok in E as ([hr p] & _ & E).
  destruct (negb _); injection E as _ <-; by eexists.
Qed.

(** A segment in a datagram is shown: when the device yields the bytes of a
    datagram that carries a serialised segment, the program prints the header of
    the datagram, the header of the segment and the size of its payload; only the
    checksums were filled in. *)
Theorem tun_shows d s wire l :
  IPv4Datagram_ok d -> ih_proto (ip_header d) = PROTO_TCP -> TCPSegment_ok s ->
  TCPSegment_serialize s (pseudo_cksum (ip_header d)) = Ok wire -> bl_concatenate (ip_payload d) = bl_concatenate wire ->
  IPv4Datagram_serialize d = Ok l ->
  exists h t, show_packet (bl_concatenate l) =
      Ok (hexdump (bl_concatenate l) 0, tcp_shown h (zlen (buf_str (payload s))) t) /\
    h = set_ip_cksum (ih_cksum h) (ip_header d) /\ t = set_cksum (th_cksum t) (header s).
Proof.
  intros Hd Hproto Hs Ew Ep El. destruct (datagram_wire d Hd) as (l' & El' & Hlen & Hw).
  rewrite El in El'. injection El' as <-. zpos.
  destruct (Hw (Buffer_of (bl_concatenate l)) new_IPv4Datagram) as (d' & E & _ & Hh & Hpay & Hd'); [apply Buffer_of_ok; lia|done|].
  unfold show_packet. rewrite E. cbn [rbind]. change (negb (pr_eqb NoError NoError)) with false. cbn iota.
  assert (Hp : ih_proto (ip_header d') = PROTO_TCP) by (rewrite Hh; exact Hproto). rewrite Hp.
  change (negb (PROTO_TCP =? PROTO_TCP)) with false. cbn iota.
  destruct (parsed_payload _ _ _ _ E) as (b & Hb). rewrite Hb. cbn [bl_to_Buffer rbind].
  assert (Hc : pseudo_cksum (ip_header d') = pseudo_cksum (ip_header d)) by (rewrite Hh; done). rewrite Hc.
  destruct (segment_wire s (pseudo_cksum (ip_header d)) Hs) as (w & Ew' & _ & _ & Hseg); [apply pseudo_cksum_bound, Hd|].
  rewrite Ew in Ew'. injection Ew' as <-. destruct (Hseg b new_TCPSegment) as (s' & -> & Hh' & Hp' & _).
  - destruct Hd' as (_ & Hf & _). rewrite Hb in Hf. by apply Forall_cons in Hf as [? _].
  - rewrite <- Ep, <- Hpay, Hb. by rewrite concatenate_cons, app_nil_r.
  - cbn [rbind]. change (negb (pr_eqb NoError NoError)) with false. cbn iota. unfold buf_size. rewrite Hp'.
    exists (ip_header d'), (header s'). done.
Qed.
