(* ===== verification/Mains.v ===== *)
(** * The programs from end to end

    The main functions of [apps/tcp_native.cc], [apps/tcp_udp.cc],
    [apps/tcp_ipv4.cc], [apps/tcp_ip_ethernet.cc] and [apps/webget.cc], the
    construction of a socket from its adapter, and the clock of
    [libsponge/util/util.cc].  A main function is a [result]: an exception that
    leaves the body of its [try] ends the program with [EXIT_FAILURE].  What the
    kernel answers is an argument. *)
From S2P Require Import Prelude WrappingIntegers ByteStream Buffer Parser Ethernet TCPSender TCPConnection Outgoing Duplex Address NetworkInterface Adapters FileDescriptor AdapterSafety Socket EventLoop StreamCopy SpongeSocket SpongeSafety SpongeRuns Options Programs.
From Stdlib Require String.
From Stdlib Require Import Sorted.
Open Scope string_scope.
Open Scope list_scope.
Open Scope Z_scope.

Definition EXIT_SUCCESS : Z := 0.
Definition EXIT_FAILURE : Z := 1.

(** [try { ... } catch (const exception &)]: the handler prints and the program
    fails; undefined behaviour is no exception. *)
Definition caught {A} (failed : A) (body : result A) : result A :=
  match body with
  | Err undefined_behaviour => Err undefined_behaviour
  | Err _ => Ok failed
  | Ok a => Ok a
  end.

(** ** Copying between a socket and the standard streams *)

(** What the kernel answers while the descriptors are made non-blocking: the
    flags, and whether new flags are accepted. *)
Record fcntl_answers : Type := mkFcntl { fc_getfl : option Z; fc_setfl : Z -> bool }.

(** [bidirectional_stream_copy] up to its loop: the descriptors of the standard
    streams, and the three made non-blocking. *)
Definition copy_prepared (socket : FDWrapper) (of_socket of_input of_output : fcntl_answers)
    (stdin from_peer : bytes) (amounts : list Z) : result copy_state :=
  let* input := new_FDWrapper 0 in
  let* output := new_FDWrapper 1 in
  let* _ := set_blocking false (fc_getfl of_socket) (fc_setfl of_socket) in
  let* _ := set_blocking false (fc_getfl of_input) (fc_setfl of_input) in
  let* _ := set_blocking false (fc_getfl of_output) (fc_setfl of_output) in
  Ok (copy_start input output socket stdin from_peer amounts).

(** ** The native program *)

(** The answers of the kernel to the calls that make the connection. *)
Record native_kernel : Type := mkNativeKernel {
  nk_socket : Z * Z;
  nk_setsockopt : bool;
  nk_bind : Address -> bool;
  nk_listen : Z -> bool;
  nk_accept : Z * Z;
  nk_options : option (Z * Z) * option (Z * Z);
  nk_connect : Address -> bool }.

Section Native.
Context (resolve : string -> string -> result Address) (k : native_kernel).

(** [argv] has the name of the program first.  [server_mode] is assigned while
    the condition is evaluated. *)
Definition native_arguments (argv : list string) : option bool :=
  match argv with
  | _ :: first :: _ :: rest =>
      let server_mode := strncmp_eq 3 "-l" first in
      if server_mode && bool_decide (rest = []) then None else Some server_mode
  | _ => None
  end.

Definition argument (argv : list string) (i : nat) : result string :=
  match argv !! i with Some a => Ok a | None => Err undefined_behaviour end.

(** The socket: one accepted from the given address, or connected to it.  The
    listening socket is destroyed on return. *)
Definition native_socket (server_mode : bool) (argv : list string) : result FDWrapper :=
  if server_mode then
    let* listening_socket := Socket_new (nk_socket k).1 (nk_socket k).2 in
    let* listening_socket := set_reuseaddr listening_socket (nk_setsockopt k) in
    let* host := argument argv 2 in
    let* port := argument argv 3 in
    let* address := resolve host port in
    let* listening_socket := Socket_bind listening_socket address (nk_bind k address) in
    let* listening_socket := TCPSocket_listen listening_socket 16 (nk_listen k 16) in
    let (listening_socket, accepted) :=
      TCPSocket_accept listening_socket (nk_accept k).1 (nk_accept k).2 (nk_options k).1 (nk_options k).2 in
    accepted
  else
    let* connecting_socket := Socket_new (nk_socket k).1 (nk_socket k).2 in
    let* host := argument argv 1 in
    let* port := argument argv 2 in
    let* address := resolve host port in
    Socket_connect connecting_socket address (nk_connect k address).

(** The exit code, with the state of the copying, or [None] while it goes on. *)
Definition tcp_native_main (argv : list string) (of_socket of_input of_output : fcntl_answers)
    (stdin from_peer : bytes) (amounts : list Z) (polls : list (copy_state -> list pollfd -> poll_answer))
    : result (option (Z * option copy_state)) :=
  caught (Some (EXIT_FAILURE, None))
    match native_arguments argv with
    | None => Ok (Some (EXIT_FAILURE, None))
    | Some server_mode =>
        let* socket := native_socket server_mode argv in
        let* s := copy_prepared socket of_socket of_input of_output stdin from_peer amounts in
        let* (x, s) := bidirectional_stream_copy polls s in
        Ok (if fst (x : bool * list copy_rule) then Some (EXIT_SUCCESS, Some s) else None)
    end.
End Native.

(** ** Sockets of the TCP programs *)

(** The answers of the kernel while a socket is made: to [socketpair], with the
    two descriptors, to the checks of the options and to [fcntl]. *)
Record pair_answers : Type := mkPairAnswers {
  pa_return : Z;
  pa_errno : Z;
  pa_fds : Z * Z;
  pa_domain : option (Z * Z);
  pa_type : option (Z * Z);
  pa_fcntl : fcntl_answers }.

Definition socket_pair_helper (type : Z) (p : pair_answers) : result (FDWrapper * FDWrapper) :=
  let* _ := SystemCall (pa_return p) (pa_errno p) 0 in
  let* first := new_FDWrapper (pa_fds p).1 in
  let* second := new_FDWrapper (pa_fds p).2 in
  Ok (first, second).

Section Session.
Context {A I O : Type} {FA : FdAdapter A I O}.

(** [TCPSpongeSocket(AdaptT &&)]. *)
Definition TCPSpongeSocket_of_adapter (p : pair_answers) (adapter_fd : FDWrapper) (datagram_interface : A)
    (from_owner : bytes) (device : list I) (amounts : list Z) : result (TCPSpongeSocket (A := A) (I := I) (O := O)) :=
  let* (first, second) := socket_pair_helper SOCK_STREAM p in
  new_TCPSpongeSocket first second adapter_fd datagram_interface (pa_domain p) (pa_type p)
    (fc_getfl (pa_fcntl p)) (fc_setfl (pa_fcntl p)) from_owner device amounts.

Definition start_session (listen : bool) (so : TCPSpongeSocket (A := A) (I := I) (O := O)) (c_fsm : TCPConfig)
    (c_filt : FdAdapterConfig) (base_time : Z) (rounds : list (round (A := A) (I := I) (O := O)))
    : result (bool * Z * TCPSpongeSocket (A := A) (I := I) (O := O)) :=
  if listen then listen_and_accept so c_fsm c_filt base_time rounds else connect so c_fsm c_filt base_time rounds.
End Session.

Section TCPPrograms.
Variables (strtol : string -> Z) (lossrate : string -> Z) (resolve : string -> string -> result Address).
Variables (random_port : string) (isn : WrappingInt32).
(** The generator of the lossy adapter, and its seeded state. *)
Context {R : Type} (rand : R -> Z * R) (seed : R).
(** The kernel: the descriptor of the socket or device, whether [bind] and the
    [ioctl] succeed, the pair of sockets. *)
Variables (open_fd : Z * Z) (bind_ok : Address -> bool) (ioctl_ok : ifreq -> bool) (p : pair_answers).
Variables (from_owner : bytes) (amounts : list Z) (base_time : Z).

Abbreviation LossyUDP := (LossyFdAdapter TCPOverUDPSocketAdapter R).
Abbreviation LossyTun := (LossyFdAdapter TCPOverIPv4OverTunFdAdapter R).

(** [main] of [tcp_udp.cc] up to the copying: the exit code, or whether the socket is
    open, the time and the socket. *)
Definition tcp_udp_main (argv : list string) (device : list received_datagram)
    (rounds : list (round (A := LossyUDP) (I := received_datagram) (O := Address * bytes)))
    : result (configured (bool * Z * TCPSpongeSocket (A := LossyUDP) (I := received_datagram) (O := Address * bytes))) :=
  caught (inl EXIT_FAILURE)
    (let* c := with_arguments (tcp_udp_get_config strtol lossrate resolve random_port isn) argv in
     match c with
     | inl code => Ok (inl code)
     | inr (c_fsm, c_filt, listen) =>
         let* udp_sock := Socket_new open_fd.1 open_fd.2 in
         let* udp_sock := if (listen : bool) then Socket_bind udp_sock (fc_source c_filt) (bind_ok (fc_source c_filt))
                          else Ok udp_sock in
         let* tcp_socket := TCPSpongeSocket_of_adapter p udp_sock (mkLossy seed (mkUDPAdapter new_FdAdapterBase))
                              from_owner device amounts in
         let* x := start_session (FA := LossyAdapter rand) listen tcp_socket c_fsm c_filt base_time rounds in
         Ok (inr x)
     end).

(** [main] of [tcp_ipv4.cc]. *)
Definition tcp_ipv4_main (argv : list string) (device : list bytes)
    (rounds : list (round (A := LossyTun) (I := bytes) (O := bytes)))
    : result (configured (bool * Z * TCPSpongeSocket (A := LossyTun) (I := bytes) (O := bytes))) :=
  caught (inl EXIT_FAILURE)
    (let* c := with_arguments (tcp_ipv4_get_config strtol lossrate resolve random_port isn) argv in
     match c with
     | inl code => Ok (inl code)
     | inr (c_fsm, c_filt, listen, tun_dev_name) =>
         let* tun := TunTapFD_new (text_of tun_dev_name) true open_fd.1 open_fd.2 ioctl_ok in
         let* tcp_socket := TCPSpongeSocket_of_adapter p tun (mkLossy seed (mkTunAdapter new_FdAdapterBase))
                              from_owner device amounts in
         let* x := start_session (FA := LossyAdapter rand) listen tcp_socket c_fsm c_filt base_time rounds in
         Ok (inr x)
     end).

(** [main] of [tcp_ip_ethernet.cc]: [random] are the bytes of the local address.
    The adapter's constructor puts a frame on the device. *)
Definition tcp_ip_ethernet_main (argv : list string) (random : list Z) (device : list bytes)
    (rounds : list (round (A := TCPOverIPv4OverEthernetAdapter) (I := bytes) (O := bytes)))
    : result (configured (list bytes * (bool * Z * TCPSpongeSocket (A := TCPOverIPv4OverEthernetAdapter) (I := bytes) (O := bytes)))) :=
  caught (inl EXIT_FAILURE)
    (if (length argv <? 2)%nat then Ok (inl EXIT_FAILURE)
     else
       let local_ethernet_address := random_private_ethernet_address random in
       let* c := tcp_ip_ethernet_get_config strtol resolve random_port isn argv in
       match c with
       | inl code => Ok (inl code)
       | inr (c_fsm, c_filt, next_hop, tap_dev_name) =>
           let* tap := TunTapFD_new (text_of tap_dev_name) false open_fd.1 open_fd.2 ioctl_ok in
           let (adapter, out) := new_EthernetAdapter local_ethernet_address (fc_source c_filt) next_hop in
           let* tcp_socket := TCPSpongeSocket_of_adapter p tap adapter from_owner device amounts in
           let* x := connect tcp_socket c_fsm c_filt base_time rounds in
           Ok (inr (out, x))
       end).
End TCPPrograms.

(** ** webget *)

(** [argc <= 0] calls [abort]; with other than two arguments the program prints its
    usage.  [get_URL] is run on the two arguments. *)
Inductive ending : Type := returns (code : Z) | aborted | running_on.
Definition webget_main (argv : list string) (get_URL : bytes -> bytes -> option (result (FDWrapper * bytes * bytes)))
    : result ending :=
  match argv with
  | [] => Ok aborted
  | [_; host; path] =>
      match get_URL (text_of host) (text_of path) with
      | None => Ok running_on
      | Some r => caught (returns EXIT_FAILURE) (let* _ := r in Ok (returns EXIT_SUCCESS))
      end
  | _ => Ok (returns EXIT_FAILURE)
  end.

(** ** The clock *)

(** [timestamp_ms]: [program_start] is the static variable, initialised by the
    first call; [first] and [now] are the readings of the steady clock, in
    nanoseconds, of this call. *)
Definition timestamp_ms (program_start : option Z) (first now : Z) : option Z * Z :=
  let start := match program_start with Some t => t | None => first end in
  (Some start, u64 (Z.quot (now - start) 1000000)).

(** ** The native program is right *)

Lemma strncmp_l s : strncmp_eq 3 "-l" s = true <-> s = "-l".
Proof.
  unfold strncmp_eq. rewrite String.eqb_eq. split; [|intros ->; done].
  destruct s as [|a [|b [|c s]]]; cbn; [done|congruence|congruence|]. by destruct s.
Qed.

(** The arguments that start the program: two of them, the first not the option,
    or the option and two more. *)
Lemma native_arguments_exact argv server :
  native_arguments argv = Some server <->
  exists prog first second rest, argv = prog :: first :: second :: rest /\ server = bool_decide (first = "-l") /\
    (server = true -> rest <> []).
Proof.
  assert (Hs : forall first, strncmp_eq 3 "-l" first = bool_decide (first = "-l")).
  { intros first. apply eq_true_iff_eq. rewrite bool_decide_eq_true. apply strncmp_l. }
  split.
  - destruct argv as [|prog [|first [|second rest]]]; try done. cbn [native_arguments]. rewrite Hs. intros E.
    exists prog, first, second, rest. split; [done|]. do 2 case_bool_decide; cbn in E; try done; by injection E as <-.
  - intros (prog & first & second & rest & -> & -> & Hr). cbn [native_arguments]. rewrite Hs. do 2 case_bool_decide; cbn; try done. by destruct Hr.
Qed.

Lemma new_FDWrapper_ok n : 0 <= n -> new_FDWrapper n = Ok (StreamCopy.open_fd n).
Proof. intros H. unfold new_FDWrapper. by destruct (Z.ltb_spec n 0); [lia|]. Qed.

Lemma SystemCall_nonneg v errno mask : 0 <= v -> SystemCall v errno mask = Ok v.
Proof. intros H. unfold SystemCall. by destruct (Z.leb_spec 0 v); [|lia]. Qed.

Lemma Socket_new_open fd errno w : Socket_new fd errno = Ok w -> w = StreamCopy.open_fd fd.
Proof.
  intros E. apply rbind_ok in E as (n & E1 & E2). unfold SystemCall, new_FDWrapper in *.
  destruct (_ || _); [|done]. injection E1 as <-. destruct (fd <? 0); [done|]. by injection E2 as <-.
Qed.

Lemma native_socket_open resolve k server argv socket :
  native_socket resolve k server argv = Ok socket -> exists n, socket = StreamCopy.open_fd n.
Proof.
  unfold native_socket, TCPSocket_accept, TCPSocket_of_fd, Socket_of_fd, Socket_bind, TCPSocket_listen, set_reuseaddr, Socket_connect.
  intros E. destruct server; repeat (apply rbind_ok in E as (? & ? & E)).
  - injection E as <-. exists (nk_accept k).1. eapply Socket_new_open. unfold Socket_new. eapply rbind_ok. by eexists.
  - injection E as <-. eexists. by eapply Socket_new_open.
Qed.

Lemma copy_prepared_eq socket f1 f2 f3 stdin from_peer amounts s :
  copy_prepared socket f1 f2 f3 stdin from_peer amounts = Ok s ->
  s = copy_start (StreamCopy.open_fd 0) (StreamCopy.open_fd 1) socket stdin from_peer amounts.
Proof. unfold copy_prepared. cbn [rbind new_FDWrapper Z.ltb Z.compare]. intros E. do 3 apply rbind_ok in E as (? & _ & E). by injection E as <-. Qed.

Lemma caught_err {A} (failed : A) m : m <> Err undefined_behaviour -> (forall a, m <> Ok a) -> caught failed m = Ok failed.
Proof. destruct m as [a|[]]; cbn; intros H1 H2; try done; by destruct (H2 a). Qed.

Lemma SystemCall_defined v errno mask : SystemCall v errno mask <> Err undefined_behaviour.
Proof. unfold SystemCall. by destruct (_ || _). Qed.
Lemma syscall_ok_defined ok : syscall_ok ok <> Err undefined_behaviour.
Proof. by destruct ok. Qed.
Lemma new_FDWrapper_defined fd : new_FDWrapper fd <> Err undefined_behaviour.
Proof. unfold new_FDWrapper. by destruct (fd <? 0). Qed.
Lemma check_option_defined a v : check_option a v <> Err undefined_behaviour.
Proof. destruct a as [[x n]|]; [|done]. cbn. by destruct (_ || _). Qed.
Lemma set_blocking_defined b flags setfl : set_blocking b flags setfl <> Err undefined_behaviour.
Proof. destruct flags; [|done]. apply rbind_defined; [apply syscall_ok_defined|done]. Qed.

Create HintDb defined.
Hint Resolve rbind_defined SystemCall_defined syscall_ok_defined new_FDWrapper_defined check_option_defined
  set_blocking_defined : defined.

Lemma copy_prepared_defined socket f1 f2 f3 stdin from_peer amounts :
  copy_prepared socket f1 f2 f3 stdin from_peer amounts <> Err undefined_behaviour.
Proof. unfold copy_prepared. repeat (apply rbind_defined; [auto with defined|intros ?]). done. Qed.

Lemma argument_defined argv i : (i < length argv)%nat -> argument argv i <> Err undefined_behaviour.
Proof. intros Hi. unfold argument. by destruct (lookup_lt_is_Some_2 argv i Hi) as (a & ->). Qed.

Lemma native_socket_defined resolve k server argv :
  (forall host port, resolve host port <> Err undefined_behaviour) -> native_arguments argv = Some server ->
  native_socket resolve k server argv <> Err undefined_behaviour.
Proof.
  intros Hres E. apply native_arguments_exact in E as (prog & first & second & rest & -> & -> & Hrest).
  unfold native_socket, TCPSocket_accept, TCPSocket_of_fd, Socket_of_fd, Socket_bind, TCPSocket_listen, set_reuseaddr, Socket_connect, Socket_new.
  case_bool_decide; repeat (apply rbind_defined; [auto with defined|intros ?]); try done;
    (destruct rest; [by destruct Hrest|done]).
Qed.

(** What the program needs of its arguments: the address to listen at, after the
    option, or to connect to. *)
Inductive native_usage : list string -> bool -> string -> string -> Prop :=
  | usage_listen prog host port rest : native_usage (prog :: "-l" :: host :: port :: rest) true host port
  | usage_connect prog host port rest : host <> "-l" -> native_usage (prog :: host :: port :: rest) false host port.

(** ... of the kernel, to have a connection at descriptor [n]: a client's socket is
    made and connected; a server's is made, made reusable, bound and listening,
    and the socket it accepts is a TCP socket. *)
Definition native_connected (k : native_kernel) (server : bool) (address : Address) (n : Z) : Prop :=
  0 <= (nk_socket k).1 /\ 0 <= n /\
  if server then
    nk_setsockopt k = true /\ nk_bind k address = true /\ nk_listen k 16 = true /\ n = (nk_accept k).1 /\
    nk_options k = (Some (AF_INET, sizeof_int), Some (SOCK_STREAM, sizeof_int))
  else n = (nk_socket k).1 /\ nk_connect k address = true.

(** ... and to make a descriptor non-blocking: its flags are known, and accepted
    with the bit for it. *)
Definition nonblocking (f : fcntl_answers) : Prop :=
  exists flags, fc_getfl f = Some flags /\ fc_setfl f (Z.lor flags O_NONBLOCK) = true.

Definition native_started (resolve : string -> string -> result Address) (k : native_kernel) (argv : list string)
    (f1 f2 f3 : fcntl_answers) (n : Z) : Prop :=
  exists server host port address, native_usage argv server host port /\ resolve host port = Ok address /\
    native_connected k server address n /\ nonblocking f1 /\ nonblocking f2 /\ nonblocking f3.

Lemma native_usage_exact argv server :
  native_arguments argv = Some server <-> exists host port, native_usage argv server host port.
Proof.
  rewrite native_arguments_exact. split.
  - intros (prog & first & second & rest & -> & -> & Hr). case_bool_decide as Hf.
    + subst first. destruct rest as [|port rest]; [by destruct Hr|]. exists second, port. constructor.
    + exists first, second. by constructor.
  - intros (host & port & H). inversion H; subst.
    + by exists prog, "-l", host, (port :: rest).
    + exists prog, host, port, rest. rewrite bool_decide_eq_false_2 by done. done.
Qed.

Lemma SystemCall_new fd errno w :
  (let* n := SystemCall fd errno 0 in new_FDWrapper n) = Ok w <-> 0 <= fd /\ w = StreamCopy.open_fd fd.
Proof.
  split.
  - intros E. split; [|by eapply Socket_new_open]. unfold SystemCall, new_FDWrapper in E.
    destruct (_ || _); [|done]. cbn in E. destruct (Z.ltb_spec fd 0); [done|lia].
  - intros [H ->]. rewrite SystemCall_nonneg by done. cbn. by apply new_FDWrapper_ok.
Qed.

Lemma syscall_ok_true ok u : syscall_ok ok = Ok u <-> ok = true.
Proof. destruct ok, u; split; done. Qed.

Lemma check_option_true a v u : check_option a v = Ok u <-> a = Some (v, sizeof_int).
Proof.
  destruct a as [[x n]|]; [|done]. cbn. destruct u.
  destruct (Z.eqb_spec n sizeof_int) as [->|], (Z.eqb_spec x v) as [->|]; cbn; split; congruence.
Qed.

Lemma native_socket_exact resolve k argv server host port w :
  native_usage argv server host port ->
  native_socket resolve k server argv = Ok w <->
  exists address n, resolve host port = Ok address /\ native_connected k server address n /\ w = StreamCopy.open_fd n.
Proof.
  intros Hu. unfold native_socket, TCPSocket_accept, TCPSocket_of_fd, Socket_of_fd, Socket_bind, TCPSocket_listen,
    set_reuseaddr, Socket_connect, native_connected, Socket_new.
  inversion Hu; subst; cbn [argument lookup list_lookup].
  - split.
    + intros E. apply rbind_ok in E as (l & [Hl ->]%SystemCall_new & E).
      apply rbind_ok in E as (l1 & E1 & E). apply rbind_ok in E1 as (u1 & H1%syscall_ok_true & [= <-]). cbn [rbind] in E.
      apply rbind_ok in E as (a & Ha & E).
      apply rbind_ok in E as (l2 & E2 & E). apply rbind_ok in E2 as (u2 & H2%syscall_ok_true & [= <-]).
      apply rbind_ok in E as (l3 & E3 & E). apply rbind_ok in E3 as (u3 & H3%syscall_ok_true & [= <-]).
      apply rbind_ok in E as (fd & E4 & E). apply rbind_ok in E as (s & E5 & E).
      assert (E6 : (let* n := SystemCall (nk_accept k).1 (nk_accept k).2 0 in new_FDWrapper n) = Ok s) by (by rewrite E4).
      apply SystemCall_new in E6 as [Hn ->].
      apply rbind_ok in E as (u4 & H4%check_option_true & E). apply rbind_ok in E as (u5 & H5%check_option_true & [= <-]).
      exists a, (nk_accept k).1. split_and!; try done. destruct (nk_options k); cbn in *; congruence.
    + intros (a & n & Ha & (Hl & Hn & H1 & H2 & H3 & -> & H5) & ->).
      rewrite SystemCall_nonneg by done. cbn [rbind]. rewrite new_FDWrapper_ok by done. cbn [rbind]. rewrite H1.
      cbn. rewrite Ha. cbn [rbind].
      rewrite H2, H3, H5. cbn. rewrite SystemCall_nonneg by done. cbn. by rewrite new_FDWrapper_ok by done.
  - split.
    + intros E. apply rbind_ok in E as (l & [Hl ->]%SystemCall_new & E). cbn [rbind] in E.
      apply rbind_ok in E as (a & Ha & E). apply rbind_ok in E as (u & Hk%syscall_ok_true & [= <-]).
      by exists a, (nk_socket k).1.
    + intros (a & n & Ha & (Hl & Hn & -> & Hk) & ->). rewrite SystemCall_nonneg by done. cbn [rbind].
      rewrite new_FDWrapper_ok by done. cbn [rbind]. rewrite Ha. cbn [rbind]. by rewrite Hk.
Qed.

Lemma set_blocking_exact f : (exists v, set_blocking false (fc_getfl f) (fc_setfl f) = Ok v) <-> nonblocking f.
Proof.
  unfold set_blocking, nonblocking. destruct (fc_getfl f) as [flags|].
  - destruct (fc_setfl f (Z.lor flags O_NONBLOCK)) eqn:E; cbn; split.
    + intros _. by exists flags.
    + intros _. by eexists.
    + intros (v & [=]).
    + intros (v & [= <-] & H). congruence.
  - split; [intros (v & [=])|intros (v & [=] & _)].
Qed.

Lemma copy_prepared_exact socket f1 f2 f3 stdin from_peer amounts :
  (exists s, copy_prepared socket f1 f2 f3 stdin from_peer amounts = Ok s) <-> nonblocking f1 /\ nonblocking f2 /\ nonblocking f3.
Proof.
  rewrite <- !set_blocking_exact. unfold copy_prepared. cbn [rbind new_FDWrapper Z.ltb Z.compare]. split.
  - intros (s & E). apply rbind_ok in E as (v1 & E1 & E). apply rbind_ok in E as (v2 & E2 & E).
    apply rbind_ok in E as (v3 & E3 & _). eauto 10.
  - intros ((v1 & ->) & (v2 & ->) & (v3 & ->)). by eexists.
Qed.

(** The program reaches the copying exactly when it has all it needs. *)
Lemma native_started_exact resolve k argv f1 f2 f3 stdin from_peer amounts n :
  native_started resolve k argv f1 f2 f3 n <->
  exists server, native_arguments argv = Some server /\ native_socket resolve k server argv = Ok (StreamCopy.open_fd n) /\
    exists s, copy_prepared (StreamCopy.open_fd n) f1 f2 f3 stdin from_peer amounts = Ok s.
Proof.
  setoid_rewrite copy_prepared_exact. split.
  - intros (server & host & port & a & Hu & Ha & Hc & Hf). exists server. split; [by apply native_usage_exact; eauto|].
    split; [|done]. eapply native_socket_exact; [done|]. by exists a, n.
  - intros (server & (host & port & Hu)%native_usage_exact & Hs & Hf).
    apply (native_socket_exact _ _ _ _ _ _ _ Hu) in Hs as (a & n' & Ha & Hc & [= <-]). by exists server, host, port, a.
Qed.

Lemma copy_throws_runtime sofar polls rules s e : copy_throws sofar polls rules s e -> e = runtime_error.
Proof. by intros (? & ? & ? & ? & ? & ? & _ & _ & _ & [-> _] & _). Qed.

Lemma copy_throws_impl (P Q : copy_state -> Prop) polls rules s e : (forall s, P s -> Q s) ->
  copy_throws P polls rules s e -> copy_throws Q polls rules s e.
Proof. intros H (q & ps & r & s1 & t & s2 & H1 & H2 & H3 & H4 & H5). exists q, ps, r, s1, t, s2. auto 10. Qed.

(** Nothing was started: the program fails. *)
Lemma native_not_started resolve k argv f1 f2 f3 stdin from_peer amounts polls :
  (forall host port, resolve host port <> Err undefined_behaviour) ->
  (forall n, ~ native_started resolve k argv f1 f2 f3 n) ->
  tcp_native_main resolve k argv f1 f2 f3 stdin from_peer amounts polls = Ok (Some (EXIT_FAILURE, None)).
Proof.
  intros Hres Hno. unfold tcp_native_main. destruct (native_arguments argv) as [server|] eqn:Ea; [|done].
  destruct (native_socket resolve k server argv) as [socket|e] eqn:Es; cbn [rbind].
  - destruct (native_socket_open _ _ _ _ _ Es) as (n & ->).
    destruct (copy_prepared _ f1 f2 f3 stdin from_peer amounts) as [s|e] eqn:Ec; cbn [rbind].
    { destruct (Hno n). apply (native_started_exact _ _ _ _ _ _ stdin from_peer amounts). eauto 10. }
    apply caught_err; [|done]. intros [= ->]. by destruct (copy_prepared_defined _ _ _ _ _ _ _ Ec).
  - apply caught_err; [|done]. intros [= ->]. by destruct (native_socket_defined _ _ _ _ Hres Ea Es).
Qed.

Lemma native_starts resolve k argv f1 f2 f3 stdin from_peer amounts polls n :
  native_started resolve k argv f1 f2 f3 n ->
  tcp_native_main resolve k argv f1 f2 f3 stdin from_peer amounts polls =
  caught (Some (EXIT_FAILURE, None))
    (let* (x, s) := bidirectional_stream_copy polls
       (copy_start (StreamCopy.open_fd 0) (StreamCopy.open_fd 1) (StreamCopy.open_fd n) stdin from_peer amounts) in
     Ok (if fst (x : bool * list copy_rule) then Some (EXIT_SUCCESS, Some s) else None)).
Proof.
  intros H. apply (native_started_exact _ _ _ _ _ _ stdin from_peer amounts) in H as (server & Ea & Es & s & Ec).
  unfold tcp_native_main. rewrite Ea, Es. cbn [rbind]. rewrite Ec. cbn [rbind]. by apply copy_prepared_eq in Ec as ->.
Qed.

(** C33: The native program.  Whatever its arguments and whatever the kernel answers
    to the calls that make the connection and prepare the descriptors, the program
    fails when it cannot start: the arguments are not those of its usage, the name
    does not resolve, a socket call fails or a descriptor cannot be made
    non-blocking.  When it starts, and while [poll] is honest and no signal
    interrupts it, it copies until it returns success, with all of the standard
    input sent to the peer and all that the peer sent on the standard output, or
    until the kernel refuses a read, a write, the shutdown or the close of a
    callback that it calls: then it fails, and what was copied so far are
    prefixes. *)
Theorem native_program resolve k argv f1 f2 f3 stdin from_peer amounts polls :
  let s0 n := copy_start (StreamCopy.open_fd 0) (StreamCopy.open_fd 1) (StreamCopy.open_fd n) stdin from_peer amounts in
  let main := tcp_native_main resolve k argv f1 f2 f3 stdin from_peer amounts polls in
  (forall host port, resolve host port <> Err undefined_behaviour) ->
  (forall n, polls_honest stdin from_peer polls all_rules (s0 n)) ->
  (forall poll s p, poll ∈ polls -> poll s p <> PollFailed true) ->
  ((forall n, ~ native_started resolve k argv f1 f2 f3 n) -> main = Ok (Some (1, None))) /\
  (forall n, native_started resolve k argv f1 f2 f3 n ->
     match main with
     | Ok None => True
     | Ok (Some (code, Some s)) => code = 0 /\ k_to_peer s = stdin /\ k_stdout s = from_peer /\
         cs_outbound_shutdown s = true /\ fd_closed (cs_output s) = true
     | Ok (Some (code, None)) => code = 1 /\
         copy_throws (copied_prefix stdin from_peer) polls all_rules (s0 n) runtime_error
     | Err _ => False
     end).
Proof.
  intros s0 main Hres Hp Hint. split; [by apply native_not_started|]. intros n Hn. unfold main.
  rewrite (native_starts _ _ _ _ _ _ _ _ _ _ _ Hn). fold (s0 n).
  pose proof (copy_loop_spec stdin from_peer polls all_rules (s0 n) (copy_start_inv _ _ _ _ _ _) (accounted_all _ _ _) (Hp n)) as H.
  unfold bidirectional_stream_copy. destruct (copy_loop polls all_rules (s0 n)) as [[[[] rules] s]|e]; cbn [rbind caught fst].
  - destruct H as [_ H]. split; [done|]. by apply H.
  - done.
  - pose proof (copy_throws_runtime _ _ _ _ _ H) as ->. split; [done|]. eapply copy_throws_impl; [|exact H]. apply copy_inv_prefix.
Qed.

Definition good_fcntl : fcntl_answers := mkFcntl (Some 0) (fun _ => true).
Definition good_kernel : native_kernel :=
  mkNativeKernel (3, 0) true (fun _ => true) (fun _ => true) (4, 0)
    (Some (AF_INET, sizeof_int), Some (SOCK_STREAM, sizeof_int)) (fun _ => true).

Lemma good_started : native_started (fun _ _ => Ok (Address_numeric 0 80)) good_kernel ["tcp_native"; "-l"; "0"; "80"]
  good_fcntl good_fcntl good_fcntl 4.
Proof.
  exists true, "0", "80", (Address_numeric 0 80). split; [constructor|]. split; [done|].
  split; [by repeat split|]. split_and!; by exists 0.
Qed.

(** The server copies everything; a client without a port fails; and so does the
    server whose second transfer, to the peer, the kernel refuses. *)
Lemma native_program_witness :
  (exists s, tcp_native_main (fun _ _ => Ok (Address_numeric 0 80)) good_kernel ["tcp_native"; "-l"; "0"; "80"]
    good_fcntl good_fcntl good_fcntl [x61; x62] [x63] [] (repeat all_ready 4) = Ok (Some (0, Some s)) /\
    k_to_peer s = [x61; x62] /\ k_stdout s = [x63]) /\
  tcp_native_main (fun _ _ => Ok (Address_numeric 0 80)) good_kernel ["tcp_native"; "0"]
    good_fcntl good_fcntl good_fcntl [x61; x62] [x63] [] (repeat all_ready 4) = Ok (Some (1, None)) /\
  copy_throws (copied_prefix [x61; x62] [x63]) (repeat all_ready 4) all_rules
    (copy_start (StreamCopy.open_fd 0) (StreamCopy.open_fd 1) (StreamCopy.open_fd 4) [x61; x62] [x63] [2; -1]) runtime_error.
Proof.
  assert (Hint : forall poll s p, poll ∈ repeat all_ready 4 -> poll s p <> PollFailed true).
  { intros poll s' p Hp. apply list_elem_of_In, repeat_spec in Hp as ->. discriminate. }
  split; [|split].
  - destruct (native_program (fun _ _ => Ok (Address_numeric 0 80)) good_kernel ["tcp_native"; "-l"; "0"; "80"]
      good_fcntl good_fcntl good_fcntl [x61; x62] [x63] [] (repeat all_ready 4)) as [_ H];
      [discriminate|intros n; apply all_ready_polls|exact Hint|].
    specialize (H 4 good_started).
    destruct (tcp_native_main _ _ _ _ _ _ _ _ _ _) as [[[code [s|]]|]|] eqn:E;
      [|vm_compute in E; discriminate|vm_compute in E; discriminate|vm_compute in E; discriminate].
    destruct H as (-> & H1 & H2 & _). exists s. split; [reflexivity|]. split; [exact H1|exact H2].
  - apply (native_program (fun _ _ => Ok (Address_numeric 0 80)) good_kernel ["tcp_native"; "0"]
      good_fcntl good_fcntl good_fcntl [x61; x62] [x63] [] (repeat all_ready 4));
      [discriminate|intros n; apply all_ready_polls|exact Hint|].
    intros n (server & host & port & a & Hu & _). inversion Hu.
  - destruct (native_program (fun _ _ => Ok (Address_numeric 0 80)) good_kernel ["tcp_native"; "-l"; "0"; "80"]
      good_fcntl good_fcntl good_fcntl [x61; x62] [x63] [2; -1] (repeat all_ready 4)) as [_ H];
      [discriminate|intros n; apply all_ready_polls|exact Hint|].
    specialize (H 4 good_started).
    destruct (tcp_native_main _ _ _ _ _ _ _ _ _ _) as [[[code [s|]]|]|] eqn:E;
      [vm_compute in E; discriminate| |vm_compute in E; discriminate|vm_compute in E; discriminate].
    exact (proj2 H).
Defined.

(** ** The sockets of the TCP programs *)

(** The kernel makes a pair of stream sockets and lets one be made non-blocking. *)
Record pair_good (p : pair_answers) : Prop := {
  pg_return : 0 <= pa_return p;
  pg_fds : 0 <= (pa_fds p).1 /\ 0 <= (pa_fds p).2;
  pg_domain : pa_domain p = Some (AF_UNIX, sizeof_int);
  pg_type : pa_type p = Some (SOCK_STREAM, sizeof_int);
  pg_getfl : exists flags, fc_getfl (pa_fcntl p) = Some flags;
  pg_setfl : forall flags, fc_setfl (pa_fcntl p) flags = true }.

(** A socket as its constructor makes it. *)
Definition made_socket {A I O} (p : pair_answers) (n : Z) (a : A) (from_owner : bytes) (device : list I) (amounts : list Z)
    : TCPSpongeSocket (A := A) (I := I) (O := O) :=
  mkTCPSpongeSocket (mkSponge (StreamCopy.open_fd (pa_fds p).1) (StreamCopy.open_fd (pa_fds p).2) (StreamCopy.open_fd n) a None
    false false false from_owner [] false device [] amounts) [] false.

Lemma of_adapter_made {A I O} {FA : FdAdapter A I O} p n (a : A) from_owner (device : list I) amounts : pair_good p ->
  TCPSpongeSocket_of_adapter (O := O) p (StreamCopy.open_fd n) a from_owner device amounts =
    Ok (made_socket p n a from_owner device amounts).
Proof.
  intros [H1 [H2 H2'] H3 H4 (flags & H5) H6]. unfold TCPSpongeSocket_of_adapter, socket_pair_helper.
  rewrite SystemCall_nonneg, !new_FDWrapper_ok by done. cbn [rbind]. unfold new_TCPSpongeSocket. rewrite H3, H4, H5.
  cbn [set_blocking]. by rewrite H6.
Qed.

Lemma made_fresh {A I O} {FA : FdAdapter A I O} {FS : FdAdapterSafe A I O} cfg D t base p n (a : A) (device : list I) amounts :
  Forall adapter_input_ok device -> zlen D + 4 * W32 < W64 -> cfg_recv_capacity cfg * (zlen device + 1) + 4 * W32 < W64 ->
  adapter_ok t (adapter_set_base a base) -> fresh cfg D t base (made_socket (O := O) p n a D device amounts).
Proof. intros H1 H2 H3 H4. by constructor. Qed.

(** Opening throws in a round of its loop that it reaches. *)
Definition start_throws {A I O} {FA : FdAdapter A I O} {FS : FdAdapterSafe A I O} (cfg : TCPConfig)
    (so : TCPSpongeSocket (A := A) (I := I) (O := O)) (c_ad : FdAdapterConfig) (listen : bool) (t : Z)
    (rounds : list round) (e : failure) : Prop :=
  loop_throws (if listen then opening else in_state SYN_SENT) t rounds sponge_rules (start_state cfg so c_ad listen) e.

Lemma start_session_ok {A I O} {FA : FdAdapter A I O} {FS : FdAdapterSafe A I O} cfg D so c_ad t (listen : bool) rounds :
  TCPConnection.cfg_ok cfg -> 0 <= t ->
  fresh cfg D t (mkFdAdapterBase c_ad (if listen then true else fa_listen (adapter_base (ss_adapter (so_state so))))) so ->
  rounds_honest cfg D t rounds sponge_rules (start_state cfg so c_ad listen) ->
  match start_session listen so cfg c_ad t rounds with
  | Ok (over, t', so') => exists c, session cfg D t' so' c /\ so_joinable so' = over
  | Err e => start_throws cfg so c_ad listen t rounds e
  end.
Proof.
  intros Hcfg Ht Hf Hh. unfold start_session, start_throws. destruct listen; [by apply listen_ok|].
  pose proof (connect_ok cfg D so c_ad t rounds Hcfg Ht Hf Hh) as H.
  destruct (connect so cfg c_ad t rounds) as [[[over t'] so']|]; [|done]. destruct H as (c & H1 & H2 & _). by exists c.
Qed.

Lemma loop_throws_runtime {A I O} {FA : FdAdapter A I O} {FS : FdAdapterSafe A I O} condition t rounds rules s e :
  loop_throws (A := A) (I := I) (O := O) condition t rounds rules s e -> e = runtime_error.
Proof. by intros (? & ? & ? & ? & ? & _ & _ & [(? & ? & _ & _ & -> & _)|(? & ? & ? & _ & _ & -> & _)]). Qed.

(** What a program makes of its session: it has one, or it fails because a round of
    the loop that opens it throws. *)
Definition opened {A I O} {FA : FdAdapter A I O} {FS : FdAdapterSafe A I O} (cfg : TCPConfig) (D : bytes)
    (so0 : TCPSpongeSocket (A := A) (I := I) (O := O)) (c_ad : FdAdapterConfig) (listen : bool) (t0 : Z) (rounds : list round)
    (r : result (configured (bool * Z * TCPSpongeSocket (A := A) (I := I) (O := O)))) : Prop :=
  match r with
  | Ok (inr (over, t, so)) => exists c, session cfg D t so c /\ so_joinable so = over
  | Ok (inl code) => code = EXIT_FAILURE /\ start_throws cfg so0 c_ad listen t0 rounds runtime_error
  | Err _ => False
  end.

Lemma session_opened {A I O} {FA : FdAdapter A I O} {FS : FdAdapterSafe A I O} cfg D p n (a : A) (device : list I) amounts
    c_ad t (listen : bool) rounds :
  pair_good p -> TCPConnection.cfg_ok cfg -> 0 <= t -> Forall adapter_input_ok device -> zlen D + 4 * W32 < W64 ->
  cfg_recv_capacity cfg * (zlen device + 1) + 4 * W32 < W64 ->
  adapter_ok t (adapter_set_base a (mkFdAdapterBase c_ad (if listen then true else fa_listen (adapter_base a)))) ->
  rounds_honest cfg D t rounds sponge_rules (start_state cfg (made_socket (O := O) p n a D device amounts) c_ad listen) ->
  opened cfg D (made_socket (O := O) p n a D device amounts) c_ad listen t rounds (caught (inl EXIT_FAILURE)
    (let* so := TCPSpongeSocket_of_adapter (O := O) p (StreamCopy.open_fd n) a D device amounts in
     let* x := start_session listen so cfg c_ad t rounds in Ok (inr x))).
Proof.
  intros Hp Hcfg Ht Hdev HD Hcap Ha Hh. rewrite of_adapter_made by done. cbn [rbind].
  pose proof (start_session_ok cfg D (made_socket p n a D device amounts) c_ad t listen rounds Hcfg Ht
    ltac:(apply made_fresh; [exact Hdev|exact HD|exact Hcap|by destruct listen]) Hh) as H.
  destruct (start_session listen _ cfg c_ad t rounds) as [[[over t'] so]|e]; cbn [rbind caught opened]; [exact H|].
  pose proof (loop_throws_runtime _ _ _ _ _ _ H) as ->. done.
Qed.

Section Opening.
Context (strtol : string -> Z) (lossrate : string -> Z) (resolve : string -> string -> result Address).
Context (random_port : string) (isn : WrappingInt32) {R : Type} (rand : R -> Z * R) (seed : R).
Context (bind_ok : Address -> bool) (ioctl_ok : ifreq -> bool) (p : pair_answers).

(** The configuration that options [o] ask for, with the address of the name. *)
Definition udp_config (o : options) (a : Address) : FdAdapterConfig :=
  if op_listen o then c_filt o a (Address_numeric 0 0) else c_filt o (Address_numeric 0 0) a.

Lemma udp_configured l o host port a :
  accepts (tcp_udp_table strtol lossrate) l (initial_options random_port "" "" "") o ->
  resolve (if op_listen o then "0" else host) port = Ok a ->
  with_arguments (tcp_udp_get_config strtol lossrate resolve random_port isn) (l ++ [host; port]) =
    Ok (inr (c_fsm isn o, udp_config o a, op_listen o)).
Proof.
  intros Ha Hres. unfold with_arguments.
  destruct (Nat.ltb_spec (length (l ++ [host; port])) 2) as [Hl|_]; [rewrite length_app in Hl; cbn in Hl; lia|].
  unfold tcp_udp_get_config, udp_config. rewrite (parse_options_accepts _ _ _ _ Ha).
  destruct (op_listen o); by rewrite Hres.
Qed.

Lemma udp_config_ok o ip n l : 0 <= ip < W32 -> 0 <= n < W16 ->
  base_ok (mkFdAdapterBase (udp_config o (Address_numeric ip n)) l).
Proof.
  intros Hip Hn. unfold udp_config. destruct (op_listen o); [exists ip, n, 0, 0|exists 0, 0, ip, n]; by constructor.
Qed.

(** The program over UDP opens what it was asked for.  With any options of its
    table, a host and a port, when the name resolves and the kernel gives it its
    sockets, the program starts a session with exactly the configuration that
    the options describe, listening or connecting; whatever the network does
    meanwhile, it fails only because a round of its loop throws. *)
Theorem tcp_udp_opens l o host port ip n fd D device amounts t rounds :
  accepts (tcp_udp_table strtol lossrate) l (initial_options random_port "" "" "") o ->
  resolve (if op_listen o then "0" else host) port = Ok (Address_numeric ip n) -> 0 <= ip < W32 -> 0 <= n < W16 ->
  0 <= fd -> (op_listen o = true -> bind_ok (Address_numeric ip n) = true) -> pair_good p ->
  TCPConnection.cfg_ok (c_fsm isn o) -> 0 <= t ->
  Forall udp_input_ok device -> zlen D + 4 * W32 < W64 -> op_recv_capacity o * (zlen device + 1) + 4 * W32 < W64 ->
  rounds_honest (FA := LossyAdapter rand) (c_fsm isn o) D t rounds sponge_rules
    (start_state (FA := LossyAdapter rand) (c_fsm isn o)
       (made_socket p fd (mkLossy seed (mkUDPAdapter new_FdAdapterBase)) D device amounts)
       (udp_config o (Address_numeric ip n)) (op_listen o)) ->
  opened (FA := LossyAdapter rand) (c_fsm isn o) D
    (made_socket p fd (mkLossy seed (mkUDPAdapter new_FdAdapterBase)) D device amounts)
    (udp_config o (Address_numeric ip n)) (op_listen o) t rounds
    (tcp_udp_main strtol lossrate resolve random_port isn rand seed (fd, 0) bind_ok p D amounts t (l ++ [host; port])
       device rounds).
Proof.
  intros Ha Hres Hip Hn Hfd Hbind Hp Hcfg Ht Hdev HD Hcap Hh. unfold tcp_udp_main.
  rewrite (udp_configured _ _ _ _ _ Ha Hres). cbn [rbind fst snd]. unfold Socket_new.
  rewrite SystemCall_nonneg by done. cbn [rbind]. rewrite new_FDWrapper_ok by done. cbn [rbind].
  assert (Eb : (if op_listen o then Socket_bind (StreamCopy.open_fd fd) (fc_source (udp_config o (Address_numeric ip n)))
      (bind_ok (fc_source (udp_config o (Address_numeric ip n)))) else Ok (StreamCopy.open_fd fd)) = Ok (StreamCopy.open_fd fd)).
  { unfold udp_config. destruct (op_listen o); [|done]. unfold Socket_bind. cbn [c_filt fc_source]. by rewrite Hbind. }
  rewrite Eb. cbn [rbind]. apply (session_opened (FA := LossyAdapter rand)); try done. by apply udp_config_ok.
Qed.

(** The configuration of the program over IPv4: a server has no peer yet, a client
    has the addresses that its own name and the peer's stand for. *)
Definition ipv4_config (o : options) (mine peer : Address) : FdAdapterConfig :=
  if op_listen o then c_filt o mine (Address_numeric 0 0) else c_filt o mine peer.

Lemma ipv4_configured l o host port mine n peer :
  accepts (tcp_ipv4_table strtol lossrate) l (initial_options random_port "169.254.144.9" "" "tun144") o ->
  resolve (if op_listen o then "0" else op_source_address o) (if op_listen o then port else op_source_port o) = Ok mine ->
  Address_port mine = Ok n -> (op_listen o = true -> n <> 0) -> resolve host port = Ok peer ->
  with_arguments (tcp_ipv4_get_config strtol lossrate resolve random_port isn) (l ++ [host; port]) =
    Ok (inr (c_fsm isn o, ipv4_config o mine peer, op_listen o, op_dev o)).
Proof.
  intros Ha Hmine Hn Hz Hpeer. unfold with_arguments.
  destruct (Nat.ltb_spec (length (l ++ [host; port])) 2) as [Hl|_]; [rewrite length_app in Hl; cbn in Hl; lia|].
  unfold tcp_ipv4_get_config, ipv4_config. rewrite (parse_options_accepts _ _ _ _ Ha).
  destruct (op_listen o).
  - rewrite Hmine. cbn [rbind]. rewrite Hn. cbn [rbind]. destruct (Z.eqb_spec n 0) as [->|_]; [by destruct Hz|done].
  - rewrite Hpeer. cbn [rbind]. by rewrite Hmine.
Qed.

(** The program over IPv4, in the same way: the device is opened by the name of
    the options, and a server refuses port zero. *)
Theorem tcp_ipv4_opens l o host port ip n pip pn fd D device amounts t rounds :
  accepts (tcp_ipv4_table strtol lossrate) l (initial_options random_port "169.254.144.9" "" "tun144") o ->
  resolve (if op_listen o then "0" else op_source_address o) (if op_listen o then port else op_source_port o) =
    Ok (Address_numeric ip n) -> 0 <= ip < W32 -> 0 <= n < W16 -> (op_listen o = true -> n <> 0) ->
  resolve host port = Ok (Address_numeric pip pn) -> 0 <= pip < W32 -> 0 <= pn < W16 ->
  0 <= fd -> ioctl_ok (tun_request (text_of (op_dev o)) true) = true -> pair_good p ->
  TCPConnection.cfg_ok (c_fsm isn o) -> 0 <= t ->
  Forall (fun i => zlen i <= BUFFER_SIZE) device -> zlen D + 4 * W32 < W64 ->
  op_recv_capacity o * (zlen device + 1) + 4 * W32 < W64 ->
  rounds_honest (FA := LossyAdapter rand) (c_fsm isn o) D t rounds sponge_rules
    (start_state (FA := LossyAdapter rand) (c_fsm isn o)
       (made_socket p fd (mkLossy seed (mkTunAdapter new_FdAdapterBase)) D device amounts)
       (ipv4_config o (Address_numeric ip n) (Address_numeric pip pn)) (op_listen o)) ->
  opened (FA := LossyAdapter rand) (c_fsm isn o) D
    (made_socket p fd (mkLossy seed (mkTunAdapter new_FdAdapterBase)) D device amounts)
    (ipv4_config o (Address_numeric ip n) (Address_numeric pip pn)) (op_listen o) t rounds
    (tcp_ipv4_main strtol lossrate resolve random_port isn rand seed (fd, 0) ioctl_ok p D amounts t (l ++ [host; port])
       device rounds).
Proof.
  intros Ha Hmine Hip Hn Hz Hpeer Hpip Hpn Hfd Hioctl Hp Hcfg Ht Hdev HD Hcap Hh. unfold tcp_ipv4_main.
  rewrite (ipv4_configured _ _ _ _ _ _ _ Ha Hmine (Address_port_numeric ip n Hn) Hz Hpeer). cbn [rbind fst snd].
  unfold TunTapFD_new. rewrite SystemCall_nonneg by done. cbn [rbind]. rewrite new_FDWrapper_ok by done. cbn [rbind].
  rewrite Hioctl. cbn [rbind syscall_ok]. apply (session_opened (FA := LossyAdapter rand)); try done.
  cbn. unfold ipv4_config, base_ok. cbn [fa_cfg]. destruct (op_listen o); [exists ip, n, 0, 0|exists ip, n, pip, pn]; by constructor.
Qed.
End Opening.

(** A client of the peer that accepts at once. *)
Definition good_pair : pair_answers :=
  mkPairAnswers 0 0 (6, 7) (Some (AF_UNIX, sizeof_int)) (Some (SOCK_STREAM, sizeof_int)) good_fcntl.

Lemma good_pair_good : pair_good good_pair.
Proof. constructor; try done; [by eexists]. Qed.

Lemma tcp_udp_opens_witness :
  opened (FA := LossyAdapter (fun n : Z => (n, n + 1))) (c_fsm (mkW32 0) (initial_options "7" "" "" "")) [x61]
    (made_socket good_pair 5 (mkLossy 0 (mkUDPAdapter new_FdAdapterBase)) [x61] [from_peer (peer_segment true false false 1000 1 [])] [])
    (udp_config (initial_options "7" "" "" "") (Address_numeric 16909060 9)) false 0 (eager_rounds [10; 20])
    (tcp_udp_main (fun _ => 5) (fun _ => 0) (fun _ _ => Ok peer_address) "7" (mkW32 0) (fun n : Z => (n, n + 1)) 0 (5, 0)
       (fun _ => true) good_pair [x61] [] 0 ["host"; "9"] [from_peer (peer_segment true false false 1000 1 [])]
       (eager_rounds [10; 20])).
Proof.
  apply (tcp_udp_opens (fun _ => 5) (fun _ => 0) (fun _ _ => Ok peer_address) "7" (mkW32 0) (fun n : Z => (n, n + 1)) 0
    (fun _ => true) good_pair [] (initial_options "7" "" "" "") "host" "9" 16909060 9 5 [x61]
    [from_peer (peer_segment true false false 1000 1 [])] [] 0 (eager_rounds [10; 20])).
  - apply accepts_nil.
  - reflexivity.
  - lia.
  - lia.
  - lia.
  - discriminate.
  - exact good_pair_good.
  - split; [split; reflexivity || discriminate|]. split; [split; reflexivity || discriminate|split; reflexivity || discriminate].
  - lia.
  - repeat constructor; [|vm_compute; discriminate]. exists 16909060, 9. split; [reflexivity|]. lia.
  - reflexivity.
  - reflexivity.
  - apply (eager_rounds_honest (FA := LossyAdapter (fun n : Z => (n, n + 1)))); [vm_compute; repeat split; congruence|reflexivity].
Defined.


Definition run_copy : copy_state :=
  copy_start (StreamCopy.open_fd 0) (StreamCopy.open_fd 1) (StreamCopy.open_fd 3) [x61; x62] [x63; x64] [].

Lemma run_copied : exists rules s, bidirectional_stream_copy (repeat all_ready 4) run_copy = Ok (true, rules, s).
Proof. do 2 eexists. vm_compute. reflexivity. Qed.

Lemma run_thread : exists so', tcp_main connected_socket 10 (udp_rounds [30; 40; 50; 60; 70; 20000; 20010]) = Ok (true, so') /\
  k_to_owner (so_state so') = [x63; x64].
Proof. eexists. split; [vm_compute; reflexivity|reflexivity]. Qed.


(** ** webget and the clock *)

(** [webget] succeeds exactly when it has two arguments and the page was fetched;
    it prints nothing but the page. *)
Theorem webget_status argv get_URL :
  (forall host path, get_URL host path <> Some (Err undefined_behaviour)) ->
  match webget_main argv get_URL with
  | Ok (returns code) => (code = EXIT_SUCCESS <-> exists prog host path x, argv = [prog; host; path] /\
      get_URL (text_of host) (text_of path) = Some (Ok x)) /\ (code = EXIT_SUCCESS \/ code = EXIT_FAILURE)
  | Ok aborted => argv = []
  | Ok running_on => exists prog host path, argv = [prog; host; path] /\ get_URL (text_of host) (text_of path) = None
  | Err _ => False
  end.
Proof.
  intros Hd. unfold webget_main. destruct argv as [|prog [|host [|path [|more argv]]]]; try done;
    try (split; [split; [done|intros (? & ? & ? & ? & [=] & _)]|by right]).
  destruct (get_URL (text_of host) (text_of path)) as [[x|e]|] eqn:E; cbn [rbind caught].
  - split; [|by left]. split; [|done]. by exists prog, host, path, x.
  - assert (Hu : e <> undefined_behaviour) by (intros ->; by destruct (Hd (text_of host) (text_of path))).
    destruct e; try done; (split; [split; [done|]|by right]);
      intros (? & ? & ? & ? & [= <- <- <-] & E'); congruence.
  - by exists prog, host, path.
Qed.

(** Successive calls of the clock. *)
Fixpoint timestamps (program_start : option Z) (readings : list (Z * Z)) : list Z :=
  match readings with
  | [] => []
  | (first, now) :: readings =>
      let (program_start, t) := timestamp_ms program_start first now in t :: timestamps program_start readings
  end.

(** The readings of a steady clock never decrease. *)
Fixpoint steady (t : Z) (readings : list (Z * Z)) : Prop :=
  match readings with
  | [] => True
  | (first, now) :: readings => t <= first <= now /\ now < W64 /\ steady now readings
  end.

Lemma timestamps_from start readings : forall t, 0 <= start <= t -> steady t readings ->
  timestamps (Some start) readings = map (fun r => (r.2 - start) / 1000000) readings /\
  StronglySorted Z.le (((t - start) / 1000000) :: timestamps (Some start) readings).
Proof.
  induction readings as [|[first now] readings IH]; intros t Ht Hs; [split; [done|by repeat constructor]|].
  destruct Hs as (H1 & H2 & Hs). destruct (IH now ltac:(lia) Hs) as [E S]. cbn [timestamps timestamp_ms map snd].
  rewrite Z.quot_div_nonneg by lia.
  assert (Hq : 0 <= (now - start) / 1000000 < W64) by (split; [apply Z.div_pos; lia|apply Z.div_lt_upper_bound; lia]).
  rewrite u64_id by done. split; [by rewrite E|]. constructor; [done|].
  assert (Hle : (t - start) / 1000000 <= (now - start) / 1000000) by (apply Z.div_le_mono; lia).
  inversion S as [|x l S1 S2]; subst. constructor; [done|]. eapply Forall_impl; [exact S2|]. cbn. lia.
Qed.

(** The clock: with the readings of a steady clock the time stamps are the whole
    milliseconds since the first call, and they never decrease, so that the
    differences the event loops compute are not negative. *)
Theorem timestamps_monotone t first now readings :
  0 <= t -> steady t ((first, now) :: readings) ->
  timestamps None ((first, now) :: readings) = map (fun r => (r.2 - first) / 1000000) ((first, now) :: readings) /\
  StronglySorted Z.le (timestamps None ((first, now) :: readings)).
Proof.
  intros Ht Hs. destruct (timestamps_from first ((first, now) :: readings) first) as [E S].
  - destruct Hs as [[? ?] _]. lia.
  - destruct Hs as ([? ?] & ? & ?). split; [lia|done].
  - change (timestamps None ((first, now) :: readings)) with (timestamps (Some first) ((first, now) :: readings)).
    split; [exact E|]. by inversion S.
Qed.

Lemma timestamps_monotone_witness : timestamps None [(0, 10); (1500000, 1500000); (9999999, 10000000)] = [0; 1; 10].
Proof.
  destruct (timestamps_monotone 0 0 10 [(1500000, 1500000); (9999999, 10000000)]) as [E _].
  - lia.
  - repeat split; lia || reflexivity.
  - exact E.
Defined.

(** The documentation says that the function returns the time since the program
    started; the static variable is initialised by the first call, so it is the
    time since then: a first call after five seconds returns zero. *)
Theorem timestamp_since_first_call : timestamp_ms None 5000000000 5000000000 = (Some 5000000000, 0).
Proof. reflexivity. Qed.
