(* ===== verification/Doctests.v ===== *)
(** * The examples of the documentation

    [doctests/]: the examples for the parser, the addresses and the sockets, as the
    three programs that include them run them.  What the kernel and the resolver
    answer is an argument; an example ends normally, throws, or has not
    returned. *)
From S2P Require Import Prelude Buffer Parser Texts Address Resolver Adapters FileDescriptor Socket Programs Mains.
From Stdlib Require String.
Open Scope string_scope.
Open Scope list_scope.
Open Scope Z_scope.

(** ** The parser *)

Definition val1 : Z := 3735928559.
Definition val2 : Z := 49344.
Definition val3 : Z := 255.
Definition val4 : Z := 201719550.

Definition serialized : bytes := w_u32 (w_u8 (w_u16 (w_u32 [x32] val1) val2) val3) val4.

Definition deserialized (buffer : bytes) : result (Z * Z * Z * Z * Z) :=
  let* (out0, p) := p_u8 (new_NetParser (Buffer_of buffer)) in
  let* (out1, p) := p_u32 p in
  let* (out2, p) := p_u16 p in
  let* (out3, p) := p_u8 p in
  let* (out4, p) := p_u32 p in
  Ok (out0, out1, out2, out3, out4).

Definition parser_example : result unit :=
  let* (x, out4) := deserialized serialized in
  let '(out0, out1, out2, out3) := (x : Z * Z * Z * Z) in
  if negb (out0 =? 50) || negb (out1 =? val1) || negb (out2 =? val2) || negb (out3 =? val3) || negb (out4 =? val4)
  then Err runtime_error else Ok tt.

Definition parser_dt : result Z := caught EXIT_FAILURE (let* _ := parser_example in Ok EXIT_SUCCESS).

(** ** Addresses *)

Section Resolving.
Variables (getaddrinfo : bytes -> bytes -> addrinfo_hints -> Z + list (sockaddr * Z))
  (getnameinfo : Address -> Z + (bytes * bytes)).

Definition google_webserver : result Address := Address_of_names getaddrinfo (str "www.google.com") (str "https").
Definition a_dns_server : result Address := Address_of_ip getaddrinfo (str "18.71.0.151") 53.

Definition address_dt : result Z :=
  caught EXIT_FAILURE
    (let* google_webserver := google_webserver in
     let* a_dns_server := a_dns_server in
     let* a_dns_server_numeric := ipv4_numeric a_dns_server in
     let* (_, port) := ip_port getnameinfo google_webserver in
     if negb (port =? 443) || negb (a_dns_server_numeric =? 306643095) then Err runtime_error else Ok EXIT_SUCCESS).

(** ** Sockets *)

(** The port of an example, from a 32-bit random number. *)
Definition portnum (random : Z) : Z := u16 (u32 (random mod 50000 + 1025)).

Definition loopback_address (random : Z) : result Address := Address_of_ip getaddrinfo (str "127.0.0.1") (portnum random).

Definition max_datagram : Z := 65536.

(** What the kernel answers: the descriptors of the two sockets, whether [bind] and
    [connect] succeed, how much is sent, and what is received. *)
Record datagram_kernel : Type := mkDatagramKernel {
  dk_fds : (Z * Z) * (Z * Z);
  dk_bind : bool;
  dk_sent : option Z * option Z;
  dk_connect : bool;
  dk_received : option (bytes * sockaddr * Z) * option (bytes * sockaddr * Z) }.

Definition socket_example_1 (random : Z) (k : datagram_kernel) : result unit :=
  let* sock1 := Socket_new (dk_fds k).1.1 (dk_fds k).1.2 in
  let* address := loopback_address random in
  let* sock1 := Socket_bind sock1 address (dk_bind k) in
  let* sock2 := Socket_new (dk_fds k).2.1 (dk_fds k).2.2 in
  let* address := loopback_address random in
  let* (sock2, _) := UDPSocket_sendto sock2 address (BufferViewList_of_str (str "hi there")) (dk_sent k).1 in
  let* (sock1, recvd) := UDPSocket_recv_new sock1 max_datagram (dk_received k).1 in
  let* sock1 := Socket_connect sock1 (rd_source_address recvd) (dk_connect k) in
  let* (sock1, _) := UDPSocket_send sock1 (BufferViewList_of_str (str "hi yourself")) (dk_sent k).2 in
  let* (sock2, recvd2) := UDPSocket_recv_new sock2 max_datagram (dk_received k).2 in
  if negb (bool_decide (rd_payload recvd = str "hi there")) || negb (bool_decide (rd_payload recvd2 = str "hi yourself"))
  then Err runtime_error else Ok tt.

(** A call that may not have returned. *)
Definition obind {A B} (m : option (result A)) (f : A -> option (result B)) : option (result B) :=
  match m with
  | None => None
  | Some (Err e) => Some (Err e)
  | Some (Ok a) => f a
  end.
Definition returned {A} (m : result A) : option (result A) := Some m.

(** Two stream sockets that greet each other: the counts that [writev] answers and
    the bytes that [read] hands over. *)
Record stream_answers : Type := mkStreamAnswers {
  st_writes : list (option Z) * list (option Z);
  st_reads : option bytes * option bytes }.

(** [a] writes the greeting, [b] reads it, answers, and [a] reads the answer. *)
Definition greet (a b : FDWrapper) (k : stream_answers) : option (result (FDWrapper * FDWrapper * bytes * bytes)) :=
  obind (fd_write a (BufferViewList_of_str (str "hi there")) true 0 (st_writes k).1) (fun '(a, _) =>
  obind (returned (fd_read b (W64 - 1) (st_reads k).1)) (fun '(b, recvd) =>
  obind (fd_write b (BufferViewList_of_str (str "hi yourself")) true 0 (st_writes k).2) (fun '(b, _) =>
  obind (returned (fd_read a (W64 - 1) (st_reads k).2)) (fun '(a, recvd2) =>
  Some (Ok (a, b, recvd, recvd2)))))).

Definition compare_greetings (recvd recvd2 : bytes) : result unit :=
  if negb (bool_decide (recvd = str "hi there")) || negb (bool_decide (recvd2 = str "hi yourself"))
  then Err runtime_error else Ok tt.

Record listen_kernel : Type := mkListenKernel {
  lk_fds : (Z * Z) * (Z * Z) * (Z * Z);
  lk_bind : bool;
  lk_listen : bool;
  lk_connect : bool;
  lk_options : option (Z * Z) * option (Z * Z);
  lk_shutdown : bool;
  lk_close : bool * bool;
  lk_stream : stream_answers }.

(** [close] of a descriptor: the call of the kernel, then the flags. *)
Definition closing (w : FDWrapper) (ok : bool) : result FDWrapper := let* _ := syscall_ok ok in Ok (fd_close w).

Definition socket_example_2 (random : Z) (k : listen_kernel) : option (result unit) :=
  obind (returned
    (let* sock1 := Socket_new (lk_fds k).1.1.1 (lk_fds k).1.1.2 in
     let* address := loopback_address random in
     let* sock1 := Socket_bind sock1 address (lk_bind k) in
     let* sock1 := TCPSocket_listen sock1 1 (lk_listen k) in
     let* sock2 := Socket_new (lk_fds k).1.2.1 (lk_fds k).1.2.2 in
     let* address := loopback_address random in
     let* sock2 := Socket_connect sock2 address (lk_connect k) in
     let (sock1, accepted) := TCPSocket_accept sock1 (lk_fds k).2.1 (lk_fds k).2.2 (lk_options k).1 (lk_options k).2 in
     let* sock3 := accepted in
     Ok (sock1, sock2, sock3))) (fun '(sock1, sock2, sock3) =>
  obind (greet sock3 sock2 (lk_stream k)) (fun '(sock3, sock2, recvd, recvd2) =>
  returned
    (let* sock1 := closing sock1 (lk_close k).1 in
     let* sock2 := closing sock2 (lk_close k).2 in
     let* sock3 := Socket_shutdown sock3 SHUT_RDWR (lk_shutdown k) in
     compare_greetings recvd recvd2))).

Definition socket_example_3 (p : pair_answers) (k : stream_answers) : option (result unit) :=
  obind (returned
    (let* (first, second) := socket_pair_helper SOCK_STREAM p in
     let* pipe1 := LocalStreamSocket_of_fd first (pa_domain p) (pa_type p) in
     let* pipe2 := LocalStreamSocket_of_fd second (pa_domain p) (pa_type p) in
     Ok (pipe1, pipe2))) (fun '(pipe1, pipe2) =>
  obind (greet pipe1 pipe2 k) (fun '(_, _, recvd, recvd2) => returned (compare_greetings recvd recvd2))).

Definition socket_dt (random1 random2 : Z) (k1 : datagram_kernel) (k2 : listen_kernel) (p : pair_answers)
    (k3 : stream_answers) : option (result Z) :=
  match obind (returned (socket_example_1 random1 k1)) (fun _ =>
        obind (socket_example_2 random2 k2) (fun _ => socket_example_3 p k3)) with
  | None => None
  | Some r => Some (caught EXIT_FAILURE (let* _ := r in Ok EXIT_SUCCESS))
  end.
End Resolving.

(** ** The examples run *)

(** The example of the parser gets back what it wrote. *)
Theorem parser_example_passes :
  parser_dt = Ok EXIT_SUCCESS /\ deserialized serialized = Ok (50, val1, val2, val3, val4).
Proof. split; reflexivity. Qed.

(** The example of the addresses succeeds exactly when the name of the web server
    resolves to an address with the right port: the numeric part never fails. *)
Theorem address_example_exact getaddrinfo getnameinfo g port :
  numeric_resolution getaddrinfo getnameinfo -> google_webserver getaddrinfo = Ok g ->
  (exists ip, ip_port getnameinfo g = Ok (ip, port)) ->
  address_dt getaddrinfo getnameinfo = Ok (if port =? 443 then EXIT_SUCCESS else EXIT_FAILURE).
Proof.
  intros [_ Hn] Hg (ip & Hp). unfold address_dt. rewrite Hg. cbn [rbind]. unfold a_dns_server, Address_of_ip, Address_resolved.
  destruct (Hn 306643095 53 ltac:(lia) ltac:(lia)) as (more & E).
  change (inet_ntoa 306643095) with (str "18.71.0.151") in E. rewrite E. cbn [rbind Address_of_sockaddr].
  change (Address_of_sockaddr (ad_address (Address_numeric 306643095 53)) 16) with (Ok (Address_numeric 306643095 53)).
  cbn [rbind]. rewrite ipv4_numeric_numeric by lia. cbn [rbind]. rewrite Hp. cbn [rbind]. rewrite orb_false_r.
  by destruct (port =? 443).
Qed.

(** The ports of the examples are never privileged ones. *)
Lemma portnum_range random : 0 <= random -> 1025 <= portnum random <= 51024.
Proof.
  intros H. unfold portnum. pose proof (Z.mod_pos_bound random 50000 ltac:(lia)).
  rewrite u32_id, u16_id by lia. lia.
Qed.

Lemma greet_spec a b k n1 n2 r1 r2 :
  progressing 8 (st_writes k).1 -> progressing 11 (st_writes k).2 ->
  zlen (st_writes k).1 = n1 -> zlen (st_writes k).2 = n2 -> 8 <= n1 -> 11 <= n2 ->
  st_reads k = (Some r1, Some r2) -> zlen r1 <= BUFFER_SIZE -> zlen r2 <= BUFFER_SIZE ->
  exists a' b', greet a b k = Some (Ok (a', b', r1, r2)) /\ fd_num a' = fd_num a /\ fd_num b' = fd_num b.
Proof.
  intros Hw1 Hw2 H1 H2 Hn1 Hn2 Hr Hl1 Hl2. unfold greet. rewrite Hr. cbn [fst snd]. unfold BUFFER_SIZE in *.
  destruct (fd_write_all (st_writes k).1 a (BufferViewList_of_str (str "hi there")) 0) as (a1 & -> & Ha1);
    [lia|reflexivity|exact Hw1|by change (8 <= zlen (st_writes k).1); rewrite H1|lia|]. cbn [obind].
  rewrite fd_read_ok by (unfold BUFFER_SIZE in *; lia). cbn [obind returned snd fst].
  match goal with |- context [fd_write ?w (BufferViewList_of_str (str "hi yourself"))] =>
    destruct (fd_write_all (st_writes k).2 w (BufferViewList_of_str (str "hi yourself")) 0) as (b1 & -> & Hb1);
    [lia|reflexivity|exact Hw2|by change (11 <= zlen (st_writes k).2); rewrite H2|lia|] end. cbn [obind].
  rewrite fd_read_ok by (unfold BUFFER_SIZE in *; lia). cbn [obind returned snd fst]. eexists _, _. split; [reflexivity|].
  destruct Ha1 as [Ha1 _], Hb1 as [Hb1 _]. cbn in Hb1 |- *. split; [by destruct (zlen r2 =? 0)|].
  rewrite Hb1. by destruct (zlen r1 =? 0).
Qed.

(** The kernel's side of a stream that works: it takes the bytes in pieces of any
    size, and hands [r1] and [r2] over. *)
Definition stream_works (k : stream_answers) (r1 r2 : bytes) : Prop :=
  progressing 8 (st_writes k).1 /\ progressing 11 (st_writes k).2 /\
  8 <= zlen (st_writes k).1 /\ 11 <= zlen (st_writes k).2 /\
  st_reads k = (Some r1, Some r2) /\ zlen r1 <= BUFFER_SIZE /\ zlen r2 <= BUFFER_SIZE.

Lemma compare_greetings_exact r1 r2 : compare_greetings r1 r2 = Ok tt <-> r1 = str "hi there" /\ r2 = str "hi yourself".
Proof. unfold compare_greetings. do 2 case_bool_decide; cbn; naive_solver. Qed.

(** The pair of local sockets: with any kernel that makes the pair and moves the
    bytes in pieces of any size, the example ends, and normally exactly when both
    greetings arrived unchanged. *)
Theorem socket_example_exact p k r1 r2 :
  pair_good p -> stream_works k r1 r2 ->
  exists r, socket_example_3 p k = Some r /\ (r = Ok tt <-> r1 = str "hi there" /\ r2 = str "hi yourself").
Proof.
  intros [H1 [H2 H2'] H3 H4 _ _] (W1 & W2 & L1 & L2 & Hr & B1 & B2). unfold socket_example_3, socket_pair_helper.
  rewrite SystemCall_nonneg, !new_FDWrapper_ok by done. cbn [rbind]. rewrite H3, H4.
  unfold LocalStreamSocket_of_fd, Socket_of_fd. cbn [check_option Z.eqb negb orb sizeof_int AF_UNIX SOCK_STREAM Pos.eqb]. cbn [rbind obind returned].
  match goal with |- context [greet ?a ?b k] => destruct (greet_spec a b k _ _ r1 r2 W1 W2 eq_refl eq_refl L1 L2 Hr B1 B2) as (a' & b' & -> & _) end.
  cbn [obind returned]. eexists. split; [reflexivity|]. apply compare_greetings_exact.
Qed.

Definition small_answers : stream_answers :=
  mkStreamAnswers (repeat (Some 1) 8, repeat (Some 1) 11) (Some (str "hi there"), Some (str "hi yourself")).

Lemma small_answers_work : stream_works small_answers (str "hi there") (str "hi yourself").
Proof. split_and!; try (vm_compute; congruence); apply progressing_ones; vm_compute; congruence. Qed.

Lemma socket_example_exact_witness : socket_example_3 good_pair small_answers = Some (Ok tt).
Proof.
  destruct (socket_example_exact good_pair small_answers (str "hi there") (str "hi yourself")) as (r & E & H).
  - exact good_pair_good.
  - exact small_answers_work.
  - rewrite E. f_equal. apply H. split; reflexivity.
Defined.

(** With a kernel and a resolver that work, the program of all three examples
    succeeds. *)
Theorem socket_dt_passes :
  socket_dt numeric_getaddrinfo 7 123456789
    (mkDatagramKernel ((3, 0), (4, 0)) true (Some 8, Some 11) true
       (Some (str "hi there", sockaddr_in 2130706433, 16), Some (str "hi yourself", sockaddr_in 2130706433, 16)))
    (mkListenKernel ((3, 0), (4, 0), (5, 0)) true true true (Some (AF_INET, 4), Some (SOCK_STREAM, 4)) true (true, true)
       small_answers) good_pair small_answers = Some (Ok EXIT_SUCCESS).
Proof. vm_compute. reflexivity. Qed.
