(* ===== verification/Lab7.v ===== *)
(** * The router between a socket and a tunnel

    [apps/lab7.cc]: a TCP socket on an Ethernet link, a router, and a UDP socket
    that carries frames to the router at the other side.  The router runs in a
    thread of its own, whose event loop is modelled here: its four rules, the ticks
    and the set-up of the two sides.  The socket pair and the UDP socket are the
    datagrams that wait in them and those that were written.  The adapter of the
    socket has the code of the adapter over a TAP device. *)
From S2P Require Import Prelude Buffer Parser Checksum TCPSegment IPv4 Ethernet TCPSender TCPConnection WrappingIntegers Address NetworkInterface Router NetworkSimulator Adapters FileDescriptor AdapterSafety Socket EventLoop SpongeSocket Programs Mains.
Open Scope list_scope.
Open Scope Z_scope.

(** ** The adapter *)

Definition NetworkInterfaceAdapter : Type := TCPOverIPv4OverEthernetAdapter.

(** The constructor writes nothing, unlike that of the TAP adapter. *)
Definition new_NetworkInterfaceAdapter (random : list Z) (ip_address next_hop : Address) : NetworkInterfaceAdapter :=
  mkEthernetAdapter new_FdAdapterBase (new_NetworkInterface (random_host_ethernet_address random) ip_address) next_hop.

Definition lab7_read : NetworkInterfaceAdapter -> bytes -> result (NetworkInterfaceAdapter * option TCPSegment * list bytes) :=
  ethernet_read.
Definition lab7_write : NetworkInterfaceAdapter -> TCPSegment -> result (NetworkInterfaceAdapter * TCPSegment * list bytes) :=
  ethernet_write.
Definition lab7_tick : NetworkInterfaceAdapter -> Z -> NetworkInterfaceAdapter * list bytes := ethernet_tick.

(** ** The set-up *)

(** The router with the numbers of its two interfaces. *)
Definition lab7_router (is_client : bool) (random : nat -> list Z) : Router * Z * Z :=
  let add r k ip := add_interface r (new_AsyncNetworkInterface
    (new_NetworkInterface (random_router_ethernet_address (random k)) (inet ip))) in
  if is_client then
    let (r, host_side) := add new_Router 0%nat (quad 192 168 0 1) in
    let (r, internet_side) := add r 1%nat (quad 10 0 0 192) in
    let r := add_route r (quad 192 168 0 0) 16 None host_side in
    let r := add_route r (quad 10 0 0 0) 8 None internet_side in
    let r := add_route r (quad 172 16 0 0) 12 (Some (inet (quad 10 0 0 172))) internet_side in
    (r, host_side, internet_side)
  else
    let (r, host_side) := add new_Router 0%nat (quad 172 16 0 1) in
    let (r, internet_side) := add r 1%nat (quad 10 0 0 172) in
    let r := add_route r (quad 172 16 0 0) 12 None host_side in
    let r := add_route r (quad 10 0 0 0) 8 None internet_side in
    let r := add_route r (quad 192 168 0 0) 16 (Some (inet (quad 10 0 0 192))) internet_side in
    (r, host_side, internet_side).

Definition lab7_adapter (is_client : bool) (random : list Z) : NetworkInterfaceAdapter :=
  if is_client
  then new_NetworkInterfaceAdapter random (inet (quad 192 168 0 50)) (inet (quad 192 168 0 1))
  else new_NetworkInterfaceAdapter random (inet (quad 172 16 0 100)) (inet (quad 172 16 0 1)).

(** The configuration that [connect] gives the adapter; [random] is a random
    port. *)
Definition lab7_connect_config (local_ip random : Z) (address : Address) : FdAdapterConfig :=
  mkFdAdapterConfig (Address_numeric local_ip (u16 random)) address 0 0.

(** [bind]: only the port of the address may differ from the local one. *)
Definition lab7_bind (local_address address : Address) : result Address :=
  let* ip := ipv4_numeric address in
  let* local_ip := ipv4_numeric local_address in
  if negb (ip =? local_ip) then Err runtime_error
  else
    let* port := Address_port address in
    Ok (Address_numeric local_ip port).

(** The configuration that [listen_and_accept] gives the adapter. *)
Definition lab7_listen_config (local_address : Address) : FdAdapterConfig :=
  mkFdAdapterConfig local_address (Address_numeric 0 0) 0 0.

(** ** The thread of the router *)

(** One end of the router: its number, the descriptor, the datagrams that wait to
    be read there and those that were written. *)
Record port : Type := mkPort {
  pt_side : Z;
  pt_fd : FDWrapper;
  pt_waiting : list bytes;
  pt_written : list bytes }.

Record network : Type := mkNetworkThread {
  nt_router : Router;
  nt_host : port;
  nt_internet : port }.

Inductive lab7_rule : Type := host_to_router | router_to_host | router_to_internet | internet_to_router.
#[global] Instance lab7_rule_eq_dec : EqDecision lab7_rule.
Proof. solve_decision. Defined.

Definition rule_port (t : lab7_rule) (s : network) : port :=
  match t with
  | host_to_router | router_to_host => nt_host s
  | router_to_internet | internet_to_router => nt_internet s
  end.
Definition set_port (t : lab7_rule) (r : Router) (p : port) (s : network) : network :=
  match t with
  | host_to_router | router_to_host => mkNetworkThread r p (nt_internet s)
  | router_to_internet | internet_to_router => mkNetworkThread r (nt_host s) p
  end.

(** A frame for an interface of the router. *)
Definition take_in (r : Router) (side : Z) (data : bytes) : result Router :=
  let* (res, frame) := EthernetFrame_parse new_EthernetFrame (Buffer_of data) in
  if negb (pr_eqb res NoError) then Ok r
  else
    let* a := interface r side in
    let* a := async_recv_frame a frame in
    route (set_interface r side a).

Definition frames_of (r : Router) (side : Z) : list EthernetFrame :=
  match interface r side with Ok a => frames_out a | Err _ => [] end.

(** [f.pop()] of the queue of an interface. *)
Definition pop_frame (r : Router) (side : Z) : result Router :=
  let* a := interface r side in
  Ok (set_interface r side (clear_frames (take 1 (frames_out a)) a)).

Section Thread.
(** Whether the call that a rule makes succeeds, to read a datagram that waits or to
    write one; where the bouncer is. *)
Variables (takes : lab7_rule -> bytes -> bool) (bounce_address : Address).

(** The two callbacks that read. *)
Definition read_frame (t : lab7_rule) (s : network) : result network :=
  let p := rule_port t s in
  let answer := match pt_waiting p with d :: _ => if takes t d then Some d else None | [] => None end in
  let* (w, data) := fd_read (pt_fd p) SIZE_MAX answer in
  let* r := take_in (nt_router s) (pt_side p) data in
  Ok (set_port t r (mkPort (pt_side p) w (tail (pt_waiting p)) (pt_written p)) s).

(** A descriptor is written to once: a datagram is taken as a whole or not at
    all. *)
Definition write_frame (t : lab7_rule) (w : FDWrapper) (f : EthernetFrame) : result FDWrapper :=
  let views := BufferViewList_of (EthernetFrame_serialize f) in
  let answer := if takes t (concat views) then Some (bvl_size views) else None in
  match t with
  | router_to_internet =>
      let* (w, _) := UDPSocket_sendto w bounce_address views answer in Ok w
  | _ =>
      match fd_write w views true 0 [answer] with
      | Some (Ok (w, _)) => Ok w
      | Some (Err e) => Err e
      | None => Err undefined_behaviour
      end
  end.

(** The two callbacks that write the first frame of a queue. *)
Definition pass_frame (t : lab7_rule) (s : network) : result network :=
  let p := rule_port t s in
  match frames_of (nt_router s) (pt_side p) with
  | [] => Err undefined_behaviour
  | f :: _ =>
      let* w := write_frame t (pt_fd p) f in
      let* r := pop_frame (nt_router s) (pt_side p) in
      Ok (set_port t r (mkPort (pt_side p) w (pt_waiting p)
            (pt_written p ++ [bl_concatenate (EthernetFrame_serialize f)])) s)
  end.

#[global] Instance lab7_rules : RuleSet lab7_rule network := {
  rule_fd t s := pt_fd (rule_port t s);
  rule_direction t := match t with host_to_router | internet_to_router => In | _ => Out end;
  rule_callback t :=
    match t with
    | host_to_router | internet_to_router => read_frame t
    | _ => pass_frame t
    end;
  rule_interest t s :=
    match t with
    | host_to_router | internet_to_router => true
    | _ => match frames_of (nt_router s) (pt_side (rule_port t s)) with [] => false | _ => true end
    end;
  rule_cancel _ s := Ok s }.

Definition tick_side (r : Router) (side ms : Z) : result Router :=
  let* a := interface r side in
  Ok (set_interface r side (mkAsyncNetworkInterface (ni_tick (as_base a) ms) (as_datagrams_out a))).

(** One round of the loop of the thread: whether it goes on, the rules and the
    state; [exit_flag] is what the other thread says. *)
Definition thread_round (poll : network -> list pollfd -> poll_answer) (exit_flag : bool) (rules : list lab7_rule)
    (s : network) : result (bool * list lab7_rule * network) :=
  let* (x, s) := wait_next_event rules s poll in
  match x with
  | (Exit, rules) => Ok (false, rules, s)
  | (_, rules) =>
      let* r := tick_side (nt_router s) (pt_side (nt_host s)) 50 in
      let* r := tick_side r (pt_side (nt_internet s)) 50 in
      Ok (negb exit_flag, rules, mkNetworkThread r (nt_host s) (nt_internet s))
  end.

End Thread.

(** The rules, in the order in which they are added. *)
Definition lab7_rule_list : list lab7_rule := [host_to_router; router_to_host; router_to_internet; internet_to_router].

(** ** Frames through the router *)

(** Whatever the bytes hold, a datagram in them has a sound header; see
    [router_throws] for one that has not. *)
Definition clean_frame (data : bytes) : Prop :=
  forall f c d, EthernetFrame_parse new_EthernetFrame (Buffer_of data) = Ok (NoError, f) -> ef_payload f = [c] ->
    IPv4Datagram_parse new_IPv4Datagram c = Ok (NoError, d) -> IPv4Datagram_ok d.

Definition queues_empty (r : Router) : Prop := forall a, a ∈ r_interfaces r -> as_datagrams_out a = [].

Lemma take_in_spec r side data :
  router_ok r -> queues_empty r -> 0 <= side < zlen (r_interfaces r) -> zlen data <= BUFFER_SIZE -> clean_frame data ->
  exists r', take_in r side data = Ok r' /\ router_ok r' /\ queues_empty r' /\ frames_grow r r'.
Proof.
  intros Hr Hq Hs Hl Hclean. unfold take_in. unfold BUFFER_SIZE in Hl.
  assert (Hb : buf_ok (Buffer_of data)) by (apply Buffer_of_ok; lia).
  destruct (parsed_frame (Buffer_of data) Hb) as (res & f & c & E & Ec & Hc). rewrite E. cbn [rbind]. unfold pr_eqb.
  destruct (bool_decide_reflect (res = NoError)) as [->|]; cbn [negb].
  2:{ exists r. split; [done|]. split; [done|]. split; [done|apply frames_grow_refl]. }
  destruct (interface_ok r side Hs) as (a & -> & Ha). cbn [rbind].
  destruct (proj1 (Forall_lookup _ _) (ro_interfaces r Hr) _ _ Ha) as (ip & Hn).
  destruct (recv_frame_spec (as_base a) ip f c Hn Ec Hc) as (n' & o & Er & Hn' & Hcases).
  unfold async_recv_frame. rewrite Er. cbn [rbind].
  set (a' := mkAsyncNetworkInterface n' (match o with Some d => [d] | None => [] end)).
  assert (Ea : match o with Some d => Ok (mkAsyncNetworkInterface n' (as_datagrams_out a ++ [d]))
    | None => Ok (mkAsyncNetworkInterface n' (as_datagrams_out a)) end = Ok a').
  { rewrite (Hq a) by by eapply list_elem_of_lookup_2. by destruct o. }
  rewrite Ea. cbn [rbind].
  assert (Hr' : router_ok (set_interface r side a')) by by apply (set_interface_ok r side a' ip).
  assert (Hds : forall b d, b ∈ r_interfaces (set_interface r side a') -> d ∈ as_datagrams_out b -> IPv4Datagram_ok d).
  { intros b d Hb1 Hd. apply list_elem_of_lookup in Hb1 as (k & Hk). cbn [r_interfaces set_interface] in Hk.
    apply list_lookup_insert_Some in Hk as [(_ & <- & _)|(_ & Hk)].
    2:{ rewrite (Hq b) in Hd by by eapply list_elem_of_lookup_2. by apply elem_of_nil in Hd. }
    cbn in Hd. destruct o as [d'|]; [|by apply elem_of_nil in Hd]. apply list_elem_of_singleton in Hd as ->.
    destruct Hcases as [(_ & _ & ?)|[(_ & _ & _ & e & d1 & Ed & Eo)|(_ & _ & ? & _)]]; [done| |done].
    unfold pr_eqb in Eo. case_bool_decide; [|done]. subst e. injection Eo as <-. by apply (Hclean f c). }
  destruct (route_all _ Hr' Hds) as (r1 & r' & _ & Eroute & Hok & _ & _ & Hempty). rewrite Eroute.
  exists r'. split; [done|]. split; [done|]. split; [done|].
  eapply frames_grow_trans; [|exact (route_grows _ _ Hr' Hds Eroute)]. eapply frames_grow_set; [exact Ha|].
  exact (recv_frame_grows _ _ _ _ _ _ Hn Ec Hc Er).
Qed.

Lemma frames_grow_length r r' : frames_grow r r' -> zlen (r_interfaces r') = zlen (r_interfaces r).
Proof. intros H. unfold zlen. by rewrite (Forall2_length _ _ _ H). Qed.

Lemma frames_of_lookup r side a : 0 <= side -> r_interfaces r !! Z.to_nat side = Some a -> frames_of r side = frames_out a.
Proof. intros Hs Ha. unfold frames_of, interface. destruct (Z.ltb_spec side 0); [lia|]. by rewrite Ha. Qed.

Lemma frames_of_grow r r' side : frames_grow r r' -> frames_of r side `prefix_of` frames_of r' side.
Proof.
  intros H. unfold frames_of, interface. destruct (Z.ltb_spec side 0); [done|].
  destruct (r_interfaces r !! Z.to_nat side) as [a|] eqn:Ea; [|apply prefix_nil].
  destruct (Forall2_lookup_l _ _ _ _ _ H Ea) as (a' & -> & (extra & Hg & _) & _). by exists extra.
Qed.

(** Removing the first frame of a queue. *)
Lemma pop_frame_spec r side :
  router_ok r -> queues_empty r -> 0 <= side < zlen (r_interfaces r) ->
  exists r', pop_frame r side = Ok r' /\ router_ok r' /\ queues_empty r' /\
    zlen (r_interfaces r') = zlen (r_interfaces r) /\
    frames_of r' side = drop 1 (frames_of r side) /\
    (forall other, 0 <= other -> other <> side -> frames_of r' other = frames_of r other) /\
    Forall2 (fun a a' => (exists k, frames_out a' = drop k (frames_out a)) /\ ni_timer (as_base a') = ni_timer (as_base a))
      (r_interfaces r) (r_interfaces r').
Proof.
  intros Hr Hq Hs. unfold pop_frame. destruct (interface_ok r side Hs) as (a & E & Ha). rewrite E. cbn [rbind].
  destruct (proj1 (Forall_lookup _ _) (ro_interfaces r Hr) _ _ Ha) as (ip & Hn).
  set (a' := clear_frames (take 1 (frames_out a)) a). pose proof (lookup_lt_Some _ _ _ Ha) as Hlt.
  exists (set_interface r side a'). split; [done|]. split; [apply (set_interface_ok r side a' ip); [done|by destruct Hn]|].
  cbn [r_interfaces set_interface]. split; [|split; [|split; [|split]]].
  - intros b Hb. apply list_elem_of_lookup in Hb as (k & Hk). cbn [r_interfaces set_interface] in Hk.
    apply list_lookup_insert_Some in Hk as [(_ & <- & _)|(_ & Hk)]; [cbn|]; apply Hq; by eapply list_elem_of_lookup_2.
  - unfold zlen. by rewrite length_insert.
  - rewrite (frames_of_lookup r side a) by (done || lia). rewrite (frames_of_lookup _ side a'); [|lia|].
    + unfold a', clear_frames, frames_out. cbn. by destruct (ni_frames_out (as_base a)).
    + by apply list_lookup_insert_eq.
  - intros other Ho Hne. unfold frames_of, interface. cbn [r_interfaces set_interface].
    by rewrite list_lookup_insert_ne by lia.
  - rewrite <- (list_insert_id (r_interfaces r) (Z.to_nat side) a Ha) at 1. apply Forall2_insert.
    + clear. induction (r_interfaces r); constructor; [|done]. split; [by exists 0%nat|done].
    + split; [|done]. by eexists.
Qed.

(** ** The thread *)

(** The router is sound, its queued frames can be sent, and its clocks show at
    most [t]. *)
Record router_good (t : Z) (r : Router) : Prop := {
  rg_ok : router_ok r;
  rg_empty : queues_empty r;
  rg_frames : Forall (fun a => Forall frame_ok (frames_out a) /\ ni_timer (as_base a) <= t) (r_interfaces r) }.

Lemma router_good_grow t r r' :
  router_good t r -> router_ok r' -> queues_empty r' -> frames_grow r r' -> router_good t r'.
Proof.
  intros [_ _ Hf] Hr Hq Hg. split; [done|done|]. apply Forall_lookup. intros k a' Hk.
  destruct (Forall2_lookup_r _ _ _ _ _ Hg Hk) as (a & Ha & (extra & E & Hx) & Et).
  destruct (proj1 (Forall_lookup _ _) Hf k a Ha) as [H1 H2]. unfold frames_out in *. rewrite E, Et.
  split; [by apply Forall_app_2|done].
Qed.

Definition port_ok (r : Router) (p : port) : Prop :=
  0 <= pt_side p < zlen (r_interfaces r) /\ counts_ok (pt_fd p) /\ Forall (fun d => zlen d <= BUFFER_SIZE /\ clean_frame d) (pt_waiting p).

Record thread_ok (t : Z) (s : network) : Prop := {
  to_router : router_good t (nt_router s);
  to_host : port_ok (nt_router s) (nt_host s);
  to_internet : port_ok (nt_router s) (nt_internet s);
  to_distinct : pt_side (nt_host s) <> pt_side (nt_internet s) }.

Definition wire (f : EthernetFrame) : bytes := bl_concatenate (EthernetFrame_serialize f).

(** The frames for one side: those that were written and those that wait. *)
Definition passed (r : Router) (p : port) : list bytes := pt_written p ++ map wire (frames_of r (pt_side p)).

Lemma passed_grow r r' p p' : frames_grow r r' -> pt_side p' = pt_side p -> pt_written p' = pt_written p ->
  passed r p `prefix_of` passed r' p'.
Proof.
  intros Hg Hs Hw. unfold passed. rewrite Hs, Hw. destruct (frames_of_grow r r' (pt_side p) Hg) as [extra ->].
  rewrite map_app, app_assoc. by eexists.
Qed.

Lemma EthernetHeader_wire h : ea_ok (eh_dst h) -> ea_ok (eh_src h) -> zlen (EthernetHeader_serialize h) = 14.
Proof.
  intros [H1 _] [H2 _]. unfold EthernetHeader_serialize. rewrite w_u16_eq, !w_array_eq. unfold zlen.
  rewrite !length_app, !length_map, H1, H2. done.
Qed.

Section Contract.
Context (takes : lab7_rule -> bytes -> bool) (bounce_address : Address).

Lemma write_frame_spec t w f : frame_ok f ->
  write_frame takes bounce_address t w f = if takes t (wire f) then Ok (register_write w) else Err runtime_error.
Proof.
  intros (Hd & Hs & Hp). unfold write_frame. set (views := BufferViewList_of _).
  assert (Hv : concat views = wire f) by (unfold views, wire, BufferViewList_of; by rewrite concatenate_eq).
  assert (Hl : zlen (wire f) < W32).
  { unfold wire, EthernetFrame_serialize. rewrite !concatenate_append. change (bl_concatenate []) with (@nil byte).
    unfold BufferList_of. rewrite concatenate_cons, buf_str_of. change (bl_concatenate []) with (@nil byte).
    rewrite app_nil_l, app_nil_r, zlen_app, EthernetHeader_wire by done. lia. }
  assert (Hsz : bvl_size views = zlen (wire f)) by (rewrite bvl_size_eq, Hv; [done|rewrite Hv; lia]).
  rewrite Hv, Hsz. zpos. destruct (takes t (wire f)).
  - destruct (write_round_ok w views (zlen (wire f))) as (b & Eb & Hb); rewrite ?Hv; try lia.
    assert (Hz : bvl_size b = 0) by (rewrite bvl_size_eq; rewrite Hb, Hv, zdrop_all by lia; done).
    assert (Hw : fd_write w views true 0 [Some (zlen (wire f))] = Some (Ok (register_write w, zlen (wire f)))).
    { cbn [fd_write]. rewrite Eb, Hz. change (true && negb (0 =? 0)) with false. cbn iota. by rewrite Z.add_0_l, u64_id by lia. }
    rewrite Hw. destruct t; try done. unfold UDPSocket_sendto, sendmsg_helper. rewrite Hsz, u64_id, Z.eqb_refl by lia. done.
  - by destruct t.
Qed.

(** What [s] has is kept up to the frames that were passed on; [P] and [Q] are
    frames for the two sides. *)
Definition thread_inv (t : Z) (P Q : list bytes) (s : network) : Prop :=
  thread_ok t s /\ P `prefix_of` passed (nt_router s) (nt_host s) /\ Q `prefix_of` passed (nt_router s) (nt_internet s).

Definition is_reader (t : lab7_rule) : bool := match t with host_to_router | internet_to_router => true | _ => false end.

(** Why a callback throws: the kernel refuses to hand over the first datagram that
    waits, or to take the first frame of the queue. *)
Definition lab7_fails (r : lab7_rule) (s : network) (e : failure) : Prop :=
  e = runtime_error /\ exists data, takes r data = false /\
    if is_reader r then head (pt_waiting (rule_port r s)) = Some data
    else head (map wire (frames_of (nt_router s) (pt_side (rule_port r s)))) = Some data.

Definition lab7_view (t : Z) (P Q : list bytes) : view lab7_rule network := {|
  v_inv := thread_inv t P Q;
  v_wanted r s := is_reader r = false -> frames_of (nt_router s) (pt_side (rule_port r s)) <> [];
  v_ready r s := is_reader r = true -> pt_waiting (rule_port r s) <> [];
  v_hung_up _ _ := False;
  v_gone r s := rule_over (H := lab7_rules takes bounce_address) r s = true;
  v_fails := lab7_fails |}.

Lemma set_port_inv t P Q rule s r' p' :
  thread_inv t P Q s -> router_good t r' -> zlen (r_interfaces r') = zlen (r_interfaces (nt_router s)) ->
  port_ok r' p' -> pt_side p' = pt_side (rule_port rule s) ->
  passed (nt_router s) (rule_port rule s) `prefix_of` passed r' p' ->
  (forall p, 0 <= pt_side p -> pt_side p <> pt_side (rule_port rule s) -> passed (nt_router s) p `prefix_of` passed r' p) ->
  thread_inv t P Q (set_port rule r' p' s).
Proof.
  intros ([Hr Hh Hi Hd] & HP & HQ) Hr' Hl Hp Hs Hown Hother. unfold port_ok in *. rewrite <- Hl in Hh, Hi.
  destruct rule; cbn [set_port rule_port] in *;
    (split; [split; cbn [nt_router nt_host nt_internet]; try done; congruence|]; cbn [nt_router nt_host nt_internet];
     split; (etransitivity; [eassumption|]); (done || (apply Hother; [lia|congruence]))).
Qed.

Lemma rule_port_ok t s rule : thread_ok t s -> port_ok (nt_router s) (rule_port rule s).
Proof. intros []. by destruct rule. Qed.

(** Reading a frame: the router takes it in, and nothing else changes. *)
Lemma read_frame_spec t P Q rule s d rest :
  thread_inv t P Q s -> pt_waiting (rule_port rule s) = d :: rest -> takes rule d = true ->
  exists r' w, frames_grow (nt_router s) r' /\
    (w = pt_fd (rule_port rule s) \/ w = set_eof (pt_fd (rule_port rule s))) /\
    let s' := set_port rule r' (mkPort (pt_side (rule_port rule s)) (register_read w) rest (pt_written (rule_port rule s))) s in
    read_frame takes rule s = Ok s' /\ thread_inv t P Q s'.
Proof.
  intros Hs Hw Htake. pose proof Hs as (Hok & _ & _). destruct (rule_port_ok t s rule Hok) as (Hside & Hc & Hlen).
  rewrite Hw in Hlen. apply Forall_cons in Hlen as [[Hd Hclean] Hrest]. pose proof (to_router _ _ Hok) as Hg.
  destruct (take_in_spec _ _ d (rg_ok _ _ Hg) (rg_empty _ _ Hg) Hside Hd Hclean) as (r' & E & H1 & H2 & H3).
  unfold read_frame. rewrite Hw, Htake. cbn [tail]. rewrite fd_read_ok by (unfold SIZE_MAX, BUFFER_SIZE in *; lia). cbn [rbind].
  rewrite E. cbn [rbind]. match goal with |- context [register_read ?w] => exists r', w end.
  split; [done|]. split; [case_match; [by right|by left]|]. cbv zeta. split; [done|]. apply set_port_inv; [done| |by apply frames_grow_length| |done| |].
  - by eapply router_good_grow.
  - split; [by rewrite (frames_grow_length _ _ H3)|]. split; [|done]. cbn [pt_fd]. apply register_read_counts. by case_match.
  - by apply passed_grow.
  - intros p _ _. by apply passed_grow.
Qed.

(** Passing a frame on: the first of the queue is written and removed. *)
Lemma pass_frame_spec t P Q rule s :
  thread_inv t P Q s -> frames_of (nt_router s) (pt_side (rule_port rule s)) <> [] ->
  match pass_frame takes bounce_address rule s with
  | Ok s' => thread_inv t P Q s' /\ exists r' written,
      s' = set_port rule r' (mkPort (pt_side (rule_port rule s)) (register_write (pt_fd (rule_port rule s)))
             (pt_waiting (rule_port rule s)) written) s /\
      (forall side, 0 <= side -> side <> pt_side (rule_port rule s) -> frames_of r' side = frames_of (nt_router s) side)
  | Err e => is_reader rule = false -> lab7_fails rule s e
  end.
Proof.
  intros Hs Hf. pose proof Hs as (Hok & _ & _). destruct (rule_port_ok t s rule Hok) as (Hside & Hc & Hlen).
  pose proof (to_router _ _ Hok) as Hg. set (p := rule_port rule s) in *. unfold pass_frame. fold p.
  destruct (frames_of (nt_router s) (pt_side p)) as [|f fs] eqn:Ef; [done|].
  assert (Hfok : frame_ok f).
  { destruct (interface_ok (nt_router s) (pt_side p) Hside) as (a & _ & Ha).
    rewrite (frames_of_lookup _ _ a) in Ef by (done || lia).
    destruct (proj1 (Forall_lookup _ _) (rg_frames _ _ Hg) _ _ Ha) as [H _]. rewrite Ef in H. by apply Forall_cons in H as [? _]. }
  rewrite write_frame_spec by done. destruct (takes rule (wire f)) eqn:Et; cbn [rbind].
  2:{ intros Er. split; [done|]. exists (wire f). rewrite Er. fold p. by rewrite Ef. }
  destruct (pop_frame_spec _ _ (rg_ok _ _ Hg) (rg_empty _ _ Hg) Hside) as (r' & -> & H1 & H2 & H3 & H4 & H5 & H6). cbn [rbind].
  split; [|by eexists _, _]. apply set_port_inv; [done| |done| |done| |].
  - split; [done|done|]. apply Forall_lookup. intros k a' Hk. destruct (Forall2_lookup_r _ _ _ _ _ H6 Hk) as (a & Ha & (m & ->) & ->).
    destruct (proj1 (Forall_lookup _ _) (rg_frames _ _ Hg) _ _ Ha). split; [by apply Forall_drop|done].
  - split; [by rewrite H3|]. split; [by apply register_write_counts|done].
  - unfold passed. cbn [pt_written pt_side]. fold p. rewrite H4, Ef. cbn [drop map]. rewrite <- app_assoc. done.
  - intros p' Hp Hne. unfold passed. by rewrite H5.
Qed.

(** The descriptors of a later state have not lost their end or been reopened. *)
Lemma set_port_over rule s r' p' : fd_closed (pt_fd p') = fd_closed (pt_fd (rule_port rule s)) ->
  (fd_eof (pt_fd (rule_port rule s)) = true -> fd_eof (pt_fd p') = true) ->
  forall t, rule_over (H := lab7_rules takes bounce_address) t s = true ->
    rule_over (H := lab7_rules takes bounce_address) t (set_port rule r' p' s) = true.
Proof.
  intros Hc He t. unfold rule_over. cbn [rule_fd rule_direction lab7_rules].
  destruct t, rule; cbn [set_port rule_port nt_host nt_internet] in *; try done;
    rewrite !orb_true_iff, !andb_true_iff, Hc; naive_solver.
Qed.

(** After the callback of a rule the others find what they found before. *)
Lemma set_port_stands t P Q rule s r' p' :
  is_reader rule = true /\ frames_grow (nt_router s) r' /\ pt_side p' = pt_side (rule_port rule s) \/
  is_reader rule = false /\ pt_waiting p' = pt_waiting (rule_port rule s) /\ thread_ok t s /\
    (forall side, 0 <= side -> side <> pt_side (rule_port rule s) -> frames_of r' side = frames_of (nt_router s) side) ->
  forall t', t' <> rule -> stands (lab7_view t P Q) t' s (set_port rule r' p' s).
Proof.
  intros Hc t' Hne. split; cbn [v_wanted v_ready lab7_view]; intros H Hr; specialize (H Hr).
  - assert (Hgrow : forall side, frames_grow (nt_router s) r' ->
      frames_of (nt_router s) side <> [] -> frames_of r' side <> []).
    { intros side Hg Hf E. destruct (frames_of_grow _ _ side Hg) as [x Ex]. rewrite E in Ex. symmetry in Ex. by apply app_eq_nil in Ex as [? _]. }
    destruct Hc as [(E1 & Hg & Hs)|(E1 & _ & [_ (Hh & _) (Hi & _) Hd] & Hf)].
    + destruct t', rule; cbn [rule_port set_port nt_host nt_internet nt_router] in *; try done; rewrite ?Hs; by apply Hgrow.
    + destruct t', rule; cbn [rule_port set_port nt_host nt_internet nt_router] in *; try done; rewrite Hf; (done || lia).
  - destruct Hc as [(E1 & _)|(E1 & Hw & _)];
      destruct t', rule; cbn [rule_port set_port nt_host nt_internet] in *; try done; by rewrite Hw.
Qed.

Lemma lab7_contract t P Q : contract (H := lab7_rules takes bounce_address) (lab7_view t P Q).
Proof.
  split.
  - intros rule s _ Hi Hr. cbn in Hi. destruct rule; try done; by destruct (frames_of _ _).
  - intros rule s Hs [Ho|[]]. exists s. split; [done|]. split; [done|]. split; [done|]. by split.
  - intros rule s Hs Hw Hr. pose proof Hs as (Hok & _ & _). destruct (rule_port_ok t s rule Hok) as (_ & [Hc1 Hc2] & _).
    destruct (is_reader rule) eqn:Er.
    + destruct (pt_waiting (rule_port rule s)) as [|d rest] eqn:Ew; [by destruct (Hr Er)|].
      destruct (takes rule d) eqn:Et.
      2:{ assert (E : rule_callback (RuleSet := lab7_rules takes bounce_address) rule s = Err runtime_error).
          { transitivity (read_frame takes rule s); [by destruct rule|]. unfold read_frame. by rewrite Ew, Et. }
          rewrite E. split; [done|]. exists d. by rewrite Er, Ew. }
      destruct (read_frame_spec t P Q rule s d rest Hs Ew Et) as (r' & w & Hg & Hfd & E & Hs'). set (p' := mkPort _ _ _ _) in *.
      replace (rule_callback rule s) with (Ok (set_port rule r' p' s)) by (by rewrite <- E; destruct rule).
      split; [done|]. split; [left|split; [split; [|done]|]].
      * destruct rule; try done; cbn; destruct Hfd as [-> | ->]; by apply count_changes.
      * cbn [v_gone lab7_view]. apply set_port_over; destruct Hfd as [-> | ->]; done.
      * apply set_port_stands. by left.
    + pose proof (pass_frame_spec t P Q rule s Hs (Hw Er)) as H.
      replace (rule_callback rule s) with (pass_frame takes bounce_address rule s) by (by destruct rule).
      destruct (pass_frame takes bounce_address rule s) as [s'|]; [|by apply H].
      destruct H as (Hs' & r' & written & -> & Hf). set (p' := mkPort _ _ _ _) in *.
      split; [done|]. split; [left|split; [split; [|done]|]].
      * destruct rule; try done; cbn; by apply count_changes.
      * cbn [v_gone lab7_view]. by apply set_port_over.
      * apply set_port_stands. by right.
Qed.
End Contract.

(** ** Rounds *)

Lemma tick_side_spec t r side : router_good t r -> 0 <= side < zlen (r_interfaces r) -> t + 50 < W64 - W32 ->
  exists r', tick_side r side 50 = Ok r' /\ router_good (t + 50) r' /\ zlen (r_interfaces r') = zlen (r_interfaces r) /\
    forall other, frames_of r' other = frames_of r other.
Proof.
  intros [Hr Hq Hf] Hs Ht. unfold tick_side. destruct (interface_ok r side Hs) as (a & E & Ha). rewrite E. cbn [rbind].
  destruct (proj1 (Forall_lookup _ _) (ro_interfaces r Hr) _ _ Ha) as (ip & Hn). pose proof (nii_timer _ _ Hn) as Htime.
  destruct (proj1 (Forall_lookup _ _) Hf _ _ Ha) as [Hfa Hta]. pose proof (lookup_lt_Some _ _ _ Ha) as Hlt.
  set (a' := mkAsyncNetworkInterface _ _). exists (set_interface r side a'). split; [done|]. split; [split|split].
  - apply (set_interface_ok r side a' ip); [done|]. apply ni_tick_inv; [done|lia|lia].
  - intros b Hb. apply list_elem_of_lookup in Hb as (k & Hk). cbn [r_interfaces set_interface] in Hk.
    apply list_lookup_insert_Some in Hk as [(_ & <- & _)|(_ & Hk)]; [cbn|]; apply Hq; by eapply list_elem_of_lookup_2.
  - cbn [r_interfaces set_interface]. apply Forall_insert.
    + eapply Forall_impl; [exact Hf|]. intros b [H1 H2]. split; [done|lia].
    + split; [done|]. cbn. rewrite u64_id by lia. lia.
  - cbn [r_interfaces set_interface]. unfold zlen. by rewrite length_insert.
  - intros other. unfold frames_of, interface. cbn [r_interfaces set_interface]. destruct (Z.ltb_spec other 0); [done|].
    destruct (decide (other = side)) as [->|Hne]; [by rewrite list_lookup_insert_eq, Ha by done|].
    by rewrite list_lookup_insert_ne by lia.
Qed.

Lemma router_good_mono t t' r : router_good t r -> t <= t' -> router_good t' r.
Proof. intros [H1 H2 H3] Ht. split; [done|done|]. eapply Forall_impl; [exact H3|]. intros a [H4 H5]. split; [done|lia]. Qed.

Section Rounds.
Context (takes : lab7_rule -> bytes -> bool) (bounce_address : Address).

(** C40: The router's thread forwards.  In a round of its loop, whatever frames wait, if
    every datagram in them has a sound header, and however the kernel reports it,
    the thread throws only when the kernel refuses a call of a callback that the
    round calls; the router stays sound; and the frames it ever queued for a side
    are written there as they are, in order and once each: those written and those
    waiting only grow at the end.  The clocks advance by at most the two ticks, and
    a rule is given up only when its descriptor is at its end. *)
Theorem lab7_thread_forwards t rules s poll exit_flag :
  thread_ok t s -> NoDup rules -> t + 100 < W64 - W32 ->
  poll_honest (H := lab7_rules takes bounce_address)
    (lab7_view takes bounce_address t (passed (nt_router s) (nt_host s)) (passed (nt_router s) (nt_internet s))) rules s poll ->
  match thread_round takes bounce_address poll exit_flag rules s with
  | Ok (_, rules', s') => thread_ok (t + 100) s' /\
      passed (nt_router s) (nt_host s) `prefix_of` passed (nt_router s') (nt_host s') /\
      passed (nt_router s) (nt_internet s) `prefix_of` passed (nt_router s') (nt_internet s') /\
      forall rule, rule ∈ rules -> rule ∈ rules' \/ rule_over (H := lab7_rules takes bounce_address) rule s' = true
  | Err e => exists rule s', wait_calls (H := lab7_rules takes bounce_address) rules s poll rule s' /\
      rule_callback (RuleSet := lab7_rules takes bounce_address) rule s' = Err e /\ lab7_fails takes rule s' e
  end.
Proof.
  intros Hs Hnd Ht Hp. unfold thread_round.
  set (P := passed (nt_router s) (nt_host s)) in *. set (Q := passed (nt_router s) (nt_internet s)) in *.
  assert (Hinv : thread_inv t P Q s) by (split; [done|split; reflexivity]).
  pose proof (wait_spec _ (lab7_contract takes bounce_address t P Q) rules s poll Hnd Hinv Hp) as H.
  destruct (wait_next_event rules s poll) as [[[res rules'] s']|]; cbn [rbind]; [|destruct H as (rule & s' & Hc & _ & Hf & Er); by exists rule, s'].
  destruct H as ((Hs' & HP & HQ) & _ & _ & Hacc). cbn in Hs', HP, HQ, Hacc.
  destruct Hs' as [Hg Hh Hi Hd]. pose proof Hh as (Hh1 & Hh2). pose proof Hi as (Hi1 & Hi2).
  destruct (tick_side_spec t _ _ Hg Hh1 ltac:(lia)) as (r1 & E1 & Hg1 & Hl1 & Hf1).
  assert (Hi1' : 0 <= pt_side (nt_internet s') < zlen (r_interfaces r1)) by lia.
  destruct (tick_side_spec (t + 50) _ _ Hg1 Hi1' ltac:(lia)) as (r2 & E2 & Hg2 & Hl2 & Hf2).
  replace (t + 50 + 50) with (t + 100) in Hg2 by lia.
  assert (Hstay : thread_ok (t + 100) s') by (split; [apply (router_good_mono t); [done|lia]|done..]).
  assert (Hmove : thread_ok (t + 100) (mkNetworkThread r2 (nt_host s') (nt_internet s'))).
  { split; cbn; [done|split; [lia|done]|split; [lia|done]|done]. }
  assert (Hpass : forall p, passed r2 p = passed (nt_router s') p) by (intros p; unfold passed; by rewrite Hf2, Hf1).
  destruct res; rewrite ?E1; cbn [rbind]; rewrite ?E2; cbn [rbind nt_router nt_host nt_internet]; rewrite ?Hpass; done.
Qed.
End Rounds.

(** ** The start *)

(** The thread's state at the start: [host_fd] is an end of the socket pair. *)
Definition lab7_start (is_client : bool) (random : nat -> list Z) (host_fd internet_socket : FDWrapper) : network :=
  let '(r, host_side, internet_side) := lab7_router is_client random in
  mkNetworkThread r (mkPort host_side host_fd [] []) (mkPort internet_side internet_socket [] []).

Lemma random_router_ok random : length random = 6%nat -> ea_ok (random_router_ethernet_address random).
Proof.
  intros H. do 7 (destruct random as [|? random]; try done). cbn in H. split; [done|].
  unfold random_router_ethernet_address. cbn [map]. repeat constructor; (lia || apply u8_range).
Qed.

Lemma lab7_routes is_client random p len hop k :
  r_routes (lab7_router is_client random).1.1 !! (p, len) = Some (hop, k) ->
  canonical p len /\ 0 <= k < 2 /\ match hop with Some a => exists h, 0 <= h < W32 /\ a = inet h | None => True end.
Proof.
  intros E. destruct is_client; cbn [lab7_router add_interface add_route r_routes fst] in E;
    repeat (apply lookup_insert_Some in E as [[Ek Ev]|[_ E]];
            [injection Ek as <- <-; injection Ev as <- <-; split; [repeat split; by vm_compute|];
             (split; [by vm_compute|]); try done; eexists; (split; [|done]); by vm_compute|]);
    unfold new_Router in E; cbn [r_routes] in E; by rewrite lookup_empty in E.
Qed.

(** The thread starts in order, as a client and as a server. *)
Lemma lab7_start_ok is_client random host_fd internet_socket :
  (forall k, length (random k) = 6%nat) -> counts_ok host_fd -> counts_ok internet_socket ->
  thread_ok 0 (lab7_start is_client random host_fd internet_socket).
Proof.
  intros Hrand Hh Hi.
  assert (Hr : router_good 0 (lab7_router is_client random).1.1).
  { split.
    - split.
      + destruct is_client; repeat constructor; eexists; (apply new_NetworkInterface_inv; [by apply random_router_ok|by vm_compute]).
      + intros p len [hop k] E. by apply lab7_routes in E as [? _].
      + intros p len hop k E. apply lab7_routes in E as (_ & Hk & Hhop). split; [|done]. by destruct is_client.
    - intros a Ha. destruct is_client; cbn in Ha; rewrite !elem_of_cons, elem_of_nil in Ha; by destruct Ha as [-> |[-> |[]]].
    - apply Forall_forall. intros a Ha. destruct is_client; cbn in Ha; rewrite !elem_of_cons, elem_of_nil in Ha;
        destruct Ha as [-> |[-> |[]]]; (split; [constructor|by vm_compute]). }
  destruct is_client; (split; [exact Hr|by split; [|split]|by split; [|split]|by vm_compute]).
Qed.

(** A round in which the frame waits with which the client asks for the address of
    the router; see [lab7_asks]. *)
Definition client_adapter : NetworkInterfaceAdapter :=
  mkEthernetAdapter (mkFdAdapterBase (lab7_connect_config (quad 192 168 0 50) 5000 (Address_numeric (quad 172 16 0 100) 1234)) false)
    (ea_interface (lab7_adapter true (sample_random 2))) (ea_next_hop (lab7_adapter true (sample_random 2))).
Definition client_frame : bytes :=
  match lab7_write client_adapter (mkTCPSegment (set_syn true default_TCPHeader) empty_Buffer) with
  | Ok (_, out) => concat out
  | Err _ => []
  end.
Definition asked_network : network :=
  let s := lab7_start true sample_random (mkFDWrapper 3 false false 0 0) (mkFDWrapper 4 false false 0 0) in
  mkNetworkThread (nt_router s) (mkPort (pt_side (nt_host s)) (pt_fd (nt_host s)) [client_frame] []) (nt_internet s).
Definition host_readable (s : network) (pollfds : list pollfd) : poll_answer := Polled 1 [POLLIN; 0; 0; 0].
Definition willing (r : lab7_rule) (data : bytes) : bool := true.

Lemma lab7_asks : zlen client_frame = 42 /\ clean_frame client_frame.
Proof.
  split; [vm_compute; reflexivity|]. intros f c d E Ec Ed.
  assert (H : match EthernetFrame_parse new_EthernetFrame (Buffer_of client_frame) with
    | Ok (_, f) => match ef_payload f with
                   | [c] => match IPv4Datagram_parse new_IPv4Datagram c with Ok (NoError, _) => false | _ => true end
                   | _ => false end
    | Err _ => false end = true) by (vm_compute; reflexivity).
  by rewrite E, Ec, Ed in H.
Qed.

Lemma asked_ok : thread_ok 0 asked_network.
Proof.
  destruct (lab7_start_ok true sample_random (mkFDWrapper 3 false false 0 0) (mkFDWrapper 4 false false 0 0))
    as [H1 (H2 & H3 & _) H4 H5]; [intros k; reflexivity|by vm_compute..|].
  split; [exact H1| |exact H4|exact H5]. split; [exact H2|]. split; [exact H3|].
  destruct lab7_asks as [Hl Hc]. constructor; [|constructor]. split; [rewrite Hl; by vm_compute|exact Hc].
Qed.

Lemma asked_honest P Q :
  poll_honest (H := lab7_rules willing (inet 1)) (lab7_view willing (inet 1) 0 P Q) lab7_rule_list asked_network host_readable.
Proof.
  intros rules pollfds s E. right.
  assert (Es : setup (H := lab7_rules willing (inet 1)) lab7_rule_list asked_network =
    Ok (lab7_rule_list, [mkPollfd 3 POLLIN 0; mkPollfd 3 0 0; mkPollfd 4 0 0; mkPollfd 4 POLLIN 0], true, asked_network))
    by reflexivity.
  rewrite E in Es. injection Es as -> -> ->. cbn.
  constructor; [|constructor; [|constructor; [|constructor; [|constructor]]]]; (split; [reflexivity|]; split; [|done]); done.
Qed.

Definition answered_network : result (bool * list lab7_rule * network) :=
  thread_round willing (inet 1) host_readable false lab7_rule_list asked_network.

Lemma answered_round : match answered_network with
  | Ok (true, _, s) => bool_decide (length (passed (nt_router s) (nt_host s)) = 1%nat) | _ => false end = true.
Proof. vm_compute. reflexivity. Qed.

Lemma lab7_thread_forwards_witness : exists rules s',
  thread_round willing (inet 1) host_readable false lab7_rule_list asked_network = Ok (true, rules, s') /\
  thread_ok 100 s' /\ length (passed (nt_router s') (nt_host s')) = 1%nat.
Proof.
  pose proof answered_round as Ha. unfold answered_network in Ha.
  pose proof (lab7_thread_forwards willing (inet 1) 0 lab7_rule_list asked_network host_readable false asked_ok
    ltac:(by apply (bool_decide_unpack _); vm_compute) ltac:(by vm_compute) (asked_honest _ _)) as H.
  destruct (thread_round willing (inet 1) host_readable false lab7_rule_list asked_network) as [[[[] rules] s']|];
    [|discriminate Ha|discriminate Ha].
  exists rules, s'. split; [reflexivity|]. split; [exact (proj1 H)|]. exact (bool_decide_eq_true_1 _ Ha).
Defined.

(** An empty datagram from the Internet ends the reception: the descriptor takes
    it for the end of its input, and the next set-up of the loop drops the rule. *)
Theorem lab7_empty_datagram_deafens takes bounce_address t P Q s rest :
  thread_inv t P Q s -> pt_waiting (nt_internet s) = [] :: rest -> takes internet_to_router [] = true ->
  exists s', read_frame takes internet_to_router s = Ok s' /\
    rule_over (H := lab7_rules takes bounce_address) internet_to_router s' = true.
Proof.
  intros Hs Hw Htake. destruct (read_frame_spec takes t P Q internet_to_router s [] rest Hs Hw Htake) as (r' & w & _ & _ & E & _).
  eexists. split; [exact E|]. revert E. generalize (set_port internet_to_router r' (mkPort (pt_side (rule_port internet_to_router s))
    (register_read w) rest (pt_written (rule_port internet_to_router s))) s) as s'. intros s' E. unfold read_frame in E. cbn [rule_port] in E. rewrite Hw, Htake in E. cbn [tail] in E.
  rewrite fd_read_ok in E by done. cbn [rbind] in E. apply rbind_ok in E as (r1 & _ & E).
  injection E as <-. done.
Qed.

(** ** From socket to socket *)

(** Both sides, with the datagrams on their way. *)
Record world : Type := mkWorld {
  w_client : NetworkInterfaceAdapter; w_client_net : network;
  w_server : NetworkInterfaceAdapter; w_server_net : network;
  w_received : list TCPSegment }.

Fixpoint take_all (rule : lab7_rule) (ds : list bytes) (s : network) : result network :=
  match ds with
  | [] => Ok s
  | d :: ds =>
      let p := rule_port rule s in
      let* s := read_frame (fun _ _ => true) rule (set_port rule (nt_router s) (mkPort (pt_side p) (pt_fd p) [d] (pt_written p)) s) in
      take_all rule ds s
  end.

(** Everything queued for a side is written and carried away. *)
Fixpoint carry (fuel : nat) (rule : lab7_rule) (s : network) : result (network * list bytes) :=
  match fuel with
  | O => Ok (s, [])
  | S fuel =>
      let p := rule_port rule s in
      match frames_of (nt_router s) (pt_side p) with
      | [] => Ok (set_port rule (nt_router s) (mkPort (pt_side p) (pt_fd p) (pt_waiting p) []) s, pt_written p)
      | _ => let* s := pass_frame (fun _ _ => true) (inet 1) rule s in carry fuel rule s
      end
  end.

Fixpoint read_all (a : NetworkInterfaceAdapter) (ds : list bytes)
    : result (NetworkInterfaceAdapter * list TCPSegment * list bytes) :=
  match ds with
  | [] => Ok (a, [], [])
  | d :: ds =>
      let* (x, out) := lab7_read a d in
      let (a, seg) := (x : NetworkInterfaceAdapter * option TCPSegment) in
      let* (y, out') := read_all a ds in
      let (a, segs) := (y : NetworkInterfaceAdapter * list TCPSegment) in
      Ok (a, match seg with Some s => s :: segs | None => segs end, out ++ out')
  end.

(** The frames of both adapters go through the routers and the tunnel, until none
    is left or the fuel is used up. *)
Fixpoint exchange (fuel : nat) (from_client from_server : list bytes) (w : world) : result world :=
  match fuel with
  | O => Ok w
  | S fuel =>
      let* c := take_all host_to_router from_client (w_client_net w) in
      let* s := take_all host_to_router from_server (w_server_net w) in
      let* (c, up) := carry 9 router_to_internet c in
      let* s := take_all internet_to_router up s in
      let* (s, down) := carry 9 router_to_internet s in
      let* c := take_all internet_to_router down c in
      let* (c, for_client) := carry 9 router_to_host c in
      let* (s, for_server) := carry 9 router_to_host s in
      let* (x, out_c) := read_all (w_client w) for_client in
      let* (y, out_s) := read_all (w_server w) for_server in
      let (a, _) := (x : NetworkInterfaceAdapter * list TCPSegment) in
      let (b, segs) := (y : NetworkInterfaceAdapter * list TCPSegment) in
      exchange fuel out_c out_s (mkWorld a c b s (w_received w ++ segs))
  end.

Definition with_config (cfg : FdAdapterConfig) (listen : bool) (a : NetworkInterfaceAdapter) : NetworkInterfaceAdapter :=
  mkEthernetAdapter (mkFdAdapterBase cfg listen) (ea_interface a) (ea_next_hop a).

Definition sample_syn : TCPSegment :=
  mkTCPSegment (set_syn true (set_win 64000 default_TCPHeader)) empty_Buffer.

(** The server's address, and the client's first segment for it. *)
Definition server_address : Address := Address_numeric (quad 172 16 0 100) 1234.

Definition syn_arrives : result (list TCPSegment) :=
  let a := with_config (lab7_connect_config (quad 192 168 0 50) 5000 server_address) false (lab7_adapter true (sample_random 2)) in
  let* local_address := lab7_bind (inet (quad 172 16 0 100)) server_address in
  let b := with_config (lab7_listen_config local_address) true (lab7_adapter false (sample_random 3)) in
  let fd n := mkFDWrapper n false false 0 0 in
  let* (x, out) := lab7_write a sample_syn in
  let w := mkWorld (fst x) (lab7_start true sample_random (fd 3) (fd 4)) b
             (lab7_start false (fun k => sample_random (k + 5)) (fd 3) (fd 4)) [] in
  let* w := exchange 6 out [] w in
  Ok (w_received w).

(** The whole path: the client's SYN, sent to an unknown next hop, goes through the
    address resolution on the three links, both routers and the tunnel, and the
    listening server's adapter yields exactly that segment. *)
Theorem lab7_syn_arrives : exists s, syn_arrives = Ok [s] /\
  header s = set_cksum (th_cksum (header s)) (set_dport 1234 (set_sport 5000 (header sample_syn))).
Proof. eexists. split; [vm_compute; reflexivity|reflexivity]. Qed.

(** ** The program *)

(** The three empty datagrams that tell the bouncer where this side is. *)
Fixpoint announce (times : nat) (internet_socket : FDWrapper) (bounce_address : Address) (sent : nat -> option Z)
    : result (FDWrapper * list (Address * bytes)) :=
  match times with
  | O => Ok (internet_socket, [])
  | S times =>
      let* (w, m) := UDPSocket_sendto internet_socket bounce_address (BufferViewList_of_str []) (sent times) in
      let* (w, ms) := announce times w bounce_address sent in
      Ok (w, m :: ms)
  end.

(** [TCPSocketLab7::connect] to the server's address, or [bind] and
    [listen_and_accept]; the configuration is the default one. *)
Definition lab7_open (is_client : bool) (random : Z) (isn : WrappingInt32)
    (so : TCPSpongeSocket (A := TCPOverIPv4OverEthernetAdapter) (I := bytes) (O := bytes)) (base_time : Z)
    (rounds : list (round (A := TCPOverIPv4OverEthernetAdapter) (I := bytes) (O := bytes)))
    : result (bool * Z * TCPSpongeSocket (A := TCPOverIPv4OverEthernetAdapter) (I := bytes) (O := bytes)) :=
  let cfg := mkTCPConfig 1000 64000 64000 isn in
  if is_client then connect so cfg (lab7_connect_config (quad 192 168 0 50) random server_address) base_time rounds
  else
    let* local_address := lab7_bind (inet (quad 172 16 0 100)) server_address in
    listen_and_accept so cfg (lab7_listen_config local_address) base_time rounds.

(** [main]: the arguments, and [program_body] on them. *)
Definition lab7_main (argv : list string) (program_body : bool -> string -> string -> bool -> result unit) : result ending :=
  match argv with
  | [] => Ok aborted
  | _ :: arguments =>
      match arguments with
      | mode :: host :: port :: rest =>
          if negb ((length rest =? 0)%nat || (length rest =? 1)%nat) then Ok (returns EXIT_FAILURE)
          else if negb (String.eqb mode "client") && negb (String.eqb mode "server") then Ok (returns EXIT_FAILURE)
          else caught (returns EXIT_FAILURE)
                 (let* _ := program_body (String.eqb mode "client") host port (length rest =? 1)%nat in
                  Ok (returns EXIT_SUCCESS))
      | _ => Ok (returns EXIT_FAILURE)
      end
  end.

(** The bouncer hears three empty datagrams, when the kernel sends them. *)
Lemma announce_spec times bounce_address : forall w,
  exists w', announce times w bounce_address (fun _ => Some 0) = Ok (w', repeat (bounce_address, []) times) /\ same_state w w'.
Proof.
  induction times as [|times IH]; intros w; cbn [announce repeat]; [by exists w|].
  change (UDPSocket_sendto w bounce_address (BufferViewList_of_str []) (Some 0)) with (@Ok (FDWrapper * (Address * bytes)) (register_write w, (bounce_address, []))).
  cbn [rbind]. destruct (IH (register_write w)) as (w' & -> & H). cbn [rbind]. by exists w'.
Qed.

(** The program runs exactly with the arguments of its usage message: a mode, a
    host and a port, and optionally one more for the debugging output. *)
Theorem lab7_usage argv program_body :
  (exists prog mode host port rest, argv = prog :: mode :: host :: port :: rest /\ (mode = "client"%string \/ mode = "server"%string) /\
     (rest = [] \/ exists d, rest = [d]) /\
     lab7_main argv program_body = caught (returns EXIT_FAILURE)
       (let* _ := program_body (String.eqb mode "client") host port (negb (bool_decide (rest = []))) in Ok (returns EXIT_SUCCESS))) \/
  lab7_main argv program_body = Ok (returns EXIT_FAILURE) \/ argv = [].
Proof.
  destruct argv as [|prog [|mode [|host [|port rest]]]]; auto. cbn [lab7_main].
  destruct (String.eqb_spec mode "client") as [->|Hc]; [|destruct (String.eqb_spec mode "server") as [->|Hs]]; cbn [negb andb];
    destruct rest as [|d [|]]; cbn [length Nat.eqb orb negb]; auto;
    left; eexists prog, _, host, port, _; (split; [reflexivity|]); (split; [by auto|]); (split; [by eauto|]); reflexivity.
Qed.
